(** * ELFRemove: a shallow embedding of [elfremove/elfremove.py]

  The development follows the Python source function by function.
  Python integers are [Z]; file contents are lists of bytes; Python
  dictionaries are [gmap]s; exceptions are values of the type [exn]
  threaded through the [result] monad.  The parts of the program that
  belong to pyelftools (the parsers behind [iter_symbols],
  [iter_relocations], ...) are taken as inputs of the functions that call
  them. *)

From Stdlib Require Import ZArith Lia.
From Stdlib.Strings Require Import String Ascii Byte.
From stdpp Require Import base option list functions gmap strings sorting.

Open Scope Z_scope.

(** ** Python primitives *)

Module Py.

(** The exceptions the program can raise.  The three [Exception(...)]
    messages of [remove_from_section] and the ones of the GNU hash editor
    get a constructor of their own. *)
Inductive exn : Type :=
| IndexError
| ValueError
| ZeroDivisionError
| AssertionError
| StructError
| OverflowError
| StopIteration
| OSError
| AttributeError
| TypeError
| KeyError
| SectionNotAvailable      (* 'Section not available!' *)
| StaleCollection          (* 'symbol_collection was generated for older revision of ...' *)
| SizeOfSectionBroken      (* 'Size of section broken! ...' *)
| InvalidSectionAttribute  (* 'Trying to set invalid section attribute ...' *)
| BucketsNotSorted         (* 'bucket numbers of symbols to be deleted are not sorted!' *)
| GnuHashIndexOutOfBounds  (* 'Function index out of bounds for gnu_hash_section! ...' *)
| GnuHashMismatch          (* 'calculated hash: ..., read hash: ...' *)
| Diverges.                (* not an exception: the loop would never end *)

Inductive result (A : Type) : Type :=
| Ok (a : A)
| Raise (e : exn).
Arguments Ok {A} a.
Arguments Raise {A} e.

Definition bind {A B} (m : result A) (k : A → result B) : result B :=
  match m with
  | Ok a => k a
  | Raise e => Raise e
  end.

Definition of_option {A} (e : exn) (o : option A) : result A :=
  match o with
  | Some a => Ok a
  | None => Raise e
  end.

(** [for x in l: st = body st x], stopping at the first exception. *)
Fixpoint for_each {S X} (body : S → X → result S) (l : list X) (st : S) : result S :=
  match l with
  | [] => Ok st
  | x :: l' => bind (body st x) (for_each body l')
  end.

(** [l[i]] for a Python list: negative indices count from the end. *)
Definition getitem {A} (l : list A) (i : Z) : result A :=
  let n := Z.of_nat (length l) in
  if (0 <=? i) && (i <? n) then of_option IndexError (l !! Z.to_nat i)
  else if (i <? 0) && (- n <=? i) then of_option IndexError (l !! Z.to_nat (n + i))
  else Raise IndexError.

(** [l[i] = x]. *)
Definition setitem {A} (l : list A) (i : Z) (x : A) : result (list A) :=
  let n := Z.of_nat (length l) in
  if (0 <=? i) && (i <? n) then Ok (<[Z.to_nat i := x]> l)
  else if (i <? 0) && (- n <=? i) then Ok (<[Z.to_nat (n + i) := x]> l)
  else Raise IndexError.

(** [l.pop(i)]: the list without its [i]-th element. *)
Definition pop {A} (l : list A) (i : Z) : result (list A) :=
  let n := Z.of_nat (length l) in
  if (0 <=? i) && (i <? n) then Ok (delete (Z.to_nat i) l)
  else if (i <? 0) && (- n <=? i) then Ok (delete (Z.to_nat (n + i)) l)
  else Raise IndexError.

(** [sorted(l, key=...)] is a stable sort; [le x y] says that [x] may
    stand before [y].  Insertion from the right keeps equal elements in
    their original order. *)
Fixpoint insert_sorted {A} (le : A → A → bool) (x : A) (l : list A) : list A :=
  match l with
  | [] => [x]
  | y :: l' => if le x y then x :: y :: l' else y :: insert_sorted le x l'
  end.

Definition sorted {A} (le : A → A → bool) (l : list A) : list A :=
  foldr (insert_sorted le) [] l.

(** Tuple comparison of pairs of integers, as Python compares tuples. *)
Definition pair_lt (p q : Z * Z) : bool :=
  (p.1 <? q.1) || ((p.1 =? q.1) && (p.2 <? q.2)).
Definition pair_le (p q : Z * Z) : bool :=
  (p.1 <? q.1) || ((p.1 =? q.1) && (p.2 <=? q.2)).

End Py.

Notation "'let*' x ':=' m 'in' k" := (Py.bind m (λ x, k))
(at level 10, x name, m at level 100, k at level 200, only parsing).
Notation "'let*' ' pat ':=' m 'in' k" := (Py.bind m (λ x, match x with pat => k end))
(at level 10, pat pattern, m at level 100, k at level 200, only parsing).

(** ** Data model *)

(** [class SymbolWrapper]: the captured identity of a symbol to delete. *)
Record SymbolWrapper : Type := mkSymbolWrapper {
sym_name : string;
sym_index : Z;
sym_name_offset : Z;
sym_value : Z;
sym_size : Z;
sym_sec_version : Z
}.

(** ** Kept byte ranges: [get_function_addresses] and [get_keep_list] *)

Module KeepList.

(** [get_function_addresses]: a dictionary address -> size, filled from
    the dynsym collection and then from the local functions (in the
    iteration order of that set), returned sorted by address. *)
Definition add_dynsym_entry (addr_dict : gmap Z Z) (ent : SymbolWrapper) : gmap Z Z :=
  if (sym_value ent =? 0) && (sym_size ent =? 0) then addr_dict
  else <[sym_value ent := sym_size ent]> addr_dict.

Definition add_local_function (addr_dict : gmap Z Z) (func : Z * Z) : gmap Z Z :=
  <[func.1 := func.2]> addr_dict.

Definition addr_dict_of (collection_dynsym : list SymbolWrapper)
    (local_functions : list (Z * Z)) : gmap Z Z :=
  foldl add_local_function (foldl add_dynsym_entry ∅ collection_dynsym) local_functions.

Definition get_function_addresses (collection_dynsym : list SymbolWrapper)
    (local_functions : list (Z * Z)) : list (Z * Z) :=
  Py.sorted Py.pair_le (map_to_list (addr_dict_of collection_dynsym local_functions)).

(** One iteration of the loop of [get_keep_list]; the state is
    [(ranges, index)]. *)
Definition keep_step (st : list (list Z) * nat) (item : Z * Z) : list (list Z) * nat :=
  let '(ranges, index) := st in
  let '(start, size) := item in
  let end_ := start in
  let next_start := start + size in
  if next_start =? end_ then st
  else (alter (λ r, r ++ [end_]) index ranges ++ [[next_start]], S index).

Definition keep_ranges (addrs : list (Z * Z)) (total_size : Z) : list (list Z) :=
  let '(ranges, index) := foldl keep_step ([[0]], 0%nat) addrs in
  alter (λ r, r ++ [total_size]) index ranges.

Definition get_keep_list (collection_dynsym : list SymbolWrapper)
    (local_functions : list (Z * Z)) (total_size : Z) : list (list Z) :=
  keep_ranges (get_function_addresses collection_dynsym local_functions) total_size.

(** The closed form the loop is compared with: the ranges that remain
    when the bytes [a, a + size) of each function of [gaps] are cut out
    of [s, total_size]. *)
Fixpoint ranges_from (s : Z) (gaps : list (Z * Z)) (total_size : Z) : list (list Z) :=
  match gaps with
  | [] => [[s; total_size]]
  | (a, sz) :: gaps' => [s; a] :: ranges_from (a + sz) gaps' total_size
  end.

(** Two readings of "the ranges are in ascending order": by first
    element and by last element. *)
Definition range_start (r : list Z) : Z := default 0 (head r).
Definition range_end (r : list Z) : Z := default 0 (last r).
Definition ascending_by (key : list Z → Z) (ranges : list (list Z)) : Prop :=
  ∀ i r1 r2, ranges !! i = Some r1 → ranges !! S i = Some r2 → key r1 ≤ key r2.

(** Where an entry [(a, sz)] of the address dictionary comes from. *)
Definition has_origin (coll : list SymbolWrapper) (locals : list (Z * Z)) (a sz : Z) : Prop :=
  (∃ ent, ent ∈ coll ∧ sym_value ent = a ∧ sym_size ent = sz) ∨ (a, sz) ∈ locals.

End KeepList.

(** [class SectionWrapper]: a located section; [section] refers to the
    pyelftools section object (objects are shared by reference, see
    [objs] below), [index] is the section-header index (-1 when the section
    was synthesized) and [version] the revision counter. *)
Record SectionWrapper : Type := mkSectionWrapper {
  section : nat;
  index : Z;
  version : Z
}.

(** The fields of a pyelftools section object the program reads or
    writes: its name, the entries of [header] it uses, the cached [_size]
    of relocation sections and the answer of [is_RELA()]. *)
Record Header : Type := mkHeader {
  sh_offset : Z;
  sh_size : Z;
  sh_entsize : Z;
  sh_info : Z
}.

Record Section : Type := mkSection {
  sec_name : string;
  header : Header;
  _size : Z;
  is_RELA : bool
}.

Inductive machine : Type := EM_X86_64 | EM_386.

(** A pyelftools symbol, as [iter_symbols] yields it. *)
Inductive sym_type : Type :=
| STT_NOTYPE | STT_OBJECT | STT_FUNC | STT_SECTION | STT_FILE | STT_COMMON | STT_TLS
| STT_OTHER (n : Z).

Record Symbol : Type := mkSymbol {
  name : string;
  st_name : Z;
  st_value : Z;
  st_size : Z;
  st_info_type : sym_type
}.

(** A pyelftools relocation: [entry] with [r_info] and its two parts kept
    side by side, as the object has them. *)
Record Reloc : Type := mkReloc {
  r_offset : Z;
  r_info : Z;
  r_info_sym : Z;
  r_info_type : Z;
  r_addend : Z
}.

(** The [ELFRemove] object.  [_f] is the content of the opened file;
    [objs] is the store of pyelftools section objects, addressed by the
    references the wrappers hold; [_dynamic] is the decoded [.dynamic]
    section, a list of [(d_tag, d_val)], or [None] when the constructor
    found no such section.  The attribute [_blacklist] is
    set once by the constructor and is the constant below. *)
Definition _blacklist : list string := ["_init"; "_fini"]%string.

Record ELFRemove : Type := mkELFRemove {
  _f : list byte;
  objs : nat → Section;
  little_endian : bool;
  e_machine : machine;
  _dynamic : option (list (string * Z));
  dynsym : option SectionWrapper;
  symtab : option SectionWrapper;
  _gnu_hash : option SectionWrapper;
  _elf_hash : option SectionWrapper;
  _gnu_version : option SectionWrapper;
  _rel_plt : option SectionWrapper;
  _rel_dyn : option SectionWrapper;
  _dynstr : option SectionWrapper;
  _dynstr_ranges : gmap (Z * Z) Z;
  _need_continuous_relocations : bool;
  collection_dynsym : list SymbolWrapper;
  collection_symtab : list SymbolWrapper;
  local_functions : list (Z * Z)
}.

(** Attribute assignments on the [ELFRemove] object. *)
Definition set_f (f : list byte) (self : ELFRemove) : ELFRemove :=
  mkELFRemove f (objs self) (little_endian self) (e_machine self) (_dynamic self)
    (dynsym self) (symtab self) (_gnu_hash self) (_elf_hash self) (_gnu_version self)
    (_rel_plt self) (_rel_dyn self) (_dynstr self) (_dynstr_ranges self)
    (_need_continuous_relocations self) (collection_dynsym self) (collection_symtab self)
    (local_functions self).

Definition set_objs (o : nat → Section) (self : ELFRemove) : ELFRemove :=
  mkELFRemove (_f self) o (little_endian self) (e_machine self) (_dynamic self)
    (dynsym self) (symtab self) (_gnu_hash self) (_elf_hash self) (_gnu_version self)
    (_rel_plt self) (_rel_dyn self) (_dynstr self) (_dynstr_ranges self)
    (_need_continuous_relocations self) (collection_dynsym self) (collection_symtab self)
    (local_functions self).

Definition set_dynamic (t : option (list (string * Z))) (self : ELFRemove) : ELFRemove :=
  mkELFRemove (_f self) (objs self) (little_endian self) (e_machine self) t
    (dynsym self) (symtab self) (_gnu_hash self) (_elf_hash self) (_gnu_version self)
    (_rel_plt self) (_rel_dyn self) (_dynstr self) (_dynstr_ranges self)
    (_need_continuous_relocations self) (collection_dynsym self) (collection_symtab self)
    (local_functions self).

Definition set_dynsym (w : option SectionWrapper) (self : ELFRemove) : ELFRemove :=
  mkELFRemove (_f self) (objs self) (little_endian self) (e_machine self) (_dynamic self)
    w (symtab self) (_gnu_hash self) (_elf_hash self) (_gnu_version self)
    (_rel_plt self) (_rel_dyn self) (_dynstr self) (_dynstr_ranges self)
    (_need_continuous_relocations self) (collection_dynsym self) (collection_symtab self)
    (local_functions self).

Definition set_dynstr_ranges (r : gmap (Z * Z) Z) (self : ELFRemove) : ELFRemove :=
  mkELFRemove (_f self) (objs self) (little_endian self) (e_machine self) (_dynamic self)
    (dynsym self) (symtab self) (_gnu_hash self) (_elf_hash self) (_gnu_version self)
    (_rel_plt self) (_rel_dyn self) (_dynstr self) r
    (_need_continuous_relocations self) (collection_dynsym self) (collection_symtab self)
    (local_functions self).

Definition set_collection_dynsym (c : list SymbolWrapper) (self : ELFRemove) : ELFRemove :=
  mkELFRemove (_f self) (objs self) (little_endian self) (e_machine self) (_dynamic self)
    (dynsym self) (symtab self) (_gnu_hash self) (_elf_hash self) (_gnu_version self)
    (_rel_plt self) (_rel_dyn self) (_dynstr self) (_dynstr_ranges self)
    (_need_continuous_relocations self) c (collection_symtab self)
    (local_functions self).

Definition set_collection_symtab (c : list SymbolWrapper) (self : ELFRemove) : ELFRemove :=
  mkELFRemove (_f self) (objs self) (little_endian self) (e_machine self) (_dynamic self)
    (dynsym self) (symtab self) (_gnu_hash self) (_elf_hash self) (_gnu_version self)
    (_rel_plt self) (_rel_dyn self) (_dynstr self) (_dynstr_ranges self)
    (_need_continuous_relocations self) (collection_dynsym self) c
    (local_functions self).

(** ** The file: [seek], [read], [write], [struct] and [int.to_bytes] *)

Module File.

(** [f.seek(pos); f.read(n)]: at most [n] bytes, fewer at the end of the
    file; a negative [n] reads to the end. *)
Definition read (f : list byte) (pos n : Z) : Py.result (list byte) :=
  if pos <? 0 then Py.Raise Py.OSError
  else if n <? 0 then Py.Ok (drop (Z.to_nat pos) f)
  else Py.Ok (take (Z.to_nat n) (drop (Z.to_nat pos) f)).

(** [f.seek(pos); f.write(data)]: writing past the end of the file fills
    the hole with zero bytes; writing no bytes leaves the file as it is. *)
Definition write (f : list byte) (pos : Z) (data : list byte) : Py.result (list byte) :=
  if pos <? 0 then Py.Raise Py.OSError
  else
    match data with
    | [] => Py.Ok f
    | _ =>
        let p := Z.to_nat pos in
        Py.Ok (take p f ++ replicate (p - length f) x00 ++ data ++ drop (p + length data) f)
    end.

Definition byte_of_Z (z : Z) : byte := default x00 (Byte.of_N (Z.to_N (z mod 256))).
Definition Z_of_byte (b : byte) : Z := Z.of_N (Byte.to_N b).

(** The [n] low-order bytes of [v], least significant first. *)
Fixpoint le_bytes (n : nat) (v : Z) : list byte :=
  match n with
  | O => []
  | S n' => byte_of_Z v :: le_bytes n' (v / 256)
  end.

Fixpoint le_value (l : list byte) : Z :=
  match l with
  | [] => 0
  | b :: l' => Z_of_byte b + 256 * le_value l'
  end.

Definition ordered (little : bool) (l : list byte) : list byte :=
  if little then l else reverse l.

(** [struct.pack] of one unsigned or signed field of [n] bytes;
    [struct.error] when the value does not fit. *)
Definition pack_unsigned (little : bool) (n : nat) (v : Z) : Py.result (list byte) :=
  if (0 <=? v) && (v <? 256 ^ Z.of_nat n) then Py.Ok (ordered little (le_bytes n v))
  else Py.Raise Py.StructError.

Definition pack_signed (little : bool) (n : nat) (v : Z) : Py.result (list byte) :=
  if (- (256 ^ Z.of_nat n / 2) <=? v) && (v <? 256 ^ Z.of_nat n / 2)
  then Py.Ok (ordered little (le_bytes n v))
  else Py.Raise Py.StructError.

Definition unpack_unsigned (little : bool) (l : list byte) : Z :=
  le_value (ordered little l).

(** [v.to_bytes(n, byteorder)]: [OverflowError] for a negative or too
    large value. *)
Definition to_bytes (little : bool) (n : nat) (v : Z) : Py.result (list byte) :=
  if (0 <=? v) && (v <? 256 ^ Z.of_nat n) then Py.Ok (ordered little (le_bytes n v))
  else Py.Raise Py.OverflowError.

(** [struct.pack(str(len(vs)) + 'I', *vs)] and [struct.unpack] of a run
    of 32-bit words. *)
Fixpoint pack_words (little : bool) (vs : list Z) : Py.result (list byte) :=
  match vs with
  | [] => Py.Ok []
  | v :: vs' =>
      let* b := pack_unsigned little 4 v in
      let* bs := pack_words little vs' in
      Py.Ok (b ++ bs)
  end.

Fixpoint unpack_words (little : bool) (n : nat) (l : list byte) : list Z :=
  match n with
  | O => []
  | S n' => unpack_unsigned little (take 4 l) :: unpack_words little n' (drop 4 l)
  end.

End File.

(** ** Symbol collector: [collect_symbols_by_name], [collect_symbols_by_address] *)

Module Collector.

Definition is_STT_FUNC (t : sym_type) : bool :=
  match t with STT_FUNC => true | _ => false end.

(** The body of the [for symbol in section.section.iter_symbols()] loop,
    which the two collectors share up to the test on the input set:
    [in_input symbol] is [symbol.name in symbol_list], respectively
    [start_address in address_list].  The state is
    [(entry_cnt, found_symbols)]. *)
Definition collect_step (blacklist : list string) (sec_version : Z)
    (in_input : Symbol → bool) (complement : bool)
    (st : Z * list SymbolWrapper) (symbol : Symbol) : Z * list SymbolWrapper :=
  let '(entry_cnt, found_symbols) := st in
  let entry_cnt := entry_cnt + 1 in
  if bool_decide (name symbol ∈ blacklist) then (entry_cnt, found_symbols)
  else if (complement && negb (in_input symbol)) || (negb complement && in_input symbol) then
    let start_address := st_value symbol in
    let size := st_size symbol in
    if negb (is_STT_FUNC (st_info_type symbol)) then (entry_cnt, found_symbols)
    else (entry_cnt,
          found_symbols ++ [mkSymbolWrapper (name symbol) entry_cnt (st_name symbol)
                              start_address size sec_version])
  else (entry_cnt, found_symbols).

Definition collect_loop (blacklist : list string) (sec_version : Z)
    (in_input : Symbol → bool) (complement : bool) (symbols : list Symbol)
    : list SymbolWrapper :=
  (foldl (collect_step blacklist sec_version in_input complement) (-1, []) symbols).2.

Section with_pyelftools.
(** [section.section.iter_symbols()], a function of the file content and
    of the section object. *)
Variable iter_symbols : list byte → Section → list Symbol.

Definition collect_symbols_by_name (self : ELFRemove) (sec : SectionWrapper)
    (symbol_list : list string) (complement : bool) : list SymbolWrapper :=
  collect_loop _blacklist (version sec)
    (λ symbol, bool_decide (name symbol ∈ symbol_list)) complement
    (iter_symbols (_f self) (objs self (section sec))).

Definition collect_symbols_by_address (self : ELFRemove) (sec : SectionWrapper)
    (address_list : list Z) (complement : bool) : list SymbolWrapper :=
  collect_loop _blacklist (version sec)
    (λ symbol, bool_decide (st_value symbol ∈ address_list)) complement
    (iter_symbols (_f self) (objs self (section sec))).

(** [collect_symbols_in_section]: [names] wins over [addrs]; a missing
    section is an [AttributeError] on [None]. *)
Definition collect_symbols_in_section (self : ELFRemove) (sec : option SectionWrapper)
    (names : option (list string)) (addrs : option (list Z)) (complement : bool)
    : Py.result (list SymbolWrapper) :=
  match names, addrs with
  | None, None => Py.Raise Py.AssertionError
  | Some names, _ =>
      let* sec := Py.of_option Py.AttributeError sec in
      Py.Ok (collect_symbols_by_name self sec names complement)
  | None, Some addrs =>
      let* sec := Py.of_option Py.AttributeError sec in
      Py.Ok (collect_symbols_by_address self sec addrs complement)
  end.

Definition collect_symbols_in_dynsym (self : ELFRemove)
    (names : option (list string)) (addrs : option (list Z)) (complement : bool)
    : Py.result ELFRemove :=
  let* found := collect_symbols_in_section self (dynsym self) names addrs complement in
  Py.Ok (set_collection_dynsym found self).

Definition collect_symbols_in_symtab (self : ELFRemove)
    (names : option (list string)) (addrs : option (list Z)) (complement : bool)
    : Py.result ELFRemove :=
  let* found := collect_symbols_in_section self (symtab self) names addrs complement in
  Py.Ok (set_collection_symtab found self).

End with_pyelftools.

(** What the claim asks of an entry: function type, not blacklisted, and
    matching the input set (not matching it under [complement]). *)
Definition selected (blacklist : list string) (in_input : Symbol → bool)
    (complement : bool) (symbol : Symbol) : Prop :=
  st_info_type symbol = STT_FUNC
  ∧ (name symbol ∉ blacklist)
  ∧ in_input symbol = negb complement.

Definition ref_of (sec_version : Z) (i : nat) (symbol : Symbol) : SymbolWrapper :=
  mkSymbolWrapper (name symbol) (Z.of_nat i) (st_name symbol) (st_value symbol)
    (st_size symbol) sec_version.

(** The refs collected from [symbols] when the first of them has table
    index [i], written by recursion on the table. *)
Fixpoint collected_from (blacklist : list string) (sec_version : Z)
    (in_input : Symbol → bool) (complement : bool)
    (i : nat) (symbols : list Symbol) : list SymbolWrapper :=
  match symbols with
  | [] => []
  | s :: symbols' =>
      (if bool_decide (name s ∈ blacklist) then []
       else if (complement && negb (in_input s)) || (negb complement && in_input s) then
         if is_STT_FUNC (st_info_type s) then [ref_of sec_version i s] else []
       else [])
      ++ collected_from blacklist sec_version in_input complement (S i) symbols'
  end.

(** [found] holds exactly one ref for each selected entry of [symbols],
    in table order. *)
Definition exact_collection (blacklist : list string) (sec_version : Z)
    (in_input : Symbol → bool) (complement : bool)
    (symbols : list Symbol) (found : list SymbolWrapper) : Prop :=
  (∀ w, w ∈ found ↔
        ∃ i s, symbols !! i = Some s ∧ selected blacklist in_input complement s
               ∧ w = ref_of sec_version i s)
  ∧ StronglySorted Z.lt (sym_index <$> found).

End Collector.

(** ** Concrete inputs used by the examples *)

Module Examples.

(** A small library: [.dynsym] is section 3, [.symtab] section 7; no other
    section is present. *)
Definition sec_dynsym : Section := mkSection ".dynsym" (mkHeader 8 120 24 1) 120 false.
Definition sec_symtab : Section := mkSection ".symtab" (mkHeader 160 120 24 1) 120 false.
Definition sec_none : Section := mkSection "" (mkHeader 0 0 0 0) 0 false.

Definition small_objs (n : nat) : Section :=
  match n with
  | 0%nat => sec_dynsym
  | 1%nat => sec_symtab
  | _ => sec_none
  end.

Definition small_lib : ELFRemove :=
  mkELFRemove (replicate 320 x00) small_objs true EM_X86_64 (Some [])
    (Some (mkSectionWrapper 0 3 0)) (Some (mkSectionWrapper 1 7 0))
    None None None None None None ∅ false [] [] [].

Definition small_symbols : list Symbol :=
  [ mkSymbol "" 0 0 0 STT_NOTYPE;
    mkSymbol "_init" 1 16 4 STT_FUNC;
    mkSymbol "foo" 7 32 8 STT_FUNC;
    mkSymbol "bar" 11 48 8 STT_FUNC;
    mkSymbol "data" 15 64 8 STT_OBJECT ].

Definition small_iter_symbols (f : list byte) (s : Section) : list Symbol := small_symbols.

(** The small library with a [.hash] section (section 5, at offset 200)
    whose table has six chain entries before the removal. *)
Definition sec_hash : Section := mkSection ".hash" (mkHeader 200 64 4 0) 64 false.

Definition hash_objs (n : nat) : Section :=
  match n with
  | 0%nat => sec_dynsym
  | 1%nat => sec_symtab
  | 2%nat => sec_hash
  | _ => sec_none
  end.

Definition hash_lib : ELFRemove :=
  mkELFRemove (replicate 320 x00) hash_objs true EM_X86_64 (Some [])
    (Some (mkSectionWrapper 0 3 0)) (Some (mkSectionWrapper 1 7 0))
    None (Some (mkSectionWrapper 2 5 0)) None None None None ∅ false [] [] [].

Definition six_chains (f : list byte) (offset : Z) : Z := 6.

(** A library that consists of the string table ["\0getline\0foo\0"]:
    the live ranges are the empty string, [getline], its suffix [line]
    and [foo]. *)
Definition dynstr_bytes : list byte :=
  [x00] ++ list_byte_of_string "getline" ++ [x00] ++ list_byte_of_string "foo" ++ [x00].

Definition sec_dynstr : Section := mkSection ".dynstr" (mkHeader 0 13 0 0) 13 false.

Definition dynstr_lib : ELFRemove :=
  mkELFRemove dynstr_bytes (λ _, sec_dynstr) true EM_X86_64 (Some [])
    None None None None None None None (Some (mkSectionWrapper 0 4 0))
    (list_to_map [((0, 0), 1); ((1, 8), 1); ((4, 8), 1); ((9, 12), 1)]) false [] [] [].

(** A library with a [.gnu.hash] section at offset 100: two buckets,
    [symoffset] 5, one bloom word, and a [.dynsym] of eight symbols. *)
Definition sec_gnu_hash : Section := mkSection ".gnu.hash" (mkHeader 100 44 0 0) 44 false.

Definition gnu_lib : ELFRemove :=
  mkELFRemove (replicate 320 x00) (λ _, sec_gnu_hash) true EM_X86_64 (Some [])
    (Some (mkSectionWrapper 0 3 0)) None (Some (mkSectionWrapper 0 6 0))
    None None None None None ∅ false [] [] [].

Definition gnu_params (f : list byte) (offset : Z) : Z * Z * Z * list Z :=
  (2, 5, 1, [5; 7]).

(** A library with a [.rela.dyn] section of five entries at offset 40:
    two [R_X86_64_RELATIVE] entries (type 8) and three entries that refer
    to the symbols 1, 2 and 3. *)
Definition rela (off sym type addend : Z) : Reloc :=
  mkReloc off (Z.lor (Z.shiftl sym 32) type) sym type addend.

Definition rela_entries : list Reloc :=
  [rela 200 2 6 0; rela 208 0 8 32; rela 216 3 6 0; rela 224 1 6 0; rela 232 0 8 64].

Definition sec_rela_dyn : Section := mkSection ".rela.dyn" (mkHeader 40 120 24 0) 120 true.

Definition rela_iter_relocations (f : list byte) (s : Section) : list Reloc := rela_entries.

Definition no_offsets (address : Z) : list Z := [].

Definition rela_lib (need_continuous_relocations : bool) : ELFRemove :=
  mkELFRemove (replicate 320 x00) (λ _, sec_rela_dyn) true EM_X86_64
    (Some [("DT_RELA", 40); ("DT_RELASZ", 120); ("DT_RELACOUNT", 2)]%string)
    (Some (mkSectionWrapper 0 3 0)) None None None None None
    (Some (mkSectionWrapper 0 8 0)) None ∅ need_continuous_relocations [] [] [].

Definition foo_ref : SymbolWrapper := mkSymbolWrapper "foo" 2 7 32 8 0.

(** The small library after one batch on [.dynsym]: the table is at
    version 1, [foo_ref] was collected before that batch and [bar_ref]
    after it. *)
Definition edited_lib : ELFRemove :=
  mkELFRemove (replicate 320 x00) small_objs true EM_X86_64 (Some [])
    (Some (mkSectionWrapper 0 3 1)) (Some (mkSectionWrapper 1 7 0))
    None None None None None None ∅ false [] [] [].

Definition bar_ref : SymbolWrapper := mkSymbolWrapper "bar" 3 11 48 8 1.

(** A library without [.symtab] that is loaded by one segment with
    [p_vaddr = 16] and [p_offset = 0], so that address [a] is found at the
    file offset [a - 16]; one local function of four bytes at address 32. *)
Definition segment_offsets (address : Z) : list Z :=
  if (16 <=? address) && (address <? 336) then [address - 16] else [].

Definition local_lib : ELFRemove :=
  mkELFRemove (replicate 320 x00) small_objs true EM_X86_64 (Some [])
    (Some (mkSectionWrapper 0 3 0)) None
    None None None None None None ∅ false [] [] [(32, 4)].

Definition no_relocations (f : list byte) (s : Section) : list Reloc := [].
Definition no_version_fields (f : list byte) : list (Z * Z) := [].

End Examples.

(** ** Section headers and dynamic tags *)

Module Elf.

Inductive attribute : Type := Attr_sh_size | Attr_sh_info | Attr_other.

Definition header_get (a : attribute) (h : Header) : Z :=
  match a with
  | Attr_sh_size => sh_size h
  | Attr_sh_info => sh_info h
  | Attr_other => 0
  end.

Definition header_set (a : attribute) (v : Z) (h : Header) : Header :=
  match a with
  | Attr_sh_size => mkHeader (sh_offset h) v (sh_entsize h) (sh_info h)
  | Attr_sh_info => mkHeader (sh_offset h) (sh_size h) (sh_entsize h) v
  | Attr_other => h
  end.

Definition with_header (h : Header) (s : Section) : Section :=
  mkSection (sec_name s) h (_size s) (is_RELA s).

Definition with_size (z : Z) (s : Section) : Section :=
  mkSection (sec_name s) (header s) z (is_RELA s).

(** [_set_section_attribute].  The header entry lives in the file at
    [e_shoff + e_shentsize * index + member_offset] and in
    [section.section.header]; the function reads the former and updates
    both, and the model keeps the one copy in [header].  The
    [to_bytes(member_size, ...)] of the new value can overflow. *)
Definition _set_section_attribute (self : ELFRemove) (sec : SectionWrapper)
    (a : attribute) (value : Z) (subtract_from_orig : bool) : Py.result ELFRemove :=
  if index sec =? -1 then Py.Ok self
  else
    let* member_size :=
      match a, e_machine self with
      | Attr_sh_size, EM_X86_64 => Py.Ok 8%nat
      | Attr_sh_size, EM_386 => Py.Ok 4%nat
      | Attr_sh_info, _ => Py.Ok 4%nat
      | Attr_other, _ => Py.Raise Py.InvalidSectionAttribute
      end in
    let obj := objs self (section sec) in
    let old_value := header_get a (header obj) in
    if old_value <? value then Py.Raise Py.SizeOfSectionBroken
    else
      let new_value := if subtract_from_orig then old_value - value else value in
      let* _ := File.to_bytes (little_endian self) member_size new_value in
      Py.Ok (set_objs (<[section sec := with_header (header_set a new_value (header obj)) obj]>
                         (objs self)) self).

Definition _set_section_size (self : ELFRemove) (sec : SectionWrapper) (value : Z)
    (subtract_from_orig : bool) : Py.result ELFRemove :=
  _set_section_attribute self sec Attr_sh_size value subtract_from_orig.

Definition _change_section_size (self : ELFRemove) (sec : SectionWrapper) (amount : Z)
    : Py.result ELFRemove :=
  _set_section_size self sec amount true.

Definition _set_section_info (self : ELFRemove) (sec : SectionWrapper) (value : Z)
    : Py.result ELFRemove :=
  _set_section_attribute self sec Attr_sh_info value false.

(** [_modify_dynamic_tag_at_index]: the value of the tag at [index] is
    unpacked, modified and packed again ([I] for 8-byte tags, [Q]
    otherwise). *)
Definition _modify_dynamic_tag_at_index (self : ELFRemove) (idx : nat)
    (value_modifier_function : Z → Z) : Py.result ELFRemove :=
  let* tags := Py.of_option Py.AttributeError (_dynamic self) in
  let* '(tagno, old_val) := Py.of_option Py.StructError (tags !! idx) in
  let new_val := value_modifier_function old_val in
  let* _ := File.pack_unsigned (little_endian self)
              (match e_machine self with EM_386 => 4%nat | EM_X86_64 => 8%nat end) new_val in
  Py.Ok (set_dynamic (Some (<[idx := (tagno, new_val)]> tags)) self).

(** The index of the first tag named [target_tag], if any. *)
Fixpoint find_tag (target_tag : string) (tags : list (string * Z)) : option nat :=
  match tags with
  | [] => None
  | (t, _) :: tags' =>
      if String.eqb t target_tag then Some O else S <$> find_tag target_tag tags'
  end.

Definition _write_dynamic_tag (self : ELFRemove) (target_tag : string) (value : Z)
    (subtract_from_orig : bool) : Py.result ELFRemove :=
  let* tags := Py.of_option Py.AttributeError (_dynamic self) in
  match find_tag target_tag tags with
  | None => Py.Ok self
  | Some idx =>
      _modify_dynamic_tag_at_index self idx
        (λ x, if subtract_from_orig then x - value else value)
  end.

Definition _shrink_dynamic_tag (self : ELFRemove) (target_tag : string) (amount : Z)
    : Py.result ELFRemove :=
  _write_dynamic_tag self target_tag amount true.

(** The value of the first tag named [target_tag]. *)
Definition dynamic_tag (self : ELFRemove) (target_tag : string) : option Z :=
  tags ← _dynamic self; idx ← find_tag target_tag tags; snd <$> tags !! idx.

End Elf.

(** ** The hash functions and the SysV hash table *)

Module SysvHash.

Definition ord (c : ascii) : Z := Z.of_N (N_of_ascii c).

(** [_elfhash] *)
Definition elfhash_step (h : Z) (c : ascii) : Z :=
  let h := Z.shiftl h 4 + ord c in
  let h := Z.land h 0xFFFFFFFF in
  let g := Z.land h 0xF0000000 in
  let h := if negb (g =? 0) then Z.lxor h (Z.shiftr g 24) else h in
  Z.land h (Z.lnot g).

Definition _elfhash (func_name : string) : Z :=
  foldl elfhash_step 0 (list_ascii_of_string func_name).

(** [bisect.bisect] (that is [bisect_right]) on a list of integers: the
    loop of the standard library, [fuel] bounding the number of
    iterations, which [hi - lo] always suffices for. *)
Fixpoint bisect_right_loop (a : list Z) (x : Z) (fuel lo hi : nat) : nat :=
  match fuel with
  | O => lo
  | S fuel' =>
      if (lo <? hi)%nat then
        let mid := ((lo + hi) / 2)%nat in
        match a !! mid with
        | Some y =>
            if x <? y then bisect_right_loop a x fuel' lo mid
            else bisect_right_loop a x fuel' (mid + 1)%nat hi
        | None => lo
        end
      else lo
  end.

Definition bisect (a : list Z) (x : Z) : nat :=
  bisect_right_loop a x (length a) 0 (length a).

Definition options : list Z :=
  [1; 3; 17; 37; 67; 97; 131; 197; 263; 521; 1031; 2053; 4099;
   8209; 16411; 32771; 65537; 131101; 262147].

(** [_calc_nbuckets] *)
Definition _calc_nbuckets (n_hashes : Z) : Py.result Z :=
  let ins_point := Z.of_nat (bisect options n_hashes) in
  Py.getitem options (ins_point - 1).

(** The body of the loop over [enumerate(dynsym.section.iter_symbols())];
    the state is [(new_buckets, new_chains)]. *)
Definition hash_step (nbuckets : Z) (st : gmap Z Z * gmap Z Z) (item : nat * Symbol)
    : gmap Z Z * gmap Z Z :=
  let '(new_buckets, new_chains) := st in
  let '(idx, symbol) := item in
  let bucket := _elfhash (name symbol) `mod` nbuckets in
  let new_chains := <[Z.of_nat idx := default 0 (new_buckets !! bucket)]> new_chains in
  let new_buckets := <[bucket := Z.of_nat idx]> new_buckets in
  (new_buckets, new_chains).

Definition build_tables (nbuckets : Z) (symbols : list Symbol) : gmap Z Z * gmap Z Z :=
  foldl (hash_step nbuckets) (∅, ∅) (imap pair symbols).

(** What the tables must hold.  [is_last_in_bucket nbuckets l b i]: the
    symbol at index [i] of [l] hashes to bucket [b] and no later symbol
    does.  [chain_link nbuckets l i v]: [v] is the head the bucket of
    symbol [i] had before [i] was inserted, that is the last earlier index
    in the same bucket, or 0 when there is none. *)
Definition bucket_of (nbuckets : Z) (symbol : Symbol) : Z :=
  _elfhash (name symbol) `mod` nbuckets.

Definition is_last_in_bucket (nbuckets : Z) (l : list Symbol) (b : Z) (i : nat) : Prop :=
  ∃ s, l !! i = Some s ∧ bucket_of nbuckets s = b
       ∧ ∀ j s', (i < j)%nat → l !! j = Some s' → bucket_of nbuckets s' ≠ b.

Definition chain_link (nbuckets : Z) (l : list Symbol) (i : nat) (v : Z) : Prop :=
  ∃ s, l !! i = Some s
       ∧ ((v = 0 ∧ ∀ j, ¬ is_last_in_bucket nbuckets (take i l) (bucket_of nbuckets s) j)
          ∨ (∃ j, v = Z.of_nat j
                  ∧ is_last_in_bucket nbuckets (take i l) (bucket_of nbuckets s) j)).

(** [b''.join(d.get(i, 0).to_bytes(4, byteorder) for i in range(0, n))] *)
Fixpoint table_bytes (little : bool) (d : gmap Z Z) (i : Z) (n : nat) : Py.result (list byte) :=
  match n with
  | O => Py.Ok []
  | S n' =>
      let* b := File.to_bytes little 4 (default 0 (d !! i)) in
      let* bs := table_bytes little d (i + 1) n' in
      Py.Ok (b ++ bs)
  end.

Section with_pyelftools.
Variable iter_symbols : list byte → Section → list Symbol.
(** [ELFHashTable(...).params['nchains']], read from the file at the
    offset of the table. *)
Variable ELFHashTable_nchains : list byte → Z → Z.

(** [_recreate_elf_hash] *)
Definition _recreate_elf_hash (self : ELFRemove) (dynsym : SectionWrapper)
    (n_removed_syms : Z) : Py.result ELFRemove :=
  match _elf_hash self with
  | None => Py.Ok self
  | Some elf_hash =>
      let hdr := header (objs self (section elf_hash)) in
      let nchains := ELFHashTable_nchains (_f self) (sh_offset hdr) - n_removed_syms in
      let* nbuckets := _calc_nbuckets nchains in
      let '(new_buckets, new_chains) :=
        build_tables nbuckets (iter_symbols (_f self) (objs self (section dynsym))) in
      let little := little_endian self in
      let* f := File.write (_f self) (sh_offset hdr) (replicate (Z.to_nat (sh_size hdr)) x00) in
      let* b := File.to_bytes little 4 nbuckets in
      let* f := File.write f (sh_offset hdr) b in
      let* b := File.to_bytes little 4 nchains in
      let* f := File.write f (sh_offset hdr + 4) b in
      let* out_buckets := table_bytes little new_buckets 0 (Z.to_nat nbuckets) in
      let* f := File.write f (sh_offset hdr + 8) out_buckets in
      let* out_chains := table_bytes little new_chains 0 (Z.to_nat nchains) in
      let* f := File.write f (sh_offset hdr + 8 + Z.of_nat (length out_buckets)) out_chains in
      Elf._set_section_size (set_f f self) elf_hash ((2 + nchains + nbuckets) * 4) false
  end.

End with_pyelftools.

End SysvHash.

(** ** The [.dynstr] compactor: [_get_string_range], [_build_new_dynstr] *)

Module Dynstr.

(** The length of the NUL-terminated string at the head of [l], as
    pyelftools' [parse_cstring_from_stream] finds it; [None] when the file
    ends before a NUL. *)
Fixpoint cstring_len (l : list byte) : option Z :=
  match l with
  | [] => None
  | b :: l' => if Byte.eqb b x00 then Some 0 else Z.succ <$> cstring_len l'
  end.

(** [_get_string_range] *)
Definition _get_string_range (self : ELFRemove) (start : Z) : Py.result (Z * Z) :=
  let* dynstr := Py.of_option Py.AttributeError (_dynstr self) in
  let pos := sh_offset (header (objs self (section dynstr))) + start in
  if pos <? 0 then Py.Raise Py.OSError
  else
    let* size := Py.of_option Py.TypeError (cstring_len (drop (Z.to_nat pos) (_f self))) in
    Py.Ok (start, start + size).

(** The first loop of [_build_new_dynstr]: one reference less for the
    name of each removed symbol ([_dynstr_ranges] is a [defaultdict(int)]). *)
Definition release_name (self : ELFRemove) (symbol : SymbolWrapper) : Py.result ELFRemove :=
  let* '(name_idx, end_) := _get_string_range self (sym_name_offset symbol) in
  let count := default 0 (_dynstr_ranges self !! (name_idx, end_)) - 1 in
  if count =? 0 then Py.Ok (set_dynstr_ranges (delete (name_idx, end_) (_dynstr_ranges self)) self)
  else Py.Ok (set_dynstr_ranges (<[(name_idx, end_) := count]> (_dynstr_ranges self)) self).

(** The state of the second loop. *)
Record layout : Type := mkLayout {
  index_map : gmap Z Z;
  out_bytes : list byte;
  last_start : Z;
  last_end : Z
}.

(** The body of [for idx, (start, end) in enumerate(sorted_dynstr_ranges[1:])]. *)
Definition layout_step (f : list byte) (dynstr_offset : Z) (sorted_dynstr_ranges : list (Z * Z))
    (st : layout) (item : nat * (Z * Z)) : Py.result layout :=
  let '(idx, (start, end_)) := item in
  if bool_decide (is_Some (index_map st !! start)) then Py.Ok st
  else
    let* '(prev_start, prev_end) := Py.of_option Py.IndexError (sorted_dynstr_ranges !! idx) in
    if start <? prev_end then
      if negb (prev_end =? end_) then Py.Raise Py.AssertionError
      else
        let offset_in_string := start - prev_start in
        let last_start' := last_start st + offset_in_string in
        Py.Ok (mkLayout (<[start := last_start']> (index_map st)) (out_bytes st)
                 last_start' (last_end st))
    else
      let target_start := last_end st + 1 in
      let length := end_ - start in
      let* data := File.read f (dynstr_offset + start) (length + 1) in
      Py.Ok (mkLayout (<[start := target_start]> (index_map st)) (out_bytes st ++ data)
               target_start (target_start + length)).

Definition sorted_ranges (ranges : gmap (Z * Z) Z) : list (Z * Z) :=
  Py.sorted Py.pair_le (map_to_list ranges).*1.

(** The layout before the loop, and after its first [n] iterations. *)
Definition layout_init (first : Z * Z) : layout :=
  mkLayout {[first.1 := first.1]} [x00] first.1 first.2.

Definition layout_after (f : list byte) (dynstr_offset : Z) (sorted_dynstr_ranges : list (Z * Z))
    (n : nat) : Py.result layout :=
  let* first := Py.of_option Py.IndexError (sorted_dynstr_ranges !! 0%nat) in
  Py.for_each (layout_step f dynstr_offset sorted_dynstr_ranges)
    (take n (imap pair (tail sorted_dynstr_ranges))) (layout_init first).

(** The invariant of the loop after [k] iterations: [last_start] is the
    target of the start of range [k], and only starts of the ranges
    [0..k] have a target. *)
Definition layout_inv (sorted_dynstr_ranges : list (Z * Z)) (k : nat) (st : layout) : Prop :=
  (∃ p, sorted_dynstr_ranges !! k = Some p ∧ index_map st !! p.1 = Some (last_start st))
  ∧ (∀ s, is_Some (index_map st !! s) →
          ∃ j p, (j ≤ k)%nat ∧ sorted_dynstr_ranges !! j = Some p ∧ p.1 = s).

(** [_build_new_dynstr]: the updated object and [(out_bytes, index_map)],
    or [(None, None)] when there is no [.dynstr]. *)
Definition _build_new_dynstr (self : ELFRemove) (removed_symbols : list SymbolWrapper)
    : Py.result (ELFRemove * option (list byte * gmap Z Z)) :=
  match _dynstr self with
  | None => Py.Ok (self, None)
  | Some dynstr =>
      let dynstr_base := sh_offset (header (objs self (section dynstr))) in
      let* self := Py.for_each release_name removed_symbols self in
      let sorted_dynstr_ranges := sorted_ranges (_dynstr_ranges self) in
      let* st := layout_after (_f self) dynstr_base sorted_dynstr_ranges
                   (length sorted_dynstr_ranges - 1) in
      Py.Ok (self, Some (out_bytes st, index_map st))
  end.

End Dynstr.

(** ** The GNU hash table: [_batch_remove_gnu_hashtable], [_edit_gnu_hashtable] *)

Module GnuHash.

(** [_gnuhash] *)
Definition gnuhash_step (h : Z) (c : ascii) : Z :=
  let h := Z.shiftl h 5 + h + SysvHash.ord c in
  Z.land h 0xFFFFFFFF.

Definition _gnuhash (func_name : string) : Z :=
  foldl gnuhash_step 5381 (list_ascii_of_string func_name).

(** The dictionary [params]. *)
Record params : Type := mkParams {
  nbuckets : Z;
  symoffset : Z;
  bloom_size : Z;
  bloom_entry_size : Z;
  buckets : list Z;
  chains : list Z
}.

Definition with_buckets (b : list Z) (p : params) : params :=
  mkParams (nbuckets p) (symoffset p) (bloom_size p) (bloom_entry_size p) b (chains p).

Definition with_chains (c : list Z) (p : params) : params :=
  mkParams (nbuckets p) (symoffset p) (bloom_size p) (bloom_entry_size p) (buckets p) c.

Definition with_symoffset (o : Z) (p : params) : params :=
  mkParams (nbuckets p) o (bloom_size p) (bloom_entry_size p) (buckets p) (chains p).

(** [a % b] with Python's [ZeroDivisionError]. *)
Definition py_mod (a b : Z) : Py.result Z :=
  if b =? 0 then Py.Raise Py.ZeroDivisionError else Py.Ok (a `mod` b).

(** [_edit_gnu_hashtable] *)
Definition _edit_gnu_hashtable (dynsym_nr func_hash : Z) (p : params) : Py.result params :=
  let sym_nr := dynsym_nr - symoffset p in
  if sym_nr <? 0 then Py.Raise Py.GnuHashIndexOutOfBounds
  else
    let* bucket_hash := Py.getitem (chains p) sym_nr in
    if negb (Z.land bucket_hash (Z.lnot 1) =? Z.land func_hash (Z.lnot 1))
    then Py.Raise Py.GnuHashMismatch
    else
      let* chains' := Py.pop (chains p) sym_nr in
      let p := with_chains chains' p in
      if Z.land bucket_hash 1 =? 1 then
        let* bucket := py_mod func_hash (nbuckets p) in
        if negb (sym_nr =? 0) then
          let* prev := Py.getitem (chains p) (sym_nr - 1) in
          if Z.land prev 1 =? 1 then
            let* buckets' := Py.setitem (buckets p) bucket 0 in
            Py.Ok (with_buckets buckets' p)
          else
            let* chains'' := Py.setitem (chains p) (sym_nr - 1) (Z.lor prev 1) in
            Py.Ok (with_chains chains'' p)
        else
          let* buckets' := Py.setitem (buckets p) bucket 0 in
          Py.Ok (with_buckets buckets' p)
      else Py.Ok p.

(** The test that splits the removed symbols: undefined ones have value
    and size 0 and an index below [symoffset]. *)
Definition is_undef (p : params) (symbol : SymbolWrapper) : bool :=
  (sym_value symbol =? 0) && (sym_size symbol =? 0) && (sym_index symbol <? symoffset p).

Definition undef_symbols (p : params) (symbol_list : list SymbolWrapper) : list SymbolWrapper :=
  List.filter (is_undef p) symbol_list.

Definition defined_symbols (p : params) (symbol_list : list SymbolWrapper) : list SymbolWrapper :=
  List.filter (λ s, negb (is_undef p s)) symbol_list.

(** [sorted(l, reverse=True) != l] *)
Definition descending (l : list Z) : bool :=
  bool_decide (Py.sorted (λ x y, y <=? x) l = l).

(** The inner [while] of the bucket fix-up: skip the removed symbols
    whose bucket is at or above [max_idx].  It runs at most [num] times. *)
Fixpoint skip_removed (fuel : nat) (func_buckets : list Z) (max_idx cur_sym num : Z)
    : Py.result (Z * Z) :=
  match fuel with
  | O => Py.Ok (cur_sym, num)
  | S fuel' =>
      if 0 <? num then
        let* fb := Py.getitem func_buckets cur_sym in
        if max_idx <=? fb then skip_removed fuel' func_buckets max_idx (cur_sym + 1) (num - 1)
        else Py.Ok (cur_sym, num)
      else Py.Ok (cur_sym, num)
  end.

(** The outer [while max_idx >= 0]; it runs at most [max_idx + 1] times. *)
Fixpoint fix_bucket_indices (fuel : nat) (func_buckets : list Z)
    (max_idx cur_sym num_earlier_removed_symbols : Z) (bk : list Z) : Py.result (list Z) :=
  match fuel with
  | O => Py.Ok bk
  | S fuel' =>
      if 0 <=? max_idx then
        let* '(cur_sym, num) :=
          skip_removed (Z.to_nat num_earlier_removed_symbols) func_buckets max_idx cur_sym
            num_earlier_removed_symbols in
        if num =? 0 then Py.Ok bk
        else
          let* b := Py.getitem bk max_idx in
          let* bk := Py.setitem bk max_idx (Z.max 0 (b - num)) in
          fix_bucket_indices fuel' func_buckets (max_idx - 1) cur_sym num bk
      else Py.Ok bk
  end.

(** [while buckets[max_idx] == target: buckets[max_idx] = 0; max_idx -= 1].
    The index runs from [nbuckets - 1] downwards and wraps around at 0 as
    Python indices do, so the loop ends after at most [2 * len(buckets)]
    iterations with a different entry or with an [IndexError]. *)
Fixpoint clear_trailing (fuel : nat) (target max_idx : Z) (bk : list Z) : Py.result (list Z) :=
  match fuel with
  | O => Py.Raise Py.IndexError
  | S fuel' =>
      let* b := Py.getitem bk max_idx in
      if b =? target then
        let* bk := Py.setitem bk max_idx 0 in
        clear_trailing fuel' target (max_idx - 1) bk
      else Py.Ok bk
  end.

(** The part of [_batch_remove_gnu_hashtable] that deals with the defined
    symbols: the order check, the chain edits and the two bucket loops. *)
Definition remove_defined (p : params) (defined : list SymbolWrapper) (dynsym_size : Z)
    : Py.result params :=
  let func_hashes := (λ s, _gnuhash (sym_name s)) <$> defined in
  let* func_buckets :=
    Py.for_each (λ acc h, let* b := py_mod h (nbuckets p) in Py.Ok (acc ++ [b]))
      func_hashes [] in
  if negb (descending func_buckets) then Py.Raise Py.BucketsNotSorted
  else
    let* p :=
      Py.for_each (λ p sh, _edit_gnu_hashtable (sym_index sh.1) sh.2 p)
        (zip defined func_hashes) p in
    let* bk :=
      fix_bucket_indices (Z.to_nat (nbuckets p)) func_buckets (nbuckets p - 1) 0
        (Z.of_nat (length defined)) (buckets p) in
    let* bk :=
      clear_trailing (2 * length bk + 1) (dynsym_size - Z.of_nat (length defined))
        (nbuckets p - 1) bk in
    Py.Ok (with_buckets bk p).

(** The part that factors out the undefined symbols. *)
Definition remove_undefined (p : params) (n_undef : Z) : params :=
  with_symoffset (symoffset p - n_undef)
    (with_buckets ((λ b, Z.max 0 (b - n_undef)) <$> buckets p) p).

Section with_pyelftools.
(** [GNUHashTable(...).params]: [(nbuckets, symoffset, bloom_size, buckets)]. *)
Variable GNUHashTable_params : list byte → Z → Z * Z * Z * list Z.

Definition read_params (self : ELFRemove) (gnu_hash : SectionWrapper) (dynsym_size : Z)
    : Py.result params :=
  let sh_offset := sh_offset (header (objs self (section gnu_hash))) in
  let '(nb, so, bs, bk) := GNUHashTable_params (_f self) sh_offset in
  let bes := match e_machine self with EM_386 => 4 | EM_X86_64 => 8 end in
  let bucket_start := sh_offset + 4 * 4 + bs * bes in
  let chain_start := bucket_start + 4 * nb in
  let nchains := dynsym_size - so in
  let* data := File.read (_f self) chain_start (nchains * 4) in
  if (nchains <? 0) || negb (Z.of_nat (length data) =? nchains * 4)
  then Py.Raise Py.StructError
  else Py.Ok (mkParams nb so bs bes bk
                (File.unpack_words (little_endian self) (Z.to_nat nchains) data)).

(** [_batch_remove_gnu_hashtable] *)
Definition _batch_remove_gnu_hashtable (self : ELFRemove) (symbol_list : list SymbolWrapper)
    (dynsym_size : Z) : Py.result ELFRemove :=
  match _gnu_hash self with
  | None => Py.Ok self
  | Some gnu_hash =>
      let sh_offset := sh_offset (header (objs self (section gnu_hash))) in
      let* p0 := read_params self gnu_hash dynsym_size in
      let bucket_start := sh_offset + 4 * 4 + bloom_size p0 * bloom_entry_size p0 in
      let nchains := dynsym_size - symoffset p0 in
      let undef := undef_symbols p0 symbol_list in
      let defined := defined_symbols p0 symbol_list in
      let* p := remove_defined p0 defined dynsym_size in
      let p := remove_undefined p (Z.of_nat (length undef)) in
      let little := little_endian self in
      let* b := File.pack_unsigned little 4 (symoffset p) in
      let* f := File.write (_f self) (sh_offset + 4) b in
      let* buckets_bytes :=
        (if Z.of_nat (length (buckets p)) =? nbuckets p then File.pack_words little (buckets p)
         else Py.Raise Py.StructError) in
      let* f := File.write f bucket_start buckets_bytes in
      let* chains_bytes := File.pack_words little (chains p) in
      let* f :=
        File.write f (bucket_start + Z.of_nat (length buckets_bytes))
          (chains_bytes
           ++ replicate (Z.to_nat ((nchains - Z.of_nat (length (chains p))) * 4)) x00) in
      Elf._change_section_size (set_f f self) gnu_hash (Z.of_nat (length defined) * 4)
  end.

End with_pyelftools.

End GnuHash.

(** ** The relocation compactor: [_batch_remove_relocs], [_edit_rel_sect] *)

Module Relocs.

Definition with_r_info_sym (v : Z) (r : Reloc) : Reloc :=
  mkReloc (r_offset r) (r_info r) v (r_info_type r) (r_addend r).

Definition with_r_info (v : Z) (r : Reloc) : Reloc :=
  mkReloc (r_offset r) v (r_info_sym r) (r_info_type r) (r_addend r).

Definition with_r_addend (v : Z) (r : Reloc) : Reloc :=
  mkReloc (r_offset r) (r_info r) (r_info_sym r) (r_info_type r) v.

(** [bisect.bisect_left(a, x, lo)] on a list of pairs: the loop of the
    standard library, which [hi - lo] iterations always suffice for. *)
Fixpoint bisect_left_loop (a : list (Z * Z)) (x : Z * Z) (fuel lo hi : nat) : nat :=
  match fuel with
  | O => lo
  | S fuel' =>
      if (lo <? hi)%nat then
        let mid := ((lo + hi) / 2)%nat in
        match a !! mid with
        | Some y =>
            if Py.pair_lt y x then bisect_left_loop a x fuel' (mid + 1)%nat hi
            else bisect_left_loop a x fuel' lo mid
        | None => lo
        end
      else lo
  end.

Definition bisect_left (a : list (Z * Z)) (x : Z * Z) (lo : nat) : nat :=
  bisect_left_loop a x (length a - lo) lo (length a).

(** The lists and counters [_edit_rel_sect] works on: the relocations in
    sorted order, their sort keys, the file (which holds the addends of a
    [.rel] section) and the number of entries removed so far. *)
Record table : Type := mkTable {
  reloc_list : list Reloc;
  sort_keys : list (Z * Z);
  file : list byte;
  removed : Z
}.

(** The number of removed symbols with an index below [r]. *)
Definition count_lower (symbol_list : list SymbolWrapper) (r : Z) : Z :=
  Z.of_nat (length (List.filter (λ s, sym_index s <? r) symbol_list)).

Definition new_r_info (ent_size new_sym old_type : Z) : Z :=
  if ent_size =? 8 then Z.lor (Z.shiftl new_sym 8) (Z.land old_type 0xFF)
  else Z.lor (Z.shiftl new_sym 32) (Z.land old_type 0xFFFFFFFF).

(** The loop that fixes up the remaining symbol indices.  Every iteration
    either moves to the previous relocation or to the next symbol, so
    [len(reloc_list) + len(symbol_list)] iterations suffice. *)
Fixpoint fixup_loop (fuel : nat) (push : bool) (ent_size : Z) (symbol_list : list SymbolWrapper)
    (reloc_list : list Reloc) (cur_reloc_idx cur_symbol_idx : Z) (cur_symbol : SymbolWrapper)
    (num_earlier_removed_symbols : Z) : Py.result (list Reloc) :=
  match fuel with
  | O => Py.Raise Py.Diverges
  | S fuel' =>
      if cur_reloc_idx <? 0 then Py.Ok reloc_list
      else
        let* reloc := Py.getitem reloc_list cur_reloc_idx in
        let r_info_sym := r_info_sym reloc in
        if (r_info_sym =? 0) && push then Py.Ok reloc_list
        else if negb (r_info_sym =? 0) && (r_info_sym <=? sym_index cur_symbol) then
          let num := num_earlier_removed_symbols - 1 in
          if num =? 0 then Py.Ok reloc_list
          else
            let cur_symbol_idx := cur_symbol_idx + 1 in
            let* cur_symbol := Py.getitem symbol_list cur_symbol_idx in
            fixup_loop fuel' push ent_size symbol_list reloc_list cur_reloc_idx
              cur_symbol_idx cur_symbol num
        else
          let new_sym :=
            if r_info_sym =? 0 then 0 else r_info_sym - num_earlier_removed_symbols in
          let old_type := r_info_type reloc in
          let reloc := with_r_info_sym new_sym
                         (with_r_info (new_r_info ent_size new_sym old_type) reloc) in
          let* reloc_list := Py.setitem reloc_list cur_reloc_idx reloc in
          fixup_loop fuel' push ent_size symbol_list reloc_list (cur_reloc_idx - 1)
            cur_symbol_idx cur_symbol num_earlier_removed_symbols
  end.

Definition fixup_indices (push is_symtab : bool) (ent_size : Z)
    (symbol_list : list SymbolWrapper) (reloc_list : list Reloc) : Py.result (list Reloc) :=
  if negb is_symtab then
    let* cur_symbol := Py.getitem symbol_list 0 in
    fixup_loop (length reloc_list + length symbol_list + 1) push ent_size symbol_list
      reloc_list (Z.of_nat (length reloc_list) - 1) 0 cur_symbol
      (Z.of_nat (length symbol_list))
  else Py.Ok reloc_list.

(** Restoring the original order through a dictionary keyed by [r_offset]. *)
Definition restore_order (orig_reloc_list reloc_list : list Reloc) : list Reloc :=
  let lookup_dict : gmap Z Reloc := foldl (λ d r, <[r_offset r := r]> d) ∅ reloc_list in
  omap (λ orig, lookup_dict !! r_offset orig) orig_reloc_list.

(** [struct.pack] of one entry: ['QqQ'] for [Elf64_Rela], ['Ii'] for
    [Elf32_Rel]. *)
Definition pack_reloc (little : bool) (ent_size : Z) (reloc : Reloc) : Py.result (list byte) :=
  if ent_size =? 24 then
    let* b1 := File.pack_unsigned little 8 (r_offset reloc) in
    let* b2 := File.pack_signed little 8 (r_info reloc) in
    let* b3 := File.pack_unsigned little 8 (r_addend reloc) in
    Py.Ok (b1 ++ b2 ++ b3)
  else
    let* b1 := File.pack_unsigned little 4 (r_offset reloc) in
    let* b2 := File.pack_signed little 4 (r_info reloc) in
    Py.Ok (b1 ++ b2).

Fixpoint pack_relocs (little : bool) (ent_size : Z) (l : list Reloc)
    : Py.result (list (list byte)) :=
  match l with
  | [] => Py.Ok []
  | r :: l' =>
      let* b := pack_reloc little ent_size r in
      let* bs := pack_relocs little ent_size l' in
      Py.Ok (b :: bs)
  end.

(** The bytes written after the surviving entries. *)
Definition fill_bytes (need_continuous_relocations : bool) (ent_size removed : Z)
    (relocs_bytes : list (list byte)) : Py.result (list byte) :=
  if need_continuous_relocations then
    let* last_reloc := Py.getitem relocs_bytes (-1) in
    Py.Ok (concat (replicate (Z.to_nat removed) last_reloc))
  else Py.Ok (replicate (Z.to_nat (ent_size * removed)) x00).

(** The order the fix-up loop relies on: symbol indices are not negative,
    every entry is at most any later entry with a nonzero index and, when
    entries are removed rather than zeroed, the indices ascend. *)
Definition ordered_nz (zs : list Z) : Prop :=
  ∀ i j a b, (i < j)%nat → zs !! i = Some a → zs !! j = Some b → b ≠ 0 → a ≤ b.

Definition ordered (zs : list Z) : Prop :=
  ∀ i j a b, (i < j)%nat → zs !! i = Some a → zs !! j = Some b → a ≤ b.

Definition table_inv (push : bool) (l : list Reloc) : Prop :=
  Forall (λ z, 0 ≤ z) (r_info_sym <$> l)
  ∧ ordered_nz (r_info_sym <$> l)
  ∧ (push = true → ordered (r_info_sym <$> l)).

(** What a run of the removal loops guarantees: the order is kept, and
    when entries are removed rather than zeroed every remaining entry is
    one of the entries that were there. *)
Definition kept (push : bool) (l l' : list Reloc) : Prop :=
  table_inv push l' ∧ (push = true → ∀ r, r ∈ l' → r ∈ l).

(** What the fix-up owes to a surviving entry [r]: [r'] is [r] with a
    nonzero symbol index lowered by the number of removed symbols below
    it, and a zero index left at zero. *)
Definition renumbered (symbol_list : list SymbolWrapper) (r r' : Reloc) : Prop :=
  r_offset r' = r_offset r ∧ r_addend r' = r_addend r ∧ r_info_type r' = r_info_type r
  ∧ (r_info_sym r ≠ 0 → r_info_sym r' = r_info_sym r - count_lower symbol_list (r_info_sym r))
  ∧ (r_info_sym r = 0 → r_info_sym r' = 0).

(** What the fix-up owes to the [r_info] word of a surviving entry [r],
    the word that is written to the file: an entry the loop rewrites gets
    its new symbol index above its old type; an entry the loop does not
    reach is left as it is. *)
Definition rewritten (ent_size : Z) (r r' : Reloc) : Prop :=
  r' = r ∨ r_info r' = new_r_info ent_size (r_info_sym r') (r_info_type r).

(** The removal loops either drop entries and count them, or keep the
    entries where they are: the offsets that remain are a sublist of the
    offsets that were there, and the length plus the count stays the same. *)
Definition shape_kept (t t' : table) : Prop :=
  (r_offset <$> reloc_list t') `sublist_of` (r_offset <$> reloc_list t)
  ∧ Z.of_nat (length (reloc_list t')) + removed t'
    = Z.of_nat (length (reloc_list t)) + removed t.

(** [symbol_list] as [remove_from_section] passes it: by descending index. *)
Definition descending_indices (symbol_list : list SymbolWrapper) : Prop :=
  StronglySorted (λ a b, sym_index b ≤ sym_index a) symbol_list.

Section with_pyelftools.
(** [self._elffile.address_offsets(target)]: the file offsets the address
    translates to, one per loadable segment that holds it. *)
Variable address_offsets : Z → list Z.
(** [section.section.iter_relocations()] *)
Variable iter_relocations : list byte → Section → list Reloc.

(** [_reloc_get_addend_RELA] and [_reloc_get_addend_REL], chosen by
    [is_RELA()]: the latter reads the word the relocation points to. *)
Definition getter_addend (rela little : bool) (f : list byte) (reloc : Reloc) : Py.result Z :=
  if rela then Py.Ok (r_addend reloc)
  else
    let* off := Py.of_option Py.StopIteration (head (address_offsets (r_offset reloc))) in
    let* data := File.read f off 4 in
    if negb (length data =? 4)%nat then Py.Raise Py.StructError
    else Py.Ok (File.unpack_unsigned little data).

(** [_reloc_set_addend_RELA] and [_reloc_set_addend_REL]. *)
Definition setter_addend (rela little : bool) (f : list byte) (reloc : Reloc) (value : Z)
    : Py.result (list byte * Reloc) :=
  if rela then Py.Ok (f, with_r_addend value reloc)
  else
    let* off := Py.of_option Py.StopIteration (head (address_offsets (r_offset reloc))) in
    let* addend := File.pack_unsigned little 4 value in
    let* f := File.write f off addend in
    Py.Ok (f, reloc).

(** The [while cur_idx < list_len] loop of [_edit_rel_sect].  Every
    iteration removes an entry or moves [cur_idx] forward; the one branch
    that could leave the state as it is (a [bisect_left] that returns
    [cur_idx] again) would repeat forever and is [Diverges]. *)
Fixpoint edit_loop (fuel : nat) (rela little push is_symtab : bool) (sym_nr sym_addr : Z)
    (t : table) (cur_idx : nat) : Py.result table :=
  match fuel with
  | O => Py.Raise Py.Diverges
  | S fuel' =>
      if negb (cur_idx <? length (reloc_list t))%nat then Py.Ok t
      else
        let* reloc := Py.of_option Py.IndexError (reloc_list t !! cur_idx) in
        let r_info_sym := r_info_sym reloc in
        let* found :=
          (if negb is_symtab && (r_info_sym =? sym_nr) then Py.Ok true
           else
             let* a := getter_addend rela little (file t) reloc in
             Py.Ok ((a =? sym_addr) && (0 <? sym_addr))) in
        if found then
          if push then
            edit_loop fuel' rela little push is_symtab sym_nr sym_addr
              (mkTable (delete cur_idx (reloc_list t)) (delete cur_idx (sort_keys t))
                 (file t) (removed t + 1))
              cur_idx
          else
            let* '(f, reloc) :=
              setter_addend rela little (file t) (with_r_info_sym 0 reloc) 0 in
            edit_loop fuel' rela little push is_symtab sym_nr sym_addr
              (mkTable (<[cur_idx := reloc]> (reloc_list t)) (sort_keys t) f (removed t))
              (S cur_idx)
        else
          let* left_relative :=
            (if is_symtab then
               let* a := getter_addend rela little (file t) reloc in
               Py.Ok ((sym_addr <? a) || (0 <? r_info_sym))
             else Py.Ok false) in
          if left_relative then Py.Ok t
          else if sym_nr <? r_info_sym then Py.Ok t
          else if negb is_symtab && push then
            let next := bisect_left (sort_keys t) (sym_nr, 0) cur_idx in
            if (next <=? cur_idx)%nat then Py.Raise Py.Diverges
            else edit_loop fuel' rela little push is_symtab sym_nr sym_addr t next
          else edit_loop fuel' rela little push is_symtab sym_nr sym_addr t (S cur_idx)
  end.

(** [_edit_rel_sect]; the count it returns is added to [removed]. *)
Definition _edit_rel_sect (rela little push is_symtab : bool) (t : table)
    (sym_nr sym_addr : Z) : Py.result table :=
  let cur_idx := bisect_left (sort_keys t) (0, sym_addr) 0 in
  let* cur_idx :=
    (if negb is_symtab then
       let* k := Py.of_option Py.IndexError (sort_keys t !! cur_idx) in
       if negb (k.2 =? sym_addr) then Py.Ok (bisect_left (sort_keys t) (sym_nr, 0) cur_idx)
       else Py.Ok cur_idx
     else Py.Ok cur_idx) in
  edit_loop (S (length (reloc_list t) - cur_idx)) rela little push is_symtab
    sym_nr sym_addr t cur_idx.

(** The body of [for symbol in symbol_list]; the state is the table and
    the sets [sym_nrs] and [sym_addrs]. *)
Definition remove_step (rela little push is_symtab : bool)
    (st : table * gset Z * gset Z) (symbol : SymbolWrapper)
    : Py.result (table * gset Z * gset Z) :=
  let '(t, sym_nrs, sym_addrs) := st in
  if negb (bool_decide (sym_value symbol ∈ sym_addrs))
     && (is_symtab || negb (bool_decide (sym_index symbol ∈ sym_nrs)))
  then Py.Ok st
  else
    let* t := _edit_rel_sect rela little push is_symtab t
                (sym_index symbol) (sym_value symbol) in
    let sym_nrs := if negb is_symtab then sym_nrs ∖ {[sym_index symbol]} else sym_nrs in
    Py.Ok (t, sym_nrs, sym_addrs ∖ {[sym_value symbol]}).

(** [relocs = sorted([(reloc, r_info_sym, addend) ...], key=...)] *)
Fixpoint keyed_relocs (rela little : bool) (f : list byte) (l : list Reloc)
    : Py.result (list (Reloc * Z * Z)) :=
  match l with
  | [] => Py.Ok []
  | reloc :: l' =>
      let* a := getter_addend rela little f reloc in
      let* rest := keyed_relocs rela little f l' in
      Py.Ok ((reloc, r_info_sym reloc, a) :: rest)
  end.

Definition sort_key (x : Reloc * Z * Z) : Z * Z := (x.1.2, x.2).

(** The first half of [_batch_remove_relocs]: sorting and removing. *)
Definition remove_phase (rela little push is_symtab : bool) (f : list byte)
    (orig_reloc_list : list Reloc) (symbol_list : list SymbolWrapper) : Py.result table :=
  let* relocs := keyed_relocs rela little f orig_reloc_list in
  let relocs := Py.sorted (λ x y, Py.pair_le (sort_key x) (sort_key y)) relocs in
  let sort_keys := sort_key <$> relocs in
  match relocs with
  | [] => Py.Raise Py.ValueError
  | _ =>
      let reloc_list := (λ x, x.1.1) <$> relocs in
      let sym_nrs : gset Z := list_to_set ((λ x, x.1.2) <$> relocs) in
      let sym_addrs : gset Z := list_to_set ((λ x, x.2) <$> relocs) in
      let* '(t, _, _) :=
        Py.for_each (remove_step rela little push is_symtab) symbol_list
          (mkTable reloc_list sort_keys f 0, sym_nrs, sym_addrs) in
      Py.Ok t
  end.

(** [_batch_remove_relocs] *)
Definition _batch_remove_relocs (self : ELFRemove) (symbol_list : list SymbolWrapper)
    (sec : option SectionWrapper) (push is_symtab : bool) : Py.result ELFRemove :=
  match sec with
  | None => Py.Ok self
  | Some sec =>
      let obj := objs self (section sec) in
      let rela := is_RELA obj in
      let ent_size := if rela then 24 else 8 in
      let little := little_endian self in
      let orig_reloc_list := iter_relocations (_f self) obj in
      let* t := remove_phase rela little push is_symtab (_f self) orig_reloc_list symbol_list in
      let* reloc_list := fixup_indices push is_symtab ent_size symbol_list (reloc_list t) in
      let reloc_list := restore_order orig_reloc_list reloc_list in
      let* relocs_bytes := pack_relocs little ent_size reloc_list in
      let* fill := fill_bytes (_need_continuous_relocations self) ent_size (removed t)
                     relocs_bytes in
      let* f := File.write (file t) (sh_offset (header obj)) (concat relocs_bytes ++ fill) in
      let self := set_f f self in
      let* self :=
        (if negb (_need_continuous_relocations self) then
           let* self := Elf._change_section_size self sec (ent_size * removed t) in
           let obj := objs self (section sec) in
           Py.Ok (set_objs (<[section sec :=
                               Elf.with_size (_size obj - ent_size * removed t) obj]>
                              (objs self)) self)
         else Py.Ok self) in
      if push then
        let* self :=
          (if negb (_need_continuous_relocations self) then
             Elf._shrink_dynamic_tag self (if rela then "DT_RELASZ" else "DT_RELSZ")
               (ent_size * removed t)
           else Py.Ok self) in
        let count := Z.of_nat (length (List.filter (λ r, r_info_type r =? 8) reloc_list)) in
        Elf._write_dynamic_tag self (if rela then "DT_RELACOUNT" else "DT_RELCOUNT") count false
      else Py.Ok self
  end.

End with_pyelftools.

End Relocs.

(** ** The symbol table editor: [remove_from_section] and its cascade *)

Module Editor.

(** [[section_bytes[i:i+sh_entsize] for i in range(0, len(section_bytes),
    sh_entsize)]]; the range is empty for a negative step, and [fuel]
    bounds the number of slices by the number of bytes. *)
Fixpoint slices (fuel : nat) (n : nat) (l : list byte) : list (list byte) :=
  match fuel with
  | O => []
  | S fuel' =>
      match l with
      | [] => []
      | _ => take n l :: slices fuel' n (drop n l)
      end
  end.

Definition split_entries (section_bytes : list byte) (sh_entsize : Z) : list (list byte) :=
  if sh_entsize <=? 0 then []
  else slices (length section_bytes) (Z.to_nat sh_entsize) section_bytes.

(** The loop of [_fix_sh_info]: the index of the first entry whose
    binding ([st_info >> 4]) is not local, 0 if there is none. *)
Fixpoint first_nonlocal (sh_info_offset : nat) (idx : Z) (section_entries : list (list byte))
    : Py.result Z :=
  match section_entries with
  | [] => Py.Ok 0
  | entry :: rest =>
      let* b := Py.of_option Py.IndexError (entry !! sh_info_offset) in
      let current_bind := Z.shiftr (File.Z_of_byte b) 4 in
      if negb (current_bind =? 0) then Py.Ok idx
      else first_nonlocal sh_info_offset (idx + 1) rest
  end.

Definition _fix_sh_info (self : ELFRemove) (sec : SectionWrapper)
    (section_entries : list (list byte)) : Py.result ELFRemove :=
  let sh_info_offset := match e_machine self with EM_X86_64 => 4%nat | EM_386 => 12%nat end in
  let* first := first_nonlocal sh_info_offset 0 section_entries in
  Elf._set_section_info self sec first.

(** The body of [for symbol_t in sorted_list] in [remove_from_section];
    the state is [(section_entries, file)]. *)
Definition remove_entry (sec : SectionWrapper) (overwrite : bool)
    (st : list (list byte) * list byte) (symbol_t : SymbolWrapper)
    : Py.result (list (list byte) * list byte) :=
  let '(section_entries, f) := st in
  if negb (sym_sec_version symbol_t =? version sec) then Py.Raise Py.StaleCollection
  else
    let* section_entries :=
      (if negb (index sec =? -1) then Py.pop section_entries (sym_index symbol_t)
       else Py.Ok section_entries) in
    let* f :=
      (if overwrite && negb (index sec =? -1) then
         if negb (sym_value symbol_t =? 0) && negb (sym_size symbol_t =? 0) then
           File.write f (sym_value symbol_t) (replicate (Z.to_nat (sym_size symbol_t)) xcc)
         else Py.Ok f
       else Py.Ok f) in
    Py.Ok (section_entries, f).

(** The loop of [overwrite_local_functions]. *)
Definition overwrite_local (f : list byte) (func : Z * Z) : Py.result (list byte) :=
  let '(start, size) := func in
  if size =? 0 then Py.Ok f
  else File.write f start (replicate (Z.to_nat size) xcc).

(** [struct.unpack] and [struct.pack] of a run of 16-bit words. *)
Fixpoint unpack_halves (little : bool) (n : nat) (l : list byte) : list Z :=
  match n with
  | O => []
  | S n' => File.unpack_unsigned little (take 2 l) :: unpack_halves little n' (drop 2 l)
  end.

Fixpoint pack_halves (little : bool) (vs : list Z) : Py.result (list byte) :=
  match vs with
  | [] => Py.Ok []
  | v :: vs' =>
      let* b := File.pack_unsigned little 2 v in
      let* bs := pack_halves little vs' in
      Py.Ok (b ++ bs)
  end.

Section with_pyelftools.
Variable address_offsets : Z → list Z.
Variable iter_symbols : list byte → Section → list Symbol.
Variable iter_relocations : list byte → Section → list Reloc.
Variable ELFHashTable_nchains : list byte → Z → Z.
Variable GNUHashTable_params : list byte → Z → Z * Z * Z * list Z.
(** The name fields [_fix_version_structs] visits in [.gnu.version_r]
    and then in [.gnu.version_d]: the file offset of each field and the
    string index it holds. *)
Variable version_name_fields : list byte → list (Z * Z).

(** [_batch_remove_gnu_versions] *)
Definition _batch_remove_gnu_versions (self : ELFRemove) (symbol_list : list SymbolWrapper)
    (orig_dynsym_size : Z) : Py.result ELFRemove :=
  match _gnu_version self with
  | None => Py.Ok self
  | Some gnu_version =>
      let ent_size := 2 in
      let little := little_endian self in
      let sh_offset := sh_offset (header (objs self (section gnu_version))) in
      let* section_bytes := File.read (_f self) sh_offset (orig_dynsym_size * ent_size) in
      if (orig_dynsym_size <? 0)
         || negb (Z.of_nat (length section_bytes) =? orig_dynsym_size * ent_size)
      then Py.Raise Py.StructError
      else
        let versions := unpack_halves little (Z.to_nat orig_dynsym_size) section_bytes in
        let* versions :=
          Py.for_each (λ vs symbol, Py.pop vs (sym_index symbol)) symbol_list versions in
        let* new_section_bytes := pack_halves little versions in
        let* f :=
          File.write (_f self) sh_offset
            (new_section_bytes
             ++ replicate (Z.to_nat ((orig_dynsym_size - Z.of_nat (length versions)) * ent_size))
                  x00) in
        Elf._change_section_size (set_f f self) gnu_version
          (ent_size * Z.of_nat (length symbol_list))
  end.

(** The loop of [_compact_dynstr] over the symbols of [.dynsym]: the new
    [st_name] is written at the head of each entry. *)
Definition fix_st_name (little : bool) (index_map : gmap Z Z) (dynsym_offset symsize : Z)
    (f : list byte) (item : nat * Symbol) : Py.result (list byte) :=
  let '(idx, symbol) := item in
  let cur_name_idx := st_name symbol in
  let* new_idx := Py.of_option Py.KeyError (index_map !! cur_name_idx) in
  let* b := File.pack_unsigned little 4 new_idx in
  File.write f (dynsym_offset + Z.of_nat idx * symsize) b.

(** The loop over the dynamic tags: the string operands go through the
    index map. *)
Definition is_string_tag (t : string) : bool :=
  (String.eqb t "DT_SONAME" || String.eqb t "DT_NEEDED"
   || String.eqb t "DT_RPATH" || String.eqb t "DT_RUNPATH")%string.

Fixpoint fix_string_tags (fuel : nat) (index_map : gmap Z Z) (self : ELFRemove) (idx : nat)
    : Py.result ELFRemove :=
  match fuel with
  | O => Py.Ok self
  | S fuel' =>
      let* tags := Py.of_option Py.AttributeError (_dynamic self) in
      match tags !! idx with
      | None => Py.Ok self
      | Some (t, v) =>
          if is_string_tag t then
            let* new_val := Py.of_option Py.KeyError (index_map !! v) in
            let* self := Elf._modify_dynamic_tag_at_index self idx (λ _, new_val) in
            fix_string_tags fuel' index_map self (S idx)
          else fix_string_tags fuel' index_map self (S idx)
      end
  end.

(** [_fix_version_structs] on both version sections. *)
Definition fix_version_name (little : bool) (index_map : gmap Z Z)
    (f : list byte) (field : Z * Z) : Py.result (list byte) :=
  let '(offset, old_idx) := field in
  let* new_value := Py.of_option Py.KeyError (index_map !! old_idx) in
  let* b := File.pack_unsigned little 4 new_value in
  File.write f offset b.

(** [_compact_dynstr] *)
Definition _compact_dynstr (self : ELFRemove) (removed_symbols : list SymbolWrapper)
    : Py.result ELFRemove :=
  match _dynstr self with
  | None => Py.Ok self
  | Some dynstr =>
      let* '(self, built) := Dynstr._build_new_dynstr self removed_symbols in
      match built with
      | None => Py.Raise Py.TypeError
      | Some (new_bytes, index_map) =>
          let little := little_endian self in
          let symsize := match e_machine self with EM_X86_64 => 24 | EM_386 => 16 end in
          let* dynsym := Py.of_option Py.AttributeError (dynsym self) in
          let dynsym_obj := objs self (section dynsym) in
          let dynsym_offset := sh_offset (header dynsym_obj) in
          let* f :=
            Py.for_each (fix_st_name little index_map dynsym_offset symsize)
              (imap pair (iter_symbols (_f self) dynsym_obj)) (_f self) in
          let self := set_f f self in
          let* tags := Py.of_option Py.AttributeError (_dynamic self) in
          let* self := fix_string_tags (length tags) index_map self 0 in
          let* f :=
            Py.for_each (fix_version_name little index_map)
              (version_name_fields (_f self)) (_f self) in
          let self := set_f f self in
          let dynstr_hdr := header (objs self (section dynstr)) in
          let* f := File.write (_f self) (sh_offset dynstr_hdr)
                      (replicate (Z.to_nat (sh_size dynstr_hdr)) x00) in
          let* f := File.write f (sh_offset dynstr_hdr) new_bytes in
          let self := set_f f self in
          let* self := Elf._set_section_size self dynstr (Z.of_nat (length new_bytes)) false in
          Elf._write_dynamic_tag self "DT_STRSZ" (Z.of_nat (length new_bytes)) false
      end
  end.

(** The calls [remove_from_section] makes once the table is rewritten. *)
Definition cascade (self : ELFRemove) (sec : SectionWrapper) (sorted_list : list SymbolWrapper)
    (removed original_num_entries : Z) : Py.result ELFRemove :=
  let sec_name := sec_name (objs self (section sec)) in
  let* self :=
    Relocs._batch_remove_relocs address_offsets iter_relocations self sorted_list
      (_rel_dyn self) true (String.eqb sec_name ".symtab") in
  if String.eqb sec_name ".dynsym" then
    let self := set_dynsym (Some sec) self in
    let* self := _compact_dynstr self sorted_list in
    let* self :=
      Relocs._batch_remove_relocs address_offsets iter_relocations self sorted_list
        (_rel_plt self) false false in
    let* dynsym := Py.of_option Py.AttributeError (dynsym self) in
    let* self :=
      SysvHash._recreate_elf_hash iter_symbols ELFHashTable_nchains self dynsym removed in
    let* self := _batch_remove_gnu_versions self sorted_list original_num_entries in
    GnuHash._batch_remove_gnu_hashtable GNUHashTable_params self sorted_list
      original_num_entries
  else Py.Ok self.

(** [remove_from_section]; the result is the object and the number of
    symbols removed. *)
Definition remove_from_section (self : ELFRemove) (sec : option SectionWrapper)
    (collection : list SymbolWrapper) (overwrite : bool) : Py.result (ELFRemove * Z) :=
  match sec with
  | None => Py.Raise Py.SectionNotAvailable
  | Some sec =>
      match collection with
      | [] => Py.Ok (self, 0)
      | _ =>
          let sorted_list := Py.sorted (λ a b, sym_index b <=? sym_index a) collection in
          let hdr := header (objs self (section sec)) in
          let sh_offset := sh_offset hdr in
          let sh_size := sh_size hdr in
          let sh_entsize := sh_entsize hdr in
          if sh_entsize =? 0 then Py.Raise Py.ZeroDivisionError
          else
            let original_num_entries := sh_size `div` sh_entsize in
            let* section_entries :=
              (if negb (index sec =? -1) then
                 let* section_bytes := File.read (_f self) sh_offset sh_size in
                 Py.Ok (split_entries section_bytes sh_entsize)
               else Py.Ok []) in
            let* '(section_entries, f) :=
              Py.for_each (remove_entry sec overwrite) sorted_list
                (section_entries, _f self) in
            let removed := Z.of_nat (length sorted_list) in
            let* f :=
              (if negb (index sec =? -1) then
                 File.write f sh_offset
                   (concat section_entries ++ replicate (Z.to_nat (sh_entsize * removed)) x00)
               else Py.Ok f) in
            let self := set_f f self in
            let* self := Elf._change_section_size self sec (removed * sh_entsize) in
            let* self := _fix_sh_info self sec section_entries in
            let sec := mkSectionWrapper (section sec) (index sec) (version sec + 1) in
            let* self := cascade self sec sorted_list removed original_num_entries in
            Py.Ok (self, removed)
      end
  end.

Definition remove_symbols_from_dynsym (self : ELFRemove) (overwrite : bool)
    : Py.result (ELFRemove * Z) :=
  remove_from_section self (dynsym self) (collection_dynsym self) overwrite.

Definition remove_symbols_from_symtab (self : ELFRemove) (overwrite : bool)
    : Py.result (ELFRemove * Z) :=
  remove_from_section self (symtab self) (collection_symtab self) overwrite.

(** [overwrite_local_functions]; [local_functions] lists the set in its
    iteration order. *)
Definition overwrite_local_functions (self : ELFRemove) : Py.result ELFRemove :=
  let* f := Py.for_each overwrite_local (local_functions self) (_f self) in
  let self := set_f f self in
  match symtab self with
  | None => Py.Ok self
  | Some _ =>
      let addr := fst <$> local_functions self in
      let* self :=
        Collector.collect_symbols_in_symtab iter_symbols self None (Some addr) false in
      let* '(self, _) := remove_symbols_from_symtab self false in
      Py.Ok self
  end.

End with_pyelftools.

(** The entries of a physical table as [remove_from_section] reads them. *)
Definition table_entries (self : ELFRemove) (sec : SectionWrapper) : list (list byte) :=
  let hdr := header (objs self (section sec)) in
  match File.read (_f self) (sh_offset hdr) (sh_size hdr) with
  | Py.Ok section_bytes => split_entries section_bytes (sh_entsize hdr)
  | Py.Raise _ => []
  end.

(** A batch whose references of the current version designate entries
    of the table: the entry size is not zero and, for a physical table,
    the indices of these references are distinct and in range and none
    of their addresses is negative. *)
Definition well_formed_batch (self : ELFRemove) (sec : SectionWrapper)
    (collection : list SymbolWrapper) : Prop :=
  sh_entsize (header (objs self (section sec))) ≠ 0
  ∧ (index sec ≠ -1 →
     0 ≤ sh_offset (header (objs self (section sec)))
     ∧ NoDup (sym_index <$> filter (λ s, sym_sec_version s = version sec) collection)
     ∧ ∀ s, s ∈ collection → sym_sec_version s = version sec →
         0 ≤ sym_index s < Z.of_nat (length (table_entries self sec)) ∧ 0 ≤ sym_value s).

(** A computation that does not end in the stale-collection error. *)
Definition not_stale {A} (m : Py.result A) : Prop := m ≠ Py.Raise Py.StaleCollection.

(** Two states of the object with the same symbol table wrappers, and
    so the same version counters, and the same section names. *)
Definition same_wrappers (self self' : ELFRemove) : Prop :=
  symtab self' = symtab self
  ∧ dynsym self' = dynsym self
  ∧ ∀ n, sec_name (objs self' n) = sec_name (objs self n).

(** The [size] bytes of [f] from position [start] on are all [0xCC]. *)
Definition overwritten (f : list byte) (start size : Z) : Prop :=
  ∀ i, 0 ≤ i < size → f !! Z.to_nat (start + i) = Some xcc.

End Editor.

(** ** The consistency test of the SysV hash table: [test_hash_section] *)

Module HashCheck.

(** [ELFHashTable(...).params] *)
Record params : Type := mkParams {
  nbuckets : Z;
  buckets : list Z;
  chains : list Z
}.

(** The entries [d.get(i, 0)] for [i] in [range(0, n)] that
    [_recreate_elf_hash] writes out for a table [d]. *)
Definition table_list (d : gmap Z Z) (n : nat) : list Z :=
  (λ i, default 0 (d !! Z.of_nat i)) <$> seq 0 n.

Section with_pyelftools.
(** [self.dynsym.section.get_symbol(i)] and
    [self.dynsym.section.num_symbols()] *)
Variable get_symbol : list byte → Section → Z → Py.result Symbol.
Variable num_symbols : list byte → Section → Z.
Variable ELFHashTable_params : list byte → Z → params.

(** The [while cur_ptr != 0] loop.  A pointer that is followed lies in
    [-len(chains), len(chains)), so that a walk of more than
    [2 * len(chains)] steps visits a pointer twice and never ends. *)
Fixpoint find_in_chain (fuel : nat) (f : list byte) (dynsym : Section) (p : params)
    (name_ : string) (cur_ptr : Z) : Py.result bool :=
  match fuel with
  | O => Py.Raise Py.Diverges
  | S fuel' =>
      if cur_ptr =? 0 then Py.Ok false
      else
        let* sym := get_symbol f dynsym cur_ptr in
        if String.eqb (name sym) name_ then Py.Ok true
        else
          let* cur_ptr := Py.getitem (chains p) cur_ptr in
          find_in_chain fuel' f dynsym p name_ cur_ptr
  end.

(** The body of [for i in range(1, num_symbols)]: [Some name] stands for
    the exception ['Symbol name not found in bucket!!! Hash Section
    broken!']. *)
Definition check_symbol (f : list byte) (dynsym : Section) (p : params) (i : Z)
    : Py.result (option string) :=
  let* sym := get_symbol f dynsym i in
  let name_ := name sym in
  let sym_hash := SysvHash._elfhash name_ in
  let* bucket := GnuHash.py_mod sym_hash (nbuckets p) in
  let* cur_ptr := Py.getitem (buckets p) bucket in
  let* found := find_in_chain (S (2 * length (chains p))) f dynsym p name_ cur_ptr in
  if found then Py.Ok None else Py.Ok (Some name_).

Fixpoint check_symbols (f : list byte) (dynsym : Section) (p : params) (l : list Z)
    : Py.result (option string) :=
  match l with
  | [] => Py.Ok None
  | i :: l' =>
      let* r := check_symbol f dynsym p i in
      match r with
      | Some name_ => Py.Ok (Some name_)
      | None => check_symbols f dynsym p l'
      end
  end.

(** [test_hash_section]: [Ok None] when it returns, [Ok (Some name)] when
    it raises the exception for the symbol [name]. *)
Definition test_hash_section (self : ELFRemove) : Py.result (option string) :=
  match _elf_hash self with
  | None => Py.Ok None
  | Some elf_hash =>
      let* dynsym := Py.of_option Py.AttributeError (dynsym self) in
      let dynsym := objs self (section dynsym) in
      let sect :=
        ELFHashTable_params (_f self) (sh_offset (header (objs self (section elf_hash)))) in
      let n := num_symbols (_f self) dynsym in
      check_symbols (_f self) dynsym sect (Z.of_nat <$> seq 1 (Z.to_nat n - 1))
  end.

End with_pyelftools.

End HashCheck.

(** ** Further concrete inputs *)

Module Samples.

(** The symbol table of the small library behind [get_symbol] and
    [num_symbols], and the hash table [_recreate_elf_hash] builds for it
    with three buckets. *)
Definition small_get_symbol (f : list byte) (s : Section) (i : Z) : Py.result Symbol :=
  if i <? 0 then Py.Raise Py.StructError
  else Py.of_option Py.StructError (Examples.small_symbols !! Z.to_nat i).

Definition small_num_symbols (f : list byte) (s : Section) : Z := 5.

Definition small_hash_params (f : list byte) (offset : Z) : HashCheck.params :=
  HashCheck.mkParams 3
    (HashCheck.table_list (SysvHash.build_tables 3 Examples.small_symbols).1 3)
    (HashCheck.table_list (SysvHash.build_tables 3 Examples.small_symbols).2 5).

(** A library with a [.gnu.version] table of five entries, the versions
    0 to 4, at offset 100. *)
Definition sec_gnu_version : Section :=
  mkSection ".gnu.version" (mkHeader 100 10 2 0) 10 false.

Definition version_lib : ELFRemove :=
  mkELFRemove
    (replicate 100 x00 ++ [x00; x00; x01; x00; x02; x00; x03; x00; x04; x00]
     ++ replicate 210 x00)
    (λ _, sec_gnu_version) true EM_X86_64 (Some [])
    (Some (mkSectionWrapper 0 3 0)) None None None (Some (mkSectionWrapper 0 6 0))
    None None None ∅ false [] [] [].

End Samples.

(** ** The byte ranges of the local functions *)

Module LocalFunctions.

(** Position [i] lies in the range [start, start + size) of a function
    of the list. *)
Definition covered (l : list (Z * Z)) (i : Z) : bool :=
  existsb (λ func, (func.1 <=? i) && (i <? func.1 + func.2)) l.

(** The largest end of a nonempty range of the list, 0 if there is none. *)
Definition reach (l : list (Z * Z)) : Z :=
  foldr (λ func m, if 0 <? func.2 then Z.max m (func.1 + func.2) else m) 0 l.

End LocalFunctions.

(** ** Lists without the entries at given indices *)

Module Tables.

(** The entries of [l], whose first entry has index [k], that are not at
    an index of [indices], in their order. *)
Fixpoint without_indices {A} (k : Z) (indices : list Z) (l : list A) : list A :=
  match l with
  | [] => []
  | x :: l' =>
      (if bool_decide (k ∈ indices) then [] else [x]) ++ without_indices (k + 1) indices l'
  end.

End Tables.

(** ** The parts of the object an operation leaves alone *)

Module Frames.

(** The fields that are set when the library is opened or by the
    collectors, and [self.dynsym], which [remove_from_section] replaces:
    everything but the file, the section objects, the dynamic tags and
    the [.dynstr] reference counts. *)
Definition wrappers (self : ELFRemove) :=
  (little_endian self, e_machine self, dynsym self, symtab self, _gnu_hash self,
   _elf_hash self, _gnu_version self, _rel_plt self, _rel_dyn self, _dynstr self,
   _need_continuous_relocations self, collection_dynsym self, collection_symtab self,
   local_functions self).

(** [self'] has the fields [wrappers] of [self], and the section objects
    of [self] except the one that [touched] refers to. *)
Definition touches_only (touched : option SectionWrapper) (self self' : ELFRemove) : Prop :=
  wrappers self' = wrappers self
  ∧ ∀ n, (∀ w, touched = Some w → n ≠ section w) → objs self' n = objs self n.

(** The sections other than the symbol table that a batch on [.dynsym]
    rewrites. *)
Definition cascade_sections (self : ELFRemove) : list (option SectionWrapper) :=
  [_rel_dyn self; _dynstr self; _rel_plt self; _elf_hash self; _gnu_version self;
   _gnu_hash self].

(** No section of the cascade is the section object [n]. *)
Definition apart_from (n : nat) (self : ELFRemove) : Prop :=
  ∀ w, Some w ∈ cascade_sections self → section w ≠ n.

End Frames.

(** ** Statistics: [get_size_dicts], [get_removed_bytes], [get_dynsym_names],
    [fixup_function_ranges] *)

Module Stats.

(** [get_size_dicts]: the largest size seen for each address, not below 0
    ([dict.get(addr, 0)]), for the dynsym collection and for the local
    functions. *)
Definition add_global (global_dict : gmap Z Z) (x : SymbolWrapper) : gmap Z Z :=
  if (sym_value x =? 0) && (sym_size x =? 0) then global_dict
  else <[sym_value x := Z.max (default 0 (global_dict !! sym_value x)) (sym_size x)]>
         global_dict.

Definition add_local (local_dict : gmap Z Z) (func : Z * Z) : gmap Z Z :=
  <[func.1 := Z.max (default 0 (local_dict !! func.1)) func.2]> local_dict.

Definition get_size_dicts (self : ELFRemove) : gmap Z Z * gmap Z Z :=
  (foldl add_global ∅ (collection_dynsym self), foldl add_local ∅ (local_functions self)).

(** [get_removed_bytes]: [addr_dict.update(local_dict)] lets the local
    entry win. *)
Definition get_removed_bytes (self : ELFRemove) : Z :=
  let '(global_dict, local_dict) := get_size_dicts self in
  let addr_dict := local_dict ∪ global_dict in
  foldl (λ removed_bytes kv, removed_bytes + kv.2) 0 (map_to_list addr_dict).

(** [get_dynsym_names] *)
Definition get_dynsym_names (self : ELFRemove) : gset string :=
  list_to_set (sym_name <$> collection_dynsym self).

(** [fixup_function_ranges]: the size of a collected symbol whose address
    is a key of [ranges] becomes the size found there. *)
Definition fix_size (ranges : gmap Z Z) (symbol : SymbolWrapper) : SymbolWrapper :=
  match ranges !! sym_value symbol with
  | Some new_size =>
      if negb (new_size =? sym_size symbol) then
        mkSymbolWrapper (sym_name symbol) (sym_index symbol) (sym_name_offset symbol)
          (sym_value symbol) new_size (sym_sec_version symbol)
      else symbol
  | None => symbol
  end.

Definition fixup_function_ranges (self : ELFRemove) (ranges : gmap Z Z) : ELFRemove :=
  set_collection_dynsym (fix_size ranges <$> collection_dynsym self) self.

(** The sizes a list of functions gives for the address [a], and the
    sizes of the counted references of a collection at [a]. *)
Definition local_sizes_at (a : Z) (local_functions : list (Z * Z)) : list Z :=
  snd <$> filter (λ func, func.1 = a) local_functions.

Definition counted (x : SymbolWrapper) : Prop := ¬ (sym_value x = 0 ∧ sym_size x = 0).

Definition global_sizes_at (a : Z) (collection : list SymbolWrapper) : list Z :=
  sym_size <$> filter (λ x, counted x ∧ sym_value x = a) collection.

(** [Some] of the largest of 0 and the sizes, [None] when there is no size. *)
Definition largest (sizes : list Z) : option Z :=
  match sizes with
  | [] => None
  | _ => Some (foldr Z.max 0 sizes)
  end.

(** The largest of a start value (0 if there is none) and the sizes. *)
Definition fold_sizes (o : option Z) (sizes : list Z) : option Z :=
  match sizes with
  | [] => o
  | _ => Some (foldr Z.max (default 0 o) sizes)
  end.

End Stats.

(** ** Strings of a string table *)

Module StringTable.

(** The string that starts at [idx] in a table, without its final NUL:
    what [parse_cstring_from_stream] returns there. *)
Definition string_at (table : list byte) (idx : Z) : option (list byte) :=
  if idx <? 0 then None
  else
    n ← Dynstr.cstring_len (drop (Z.to_nat idx) table);
    Some (take (Z.to_nat n) (drop (Z.to_nat idx) table)).

(** The state of the second loop of [_build_new_dynstr] after range [k]
    of [sorted]: [last_start] and [last_end] delimit the copy of that
    range, [out_bytes] ends with it, and the start of every range up to
    [k] is mapped to a copy of the bytes of that range and its NUL. *)
Definition content_inv (f : list byte) (base : Z) (sorted : list (Z * Z)) (k : nat)
    (st : Dynstr.layout) : Prop :=
  ∃ s e,
    sorted !! k = Some (s, e)
    ∧ Dynstr.index_map st !! s = Some (Dynstr.last_start st)
    ∧ Dynstr.last_end st = Dynstr.last_start st + (e - s)
    ∧ Z.of_nat (length (Dynstr.out_bytes st)) = Dynstr.last_end st + 1
    ∧ (∀ s', is_Some (Dynstr.index_map st !! s') →
         ∃ j p, (j ≤ k)%nat ∧ sorted !! j = Some p ∧ p.1 = s')
    ∧ (∀ j sj ej, (j ≤ k)%nat → sorted !! j = Some (sj, ej) →
         ∃ t, Dynstr.index_map st !! sj = Some t
           ∧ 0 ≤ t
           ∧ t + (ej - sj) + 1 ≤ Z.of_nat (length (Dynstr.out_bytes st))
           ∧ take (Z.to_nat (ej - sj + 1)) (drop (Z.to_nat t) (Dynstr.out_bytes st))
             = take (Z.to_nat (ej - sj + 1)) (drop (Z.to_nat (base + sj)) f)).

End StringTable.

(** ** The bytes an operation leaves alone *)

Module Footprint.

(** [f'] still holds every byte that [f] holds at a position of [P]. *)
Definition keeps (P : Z → Prop) (f f' : list byte) : Prop :=
  ∀ (i : nat) b, P (Z.of_nat i) → f !! i = Some b → f' !! i = Some b.

(** Position [i] is one of the [len] bytes from [pos] on. *)
Definition within (pos len i : Z) : Prop := pos ≤ i < pos + len.

(** Position [i] lies in the section that [w] refers to, and in the
    section of an optional wrapper. *)
Definition region (self : ELFRemove) (w : SectionWrapper) (i : Z) : Prop :=
  within (sh_offset (header (objs self (section w))))
    (sh_size (header (objs self (section w)))) i.

Definition region_of (self : ELFRemove) (o : option SectionWrapper) (i : Z) : Prop :=
  ∃ w, o = Some w ∧ region self w i.

(** The machine and the wrappers of the sections of the cascade. *)
Definition fixed (self : ELFRemove) :=
  (e_machine self, _rel_dyn self, _rel_plt self, _gnu_version self, _gnu_hash self,
   _elf_hash self, _dynstr self).

(** The section objects of [self'] have the names, offsets and entry
    sizes of those of [self] and are no larger, and [fixed] is the
    same. *)
Definition shrunk (self self' : ELFRemove) : Prop :=
  fixed self' = fixed self
  ∧ ∀ n, sec_name (objs self' n) = sec_name (objs self n)
         ∧ sh_offset (header (objs self' n)) = sh_offset (header (objs self n))
         ∧ sh_entsize (header (objs self' n)) = sh_entsize (header (objs self n))
         ∧ sh_size (header (objs self' n)) ≤ sh_size (header (objs self n)).

(** [self] has the section objects and the wrappers of [self0]. *)
Definition same_sections (self0 self : ELFRemove) : Prop :=
  fixed self = fixed self0 ∧ ∀ n, objs self n = objs self0 n.

(** A symbol table of whole entries that lie inside the file. *)
Definition whole_table (self : ELFRemove) (sec : SectionWrapper) : Prop :=
  let hdr := header (objs self (section sec)) in
  0 < sh_entsize hdr
  ∧ 0 ≤ sh_size hdr
  ∧ sh_size hdr `mod` sh_entsize hdr = 0
  ∧ sh_offset hdr + sh_size hdr ≤ Z.of_nat (length (_f self)).

(** [max_entrys] of [remove_from_section]: the number of entries of the
    table. *)
Definition num_entries (self : ELFRemove) (sec : SectionWrapper) : Z :=
  let hdr := header (objs self (section sec)) in
  sh_size hdr `div` sh_entsize hdr.

(** The test [section.section.name == '.dynsym'] of
    [remove_from_section], which starts the whole cascade. *)
Definition dynsym_batch (self : ELFRemove) (sec : SectionWrapper) : bool :=
  String.eqb (sec_name (objs self (section sec))) ".dynsym".

(** Where the file holds what the model keeps in the objects: the entry
    of the section with index [idx] in the section header table starts
    at [e_shoff + e_shentsize * idx], and [_set_section_attribute] writes
    its fields [sh_size] and [sh_info], which lie between the bytes 20
    and 48 of the entry; the dynamic tag [idx] is at
    [dynamic_offset + idx * tagsize], where
    [_modify_dynamic_tag_at_index] writes 8 bytes if [tagsize] is 8 and
    16 bytes otherwise. *)
Record layout : Type := mkLayout {
  e_shoff : Z;
  e_shentsize : Z;
  dynamic_offset : Z;
  tagsize : Z
}.

Definition in_tables (lay : layout) (i : Z) : Prop :=
  (∃ idx, 0 ≤ idx ∧ within (e_shoff lay + e_shentsize lay * idx + 20) 28 i)
  ∨ (∃ idx, 0 ≤ idx
       ∧ within (dynamic_offset lay + idx * tagsize lay)
           (if tagsize lay =? 8 then 8 else 16) i).

(** The bytes of the functions that [remove_from_section] overwrites,
    and those of the local functions. *)
Definition function_bytes (sec : SectionWrapper) (collection : list SymbolWrapper)
    (overwrite : bool) (i : Z) : Prop :=
  overwrite = true ∧ index sec ≠ -1
  ∧ ∃ s, s ∈ collection ∧ sym_value s ≠ 0 ∧ within (sym_value s) (sym_size s) i.

Definition local_bytes (self : ELFRemove) (i : Z) : Prop :=
  ∃ start size, (start, size) ∈ local_functions self ∧ within start size i.

Section with_pyelftools.
Variable address_offsets : Z → list Z.
Variable iter_symbols : list byte → Section → list Symbol.
Variable iter_relocations : list byte → Section → list Reloc.
Variable GNUHashTable_params : list byte → Z → Z * Z * Z * list Z.
Variable version_name_fields : list byte → list (Z * Z).

(** The words that the entries of a [.rel] section point to, where
    [_reloc_set_addend_REL] writes, and the name fields of the version
    records, where [_fix_version_structs] writes; both as the library
    has them when the operation starts. *)
Definition targets (self : ELFRemove) (o : option SectionWrapper) (i : Z) : Prop :=
  ∃ w r off,
    o = Some w ∧ is_RELA (objs self (section w)) = false
    ∧ r ∈ iter_relocations (_f self) (objs self (section w))
    ∧ head (address_offsets (r_offset r)) = Some off ∧ within off 4 i.

Definition name_fields (self : ELFRemove) (i : Z) : Prop :=
  ∃ field, field ∈ version_name_fields (_f self) ∧ within field.1 4 i.

(** What a batch on the table [sec] has written, once the functions are
    overwritten, when it comes to parse [.rel.dyn] (the symbol table),
    the version records (also [.rel.dyn] and the words its entries point
    to; the names of the symbols lie in the symbol table), [.rel.plt]
    (also the name fields and [.dynstr]) and the GNU hash table (also
    [.rel.plt], the words its entries point to, [.hash] and
    [.gnu.version]). *)
Definition before_rel_dyn (self : ELFRemove) (sec : SectionWrapper) (i : Z) : Prop :=
  region self sec i.

Definition before_name_fields (self : ELFRemove) (sec : SectionWrapper) (i : Z) : Prop :=
  before_rel_dyn self sec i
  ∨ region_of self (_rel_dyn self) i ∨ targets self (_rel_dyn self) i.

Definition before_rel_plt (self : ELFRemove) (sec : SectionWrapper) (i : Z) : Prop :=
  before_name_fields self sec i
  ∨ (_dynstr self ≠ None ∧ name_fields self i) ∨ region_of self (_dynstr self) i.

Definition before_gnu_hash (self : ELFRemove) (sec : SectionWrapper) (i : Z) : Prop :=
  before_rel_plt self sec i
  ∨ region_of self (_rel_plt self) i ∨ targets self (_rel_plt self) i
  ∨ region_of self (_elf_hash self) i ∨ region_of self (_gnu_version self) i.

(** The positions that a batch on [sec] may write once the functions
    are overwritten: the section header table and the dynamic tags, the
    symbol table, [.rel.dyn] and the words its entries point to and, for
    a table named [.dynsym], what the rest of the cascade writes. *)
Definition rewritten_later (lay : layout) (self : ELFRemove) (sec : SectionWrapper)
    (i : Z) : Prop :=
  in_tables lay i
  ∨ (if dynsym_batch self sec
     then before_gnu_hash self sec i ∨ region_of self (_gnu_hash self) i
     else before_name_fields self sec i).

(** [parse] yields on [f] what it yields on the file of [self], for
    every file [f] that holds the bytes of that file outside the section
    header table, the dynamic tags and [written]: the parser reads none
    of the bytes written so far. *)
Definition stable {X} (lay : layout) (self : ELFRemove) (written : Z → Prop)
    (parse : list byte → X) : Prop :=
  ∀ f, keeps (λ i, ¬ (in_tables lay i ∨ written i)) (_f self) f → parse f = parse (_f self).

(** A relocation section holds the entries that the parser yields for
    it, no two of them have the same offset, and the parser reads none
    of the bytes written before it is called. *)
Definition relocations_fit (lay : layout) (self : ELFRemove) (written : Z → Prop)
    (o : option SectionWrapper) : Prop :=
  ∀ w, o = Some w →
    let obj := objs self (section w) in
    (if is_RELA obj then 24 else 8) * Z.of_nat (length (iter_relocations (_f self) obj))
    ≤ sh_size (header obj)
    ∧ NoDup (r_offset <$> iter_relocations (_f self) obj)
    ∧ stable lay self written (λ f, iter_relocations f obj).

(** The sections of the cascade are distinct objects and hold what the
    parsers yield, and no parser reads bytes that the batch has written
    when it is called, [earlier] being what is written when the batch
    starts its work on the table.  For a table named [.dynsym]: its
    entries have the size of a symbol, and a section with entries of that
    size holds the symbols that the parser yields for it;
    [.gnu.version] has an entry for each of the [n_symbols] symbols, the
    GNU hash table (header, bloom filter, buckets and a chain entry for
    each symbol from [symoffset] on) lies inside its section, and [.hash]
    and [.dynstr] have section headers, whose size bounds what is written
    to them. *)
Definition sections_fit (lay : layout) (self : ELFRemove) (sec : SectionWrapper)
    (earlier : Z → Prop) (n_symbols : Z) : Prop :=
  let symsize := match e_machine self with EM_X86_64 => 24 | EM_386 => 16 end in
  NoDup (section <$> omap id [Some sec; _rel_dyn self; _dynstr self; _rel_plt self])
  ∧ relocations_fit lay self (λ i, earlier i ∨ before_rel_dyn self sec i) (_rel_dyn self)
  ∧ (dynsym_batch self sec = true →
     relocations_fit lay self (λ i, earlier i ∨ before_rel_plt self sec i) (_rel_plt self)
     ∧ (∀ w, _dynstr self = Some w →
          index w ≠ -1
          ∧ sh_entsize (header (objs self (section sec))) = symsize
          ∧ (∀ f obj (idx : nat) s,
               sh_entsize (header obj) = symsize → iter_symbols f obj !! idx = Some s →
               symsize * (Z.of_nat idx + 1) ≤ sh_size (header obj))
          ∧ stable lay self (λ i, earlier i ∨ before_name_fields self sec i)
              version_name_fields)
     ∧ (∀ w, _elf_hash self = Some w → index w ≠ -1)
     ∧ (∀ w, _gnu_version self = Some w →
          2 * n_symbols ≤ sh_size (header (objs self (section w))))
     ∧ (∀ w, _gnu_hash self = Some w →
          let hdr := header (objs self (section w)) in
          (let '(nb, so, bs, _) := GNUHashTable_params (_f self) (sh_offset hdr) in
           0 ≤ bs
           ∧ 16 + bs * (match e_machine self with EM_386 => 4 | EM_X86_64 => 8 end)
             + 4 * nb + 4 * (n_symbols - so) ≤ sh_size hdr)
          ∧ stable lay self (λ i, earlier i ∨ before_gnu_hash self sec i)
              (λ f, GNUHashTable_params f (sh_offset hdr)))).

End with_pyelftools.

End Footprint.

(** ** Concrete inputs for the overwriter *)

Module Overwriter.

(** The symbols of the small library as far as the section holds them:
    [num_symbols] is [sh_size // sh_entsize]. *)
Definition sized_iter_symbols (f : list byte) (s : Section) : list Symbol :=
  take (Z.to_nat (sh_size (header s) `div` 24)) Examples.small_symbols.

(** A reference to a function of eight bytes at position 288, behind the
    sections of the small library. *)
Definition far_ref : SymbolWrapper := mkSymbolWrapper "foo" 2 7 288 8 0.

(** A library with [.symtab] only, at offset 160, and the local function
    [foo] of eight bytes at position 32. *)
Definition symtab_objs (n : nat) : Section :=
  match n with
  | 1%nat => Examples.sec_symtab
  | _ => Examples.sec_none
  end.

Definition symtab_lib : ELFRemove :=
  mkELFRemove (replicate 320 x00) symtab_objs true EM_X86_64 (Some [])
    None (Some (mkSectionWrapper 1 7 0))
    None None None None None None ∅ false [] [] [(32, 8)].

(** Files of 320 bytes followed by the dynamic section, with tags of 16
    bytes, and by the section header table, with entries of 64 bytes. *)
Definition tables_at_end : Footprint.layout := Footprint.mkLayout 512 64 320 16.

(** The small library with a [.rela.dyn] section of one entry at offset
    130, which refers to the symbol 2. *)
Definition sec_rela_dyn : Section := mkSection ".rela.dyn" (mkHeader 130 24 24 0) 24 true.

Definition reloc_objs (n : nat) : Section :=
  match n with
  | 0%nat => Examples.sec_dynsym
  | 1%nat => Examples.sec_symtab
  | 2%nat => sec_rela_dyn
  | _ => Examples.sec_none
  end.

Definition reloc_lib : ELFRemove :=
  mkELFRemove (replicate 320 x00) reloc_objs true EM_X86_64
    (Some [("DT_RELA", 130); ("DT_RELASZ", 24); ("DT_RELACOUNT", 0)]%string)
    (Some (mkSectionWrapper 0 3 0)) (Some (mkSectionWrapper 1 7 0))
    None None None None (Some (mkSectionWrapper 2 9 0)) None ∅ false [] [] [].

Definition one_relocation (f : list byte) (s : Section) : list Reloc :=
  [Examples.rela 296 2 6 0].

End Overwriter.

(** * Part II: theorems *)

(** ** Facts about the Python primitives *)

Section sorted_facts.
Context {A : Type} (le : A → A → bool).

Lemma insert_sorted_perm x l : Py.insert_sorted le x l ≡ₚ x :: l.
Proof.
  induction l as [|y l IH]; simpl; [done|].
  destruct (le x y); [done|]. rewrite IH. apply Permutation_swap.
Qed.

Lemma sorted_perm l : Py.sorted le l ≡ₚ l.
Proof.
  induction l as [|x l IH]; simpl; [done|].
  rewrite insert_sorted_perm. by f_equiv.
Qed.

Hypothesis le_total : ∀ x y, le x y = false → le y x = true.
Hypothesis le_trans : ∀ x y z, le x y = true → le y z = true → le x z = true.

Lemma insert_sorted_StronglySorted x l :
  StronglySorted (λ a b, le a b = true) l →
  StronglySorted (λ a b, le a b = true) (Py.insert_sorted le x l).
Proof.
  induction 1 as [|y l Hl IH Hy]; simpl.
  - repeat constructor.
  - destruct (le x y) eqn:Hxy.
    + constructor; [by constructor|]. constructor; [done|].
      eapply Forall_impl; [apply Hy|]. intros z Hz. by eapply le_trans.
    + constructor; [done|].
      rewrite insert_sorted_perm. constructor; [by apply le_total|done].
Qed.

Lemma sorted_StronglySorted l :
  StronglySorted (λ a b, le a b = true) (Py.sorted le l).
Proof.
  induction l as [|x l IH]; simpl; [constructor|].
  by apply insert_sorted_StronglySorted.
Qed.
End sorted_facts.

(** ** [get_keep_list] *)

Section keep_list.
Import KeepList.

Lemma keep_step_loop total_size addrs : ∀ done s,
  (let '(ranges, index) := foldl keep_step (done ++ [[s]], length done) addrs in
   alter (λ r, r ++ [total_size]) index ranges)
  = done ++ ranges_from s (filter (λ p, p.2 ≠ 0) addrs) total_size.
Proof.
  induction addrs as [|[a sz] addrs IH]; intros done s.
  - simpl. rewrite alter_app_r_alt by lia. by rewrite Nat.sub_diag.
  - cbn [foldl keep_step]. rewrite filter_cons. cbn [snd].
    destruct (Z.eqb_spec (a + sz) a) as [Heq|Hne].
    + rewrite decide_False by lia. apply IH.
    + rewrite decide_True by lia.
      rewrite alter_app_r_alt by lia. rewrite Nat.sub_diag. cbn [alter list_alter].
      specialize (IH (done ++ [[s; a]]) (a + sz)).
      rewrite length_app, Nat.add_comm in IH. cbn [length Nat.add] in IH.
      rewrite <- (assoc_L (++)) in IH. cbn [app] in IH.
      rewrite <- (assoc_L (++)). cbn [app]. rewrite IH.
      by rewrite <- (assoc_L (++)).
Qed.

Lemma keep_ranges_closed addrs total_size :
  keep_ranges addrs total_size
  = ranges_from 0 (filter (λ p, p.2 ≠ 0) addrs) total_size.
Proof. apply (keep_step_loop total_size addrs [] 0). Qed.

Lemma ranges_from_length s gaps t : length (ranges_from s gaps t) = S (length gaps).
Proof. revert s. induction gaps as [|[a sz] g IH]; intros s; simpl; [done|]. by rewrite IH. Qed.

Lemma ranges_from_head s gaps t : ∃ e, ranges_from s gaps t !! 0%nat = Some [s; e].
Proof. destruct gaps as [|[a sz] g]; simpl; eauto. Qed.

Lemma ranges_from_last s gaps t : ∃ s', ranges_from s gaps t !! length gaps = Some [s'; t].
Proof. revert s. induction gaps as [|[a sz] g IH]; intros s; simpl; eauto. Qed.

Lemma ranges_from_gap s gaps t i a sz :
  gaps !! i = Some (a, sz) →
  ∃ s' e, ranges_from s gaps t !! i = Some [s'; a]
          ∧ ranges_from s gaps t !! S i = Some [a + sz; e].
Proof.
  revert s i. induction gaps as [|[a' sz'] g IH]; intros s i Hi; [done|].
  destruct i as [|i]; simpl in *.
  - injection Hi as -> ->. destruct (ranges_from_head (a + sz) g t) as [e He].
    exists s, e. split; [done|]. exact He.
  - apply (IH (a' + sz')) in Hi. exact Hi.
Qed.

(** Without overlap the kept ranges are well formed and ascend. *)
Lemma ranges_from_ascending s gaps t :
  (∀ a sz, (a, sz) ∈ gaps → 0 < sz) →
  (∀ a sz, head gaps = Some (a, sz) → s ≤ a) →
  (∀ i a1 s1 a2 s2, gaps !! i = Some (a1, s1) → gaps !! S i = Some (a2, s2) → a1 + s1 ≤ a2) →
  (∀ a sz, last gaps = Some (a, sz) → a + sz ≤ t) →
  (gaps = [] → s ≤ t) →
  Forall (λ r, ∃ x y, r = [x; y] ∧ x ≤ y) (ranges_from s gaps t)
  ∧ ∀ i x1 y1 x2 y2, ranges_from s gaps t !! i = Some [x1; y1] →
      ranges_from s gaps t !! S i = Some [x2; y2] → y1 < x2.
Proof.
  revert s. induction gaps as [|[a sz] g IH]; intros s Hpos Hhd Hnext Hlast Hnil.
  - simpl. split; [repeat constructor; eauto|]. intros [|i]; done.
  - simpl. destruct (IH (a + sz)) as [IH1 IH2].
    + intros a' sz' Hin. apply (Hpos a' sz'). by right.
    + intros a' sz' Hh. destruct g as [|[b sb] g]; [done|]. simpl in Hh.
      injection Hh as -> ->. by apply (Hnext 0%nat a sz a' sz').
    + intros i a1 s1 a2 s2 H1 H2. by apply (Hnext (S i) a1 s1 a2 s2).
    + intros a' sz' Hl. apply (Hlast a' sz'). rewrite last_cons. by rewrite Hl.
    + intros ->. by apply (Hlast a sz).
    + split.
      * constructor; [|done]. exists s, a. split; [done|]. by apply (Hhd a sz).
      * intros [|i] x1 y1 x2 y2 H1 H2; simpl in *.
        -- injection H1 as <- <-. destruct (ranges_from_head (a + sz) g t) as [e He].
           rewrite He in H2. injection H2 as <- <-.
           assert (0 < sz) by (apply (Hpos a sz); by left). lia.
        -- by apply (IH2 i x1 y1 x2 y2).
Qed.
End keep_list.

Section keep_list_funcs.
Import KeepList.

Lemma foldl_add_dynsym_origin coll2 : ∀ (m : gmap Z Z) coll1 locals,
  (∀ a sz, m !! a = Some sz → has_origin coll1 locals a sz) →
  ∀ a sz, foldl add_dynsym_entry m coll2 !! a = Some sz →
          has_origin (coll1 ++ coll2) locals a sz.
Proof.
  induction coll2 as [|ent coll2 IH]; intros m coll1 locals Hm a sz.
  - simpl. rewrite app_nil_r. apply Hm.
  - simpl. replace (coll1 ++ ent :: coll2) with ((coll1 ++ [ent]) ++ coll2)
      by (by rewrite <- (assoc_L (++))).
    apply IH. intros a' sz'. unfold add_dynsym_entry.
    destruct ((sym_value ent =? 0) && (sym_size ent =? 0)).
    + intros H. destruct (Hm _ _ H) as [(e & He & ?)|?]; [left|by right].
      exists e. split; [|done]. apply elem_of_app. by left.
    + rewrite lookup_insert. case_decide as Hk.
      * intros [= <-]. left. exists ent. split; [|done]. apply elem_of_app. right. by left.
      * intros H. destruct (Hm _ _ H) as [(e & He & ?)|?]; [left|by right].
        exists e. split; [|done]. apply elem_of_app. by left.
Qed.

Lemma foldl_add_local_origin locals2 : ∀ (m : gmap Z Z) coll locals1,
  (∀ a sz, m !! a = Some sz → has_origin coll locals1 a sz) →
  ∀ a sz, foldl add_local_function m locals2 !! a = Some sz →
          has_origin coll (locals1 ++ locals2) a sz.
Proof.
  induction locals2 as [|[b sb] locals2 IH]; intros m coll locals1 Hm a sz.
  - simpl. rewrite app_nil_r. apply Hm.
  - simpl. replace (locals1 ++ (b, sb) :: locals2) with ((locals1 ++ [(b, sb)]) ++ locals2)
      by (by rewrite <- (assoc_L (++))).
    apply IH. intros a' sz'. unfold add_local_function. cbn [fst snd].
    rewrite lookup_insert. case_decide as Hk.
    + intros [= <-]. subst. right. apply elem_of_app. right. by left.
    + intros H. destruct (Hm _ _ H) as [?|?]; [by left|right]. apply elem_of_app. by left.
Qed.

Lemma addr_dict_origin coll locals a sz :
  addr_dict_of coll locals !! a = Some sz → has_origin coll locals a sz.
Proof.
  unfold addr_dict_of. intros H.
  apply (foldl_add_local_origin locals _ coll []) in H; [done|].
  intros a' sz' H'.
  apply (foldl_add_dynsym_origin coll ∅ [] []) in H'; [done|].
  intros ? ?. by rewrite lookup_empty.
Qed.

Lemma pair_le_total p q : Py.pair_le p q = false → Py.pair_le q p = true.
Proof. unfold Py.pair_le. destruct p, q; simpl. lia. Qed.

Lemma pair_le_trans p q r :
  Py.pair_le p q = true → Py.pair_le q r = true → Py.pair_le p r = true.
Proof. unfold Py.pair_le. destruct p, q, r; simpl. lia. Qed.

Lemma StronglySorted_strict_fst (l : list (Z * Z)) :
  StronglySorted (λ p q, Py.pair_le p q = true) l → NoDup (l.*1) →
  StronglySorted (λ p q, p.1 < q.1) l.
Proof.
  induction 1 as [|p l Hl IH Hp]; intros Hnd; [constructor|].
  simpl in Hnd. apply NoDup_cons in Hnd as [Hnotin Hnd].
  constructor; [by apply IH|].
  apply Forall_forall. intros q Hq.
  rewrite Forall_forall in Hp. specialize (Hp q Hq).
  assert (p.1 ≠ q.1).
  { intros Heq. apply Hnotin. rewrite Heq. apply list_elem_of_fmap. by exists q. }
  unfold Py.pair_le in Hp. lia.
Qed.

Lemma get_function_addresses_sorted coll locals :
  StronglySorted (λ p q, p.1 < q.1) (get_function_addresses coll locals).
Proof.
  unfold get_function_addresses. apply StronglySorted_strict_fst.
  - apply sorted_StronglySorted; [apply pair_le_total|apply pair_le_trans].
  - rewrite (sorted_perm Py.pair_le). apply NoDup_fst_map_to_list.
Qed.

Lemma get_function_addresses_origin coll locals a sz :
  (a, sz) ∈ get_function_addresses coll locals → has_origin coll locals a sz.
Proof.
  unfold get_function_addresses. rewrite (sorted_perm Py.pair_le).
  rewrite elem_of_map_to_list. apply addr_dict_origin.
Qed.
End keep_list_funcs.

Section keep_list_claim.
Import KeepList.

Lemma StronglySorted_filter_list {A} (R : relation A) (P : A → Prop)
    `{∀ x, Decision (P x)} (l : list A) :
  StronglySorted R l → StronglySorted R (filter P l).
Proof.
  induction 1 as [|x l Hl IH Hx]; [constructor|].
  rewrite filter_cons. case_decide; [|done].
  constructor; [done|]. apply Forall_forall. intros y Hy.
  apply list_elem_of_filter in Hy as [_ Hy]. rewrite Forall_forall in Hx. by apply Hx.
Qed.

(** C10 (amended).  [get_keep_list] returns one range more than there are
    removed functions of nonzero size (one per distinct address); the
    first range starts at 0, the last one ends at [total_size], the gap
    between range [i] and range [i+1] is exactly [a, a + sz) for the
    [i]-th such function in strictly ascending address order, and
    functions of size zero leave no gap.  The ranges themselves are well
    formed and ascending when the removed intervals do not overlap and
    end at or before [total_size]. *)
Theorem get_keep_list_gaps coll locals total_size :
  let gaps := filter (λ p, p.2 ≠ 0) (get_function_addresses coll locals) in
  let ranges := get_keep_list coll locals total_size in
  length ranges = S (length gaps)
  ∧ (∃ e, ranges !! 0%nat = Some [0; e])
  ∧ (∃ s, ranges !! length gaps = Some [s; total_size])
  ∧ (∀ i a sz, gaps !! i = Some (a, sz) →
       sz ≠ 0 ∧ has_origin coll locals a sz
       ∧ ∃ s e, ranges !! i = Some [s; a] ∧ ranges !! S i = Some [a + sz; e])
  ∧ StronglySorted (λ p q, p.1 < q.1) gaps
  ∧ ((∀ a sz, (a, sz) ∈ gaps → 0 ≤ a ∧ 0 < sz) →
     (∀ i a1 s1 a2 s2, gaps !! i = Some (a1, s1) → gaps !! S i = Some (a2, s2) →
        a1 + s1 ≤ a2) →
     (∀ a sz, last gaps = Some (a, sz) → a + sz ≤ total_size) →
     0 ≤ total_size →
     Forall (λ r, ∃ x y, r = [x; y] ∧ x ≤ y) ranges
     ∧ (∀ i x1 y1 x2 y2, ranges !! i = Some [x1; y1] → ranges !! S i = Some [x2; y2] →
          y1 < x2)).
Proof.
  intros gaps ranges.
  assert (Hr : ranges = ranges_from 0 gaps total_size) by apply keep_ranges_closed.
  rewrite Hr. split; [apply ranges_from_length|].
  split; [apply ranges_from_head|]. split; [apply ranges_from_last|].
  split; [|split].
  - intros i a sz Hi.
    assert (Hin : (a, sz) ∈ gaps) by (apply list_elem_of_lookup; eauto).
    apply list_elem_of_filter in Hin as [Hnz Hin]. split; [done|].
    split; [by apply get_function_addresses_origin|]. by apply ranges_from_gap.
  - apply StronglySorted_filter_list, get_function_addresses_sorted.
  - intros Hpos Hnext Hlast Htot. apply ranges_from_ascending; try done.
    + intros a sz Hin. by apply (Hpos a sz).
    + intros a sz Hh. apply (Hpos a sz). by apply head_Some_elem_of.
Qed.

(** Two functions that do not overlap: every premise of the last part of
    [get_keep_list_gaps] holds and the ranges ascend. *)
Lemma get_keep_list_gaps_witness :
  get_keep_list [mkSymbolWrapper "f" 3 1 16 8 0; mkSymbolWrapper "g" 4 3 32 4 0] [] 64
  = [[0; 16]; [24; 32]; [36; 64]]
  ∧ ∀ i x1 y1 x2 y2,
      get_keep_list [mkSymbolWrapper "f" 3 1 16 8 0; mkSymbolWrapper "g" 4 3 32 4 0] [] 64
        !! i = Some [x1; y1] →
      get_keep_list [mkSymbolWrapper "f" 3 1 16 8 0; mkSymbolWrapper "g" 4 3 32 4 0] [] 64
        !! S i = Some [x2; y2] → y1 < x2.
Proof.
  split; [vm_compute; reflexivity|].
  pose proof (get_keep_list_gaps
    [mkSymbolWrapper "f" 3 1 16 8 0; mkSymbolWrapper "g" 4 3 32 4 0] [] 64) as H.
  cbv zeta in H. destruct H as (_ & _ & _ & _ & _ & H).
  apply H.
  - assert (Hg : filter (λ p : Z * Z, p.2 ≠ 0)
      (get_function_addresses
         [mkSymbolWrapper "f" 3 1 16 8 0; mkSymbolWrapper "g" 4 3 32 4 0] [])
      = [(16, 8); (32, 4)]) by (vm_compute; reflexivity).
    rewrite Hg. intros a sz Hin.
    apply elem_of_cons in Hin as [[= -> ->]|Hin]; [lia|].
    apply elem_of_cons in Hin as [[= -> ->]|Hin]; [lia|]. by apply elem_of_nil in Hin.
  - assert (Hg : filter (λ p : Z * Z, p.2 ≠ 0)
      (get_function_addresses
         [mkSymbolWrapper "f" 3 1 16 8 0; mkSymbolWrapper "g" 4 3 32 4 0] [])
      = [(16, 8); (32, 4)]) by (vm_compute; reflexivity).
    rewrite Hg. intros [|[|i]] a1 s1 a2 s2 H1 H2; simpl in *; simplify_eq; lia.
  - assert (Hg : filter (λ p : Z * Z, p.2 ≠ 0)
      (get_function_addresses
         [mkSymbolWrapper "f" 3 1 16 8 0; mkSymbolWrapper "g" 4 3 32 4 0] [])
      = [(16, 8); (32, 4)]) by (vm_compute; reflexivity).
    rewrite Hg. intros a sz Hl. simpl in Hl. simplify_eq. lia.
  - lia.
Defined.

(** C10 as stated fails when removed functions overlap: the function at
    address 20 lies inside the one at [10, 110), and the returned ranges
    ascend neither by their starts nor by their ends. *)
Lemma get_keep_list_not_ascending :
  get_keep_list [mkSymbolWrapper "f" 3 1 10 100 0; mkSymbolWrapper "g" 4 3 20 5 0] [] 15
  = [[0; 10]; [110; 20]; [25; 15]]
  ∧ ¬ ascending_by range_start
        (get_keep_list [mkSymbolWrapper "f" 3 1 10 100 0; mkSymbolWrapper "g" 4 3 20 5 0] [] 15)
  ∧ ¬ ascending_by range_end
        (get_keep_list [mkSymbolWrapper "f" 3 1 10 100 0; mkSymbolWrapper "g" 4 3 20 5 0] [] 15).
Proof.
  assert (Hr : get_keep_list
    [mkSymbolWrapper "f" 3 1 10 100 0; mkSymbolWrapper "g" 4 3 20 5 0] [] 15
    = [[0; 10]; [110; 20]; [25; 15]]) by (vm_compute; reflexivity).
  rewrite Hr. split; [done|]. split; intros H.
  - specialize (H 1%nat [110; 20] [25; 15] eq_refl eq_refl). vm_compute in H. by apply H.
  - specialize (H 1%nat [110; 20] [25; 15] eq_refl eq_refl). vm_compute in H. by apply H.
Qed.
End keep_list_claim.

(** ** The symbol collector *)

Section collector.
Import Collector.
Context (blacklist : list string) (sec_version : Z)
        (in_input : Symbol → bool) (complement : bool).

Local Abbreviation collected_from :=
  (Collector.collected_from blacklist sec_version in_input complement).

Lemma collect_step_loop symbols : ∀ i found,
  foldl (collect_step blacklist sec_version in_input complement)
        (Z.of_nat i - 1, found) symbols
  = (Z.of_nat (i + length symbols) - 1, found ++ collected_from i symbols).
Proof.
  induction symbols as [|s symbols IH]; intros i found.
  - simpl. by rewrite Nat.add_0_r, app_nil_r.
  - cbn [foldl collected_from length]. unfold collect_step at 2.
    replace (Z.of_nat i - 1 + 1) with (Z.of_nat (S i) - 1) by lia.
    replace (i + S (length symbols))%nat with (S i + length symbols)%nat by lia.
    destruct (bool_decide (name s ∈ blacklist)); [apply IH|].
    destruct ((complement && negb (in_input s)) || (negb complement && in_input s));
      [|apply IH].
    destruct (is_STT_FUNC (st_info_type s)); cbn [negb]; [|apply IH].
    rewrite IH. f_equal. rewrite <- (assoc_L (++)). f_equal. cbn [app]. f_equal.
    unfold ref_of. f_equal. lia.
Qed.

Lemma collect_loop_closed symbols :
  collect_loop blacklist sec_version in_input complement symbols
  = collected_from 0 symbols.
Proof.
  unfold collect_loop. change (-1) with (Z.of_nat 0 - 1).
  by rewrite (collect_step_loop symbols 0 []).
Qed.

Lemma is_STT_FUNC_true t : is_STT_FUNC t = true ↔ t = STT_FUNC.
Proof. destruct t; simpl; split; congruence. Qed.

Lemma selected_test s :
  selected blacklist in_input complement s ↔
  bool_decide (name s ∈ blacklist) = false
  ∧ (complement && negb (in_input s)) || (negb complement && in_input s) = true
  ∧ is_STT_FUNC (st_info_type s) = true.
Proof.
  unfold selected. rewrite is_STT_FUNC_true, bool_decide_eq_false.
  destruct complement, (in_input s); simpl; intuition congruence.
Qed.

Lemma elem_of_collected_from symbols : ∀ i w,
  w ∈ collected_from i symbols ↔
  ∃ j s, symbols !! j = Some s ∧ selected blacklist in_input complement s
         ∧ w = ref_of sec_version (i + j) s.
Proof.
  induction symbols as [|s symbols IH]; intros i w.
  - simpl. split; [by intros ?%elem_of_nil|]. by intros (j & s & ? & _).
  - cbn [collected_from]. rewrite elem_of_app, IH. split.
    + intros [Hw|(j & s' & Hj & Hsel & ->)].
      * destruct (bool_decide (name s ∈ blacklist)) eqn:Hb; [by apply elem_of_nil in Hw|].
        destruct ((complement && negb (in_input s)) || (negb complement && in_input s)) eqn:Hm;
          [|by apply elem_of_nil in Hw].
        destruct (is_STT_FUNC (st_info_type s)) eqn:Hf; [|by apply elem_of_nil in Hw].
        apply list_elem_of_singleton in Hw as ->.
        exists 0%nat, s. split; [done|]. split; [by apply selected_test|].
        by rewrite Nat.add_0_r.
      * exists (S j), s'. split; [done|]. split; [done|]. f_equal. lia.
    + intros (j & s' & Hj & Hsel & ->). destruct j as [|j].
      * left. simpl in Hj. injection Hj as ->.
        apply selected_test in Hsel as (-> & -> & ->).
        rewrite Nat.add_0_r. by apply list_elem_of_singleton.
      * right. exists j, s'. split; [done|]. split; [done|]. f_equal. lia.
Qed.

Lemma collected_from_indices symbols : ∀ i,
  StronglySorted Z.lt (sym_index <$> collected_from i symbols)
  ∧ Forall (λ w, Z.of_nat i ≤ sym_index w) (collected_from i symbols).
Proof.
  induction symbols as [|s symbols IH]; intros i.
  - simpl. split; constructor.
  - destruct (IH (S i)) as [IH1 IH2].
    assert (Hlt : Forall (λ w, Z.of_nat i < sym_index w) (collected_from (S i) symbols)).
    { eapply Forall_impl; [exact IH2|]. intros w. simpl. lia. }
    cbn [collected_from].
    destruct (bool_decide (name s ∈ blacklist)); cbn [app];
      [split; [done|]; eapply Forall_impl; [exact Hlt|]; intros w; simpl; lia|].
    destruct ((complement && negb (in_input s)) || (negb complement && in_input s));
      cbn [app];
      [|split; [done|]; eapply Forall_impl; [exact Hlt|]; intros w; simpl; lia].
    destruct (is_STT_FUNC (st_info_type s)); cbn [app];
      [|split; [done|]; eapply Forall_impl; [exact Hlt|]; intros w; simpl; lia].
    split.
    + cbn [fmap list_fmap]. constructor; [done|].
      apply Forall_fmap. eapply Forall_impl; [exact Hlt|]. intros w. simpl. lia.
    + constructor; [simpl; lia|].
      eapply Forall_impl; [exact Hlt|]. intros w. simpl. lia.
Qed.
End collector.

Section collector_claim.
Import Collector.
Variable iter_symbols : list byte → Section → list Symbol.

Lemma collect_loop_exact blacklist sec_version in_input complement symbols :
  exact_collection blacklist sec_version in_input complement symbols
    (collect_loop blacklist sec_version in_input complement symbols).
Proof.
  rewrite collect_loop_closed. split.
  - intros w. rewrite elem_of_collected_from. by setoid_rewrite Nat.add_0_l.
  - apply collected_from_indices.
Qed.

(** C7.  Both collectors return exactly one ref, in table order and with
    the section's current version, for each entry of the table that is an
    [STT_FUNC], is not blacklisted ([_init], [_fini]) and matches the input
    set (does not match it under [complement]); nothing else is returned,
    and storing the result changes neither the file nor the sections. *)
Theorem collect_symbols_exact (self : ELFRemove) (sec : SectionWrapper) (complement : bool) :
  let symbols := iter_symbols (_f self) (objs self (section sec)) in
  (∀ symbol_list,
     exact_collection ["_init"; "_fini"]%string (version sec)
       (λ s, bool_decide (name s ∈ symbol_list)) complement symbols
       (collect_symbols_by_name iter_symbols self sec symbol_list complement))
  ∧ (∀ address_list,
     exact_collection ["_init"; "_fini"]%string (version sec)
       (λ s, bool_decide (st_value s ∈ address_list)) complement symbols
       (collect_symbols_by_address iter_symbols self sec address_list complement))
  ∧ (∀ names addrs self',
     collect_symbols_in_dynsym iter_symbols self names addrs complement = Py.Ok self'
     ∨ collect_symbols_in_symtab iter_symbols self names addrs complement = Py.Ok self' →
     _f self' = _f self ∧ objs self' = objs self
     ∧ dynsym self' = dynsym self ∧ symtab self' = symtab self).
Proof.
  intros symbols. split; [|split].
  - intros symbol_list. apply collect_loop_exact.
  - intros address_list. apply collect_loop_exact.
  - intros names addrs self' [H|H].
    + unfold collect_symbols_in_dynsym in H.
      destruct (collect_symbols_in_section _ _ _ _ _ _); simpl in H; [|done].
      by injection H as <-.
    + unfold collect_symbols_in_symtab in H.
      destruct (collect_symbols_in_section _ _ _ _ _ _); simpl in H; [|done].
      by injection H as <-.
Qed.
End collector_claim.

(** On the small library, asking for [foo], [data] and [_init] by name
    yields the single ref of [foo] (index 2), and storing it leaves the
    file untouched. *)
Lemma collect_symbols_exact_witness :
  Collector.collect_symbols_by_name Examples.small_iter_symbols Examples.small_lib
    (mkSectionWrapper 0 3 0) ["foo"; "data"; "_init"]%string false
  = [mkSymbolWrapper "foo" 2 7 32 8 0]
  ∧ mkSymbolWrapper "foo" 2 7 32 8 0
    ∈ Collector.collect_symbols_by_name Examples.small_iter_symbols Examples.small_lib
        (mkSectionWrapper 0 3 0) ["foo"; "data"; "_init"]%string false
  ∧ ∀ self',
      Collector.collect_symbols_in_dynsym Examples.small_iter_symbols Examples.small_lib
        (Some ["foo"]%string) None false = Py.Ok self' →
      _f self' = _f Examples.small_lib.
Proof.
  pose proof (collect_symbols_exact Examples.small_iter_symbols Examples.small_lib
                (mkSectionWrapper 0 3 0) false) as (Hname & _ & Hframe).
  split; [vm_compute; reflexivity|]. split.
  - apply (Hname ["foo"; "data"; "_init"]%string).
    exists 2%nat, (mkSymbol "foo" 7 32 8 STT_FUNC).
    split; [reflexivity|]. split; [|reflexivity].
    split; [reflexivity|]. split; [|vm_compute; reflexivity].
    cbn. intros H. repeat (apply elem_of_cons in H as [H|H]; [discriminate H|]).
    by apply elem_of_nil in H.
  - intros self' H. apply (Hframe (Some ["foo"]%string) None self'). by left.
Defined.

(** ** The SysV hash table *)

Section bisect.

Lemma StronglySorted_lookup_le (a : list Z) i j y z :
  StronglySorted Z.le a → (i ≤ j)%nat → a !! i = Some y → a !! j = Some z → y ≤ z.
Proof.
  intros Hs. revert i j. induction Hs as [|x a Hs IH Hx]; intros i j Hij Hi Hj; [done|].
  destruct i as [|i], j as [|j]; simpl in *; try lia.
  - simplify_eq. lia.
  - simplify_eq. rewrite Forall_forall in Hx. apply Hx. by eapply list_elem_of_lookup_2.
  - apply (IH i j); [lia|done..].
Qed.

Lemma bisect_right_loop_spec (a : list Z) (x : Z) :
  StronglySorted Z.le a →
  ∀ fuel lo hi,
    (lo ≤ hi ≤ length a)%nat → (hi - lo ≤ fuel)%nat →
    (∀ i y, (i < lo)%nat → a !! i = Some y → y ≤ x) →
    (∀ i y, (hi ≤ i)%nat → a !! i = Some y → x < y) →
    let r := SysvHash.bisect_right_loop a x fuel lo hi in
    (lo ≤ r ≤ hi)%nat
    ∧ (∀ i y, (i < r)%nat → a !! i = Some y → y ≤ x)
    ∧ (∀ i y, (r ≤ i)%nat → a !! i = Some y → x < y).
Proof.
  intros Hs. induction fuel as [|fuel IH]; intros lo hi Hb Hf Hlo Hhi.
  - simpl. assert (lo = hi) as -> by lia. split; [lia|]. split; [exact Hlo|exact Hhi].
  - cbn [SysvHash.bisect_right_loop].
    destruct (Nat.ltb_spec lo hi) as [Hlt|Hge].
    + pose proof (Nat.Div0.div_le_upper_bound (lo + hi) 2 hi) as Hup.
      pose proof (Nat.div_le_lower_bound (lo + hi) 2 lo) as Hdown.
      assert (Hmid : (lo ≤ (lo + hi) / 2 < hi)%nat).
      { split; [apply Hdown; lia|].
        apply Nat.Div0.div_lt_upper_bound. lia. }
      set (mid := ((lo + hi) / 2)%nat) in *.
      destruct (a !! mid) as [y|] eqn:Hy.
      2:{ apply lookup_ge_None in Hy. lia. }
      destruct (Z.ltb_spec x y) as [Hxy|Hxy].
      * destruct (IH lo mid) as (Hr & H1 & H2); [lia|lia|exact Hlo| |].
        { intros i z Hi Hz. pose proof (StronglySorted_lookup_le a mid i y z Hs Hi Hy Hz). lia. }
        split; [lia|]. split; [exact H1|exact H2].
      * destruct (IH (mid + 1)%nat hi) as (Hr & H1 & H2); [lia|lia| |exact Hhi|].
        { intros i z Hi Hz.
          assert (i ≤ mid)%nat as Hi' by lia.
          pose proof (StronglySorted_lookup_le a i mid z y Hs Hi' Hz Hy). lia. }
        split; [lia|]. split; [exact H1|exact H2].
    + assert (lo = hi) as -> by lia. split; [lia|]. split; [exact Hlo|exact Hhi].
Qed.

Lemma bisect_spec (a : list Z) (x : Z) :
  StronglySorted Z.le a →
  (SysvHash.bisect a x ≤ length a)%nat
  ∧ (∀ i y, (i < SysvHash.bisect a x)%nat → a !! i = Some y → y ≤ x)
  ∧ (∀ i y, (SysvHash.bisect a x ≤ i)%nat → a !! i = Some y → x < y).
Proof.
  intros Hs. unfold SysvHash.bisect.
  destruct (bisect_right_loop_spec a x Hs (length a) 0 (length a)) as (Hr & H1 & H2).
  - lia.
  - lia.
  - intros i y Hi. lia.
  - intros i y Hi Hy. apply lookup_lt_Some in Hy. lia.
  - split; [lia|]. split; [exact H1|exact H2].
Qed.

Lemma options_sorted : StronglySorted Z.le SysvHash.options.
Proof.
  unfold SysvHash.options.
  repeat (constructor; [|repeat (constructor; [lia|]); constructor]). constructor.
Qed.

(** [_calc_nbuckets] picks the largest entry of the schedule that does not
    exceed [n], as soon as there is one. *)
Lemma calc_nbuckets_largest (n : Z) :
  1 ≤ n →
  ∃ nbuckets, SysvHash._calc_nbuckets n = Py.Ok nbuckets
    ∧ nbuckets ∈ SysvHash.options ∧ nbuckets ≤ n
    ∧ ∀ b, b ∈ SysvHash.options → b ≤ n → b ≤ nbuckets.
Proof.
  intros Hn. unfold SysvHash._calc_nbuckets.
  destruct (bisect_spec SysvHash.options n options_sorted) as (Hlen & H1 & H2).
  set (r := SysvHash.bisect SysvHash.options n) in *.
  assert (Hr : (1 ≤ r)%nat).
  { destruct r as [|r]; [|lia]. specialize (H2 0%nat 1 (Nat.le_refl _) eq_refl). lia. }
  unfold Py.getitem.
  rewrite (proj2 (andb_true_iff _ _)) by (split; [apply Z.leb_le|apply Z.ltb_lt]; lia).
  replace (Z.to_nat (Z.of_nat r - 1)) with (r - 1)%nat by lia.
  destruct (SysvHash.options !! (r - 1)%nat) as [b|] eqn:Hb.
  2:{ apply lookup_ge_None in Hb. lia. }
  exists b. split; [done|]. split; [by eapply list_elem_of_lookup_2|].
  split; [apply (H1 (r - 1)%nat); [lia|done]|].
  intros b' Hb' Hle. apply list_elem_of_lookup in Hb' as [j Hj].
  destruct (Nat.le_gt_cases r j) as [Hrj|Hrj].
  - specialize (H2 j b' Hrj Hj). lia.
  - apply (StronglySorted_lookup_le SysvHash.options j (r - 1) b' b options_sorted);
      [lia|done..].
Qed.

End bisect.

Section sysv_tables.
Import SysvHash.
Variable nbuckets : Z.

Lemma build_tables_snoc l s :
  build_tables nbuckets (l ++ [s])
  = hash_step nbuckets (build_tables nbuckets l) (length l, s).
Proof.
  unfold build_tables. rewrite imap_app, foldl_app. simpl.
  by rewrite Nat.add_0_r.
Qed.

Lemma is_last_in_bucket_snoc_new l s :
  is_last_in_bucket nbuckets (l ++ [s]) (bucket_of nbuckets s) (length l).
Proof.
  exists s. split; [by rewrite lookup_app_r, Nat.sub_diag by lia|]. split; [done|].
  intros j s' Hj Hs'. apply lookup_lt_Some in Hs'. rewrite length_app in Hs'. simpl in Hs'. lia.
Qed.

Lemma is_last_in_bucket_snoc_inv l s b i :
  is_last_in_bucket nbuckets (l ++ [s]) b i →
  (i = length l ∧ b = bucket_of nbuckets s)
  ∨ (b ≠ bucket_of nbuckets s ∧ is_last_in_bucket nbuckets l b i).
Proof.
  intros (s0 & Hi & Hb & Hlast).
  destruct (decide (i = length l)) as [->|Hne].
  - left. split; [done|]. rewrite lookup_app_r, Nat.sub_diag in Hi by lia.
    simpl in Hi. by simplify_eq.
  - assert (i < length l)%nat as Hlt.
    { apply lookup_lt_Some in Hi. rewrite length_app in Hi. simpl in Hi. lia. }
    right. split.
    + intros ->. apply (Hlast (length l) s Hlt); [|done].
      by rewrite lookup_app_r, Nat.sub_diag by lia.
    + exists s0. rewrite lookup_app_l in Hi by done. split; [done|]. split; [done|].
      intros j s' Hj Hs'. apply (Hlast j s' Hj).
      rewrite lookup_app_l; [done|]. by eapply lookup_lt_Some.
Qed.

Lemma is_last_in_bucket_snoc_old l s b i :
  b ≠ bucket_of nbuckets s → is_last_in_bucket nbuckets l b i →
  is_last_in_bucket nbuckets (l ++ [s]) b i.
Proof.
  intros Hb (s0 & Hi & Hb0 & Hlast). exists s0.
  split; [rewrite lookup_app_l; [done|by eapply lookup_lt_Some]|]. split; [done|].
  intros j s' Hj Hs'. destruct (decide (j < length l)%nat) as [Hlt|Hge].
  - rewrite lookup_app_l in Hs' by done. by apply (Hlast j s').
  - rewrite lookup_app_r in Hs' by lia.
    destruct (j - length l)%nat; simpl in Hs'; [|done]. by simplify_eq.
Qed.

Lemma chain_link_snoc_old l s i v :
  (i < length l)%nat → chain_link nbuckets l i v → chain_link nbuckets (l ++ [s]) i v.
Proof.
  intros Hlt (s0 & Hi & H). exists s0.
  split; [by rewrite lookup_app_l|]. by rewrite take_app_le by lia.
Qed.

(** The tables built from [l]: the bucket heads are the last members of
    the buckets, and every chain entry links to the previous head. *)
Lemma build_tables_spec l :
  let '(new_buckets, new_chains) := build_tables nbuckets l in
  (∀ b v, new_buckets !! b = Some v ↔
          ∃ i, v = Z.of_nat i ∧ is_last_in_bucket nbuckets l b i)
  ∧ (∀ i, (i < length l)%nat →
          ∃ v, new_chains !! Z.of_nat i = Some v ∧ chain_link nbuckets l i v).
Proof.
  induction l as [|s l IH] using rev_ind.
  - simpl. split.
    + intros b v. rewrite lookup_empty. split; [done|]. by intros (i & _ & s & ? & _).
    + intros i Hi. simpl in Hi. lia.
  - rewrite build_tables_snoc.
    destruct (build_tables nbuckets l) as [bk ch]. destruct IH as [IHb IHc].
    cbn [hash_step]. fold (bucket_of nbuckets s). split.
    + intros b v. rewrite lookup_insert. case_decide as Hb.
      * subst b. split.
        -- intros [= <-]. exists (length l). split; [done|]. apply is_last_in_bucket_snoc_new.
        -- intros (i & -> & Hi). apply is_last_in_bucket_snoc_inv in Hi as [[-> _]|[? _]]; done.
      * rewrite IHb. split.
        -- intros (i & -> & Hi). exists i. split; [done|].
           apply is_last_in_bucket_snoc_old; [congruence|done].
        -- intros (i & -> & Hi). exists i. split; [done|].
           apply is_last_in_bucket_snoc_inv in Hi as [[_ ->]|[_ Hi]]; done.
    + intros i Hi. rewrite length_app in Hi. simpl in Hi.
      rewrite lookup_insert. case_decide as Hk.
      * assert (i = length l) as -> by lia.
        eexists. split; [done|]. exists s.
        split; [by rewrite lookup_app_r, Nat.sub_diag by lia|].
        rewrite take_app_length.
        destruct (bk !! bucket_of nbuckets s) as [v|] eqn:Hv; simpl.
        -- right. apply IHb in Hv as (j & -> & Hj). by exists j.
        -- left. split; [done|]. intros j Hj.
           assert (bk !! bucket_of nbuckets s = Some (Z.of_nat j)) as Hsome
             by (apply IHb; by exists j).
           congruence.
      * assert (i < length l)%nat as Hlt by lia.
        destruct (IHc i Hlt) as (v & Hv & Hlink).
        exists v. split; [done|]. by apply chain_link_snoc_old.
Qed.

End sysv_tables.

(** ** Facts about the file operations *)

Section file_facts.

Lemma write_lookup f p d f' :
  File.write f p d = Py.Ok f' →
  0 ≤ p
  ∧ ∀ i : nat,
      f' !! i =
      if decide (Z.to_nat p ≤ i < Z.to_nat p + length d)%nat then d !! (i - Z.to_nat p)%nat
      else if decide (length f ≤ i < Z.to_nat p ∧ 0 < length d)%nat then Some x00
      else f !! i.
Proof.
  unfold File.write. destruct (Z.ltb_spec p 0) as [|Hp]; [done|].
  destruct d as [|b d].
  { intros [= <-]. split; [done|]. intros i. cbn [length].
    rewrite decide_False by lia. by rewrite decide_False by lia. }
  set (d' := b :: d). assert (Hd : (0 < length d')%nat) by (simpl; lia). clearbody d'.
  intros [= <-]. split; [done|]. intros i.
  set (n := Z.to_nat p).
  assert (Hlen1 : length (take n f) = (n `min` length f)%nat) by apply length_take.
  destruct (decide (i < n `min` length f)%nat) as [H1|H1].
  { rewrite lookup_app_l by lia. rewrite lookup_take_lt by lia.
    rewrite decide_False by lia. by rewrite decide_False by lia. }
  rewrite lookup_app_r by lia. rewrite Hlen1.
  destruct (decide (i - n `min` length f < n - length f)%nat) as [H2|H2].
  { rewrite lookup_app_l by (rewrite length_replicate; lia).
    rewrite lookup_replicate_2 by lia.
    rewrite decide_False by lia. by rewrite decide_True by lia. }
  rewrite lookup_app_r by (rewrite length_replicate; lia). rewrite length_replicate.
  destruct (decide (i < n + length d')%nat) as [H3|H3].
  { rewrite lookup_app_l by lia. rewrite decide_True by lia. f_equal. lia. }
  rewrite lookup_app_r by lia. rewrite lookup_drop.
  rewrite decide_False by lia. rewrite decide_False by lia. f_equal. lia.
Qed.

Lemma write_length f p d f' :
  File.write f p d = Py.Ok f' →
  (0 < length d)%nat →
  length f' = (length f `max` (Z.to_nat p + length d))%nat.
Proof.
  unfold File.write. destruct (p <? 0); [done|].
  destruct d as [|b d]; [simpl; lia|].
  set (d' := b :: d). clearbody d'. intros [= <-] _.
  rewrite !length_app, length_take, length_replicate, length_drop. lia.
Qed.

Lemma write_length_le f p d f' :
  File.write f p d = Py.Ok f' → (length f ≤ length f')%nat.
Proof.
  unfold File.write. destruct (p <? 0); [done|].
  destruct d as [|b d]; [by intros [= <-]|].
  set (d' := b :: d). clearbody d'. intros [= <-].
  rewrite !length_app, length_take, length_replicate, length_drop. lia.
Qed.

Lemma write_total f p d : 0 ≤ p → ∃ f', File.write f p d = Py.Ok f'.
Proof.
  intros Hp. unfold File.write. destruct (Z.ltb_spec p 0); [lia|]. destruct d; eauto.
Qed.

Lemma read_from_lookup f p (t : list byte) :
  0 ≤ p →
  (∀ i, (i < length t)%nat → f !! (Z.to_nat p + i)%nat = t !! i) →
  File.read f p (Z.of_nat (length t)) = Py.Ok t.
Proof.
  intros Hp H. unfold File.read.
  destruct (Z.ltb_spec p 0); [lia|]. destruct (Z.ltb_spec (Z.of_nat (length t)) 0); [lia|].
  f_equal. apply list_eq. intros i. rewrite Nat2Z.id.
  destruct (decide (i < length t)%nat) as [Hi|Hi].
  - rewrite lookup_take_lt by done. rewrite lookup_drop. by apply H.
  - rewrite lookup_take_ge by lia. symmetry. apply lookup_ge_None. lia.
Qed.

Lemma length_le_bytes n v : length (File.le_bytes n v) = n.
Proof. revert v. induction n as [|n IH]; intros v; simpl; [done|]. by rewrite IH. Qed.

Lemma length_ordered little l : length (File.ordered little l) = length l.
Proof. destruct little; simpl; [done|]. apply length_reverse. Qed.

Lemma to_bytes_length little n v b : File.to_bytes little n v = Py.Ok b → length b = n.
Proof.
  unfold File.to_bytes. destruct (_ && _); [|done]. intros [= <-].
  by rewrite length_ordered, length_le_bytes.
Qed.

Lemma pack_unsigned_length little n v b :
  File.pack_unsigned little n v = Py.Ok b → length b = n.
Proof.
  unfold File.pack_unsigned. destruct (_ && _); [|done]. intros [= <-].
  by rewrite length_ordered, length_le_bytes.
Qed.

Lemma pack_signed_length little n v b :
  File.pack_signed little n v = Py.Ok b → length b = n.
Proof.
  unfold File.pack_signed. destruct (_ && _); [|done]. intros [= <-].
  by rewrite length_ordered, length_le_bytes.
Qed.

Lemma table_bytes_length little d n : ∀ i bs,
  SysvHash.table_bytes little d i n = Py.Ok bs → length bs = (4 * n)%nat.
Proof.
  induction n as [|n IH]; intros i bs; simpl; [by intros [= <-]|].
  destruct (File.to_bytes little 4 _) as [b|] eqn:Hb; simpl; [|done].
  destruct (SysvHash.table_bytes little d (i + 1) n) as [bs'|] eqn:Hbs; simpl; [|done].
  intros [= <-]. rewrite length_app, (to_bytes_length _ _ _ _ Hb), (IH _ _ Hbs). lia.
Qed.

End file_facts.

Lemma bind_Ok {A B} (m : Py.result A) (k : A → Py.result B) b :
  Py.bind m k = Py.Ok b → ∃ a, m = Py.Ok a ∧ k a = Py.Ok b.
Proof. destruct m as [a|e]; simpl; [eauto|done]. Qed.

Ltac bind_inv H :=
  let a := fresh "a" in
  let Ha := fresh "H" a in
  apply bind_Ok in H as (a & Ha & H).

Section set_section_attribute.
Import Elf.

Lemma set_section_attribute_f self sec a v sub self' :
  _set_section_attribute self sec a v sub = Py.Ok self' → _f self' = _f self.
Proof.
  unfold _set_section_attribute. destruct (index sec =? -1); [by intros [= <-]|].
  intros H. bind_inv H. destruct (_ <? _); [done|]. bind_inv H. by injection H as <-.
Qed.

Lemma set_section_attribute_value self sec a v self' :
  _set_section_attribute self sec a v false = Py.Ok self' →
  index sec ≠ -1 →
  header_get a (header (objs self' (section sec))) = v.
Proof.
  unfold _set_section_attribute. destruct (Z.eqb_spec (index sec) (-1)); [done|].
  intros H _. bind_inv H. destruct (_ <? _); [done|]. bind_inv H. injection H as <-.
  simpl. rewrite fn_lookup_insert. by destruct a.
Qed.

End set_section_attribute.

Section recreate_elf_hash.
Import SysvHash.
Variable iter_symbols : list byte → Section → list Symbol.
Variable ELFHashTable_nchains : list byte → Z → Z.

(** C4.  Rebuilding [.hash] for a table of [n_chains >= 1] symbols picks
    the largest [nbuckets] of the schedule that is at most [n_chains];
    symbol [i] is inserted at the head of bucket
    [elf_hash(name) mod nbuckets], its chain entry taking the previous
    head, so that in the end every bucket holds its last member and every
    chain entry the previous member of the same bucket (0 if none); the
    table [nbuckets, nchain, buckets, chains] is written at the offset of
    the section, and the size of a section that has a header becomes
    [(2 + nbuckets + nchain) * 4]. *)
Theorem recreate_elf_hash_correct self dynsym n_removed_syms elf_hash self' :
  _elf_hash self = Some elf_hash →
  let hdr := header (objs self (section elf_hash)) in
  let n_chains := ELFHashTable_nchains (_f self) (sh_offset hdr) - n_removed_syms in
  let symbols := iter_symbols (_f self) (objs self (section dynsym)) in
  1 ≤ n_chains →
  _recreate_elf_hash iter_symbols ELFHashTable_nchains self dynsym n_removed_syms
    = Py.Ok self' →
  ∃ nbuckets new_buckets new_chains hb hc out_buckets out_chains,
    (nbuckets ∈ options ∧ nbuckets ≤ n_chains
     ∧ ∀ b, b ∈ options → b ≤ n_chains → b ≤ nbuckets)
    ∧ build_tables nbuckets symbols = (new_buckets, new_chains)
    ∧ (∀ i s, symbols !! i = Some s →
         build_tables nbuckets (take (S i) symbols)
         = let '(bk, ch) := build_tables nbuckets (take i symbols) in
           (<[bucket_of nbuckets s := Z.of_nat i]> bk,
            <[Z.of_nat i := default 0 (bk !! bucket_of nbuckets s)]> ch))
    ∧ (∀ b v, new_buckets !! b = Some v ↔
              ∃ i, v = Z.of_nat i ∧ is_last_in_bucket nbuckets symbols b i)
    ∧ (∀ i, (i < length symbols)%nat →
            ∃ v, new_chains !! Z.of_nat i = Some v ∧ chain_link nbuckets symbols i v)
    ∧ File.to_bytes (little_endian self) 4 nbuckets = Py.Ok hb
    ∧ File.to_bytes (little_endian self) 4 n_chains = Py.Ok hc
    ∧ table_bytes (little_endian self) new_buckets 0 (Z.to_nat nbuckets) = Py.Ok out_buckets
    ∧ table_bytes (little_endian self) new_chains 0 (Z.to_nat n_chains) = Py.Ok out_chains
    ∧ File.read (_f self') (sh_offset hdr) (8 + 4 * nbuckets + 4 * n_chains)
      = Py.Ok (hb ++ hc ++ out_buckets ++ out_chains)
    ∧ (index elf_hash ≠ -1 →
       sh_size (header (objs self' (section elf_hash))) = (2 + nbuckets + n_chains) * 4).
Proof.
  intros Hsec hdr n_chains symbols Hn H.
  unfold _recreate_elf_hash in H. rewrite Hsec in H.
  fold hdr n_chains symbols in H.
  destruct (calc_nbuckets_largest n_chains Hn) as (nbuckets & Hnb & Hin & Hle & Hmax).
  rewrite Hnb in H. cbn [Py.bind] in H.
  destruct (build_tables nbuckets symbols) as [new_buckets new_chains] eqn:Htab.
  bind_inv H. rename a into f0, Ha into Hf0.
  bind_inv H. rename a into hb, Ha into Hhb.
  bind_inv H. rename a into f1, Ha into Hf1.
  bind_inv H. rename a into hc, Ha into Hhc.
  bind_inv H. rename a into f2, Ha into Hf2.
  bind_inv H. rename a into out_buckets, Ha into Hob.
  bind_inv H. rename a into f3, Ha into Hf3.
  bind_inv H. rename a into out_chains, Ha into Hoc.
  bind_inv H. rename a into f4, Ha into Hf4.
  exists nbuckets, new_buckets, new_chains, hb, hc, out_buckets, out_chains.
  split; [done|]. split; [done|].
  pose proof (build_tables_spec nbuckets symbols) as Hspec. rewrite Htab in Hspec.
  destruct Hspec as [Hspec_b Hspec_c].
  split.
  { intros i s Hi.
    rewrite (take_S_r _ _ _ Hi), build_tables_snoc.
    assert (length (take i symbols) = i) as ->.
    { rewrite length_take. apply lookup_lt_Some in Hi. lia. }
    by destruct (build_tables nbuckets (take i symbols)). }
  split; [done|]. split; [done|]. split; [done|]. split; [done|].
  split; [done|]. split; [done|].
  assert (Hnb_pos : 1 ≤ nbuckets).
  { apply Z.le_trans with 1; [lia|].
    apply list_elem_of_lookup in Hin as [j Hj].
    apply (StronglySorted_lookup_le options 0 j 1 nbuckets options_sorted); [lia|done..]. }
  pose proof (to_bytes_length _ _ _ _ Hhb) as Lhb.
  pose proof (to_bytes_length _ _ _ _ Hhc) as Lhc.
  pose proof (table_bytes_length _ _ _ _ _ Hob) as Lob.
  pose proof (table_bytes_length _ _ _ _ _ Hoc) as Loc.
  split.
  - apply set_section_attribute_f in H. rewrite H. cbn [_f set_f].
    pose proof (write_length _ _ _ _ Hf1) as W1. pose proof (write_length _ _ _ _ Hf2) as W2.
    pose proof (write_length _ _ _ _ Hf3) as W3.
    apply write_lookup in Hf0 as [Hoff _].
    apply write_lookup in Hf1 as [_ L1]. apply write_lookup in Hf2 as [_ L2].
    apply write_lookup in Hf3 as [_ L3]. apply write_lookup in Hf4 as [_ L4].
    replace (8 + 4 * nbuckets + 4 * n_chains)
      with (Z.of_nat (length (hb ++ hc ++ out_buckets ++ out_chains)))
      by (rewrite !length_app; lia).
    apply read_from_lookup; [done|]. intros i Hi.
    rewrite !length_app in Hi.
    rewrite L4. rewrite Lob.
    replace (Z.to_nat (sh_offset hdr + 8 + Z.of_nat (4 * Z.to_nat nbuckets)))
      with (Z.to_nat (sh_offset hdr) + 8 + 4 * Z.to_nat nbuckets)%nat by lia.
    set (off := Z.to_nat (sh_offset hdr)) in *.
    destruct (decide (8 + 4 * Z.to_nat nbuckets ≤ i)%nat) as [Hr4|Hr4].
    { rewrite decide_True by lia.
      rewrite !lookup_app_r by lia. f_equal. lia. }
    rewrite decide_False by lia.
    assert (∀ A (P : Prop) `{Decision P} (x y : A), ¬ P → (if decide P then x else y) = y)
      as Hif by (intros; by rewrite decide_False).
    rewrite Hif by lia.
    rewrite L3.
    replace (Z.to_nat (sh_offset hdr + 8)) with (off + 8)%nat by lia.
    destruct (decide (8 ≤ i)%nat) as [Hr3|Hr3].
    { rewrite decide_True by lia.
      rewrite (lookup_app_r hb) by lia. rewrite (lookup_app_r hc) by lia.
      rewrite lookup_app_l by lia. f_equal. lia. }
    rewrite decide_False by lia. rewrite Hif by lia.
    rewrite L2.
    replace (Z.to_nat (sh_offset hdr + 4)) with (off + 4)%nat by lia.
    destruct (decide (4 ≤ i)%nat) as [Hr2|Hr2].
    { rewrite decide_True by lia.
      rewrite (lookup_app_r hb) by lia. rewrite lookup_app_l by lia. f_equal. lia. }
    rewrite decide_False by lia. rewrite Hif by lia.
    rewrite L1. rewrite decide_True by lia.
    rewrite lookup_app_l by lia. f_equal. lia.
  - intros Hidx. unfold Elf._set_section_size in H.
    apply (set_section_attribute_value _ _ Elf.Attr_sh_size) in H; [|done].
    simpl in H. rewrite H. lia.
Qed.

End recreate_elf_hash.

(** One symbol removed from a table of six: five chain entries, and the
    rebuilt section of the example is [(2 + nbuckets + 5) * 4] bytes long
    for some [nbuckets <= 5] of the schedule. *)
Lemma recreate_elf_hash_correct_witness :
  ∃ self' nbuckets,
    SysvHash._recreate_elf_hash Examples.small_iter_symbols Examples.six_chains
      Examples.hash_lib (mkSectionWrapper 0 3 0) 1 = Py.Ok self'
    ∧ nbuckets ∈ SysvHash.options ∧ nbuckets ≤ 5
    ∧ sh_size (header (objs self' 2%nat)) = (2 + nbuckets + 5) * 4.
Proof.
  destruct (SysvHash._recreate_elf_hash Examples.small_iter_symbols Examples.six_chains
              Examples.hash_lib (mkSectionWrapper 0 3 0) 1) as [self'|e] eqn:H;
    [|vm_compute in H; discriminate H].
  destruct (recreate_elf_hash_correct Examples.small_iter_symbols Examples.six_chains
              Examples.hash_lib (mkSectionWrapper 0 3 0) 1 (mkSectionWrapper 2 5 0) self'
              eq_refl ltac:(vm_compute; discriminate) H)
    as (nbuckets & new_buckets & new_chains & hb & hc & out_buckets & out_chains
        & (Hin & Hle & _) & _ & _ & _ & _ & _ & _ & _ & _ & _ & Hsize).
  exists self', nbuckets. split; [done|]. split; [done|]. split; [exact Hle|].
  apply Hsize. discriminate.
Defined.

(** ** The [.dynstr] compactor *)

Lemma StronglySorted_lookup_lt {A} (R : relation A) (l : list A) i j x y :
  StronglySorted R l → (i < j)%nat → l !! i = Some x → l !! j = Some y → R x y.
Proof.
  intros Hs. revert i j. induction Hs as [|z l Hs IH Hz]; intros i j Hij Hi Hj; [done|].
  destruct i as [|i], j as [|j]; simpl in *; try lia.
  - simplify_eq. rewrite Forall_forall in Hz. apply Hz. by eapply list_elem_of_lookup_2.
  - apply (IH i j); [lia|done..].
Qed.

Lemma pair_le_spec p q :
  Py.pair_le p q = true ↔ p.1 < q.1 ∨ (p.1 = q.1 ∧ p.2 ≤ q.2).
Proof. unfold Py.pair_le. destruct p, q; simpl. lia. Qed.

Lemma for_each_app {S X} (body : S → X → Py.result S) l1 l2 st :
  Py.for_each body (l1 ++ l2) st = Py.bind (Py.for_each body l1 st) (Py.for_each body l2).
Proof.
  revert st. induction l1 as [|x l1 IH]; intros st; simpl; [done|].
  destruct (body st x); simpl; [apply IH|done].
Qed.

Lemma for_each_snoc {S X} (body : S → X → Py.result S) l x st :
  Py.for_each body (l ++ [x]) st = Py.bind (Py.for_each body l st) (λ st, body st x).
Proof.
  rewrite for_each_app. destruct (Py.for_each body l st) as [a|]; simpl; [|done].
  by destruct (body a x).
Qed.

Section dynstr_layout.
Import Dynstr.
Variables (f : list byte) (dynstr_offset : Z) (sorted : list (Z * Z)).
Hypothesis sorted_le : StronglySorted (λ p q, Py.pair_le p q = true) sorted.
Hypothesis sorted_nodup : NoDup sorted.

Local Abbreviation step := (layout_step f dynstr_offset sorted).
Local Abbreviation after := (layout_after f dynstr_offset sorted).

Lemma sorted_lookup_le j k p q :
  (j ≤ k)%nat → sorted !! j = Some p → sorted !! k = Some q → Py.pair_le p q = true.
Proof.
  intros Hjk Hp Hq. destruct (decide (j = k)) as [->|Hne].
  - simplify_eq. apply pair_le_spec. lia.
  - apply (StronglySorted_lookup_lt (λ p q, Py.pair_le p q = true) sorted j k);
      [done|lia|done..].
Qed.

Local Abbreviation layout_inv := (Dynstr.layout_inv sorted).

Lemma layout_step_inv k st q st' :
  layout_inv k st → sorted !! S k = Some q →
  step st (k, q) = Py.Ok st' →
  layout_inv (S k) st' ∧ index_map st ⊆ index_map st'.
Proof.
  intros [(p & Hp & Hlast) Hdom] Hq Hstep. destruct q as [s e].
  unfold layout_step in Hstep. case_bool_decide as Hin.
  - injection Hstep as <-. split; [|done]. split.
    + exists (s, e). split; [done|]. simpl.
      destruct (Hdom s Hin) as (j & p' & Hj & Hp' & Hs).
      pose proof (sorted_lookup_le j k p' p Hj Hp' Hp) as H1.
      pose proof (sorted_lookup_le k (S k) p (s, e) ltac:(lia) Hp Hq) as H2.
      apply pair_le_spec in H1, H2. simpl in *.
      assert (p.1 = s) as <- by lia. done.
    + intros s' Hs'. destruct (Hdom s' Hs') as (j & p' & Hj & Hp' & Hs'').
      exists j, p'. split; [lia|done].
  - rewrite Hp in Hstep. simpl in Hstep. destruct p as [ps pe].
    assert (Hnone : index_map st !! s = None).
    { destruct (index_map st !! s) eqn:E; [|done]. exfalso. apply Hin. by eexists. }
    destruct (s <? pe).
    + destruct (negb (pe =? e)); [done|]. injection Hstep as <-. simpl. split.
      * split.
        -- exists (s, e). split; [done|]. simpl. by rewrite lookup_insert_eq.
        -- intros s' Hs'. simpl in Hs'. rewrite lookup_insert in Hs'. case_decide as Hk.
           ++ subst s'. exists (S k), (s, e). split; [lia|done].
           ++ destruct (Hdom s' Hs') as (j & p' & Hj & Hp' & Hs'').
              exists j, p'. split; [lia|done].
      * by apply insert_subseteq.
    + apply bind_Ok in Hstep as (data & Hdata & Hstep). injection Hstep as <-. simpl. split.
      * split.
        -- exists (s, e). split; [done|]. simpl. by rewrite lookup_insert_eq.
        -- intros s' Hs'. simpl in Hs'. rewrite lookup_insert in Hs'. case_decide as Hk.
           ++ subst s'. exists (S k), (s, e). split; [lia|done].
           ++ destruct (Hdom s' Hs') as (j & p' & Hj & Hp' & Hs'').
              exists j, p'. split; [lia|done].
      * by apply insert_subseteq.
Qed.

(** The step on a range that lies inside its predecessor. *)
Lemma layout_step_alias k st ps pe s e st' :
  layout_inv k st → sorted !! k = Some (ps, pe) → sorted !! S k = Some (s, e) →
  s < pe → e = pe →
  step st (k, (s, e)) = Py.Ok st' →
  out_bytes st' = out_bytes st
  ∧ ∃ t, index_map st !! ps = Some t ∧ index_map st' !! s = Some (t + (s - ps)).
Proof.
  intros [(p & Hp & Hlast) Hdom] Hk Hq Hlt -> Hstep.
  rewrite Hk in Hp. injection Hp as <-. simpl in Hlast.
  unfold layout_step in Hstep. case_bool_decide as Hin.
  - exfalso. destruct (Hdom s Hin) as (j & p' & Hj & Hp' & Hs).
    pose proof (sorted_lookup_le j k p' (ps, pe) Hj Hp' Hk) as H1.
    pose proof (sorted_lookup_le k (S k) (ps, pe) (s, pe) ltac:(lia) Hk Hq) as H2.
    apply pair_le_spec in H1, H2. simpl in *.
    assert (ps = s) as -> by lia.
    assert (k = S k); [|lia].
    eapply NoDup_lookup; [exact sorted_nodup|exact Hk|exact Hq].
  - rewrite Hk in Hstep. simpl in Hstep.
    destruct (Z.ltb_spec s pe); [|lia]. rewrite Z.eqb_refl in Hstep. simpl in Hstep.
    injection Hstep as <-. simpl. split; [done|].
    exists (last_start st). split; [done|]. by rewrite lookup_insert_eq.
Qed.

Lemma layout_after_S n q :
  sorted !! S n = Some q →
  after (S n) = Py.bind (after n) (λ st, step st (n, q)).
Proof.
  intros Hq. unfold layout_after.
  destruct (sorted !! 0%nat) as [first|]; simpl; [|done].
  assert (Hitem : imap pair (tail sorted) !! n = Some (n, q)).
  { rewrite list_lookup_imap. rewrite lookup_tail, Hq. done. }
  by rewrite (take_S_r _ _ _ Hitem), for_each_snoc.
Qed.

Lemma layout_after_0 st :
  after 0 = Py.Ok st → layout_inv 0 st.
Proof.
  unfold layout_after. destruct (sorted !! 0%nat) as [first|] eqn:Hf; simpl; [|done].
  intros [= <-]. split.
  - exists first. split; [done|]. simpl. by rewrite lookup_singleton_eq.
  - intros s Hs. simpl in Hs. exists 0%nat, first. split; [lia|]. split; [done|].
    destruct (decide (first.1 = s)) as [|Hne]; [done|].
    rewrite lookup_singleton_ne in Hs by done. by destruct Hs.
Qed.

Lemma layout_after_inv n : ∀ st,
  (n < length sorted)%nat →
  after n = Py.Ok st →
  layout_inv n st
  ∧ ∀ k, (k ≤ n)%nat → ∃ st_k, after k = Py.Ok st_k ∧ index_map st_k ⊆ index_map st.
Proof.
  induction n as [|n IH]; intros st Hn Hst.
  - split; [by apply layout_after_0|].
    intros k Hk. assert (k = 0%nat) as -> by lia. by exists st.
  - destruct (lookup_lt_is_Some_2 sorted (S n) Hn) as [q Hq].
    rewrite (layout_after_S n q Hq) in Hst.
    apply bind_Ok in Hst as (st_n & Hst_n & Hstep).
    destruct (IH st_n ltac:(lia) Hst_n) as [Hinv Hprev].
    destruct (layout_step_inv n st_n q st Hinv Hq Hstep) as [Hinv' Hsub].
    split; [done|]. intros k Hk.
    destruct (decide (k = S n)) as [->|Hne].
    + exists st. split; [|done]. by rewrite (layout_after_S n q Hq), Hst_n.
    + destruct (Hprev k ltac:(lia)) as (st_k & Hk' & Hsub'). exists st_k.
      split; [done|]. by etrans.
Qed.

End dynstr_layout.

Section build_new_dynstr.
Import Dynstr.

Lemma release_name_frame self symbol self' :
  release_name self symbol = Py.Ok self' →
  _f self' = _f self ∧ objs self' = objs self ∧ _dynstr self' = _dynstr self.
Proof.
  unfold release_name. intros H. apply bind_Ok in H as ([name_idx end_] & _ & H).
  destruct (_ =? 0); by injection H as <-.
Qed.

Lemma release_names_frame removed : ∀ self self',
  Py.for_each release_name removed self = Py.Ok self' →
  _f self' = _f self ∧ objs self' = objs self ∧ _dynstr self' = _dynstr self.
Proof.
  induction removed as [|symbol removed IH]; intros self self' H; simpl in H.
  - by injection H as <-.
  - apply bind_Ok in H as (self1 & H1 & H).
    apply release_name_frame in H1 as (E1 & E2 & E3).
    apply IH in H as (-> & -> & ->). done.
Qed.

Lemma sorted_ranges_le ranges :
  StronglySorted (λ p q, Py.pair_le p q = true) (sorted_ranges ranges).
Proof. apply sorted_StronglySorted; [apply pair_le_total|apply pair_le_trans]. Qed.

Lemma sorted_ranges_nodup ranges : NoDup (sorted_ranges ranges).
Proof. unfold sorted_ranges. rewrite (sorted_perm Py.pair_le). apply NoDup_fst_map_to_list. Qed.

(** C3.  When [_build_new_dynstr] succeeds, every live range [(s, e)]
    that lies inside the range [(ps, pe)] before it in ascending order
    ([s < pe], [e = pe]) is mapped to the target of [ps] plus [s - ps], and
    the iteration that handles it appends nothing to the new table. *)
Theorem build_new_dynstr_suffix_alias self removed_symbols dynstr self' out imap :
  _dynstr self = Some dynstr →
  _build_new_dynstr self removed_symbols = Py.Ok (self', Some (out, imap)) →
  let base := sh_offset (header (objs self (section dynstr))) in
  let sorted := sorted_ranges (_dynstr_ranges self') in
  ∀ i ps pe s e,
    sorted !! i = Some (ps, pe) → sorted !! S i = Some (s, e) →
    s < pe → e = pe →
    ∃ before after t,
      layout_after (_f self') base sorted i = Py.Ok before
      ∧ layout_after (_f self') base sorted (S i) = Py.Ok after
      ∧ out_bytes after = out_bytes before
      ∧ imap !! ps = Some t
      ∧ imap !! s = Some (t + (s - ps)).
Proof.
  intros Hsec H base sorted i ps pe s e Hi HSi Hlt He.
  unfold _build_new_dynstr in H. rewrite Hsec in H. fold base in H.
  apply bind_Ok in H as (self1 & Hrel & H).
  apply bind_Ok in H as (st & Hst & H). injection H as <- <- <-.
  fold sorted in Hst.
  pose proof (sorted_ranges_le (_dynstr_ranges self1)) as Hle.
  pose proof (sorted_ranges_nodup (_dynstr_ranges self1)) as Hnd.
  fold sorted in Hle, Hnd.
  assert (HlenS : (S i < length sorted)%nat) by (by eapply lookup_lt_Some).
  destruct (layout_after_inv (_f self1) base sorted Hle (length sorted - 1) st
              ltac:(lia) Hst) as [_ Hprev].
  destruct (Hprev i ltac:(lia)) as (before & Hbefore & _).
  destruct (Hprev (S i) ltac:(lia)) as (after & Hafter & Hsub).
  destruct (layout_after_inv (_f self1) base sorted Hle i before ltac:(lia) Hbefore)
    as [Hinv _].
  pose proof Hafter as Hstep.
  rewrite (layout_after_S _ _ _ _ _ HSi), Hbefore in Hstep. simpl in Hstep.
  destruct (layout_step_alias (_f self1) base sorted Hle Hnd i before ps pe s e after
              Hinv Hi HSi Hlt He Hstep) as (Hout & t & Hps & Hs).
  exists before, after, t. split; [done|]. split; [done|]. split; [done|].
  assert (index_map before ⊆ index_map after) as Hsub'.
  { by destruct (layout_step_inv (_f self1) base sorted Hle i before (s, e) after
                   Hinv HSi Hstep). }
  split.
  - eapply lookup_weaken; [|exact Hsub]. eapply lookup_weaken; [exact Hps|exact Hsub'].
  - eapply lookup_weaken; [exact Hs|exact Hsub].
Qed.

End build_new_dynstr.

(** Removing [foo] from the example table: [line] (offset 4) lies inside
    [getline] (offset 1) and is mapped three bytes after its target. *)
Lemma build_new_dynstr_suffix_alias_witness :
  ∃ self' out imap t,
    Dynstr._build_new_dynstr Examples.dynstr_lib [mkSymbolWrapper "foo" 3 9 64 8 0]
      = Py.Ok (self', Some (out, imap))
    ∧ imap !! 1 = Some t ∧ imap !! 4 = Some (t + (4 - 1)).
Proof.
  destruct (Dynstr._build_new_dynstr Examples.dynstr_lib [mkSymbolWrapper "foo" 3 9 64 8 0])
    as [[self' [[out imap]|]]|] eqn:H;
    [|vm_compute in H; discriminate H..].
  assert (Hr : Dynstr.sorted_ranges (_dynstr_ranges self') = [(0, 0); (1, 8); (4, 8)]).
  { vm_compute in H. injection H as <- _ _. vm_compute. reflexivity. }
  destruct (build_new_dynstr_suffix_alias Examples.dynstr_lib
              [mkSymbolWrapper "foo" 3 9 64 8 0] (mkSectionWrapper 0 4 0) self' out imap
              eq_refl H 1%nat 1 8 4 8)
    as (before & after & t & _ & _ & _ & Hps & Hs).
  - by rewrite Hr.
  - by rewrite Hr.
  - lia.
  - reflexivity.
  - by exists self', out, imap, t.
Defined.

(** ** The GNU hash table *)

Section gnu_hash.
Import GnuHash.

Lemma edit_gnu_hashtable_frame nr h p p' :
  _edit_gnu_hashtable nr h p = Py.Ok p' →
  nbuckets p' = nbuckets p ∧ symoffset p' = symoffset p
  ∧ bloom_size p' = bloom_size p ∧ bloom_entry_size p' = bloom_entry_size p.
Proof.
  unfold _edit_gnu_hashtable. destruct (_ <? 0); [done|]. intros H.
  bind_inv H. destruct (negb _); [done|]. bind_inv H.
  destruct (_ =? 1); [|by injection H as <-].
  bind_inv H. destruct (negb _).
  - bind_inv H. destruct (_ =? 1); bind_inv H; by injection H as <-.
  - bind_inv H. by injection H as <-.
Qed.

Lemma edit_loop_frame l : ∀ p p',
  Py.for_each (λ p (sh : SymbolWrapper * Z), _edit_gnu_hashtable (sym_index sh.1) sh.2 p) l p
    = Py.Ok p' →
  nbuckets p' = nbuckets p ∧ symoffset p' = symoffset p
  ∧ bloom_size p' = bloom_size p ∧ bloom_entry_size p' = bloom_entry_size p.
Proof.
  induction l as [|sh l IH]; intros p p' H; simpl in H.
  - by injection H as <-.
  - bind_inv H. apply edit_gnu_hashtable_frame in Ha as (E1 & E2 & E3 & E4).
    apply IH in H as (-> & -> & -> & ->). done.
Qed.

Lemma remove_defined_frame p defined dynsym_size p' :
  remove_defined p defined dynsym_size = Py.Ok p' →
  nbuckets p' = nbuckets p ∧ symoffset p' = symoffset p
  ∧ bloom_size p' = bloom_size p ∧ bloom_entry_size p' = bloom_entry_size p.
Proof.
  unfold remove_defined. intros H. bind_inv H. destruct (negb _); [done|].
  bind_inv H. bind_inv H. bind_inv H. injection H as <-. simpl.
  by apply edit_loop_frame in Ha0.
Qed.

(** With no defined symbol to remove and no bucket equal to the table
    size, the first part leaves the buckets alone. *)
Lemma remove_defined_nil p dynsym_size p' :
  remove_defined p [] dynsym_size = Py.Ok p' →
  dynsym_size ∉ buckets p →
  buckets p' = buckets p.
Proof.
  unfold remove_defined. intros H Hnot.
  cbn -[fix_bucket_indices clear_trailing Z.to_nat Nat.mul Z.of_nat] in H.
  change (Z.of_nat 0) with 0 in H.
  assert (Hfix : fix_bucket_indices (Z.to_nat (nbuckets p)) [] (nbuckets p - 1) 0 0 (buckets p)
                 = Py.Ok (buckets p)).
  { destruct (Z.to_nat (nbuckets p)); simpl; [done|]. by destruct (0 <=? nbuckets p - 1). }
  rewrite Hfix in H. cbn [Py.bind] in H. rewrite Z.sub_0_r in H.
  replace (2 * length (buckets p) + 1)%nat
    with (S (2 * length (buckets p))) in H by lia.
  cbn [clear_trailing] in H. apply bind_Ok in H as (bk & Hbk & H). injection H as <-. simpl.
  apply bind_Ok in Hbk as (a & Ha & H).
  destruct (Z.eqb_spec a dynsym_size) as [->|Hne].
  - exfalso. apply Hnot. unfold Py.getitem in Ha.
    destruct (_ && _); [|destruct (_ && _); [|done]].
    + destruct (buckets p !! _) eqn:E; [|done]. simpl in Ha. injection Ha as ->.
      by eapply list_elem_of_lookup_2.
    + destruct (buckets p !! _) eqn:E; [|done]. simpl in Ha. injection Ha as ->.
      by eapply list_elem_of_lookup_2.
  - by injection H as <-.
Qed.

Lemma pack_words_length little vs : ∀ bs,
  File.pack_words little vs = Py.Ok bs → length bs = (4 * length vs)%nat.
Proof.
  induction vs as [|v vs IH]; intros bs; simpl; [by intros [= <-]|].
  intros H. bind_inv H. bind_inv H. injection H as <-.
  rewrite length_app, (pack_unsigned_length _ _ _ _ Ha), (IH _ Ha0). lia.
Qed.

Lemma elem_of_undef_symbols p symbol_list s :
  s ∈ undef_symbols p symbol_list ↔
  s ∈ symbol_list ∧ sym_index s < symoffset p ∧ sym_value s = 0 ∧ sym_size s = 0.
Proof.
  unfold undef_symbols. rewrite !list_elem_of_In, filter_In. unfold is_undef.
  rewrite !andb_true_iff, !Z.eqb_eq, Z.ltb_lt. tauto.
Qed.

End gnu_hash.

Section gnu_hash_claim.
Import GnuHash.
Variable GNUHashTable_params : list byte → Z → Z * Z * Z * list Z.

Lemma read_params_entry_size self gnu_hash dynsym_size p0 :
  read_params GNUHashTable_params self gnu_hash dynsym_size = Py.Ok p0 →
  0 < bloom_entry_size p0.
Proof.
  unfold read_params. destruct (GNUHashTable_params _ _) as [[[nb so] bs] bk].
  intros H. bind_inv H. destruct (_ || _); [done|]. injection H as <-. simpl.
  by destruct (e_machine self).
Qed.

(** C5.  When [_batch_remove_gnu_hashtable] succeeds, the undefined
    removals are the symbols of the list with index below [symoffset],
    value 0 and size 0; with [k] of them, the [symoffset] word written to
    the file is the old one minus [k], and every bucket written is the
    bucket left by the removal of the defined symbols minus [k], but never
    below 0.  If only undefined symbols are removed (and no bucket holds
    the table size) these are the original buckets. *)
Theorem gnu_hash_undefined_removal self symbol_list dynsym_size gnu_hash p0 self' :
  _gnu_hash self = Some gnu_hash →
  read_params GNUHashTable_params self gnu_hash dynsym_size = Py.Ok p0 →
  0 ≤ bloom_size p0 →
  _batch_remove_gnu_hashtable GNUHashTable_params self symbol_list dynsym_size
    = Py.Ok self' →
  let undef := undef_symbols p0 symbol_list in
  let k := Z.of_nat (length undef) in
  let sh_off := sh_offset (header (objs self (section gnu_hash))) in
  let bucket_start := sh_off + 4 * 4 + bloom_size p0 * bloom_entry_size p0 in
  (∀ s, s ∈ undef ↔
        s ∈ symbol_list ∧ sym_index s < symoffset p0 ∧ sym_value s = 0 ∧ sym_size s = 0)
  ∧ ∃ p b bs,
      remove_defined p0 (defined_symbols p0 symbol_list) dynsym_size = Py.Ok p
      ∧ File.pack_unsigned (little_endian self) 4 (symoffset p0 - k) = Py.Ok b
      ∧ File.read (_f self') (sh_off + 4) 4 = Py.Ok b
      ∧ File.pack_words (little_endian self) ((λ x, Z.max 0 (x - k)) <$> buckets p)
        = Py.Ok bs
      ∧ File.read (_f self') bucket_start (4 * nbuckets p0) = Py.Ok bs
      ∧ (defined_symbols p0 symbol_list = [] → dynsym_size ∉ buckets p0 →
         buckets p = buckets p0).
Proof.
  intros Hsec Hp0 Hbloom H undef k sh_off bucket_start.
  split; [intros s; apply elem_of_undef_symbols|].
  pose proof (read_params_entry_size _ _ _ _ Hp0) as Hes.
  unfold _batch_remove_gnu_hashtable in H. rewrite Hsec, Hp0 in H.
  cbn [Py.bind] in H. fold sh_off bucket_start undef k in H.
  apply bind_Ok in H as (p & Hp & H).
  destruct (remove_defined_frame _ _ _ _ Hp) as (Enb & Eso & _ & _).
  apply bind_Ok in H as (b & Hb & H).
  apply bind_Ok in H as (f1 & Hf1 & H).
  apply bind_Ok in H as (bs & Hbs & H).
  apply bind_Ok in H as (f2 & Hf2 & H).
  apply bind_Ok in H as (cb & Hcb & H).
  apply bind_Ok in H as (f3 & Hf3 & H).
  apply set_section_attribute_f in H. cbn [_f set_f] in H.
  cbn [remove_undefined with_symoffset with_buckets symoffset buckets nbuckets] in Hb, Hbs.
  rewrite Eso in Hb.
  destruct (Z.eqb_spec (Z.of_nat (length ((λ b, Z.max 0 (b - k)) <$> buckets p))) (nbuckets p))
    as [Hlen|]; [|done].
  rewrite length_fmap in Hlen.
  pose proof (pack_unsigned_length _ _ _ _ Hb) as Lb.
  pose proof (pack_words_length _ _ _ Hbs) as Lbs. rewrite length_fmap in Lbs.
  pose proof (write_length _ _ _ _ Hf1) as W1.
  pose proof (write_length _ _ _ _ Hf2) as W2.
  pose proof (write_length_le _ _ _ _ Hf2) as W2'.
  apply write_lookup in Hf1 as [Hoff L1]. apply write_lookup in Hf2 as [_ L2].
  apply write_lookup in Hf3 as [_ L3].
  assert (Hbes : 0 ≤ bloom_size p0 * bloom_entry_size p0) by nia.
  exists p, b, bs. split; [done|]. split; [done|]. rewrite H. split; [|split; [done|split]].
  - change 4 with (Z.of_nat 4) at 2. rewrite <- Lb.
    apply read_from_lookup; [lia|]. intros i Hi.
    rewrite L3, decide_False by lia. rewrite decide_False by lia.
    rewrite L2, decide_False by lia. rewrite decide_False by lia.
    rewrite L1, decide_True by lia. f_equal. lia.
  - replace (4 * nbuckets p0) with (Z.of_nat (length bs)) by lia.
    apply read_from_lookup; [lia|]. intros i Hi.
    rewrite L3, decide_False by lia. rewrite decide_False by lia.
    rewrite L2, decide_True by lia. f_equal. lia.
  - intros Hdef Hnot. rewrite Hdef in Hp. by apply remove_defined_nil in Hp.
Qed.

End gnu_hash_claim.

(** The undefined symbol at index 3 is removed from a table whose
    [symoffset] is 5: the word written at offset 104 is 4, and the buckets
    5 and 7 are written as 4 and 6. *)
Lemma gnu_hash_undefined_removal_witness :
  ∃ self' b bs,
    GnuHash._batch_remove_gnu_hashtable Examples.gnu_params Examples.gnu_lib
      [mkSymbolWrapper "ext" 3 9 0 0 0] 8 = Py.Ok self'
    ∧ File.pack_unsigned true 4 (5 - 1) = Py.Ok b
    ∧ File.read (_f self') 104 4 = Py.Ok b
    ∧ File.pack_words true [4; 6] = Py.Ok bs
    ∧ File.read (_f self') 124 8 = Py.Ok bs.
Proof.
  destruct (GnuHash._batch_remove_gnu_hashtable Examples.gnu_params Examples.gnu_lib
              [mkSymbolWrapper "ext" 3 9 0 0 0] 8) as [self'|] eqn:H;
    [|vm_compute in H; discriminate H].
  destruct (gnu_hash_undefined_removal Examples.gnu_params Examples.gnu_lib
              [mkSymbolWrapper "ext" 3 9 0 0 0] 8 (mkSectionWrapper 0 6 0)
              (GnuHash.mkParams 2 5 1 8 [5; 7] [0; 0; 0]) self'
              eq_refl ltac:(vm_compute; reflexivity) ltac:(simpl; lia) H)
    as (_ & p & b & bs & Hp & Hb & Hrb & Hbs & Hrbs & Hsame).
  assert (Hbk : GnuHash.buckets p = [5; 7]).
  { apply Hsame; [reflexivity|]. simpl. intros Hin.
    repeat (apply elem_of_cons in Hin as [Hin|Hin]; [discriminate Hin|]).
    by apply elem_of_nil in Hin. }
  rewrite Hbk in Hbs. exists self', b, bs. done.
Defined.

(** ** The relocation compactor *)

Section reloc_order.
Import Relocs.

Lemma ordered_ordered_nz zs : ordered zs → ordered_nz zs.
Proof. intros H i j a b Hij Hi Hj _. by apply (H i j). Qed.

Lemma lookup_delete_Some_inv {A} (l : list A) k i x :
  delete k l !! i = Some x →
  ∃ i', l !! i' = Some x ∧ (if decide (i < k)%nat then i' = i else i' = S i).
Proof.
  intros H. destruct (decide (i < k)%nat) as [Hlt|Hge].
  - rewrite list_lookup_delete_lt in H by done. eauto.
  - rewrite list_lookup_delete_ge in H by lia. eauto.
Qed.

Lemma table_inv_delete push l k : table_inv push l → table_inv push (delete k l).
Proof.
  intros (Hnn & Hnz & Hord). unfold table_inv.
  rewrite list_fmap_delete. split; [|split].
  - apply Forall_forall. intros z Hz. rewrite Forall_forall in Hnn. apply Hnn.
    apply list_elem_of_lookup in Hz as [i Hi].
    apply lookup_delete_Some_inv in Hi as (i' & Hi' & _). by eapply list_elem_of_lookup_2.
  - intros i j a b Hij Hi Hj Hb.
    apply lookup_delete_Some_inv in Hi as (i' & Hi' & Ei).
    apply lookup_delete_Some_inv in Hj as (j' & Hj' & Ej).
    apply (Hnz i' j'); [|done..]. repeat case_decide; lia.
  - intros Hp i j a b Hij Hi Hj.
    apply lookup_delete_Some_inv in Hi as (i' & Hi' & Ei).
    apply lookup_delete_Some_inv in Hj as (j' & Hj' & Ej).
    apply (Hord Hp i' j'); [|done..]. repeat case_decide; lia.
Qed.

Lemma table_inv_zero l k r :
  r_info_sym r = 0 → table_inv false l → table_inv false (<[k := r]> l).
Proof.
  intros Hr (Hnn & Hnz & _). unfold table_inv. rewrite list_fmap_insert, Hr.
  split; [|split; [|done]].
  - apply Forall_insert; [done|lia].
  - intros i j a b Hij Hi Hj Hb.
    rewrite Forall_forall in Hnn.
    destruct (decide (j = k)) as [->|Hjk].
    { apply list_lookup_insert_Some in Hj as [(_ & <- & _)|(? & _)]; done. }
    rewrite list_lookup_insert_ne in Hj by done.
    destruct (decide (i = k)) as [->|Hik].
    + apply list_lookup_insert_Some in Hi as [(_ & <- & _)|(? & _)]; [|done].
      cut (0 ≤ b); [lia|]. apply Hnn. by eapply list_elem_of_lookup_2.
    + rewrite list_lookup_insert_ne in Hi by done. by apply (Hnz i j).
Qed.

Lemma table_inv_take push l n : table_inv push l → table_inv push (take n l).
Proof.
  intros (Hnn & Hnz & Hord). unfold table_inv. rewrite fmap_take.
  split; [by apply Forall_take|]. split.
  - intros i j a b Hij Hi Hj Hb.
    apply lookup_take_Some in Hi as [Hi _]. apply lookup_take_Some in Hj as [Hj _].
    by apply (Hnz i j).
  - intros Hp i j a b Hij Hi Hj.
    apply lookup_take_Some in Hi as [Hi _]. apply lookup_take_Some in Hj as [Hj _].
    by apply (Hord Hp i j).
Qed.

End reloc_order.

Section remove_phase.
Import Relocs.
Variable address_offsets : Z → list Z.
Variables (rela little is_symtab : bool).

Lemma setter_addend_sym f reloc v f' reloc' :
  setter_addend address_offsets rela little f reloc v = Py.Ok (f', reloc') →
  r_info_sym reloc' = r_info_sym reloc.
Proof.
  unfold setter_addend. destruct rela; [by intros [= <- <-]|].
  intros H. bind_inv H. bind_inv H. bind_inv H. by injection H as <- <-.
Qed.

Lemma edit_loop_kept push fuel sym_nr sym_addr : ∀ t cur_idx t',
  table_inv push (reloc_list t) →
  edit_loop address_offsets fuel rela little push is_symtab sym_nr sym_addr t cur_idx
    = Py.Ok t' →
  kept push (reloc_list t) (reloc_list t').
Proof.
  induction fuel as [|fuel IH]; intros t cur_idx t' Hinv H; [done|].
  cbn [edit_loop] in H.
  destruct (negb _); [injection H as <-; by split|].
  bind_inv H. rename a into reloc, Ha into Hreloc.
  bind_inv H. rename a into found. destruct found.
  - destruct push.
    + apply IH in H; [|by apply table_inv_delete]. destruct H as [H1 H2].
      split; [done|]. intros _ r Hr. specialize (H2 eq_refl r Hr). simpl in H2.
      apply list_elem_of_lookup in H2 as [i Hi].
      apply lookup_delete_Some_inv in Hi as (i' & Hi' & _). by eapply list_elem_of_lookup_2.
    + apply bind_Ok in H as ([f' reloc'] & Hset & H).
      apply setter_addend_sym in Hset. simpl in Hset.
      apply IH in H; [|by apply table_inv_zero]. destruct H as [H1 _]. by split.
  - bind_inv H. destruct a; [injection H as <-; by split|].
    destruct (sym_nr <? r_info_sym reloc); [injection H as <-; by split|].
    destruct (negb is_symtab && push).
    + destruct (_ <=? _)%nat; [done|]. by apply IH in H.
    + by apply IH in H.
Qed.

Lemma edit_rel_sect_kept push t sym_nr sym_addr t' :
  table_inv push (reloc_list t) →
  _edit_rel_sect address_offsets rela little push is_symtab t sym_nr sym_addr = Py.Ok t' →
  kept push (reloc_list t) (reloc_list t').
Proof.
  intros Hinv H. unfold _edit_rel_sect in H. bind_inv H. by eapply edit_loop_kept.
Qed.

Lemma remove_loop_kept push symbol_list : ∀ t nrs addrs t' nrs' addrs',
  table_inv push (reloc_list t) →
  Py.for_each (remove_step address_offsets rela little push is_symtab) symbol_list
    (t, nrs, addrs) = Py.Ok (t', nrs', addrs') →
  kept push (reloc_list t) (reloc_list t').
Proof.
  induction symbol_list as [|symbol symbol_list IH]; intros t nrs addrs t' nrs' addrs' Hinv H.
  - simpl in H. injection H as <- <- <-. by split.
  - cbn [Py.for_each] in H. apply bind_Ok in H as ([[t1 nrs1] addrs1] & Hstep & H).
    assert (Hk : kept push (reloc_list t) (reloc_list t1)).
    { unfold remove_step in Hstep. destruct (_ && _).
      - injection Hstep as <- <- <-. by split.
      - apply bind_Ok in Hstep as (t2 & Hedit & Hstep). injection Hstep as <- <- <-.
        by eapply edit_rel_sect_kept. }
    destruct Hk as [Hinv1 Hsub1].
    destruct (IH _ _ _ _ _ _ Hinv1 H) as [Hinv' Hsub'].
    split; [done|]. intros Hp r Hr. apply (Hsub1 Hp). by apply (Hsub' Hp).
Qed.

Lemma keyed_relocs_spec f l : ∀ relocs,
  keyed_relocs address_offsets rela little f l = Py.Ok relocs →
  (λ x : Reloc * Z * Z, x.1.1) <$> relocs = l
  ∧ Forall (λ x : Reloc * Z * Z, x.1.2 = r_info_sym x.1.1) relocs.
Proof.
  induction l as [|reloc l IH]; intros relocs H; simpl in H.
  - injection H as <-. by split.
  - bind_inv H. bind_inv H. injection H as <-.
    destruct (IH _ Ha0) as [E1 E2]. split; [cbn; by rewrite E1|]. by constructor.
Qed.

(** After the removal phase the table is in the order the fix-up loop
    needs, and in push mode its entries are entries of the section. *)
Lemma remove_phase_kept push f orig symbol_list t :
  Forall (λ r, 0 ≤ r_info_sym r) orig →
  remove_phase address_offsets rela little push is_symtab f orig symbol_list = Py.Ok t →
  table_inv push (reloc_list t)
  ∧ (push = true → ∀ r, r ∈ reloc_list t → r ∈ orig).
Proof.
  intros Hnn H. unfold remove_phase in H.
  apply bind_Ok in H as (relocs & Hkeyed & H).
  apply keyed_relocs_spec in Hkeyed as [Hfst Hkey].
  set (le := λ x y : Reloc * Z * Z, Py.pair_le (sort_key x) (sort_key y)) in *.
  pose proof (sorted_perm le relocs) as Hperm.
  pose proof (sorted_StronglySorted le
    ltac:(intros x y; apply pair_le_total)
    ltac:(intros x y z; apply pair_le_trans) relocs) as Hsorted.
  destruct (Py.sorted le relocs) as [|x0 srt] eqn:Hs; [done|]. rewrite <- Hs in *.
  assert (Hkey' : Forall (λ x : Reloc * Z * Z, x.1.2 = r_info_sym x.1.1) (Py.sorted le relocs))
    by (by rewrite Hperm).
  assert (Hinv0 : table_inv push ((λ x : Reloc * Z * Z, x.1.1) <$> Py.sorted le relocs)).
  { assert (Hord : ordered (r_info_sym <$> ((λ x : Reloc * Z * Z, x.1.1) <$> Py.sorted le relocs))).
    { intros i j a b Hij Hi Hj. rewrite <- list_fmap_compose in Hi, Hj.
      apply list_lookup_fmap_Some in Hi as (x & -> & Hx).
      apply list_lookup_fmap_Some in Hj as (y & -> & Hy).
      pose proof (StronglySorted_lookup_lt _ _ i j x y Hsorted Hij Hx Hy) as Hle.
      apply pair_le_spec in Hle. unfold sort_key in Hle. simpl in *.
      rewrite Forall_forall in Hkey'.
      rewrite <- (Hkey' x) by (by eapply list_elem_of_lookup_2).
      rewrite <- (Hkey' y) by (by eapply list_elem_of_lookup_2). lia. }
    split; [|split; [by apply ordered_ordered_nz|done]].
    rewrite <- list_fmap_compose. apply Forall_fmap.
    assert (Hall : Forall (λ x : Reloc * Z * Z, 0 ≤ r_info_sym x.1.1) relocs).
    { rewrite <- Hfst in Hnn. rewrite Forall_fmap in Hnn. exact Hnn. }
    rewrite <- Hperm in Hall. exact Hall. }
  apply bind_Ok in H as ([[t1 nrs] addrs] & Hloop & H). injection H as <-.
  apply remove_loop_kept in Hloop; [|exact Hinv0]. destruct Hloop as [Hinv Hsub].
  split; [done|]. intros Hp r Hr. specialize (Hsub Hp r Hr). simpl in Hsub.
  rewrite <- Hfst. apply list_elem_of_fmap in Hsub as (x & -> & Hx).
  apply list_elem_of_fmap. exists x. split; [done|]. by rewrite <- Hperm.
Qed.

End remove_phase.

Section py_index.

Lemma getitem_nat {A} (l : list A) (i : nat) x :
  l !! i = Some x → Py.getitem l (Z.of_nat i) = Py.Ok x.
Proof.
  intros H. pose proof (lookup_lt_Some _ _ _ H) as Hlt. unfold Py.getitem.
  rewrite (proj2 (andb_true_iff _ _)) by (split; [apply Z.leb_le|apply Z.ltb_lt]; lia).
  by rewrite Nat2Z.id, H.
Qed.

Lemma getitem_nat_inv {A} (l : list A) (i : nat) x :
  Py.getitem l (Z.of_nat i) = Py.Ok x → l !! i = Some x.
Proof.
  unfold Py.getitem. destruct (_ && _) eqn:E.
  - rewrite Nat2Z.id. by destruct (l !! i); intros [= <-].
  - replace (Z.of_nat i <? 0) with false by (symmetry; apply Z.ltb_ge; lia). done.
Qed.

Lemma setitem_nat {A} (l : list A) (i : nat) x :
  (i < length l)%nat → Py.setitem l (Z.of_nat i) x = Py.Ok (<[i := x]> l).
Proof.
  intros Hlt. unfold Py.setitem.
  rewrite (proj2 (andb_true_iff _ _)) by (split; [apply Z.leb_le|apply Z.ltb_lt]; lia).
  by rewrite Nat2Z.id.
Qed.

End py_index.

Section count_lower.
Import Relocs.

Lemma filter_all_false {A} (p : A → bool) l :
  (∀ x, x ∈ l → p x = false) → List.filter p l = [].
Proof.
  induction l as [|x l IH]; intros H; simpl; [done|].
  rewrite (H x) by (by left). apply IH. intros y Hy. apply H. by right.
Qed.

Lemma filter_all_true {A} (p : A → bool) l :
  (∀ x, x ∈ l → p x = true) → List.filter p l = l.
Proof.
  induction l as [|x l IH]; intros H; simpl; [done|].
  rewrite (H x) by (by left). f_equal. apply IH. intros y Hy. apply H. by right.
Qed.

(** The symbols before position [k] are at or above [r], those from [k]
    on are below it: [r] has [len - k] removed symbols below it. *)
Lemma count_lower_split symbol_list k r :
  (∀ j s, (j < k)%nat → symbol_list !! j = Some s → r ≤ sym_index s) →
  (∀ j s, (k ≤ j)%nat → symbol_list !! j = Some s → sym_index s < r) →
  count_lower symbol_list r = Z.of_nat (length symbol_list - k).
Proof.
  intros Hhi Hlo. unfold count_lower.
  rewrite <- (take_drop k symbol_list) at 1. rewrite List.filter_app.
  rewrite filter_all_false, filter_all_true; simpl.
  - by rewrite length_drop.
  - intros s Hs. apply list_elem_of_lookup in Hs as [j Hj]. rewrite lookup_drop in Hj.
    apply Z.ltb_lt. apply (Hlo (k + j)%nat); [lia|done].
  - intros s Hs. apply list_elem_of_lookup in Hs as [j Hj].
    apply lookup_take_Some in Hj as [Hj Hjk]. apply Z.ltb_ge. by apply (Hhi j).
Qed.

End count_lower.

Section fixup.
Import Relocs.
Variables (push : bool) (ent_size : Z) (symbol_list : list SymbolWrapper).
Hypothesis symbols_descending : descending_indices symbol_list.

Lemma descending_lookup j k s s' :
  (j ≤ k)%nat → symbol_list !! j = Some s → symbol_list !! k = Some s' →
  sym_index s' ≤ sym_index s.
Proof.
  intros Hjk Hj Hk. destruct (decide (j = k)) as [->|Hne].
  - simplify_eq. lia.
  - apply (StronglySorted_lookup_lt (λ a b, sym_index b ≤ sym_index a) symbol_list j k);
      [done|lia|done..].
Qed.

Lemma renumbered_refl_zero r : r_info_sym r = 0 → renumbered symbol_list r r.
Proof. intros H. unfold renumbered. rewrite H. repeat split; done. Qed.

Lemma renumbered_refl_count r :
  count_lower symbol_list (r_info_sym r) = 0 → renumbered symbol_list r r.
Proof. intros H. unfold renumbered. rewrite H. repeat split; [lia|done]. Qed.

(** The fix-up loop from a state in which the entries from [n] on are
    done, [sidx] symbols have been skipped (all of them at or above every
    nonzero index still to do) and the first [n] entries are in order. *)
Lemma fixup_loop_spec fuel : ∀ l n sidx cur final,
  (n ≤ length l)%nat →
  symbol_list !! sidx = Some cur →
  table_inv push (take n l) →
  (∀ j s z, (j < sidx)%nat → symbol_list !! j = Some s →
            z ∈ r_info_sym <$> take n l → z ≠ 0 → z ≤ sym_index s) →
  fixup_loop fuel push ent_size symbol_list l (Z.of_nat n - 1) (Z.of_nat sidx) cur
    (Z.of_nat (length symbol_list - sidx)) = Py.Ok final →
  length final = length l
  ∧ ∀ i r, l !! i = Some r →
      ∃ r', final !! i = Some r'
            ∧ ((n ≤ i)%nat → r' = r)
            ∧ ((i < n)%nat → renumbered symbol_list r r').
Proof.
  induction fuel as [|fuel IH]; intros l n sidx cur final Hn Hcur Hinv Hdom H; [done|].
  cbn [fixup_loop] in H.
  destruct n as [|m].
  { simpl in H. injection H as <-. split; [done|]. intros i r Hi. exists r.
    split; [done|]. split; [done|lia]. }
  replace (Z.of_nat (S m) - 1) with (Z.of_nat m) in H by lia.
  destruct (Z.ltb_spec (Z.of_nat m) 0) as [|_]; [lia|].
  destruct (lookup_lt_is_Some_2 l m ltac:(lia)) as [reloc Hreloc].
  rewrite (getitem_nat _ _ _ Hreloc) in H. cbn [Py.bind] in H.
  destruct Hinv as (Hnn & Hnz & Hord).
  assert (Hsidx : (sidx < length symbol_list)%nat) by (by eapply lookup_lt_Some).
  (* the symbol index at position [i <= m] of the prefix *)
  assert (Hpre : ∀ i r, (i ≤ m)%nat → l !! i = Some r →
                 (r_info_sym <$> take (S m) l) !! i = Some (r_info_sym r)).
  { intros i r Hi Hr. rewrite list_lookup_fmap, lookup_take_lt by lia. by rewrite Hr. }
  assert (Hle_m : ∀ i r, (i ≤ m)%nat → l !! i = Some r → r_info_sym reloc ≠ 0 →
                  r_info_sym r ≤ r_info_sym reloc).
  { intros i r Hi Hr Hne. destruct (decide (i = m)) as [->|Him].
    - rewrite Hreloc in Hr. injection Hr as <-. lia.
    - apply (Hnz i m); [lia|by apply Hpre..|done]. }
  destruct ((r_info_sym reloc =? 0) && push) eqn:Hbreak.
  { (* no symbol index left in a compacted table *)
    injection H as <-. apply andb_true_iff in Hbreak as [Hz Hp]. apply Z.eqb_eq in Hz.
    split; [done|]. intros i r Hi. exists r. split; [done|]. split; [done|].
    intros Him. apply renumbered_refl_zero.
    assert (r_info_sym r ≤ 0).
    { destruct (decide (i = m)) as [->|Hne]; [rewrite Hreloc in Hi; injection Hi as <-; lia|].
      rewrite <- Hz. apply (Hord Hp i m); [lia|apply Hpre; [lia|done]..]. }
    assert (0 ≤ r_info_sym r).
    { rewrite Forall_forall in Hnn. apply Hnn. eapply list_elem_of_lookup_2.
      apply (Hpre i r); [lia|done]. }
    lia. }
  destruct (negb (r_info_sym reloc =? 0) && (r_info_sym reloc <=? sym_index cur)) eqn:Hskip.
  { apply andb_true_iff in Hskip as [Hne Hle].
    apply negb_true_iff, Z.eqb_neq in Hne. apply Z.leb_le in Hle.
    assert (Hdom' : ∀ j s z, (j < S sidx)%nat → symbol_list !! j = Some s →
                    z ∈ r_info_sym <$> take (S m) l → z ≠ 0 → z ≤ sym_index s).
    { intros j s z Hj Hs Hz Hz0. destruct (decide (j = sidx)) as [->|Hjs].
      - rewrite Hcur in Hs. injection Hs as <-.
        apply list_elem_of_lookup in Hz as [i Hi].
        rewrite list_lookup_fmap in Hi.
        destruct (take (S m) l !! i) as [r|] eqn:Hr; [|done]. simpl in Hi. injection Hi as <-.
        apply lookup_take_Some in Hr as [Hr Him].
        pose proof (Hle_m i r ltac:(lia) Hr Hne). lia.
      - apply (Hdom j s z); [lia|done..]. }
    destruct (Z.eqb_spec (Z.of_nat (length symbol_list - sidx) - 1) 0) as [Hlast|Hmore].
    - (* the last symbol was skipped: nothing below is renumbered *)
      injection H as <-. split; [done|]. intros i r Hi. exists r.
      split; [done|]. split; [done|]. intros Him.
      destruct (decide (r_info_sym r = 0)) as [Hz|Hnz']; [by apply renumbered_refl_zero|].
      apply renumbered_refl_count.
      rewrite (count_lower_split symbol_list (length symbol_list)); [f_equal; lia| |].
      + intros j s Hj Hs. apply (Hdom' j s); [lia|done| |done].
        eapply list_elem_of_lookup_2. apply (Hpre i r); [lia|done].
      + intros j s Hj Hs. apply lookup_lt_Some in Hs. lia.
    - destruct (lookup_lt_is_Some_2 symbol_list (S sidx) ltac:(lia)) as [cur' Hcur'].
      replace (Z.of_nat sidx + 1) with (Z.of_nat (S sidx)) in H by lia.
      rewrite (getitem_nat _ _ _ Hcur') in H. cbn [Py.bind] in H.
      replace (Z.of_nat (length symbol_list - sidx) - 1)
        with (Z.of_nat (length symbol_list - S sidx)) in H by lia.
      replace (Z.of_nat m) with (Z.of_nat (S m) - 1) in H by lia.
      by apply (IH l (S m) (S sidx) cur' final). }
  (* the entry is rewritten *)
  assert (Hm : (m < length l)%nat) by lia.
  rewrite (setitem_nat _ _ _ Hm) in H. cbn [Py.bind] in H.
  set (new_sym := if r_info_sym reloc =? 0 then 0
                  else r_info_sym reloc - Z.of_nat (length symbol_list - sidx)) in *.
  set (reloc' := with_r_info_sym new_sym
                   (with_r_info (new_r_info ent_size new_sym (r_info_type reloc)) reloc)) in *.
  assert (Htake : take m (<[m := reloc']> l) = take m l) by (by rewrite take_insert_ge).
  replace (Z.of_nat m - 1) with (Z.of_nat m - 1) in H by done.
  destruct (IH (<[m := reloc']> l) m sidx cur final) as [Hlen Hfinal].
  - rewrite length_insert. lia.
  - done.
  - rewrite Htake. replace (take m l) with (take m (take (S m) l))
      by (rewrite take_take; f_equal; lia).
    by apply table_inv_take.
  - intros j s z Hj Hs Hz Hz0. apply (Hdom j s z); [done..| |done].
    rewrite Htake in Hz. apply list_elem_of_fmap in Hz as (r & -> & Hr).
    apply list_elem_of_fmap. exists r. split; [done|].
    apply list_elem_of_lookup in Hr as [i Hi]. apply lookup_take_Some in Hi as [Hi Him].
    eapply list_elem_of_lookup_2. apply lookup_take_Some. split; [exact Hi|lia].
  - exact H.
  - rewrite length_insert in Hlen. split; [done|]. intros i r Hi.
    destruct (decide (i = m)) as [->|Him].
    + rewrite Hreloc in Hi. injection Hi as <-.
      destruct (Hfinal m reloc') as (r' & Hr' & Hsame & _);
        [by rewrite list_lookup_insert_eq by lia|].
      rewrite (Hsame (Nat.le_refl _)) in Hr'. exists reloc'. split; [done|].
      split; [lia|]. intros _. unfold renumbered, reloc'. simpl.
      split; [done|]. split; [done|]. split; [done|]. unfold new_sym. split.
      * intros Hne. rewrite (proj2 (Z.eqb_neq _ _) Hne). f_equal.
        assert (Hgt : sym_index cur < r_info_sym reloc).
        { rewrite (proj2 (Z.eqb_neq _ _) Hne) in Hskip. simpl in Hskip.
          by apply Z.leb_gt in Hskip. }
        symmetry. apply count_lower_split.
        -- intros j s Hj Hs. apply (Hdom j s); [done..| |done].
           eapply list_elem_of_lookup_2. apply (Hpre m reloc); [lia|done].
        -- intros j s Hj Hs. pose proof (descending_lookup sidx j cur s Hj Hcur Hs). lia.
      * intros Hz. by rewrite (proj2 (Z.eqb_eq _ _) Hz).
    + destruct (Hfinal i r) as (r' & Hr' & Hsame & Hren);
        [by rewrite list_lookup_insert_ne|].
      exists r'. split; [done|]. split.
      * intros Hge. apply Hsame. lia.
      * intros Hlt. apply Hren. lia.
Qed.

End fixup.

Section renumbering.
Import Relocs.
Variable address_offsets : Z → list Z.
Variable iter_relocations : list byte → Section → list Reloc.

Lemma restore_order_elem_of orig l r : r ∈ restore_order orig l → r ∈ l.
Proof.
  unfold restore_order. intros H. apply list_elem_of_omap in H as (o & _ & Ho).
  revert Ho. generalize (r_offset o). intros k.
  assert (Hgen : ∀ l0 (d : gmap Z Reloc),
            (∀ k r, d !! k = Some r → r ∈ l) → (∀ r, r ∈ l0 → r ∈ l) →
            ∀ k r, foldl (λ d r, <[r_offset r := r]> d) d l0 !! k = Some r → r ∈ l).
  { induction l0 as [|x l0 IH]; intros d Hd Hsub k' r' H'; simpl in H'; [by eapply Hd|].
    eapply (IH (<[r_offset x := x]> d)); [| |exact H'].
    - intros k'' r''. rewrite lookup_insert. case_decide.
      + intros [= <-]. apply Hsub. by left.
      + apply Hd.
    - intros r'' Hr''. apply Hsub. by right. }
  apply (Hgen l ∅); [|done]. intros k' r'. by rewrite lookup_empty.
Qed.

End renumbering.

(** ** Continuous relocation tables *)

Section dynamic_tags.
Import Elf.

Lemma find_tag_Some target tags idx :
  find_tag target tags = Some idx → ∃ v, tags !! idx = Some (target, v).
Proof.
  revert idx. induction tags as [|[t v] tags IH]; intros idx H; [done|]. simpl in H.
  destruct (String.eqb_spec t target) as [->|Hne].
  - injection H as <-. by exists v.
  - destruct (find_tag target tags) as [i|] eqn:E; [|done]. simpl in H. injection H as <-.
    by apply IH.
Qed.

Lemma find_tag_insert target tags idx t v v' :
  tags !! idx = Some (t, v) →
  find_tag target (<[idx := (t, v')]> tags) = find_tag target tags.
Proof.
  revert idx. induction tags as [|[t0 v0] tags IH]; intros idx H; [done|].
  destruct idx as [|idx]; simpl in *.
  - by injection H as -> ->.
  - by rewrite (IH idx H).
Qed.

Lemma write_dynamic_tag_frame self target value sub self' :
  _write_dynamic_tag self target value sub = Py.Ok self' →
  _f self' = _f self ∧ objs self' = objs self
  ∧ ∀ other, other ≠ target → dynamic_tag self' other = dynamic_tag self other.
Proof.
  unfold _write_dynamic_tag. intros H. apply bind_Ok in H as (tags & Htags & H).
  destruct (_dynamic self) as [tags0|] eqn:Hdyn; [|done]. injection Htags as ->.
  destruct (find_tag target tags) as [idx|] eqn:Hfind.
  2:{ by injection H as <-. }
  unfold _modify_dynamic_tag_at_index in H. rewrite Hdyn in H. cbn [Py.of_option Py.bind] in H.
  destruct (find_tag_Some _ _ _ Hfind) as (v & Hv). rewrite Hv in H.
  cbn [Py.of_option Py.bind] in H. bind_inv H. injection H as <-.
  split; [done|]. split; [done|]. intros other Hother.
  unfold dynamic_tag. rewrite Hdyn. cbn [_dynamic set_dynamic mbind option_bind].
  rewrite (find_tag_insert other tags idx target v _ Hv).
  destruct (find_tag other tags) as [j|] eqn:Hj; [|done]. cbn [mbind option_bind].
  destruct (find_tag_Some _ _ _ Hj) as (w & Hw).
  assert (j ≠ idx) by (intros ->; congruence).
  by rewrite list_lookup_insert_ne.
Qed.

End dynamic_tags.

Section remove_phase_shape.
Import Relocs.
Variable address_offsets : Z → list Z.
Variables (rela little push is_symtab : bool).

Lemma setter_addend_offset f reloc v f' reloc' :
  setter_addend address_offsets rela little f reloc v = Py.Ok (f', reloc') →
  r_offset reloc' = r_offset reloc.
Proof.
  unfold setter_addend. destruct rela; [by intros [= <- <-]|].
  intros H. bind_inv H. bind_inv H. bind_inv H. by injection H as <- <-.
Qed.

Lemma shape_kept_refl t : shape_kept t t.
Proof. by split. Qed.

Lemma shape_kept_trans t1 t2 t3 : shape_kept t1 t2 → shape_kept t2 t3 → shape_kept t1 t3.
Proof. intros [S1 C1] [S2 C2]. split; [by etrans|lia]. Qed.

Lemma edit_loop_shape fuel sym_nr sym_addr : ∀ t cur_idx t',
  edit_loop address_offsets fuel rela little push is_symtab sym_nr sym_addr t cur_idx
    = Py.Ok t' →
  shape_kept t t'.
Proof.
  induction fuel as [|fuel IH]; intros t cur_idx t' H; [done|].
  cbn [edit_loop] in H.
  destruct (Nat.ltb_spec cur_idx (length (reloc_list t))) as [Hlt|Hge]; cbn [negb] in H;
    [|injection H as <-; apply shape_kept_refl].
  bind_inv H. rename a into reloc, Ha into Hreloc.
  bind_inv H. rename a into found. destruct found.
  - destruct push.
    + apply IH in H. eapply shape_kept_trans; [|exact H]. split; simpl.
      * rewrite list_fmap_delete. apply sublist_delete.
      * rewrite length_delete by (by apply lookup_lt_is_Some_2). lia.
    + apply bind_Ok in H as ([f' reloc'] & Hset & H).
      apply setter_addend_offset in Hset. simpl in Hset.
      apply IH in H. eapply shape_kept_trans; [|exact H]. split; simpl.
      * rewrite list_fmap_insert, Hset.
        destruct (reloc_list t !! cur_idx) as [r|] eqn:Hr; [|done].
        simpl in Hreloc. injection Hreloc as ->.
        rewrite list_insert_id; [done|]. by rewrite list_lookup_fmap, Hr.
      * by rewrite length_insert.
  - bind_inv H. destruct a; [injection H as <-; apply shape_kept_refl|].
    destruct (sym_nr <? r_info_sym reloc); [injection H as <-; apply shape_kept_refl|].
    destruct (negb is_symtab && push).
    + destruct (_ <=? _)%nat; [done|]. by apply IH in H.
    + by apply IH in H.
Qed.

Lemma remove_loop_shape symbol_list : ∀ t nrs addrs t' nrs' addrs',
  Py.for_each (remove_step address_offsets rela little push is_symtab) symbol_list
    (t, nrs, addrs) = Py.Ok (t', nrs', addrs') →
  shape_kept t t'.
Proof.
  induction symbol_list as [|symbol symbol_list IH]; intros t nrs addrs t' nrs' addrs' H.
  - simpl in H. injection H as <- <- <-. apply shape_kept_refl.
  - cbn [Py.for_each] in H. apply bind_Ok in H as ([[t1 nrs1] addrs1] & Hstep & H).
    apply IH in H. eapply shape_kept_trans; [|exact H].
    unfold remove_step in Hstep. destruct (_ && _).
    + injection Hstep as <- <- <-. apply shape_kept_refl.
    + apply bind_Ok in Hstep as (t2 & Hedit & Hstep). injection Hstep as <- <- <-.
      unfold _edit_rel_sect in Hedit. bind_inv Hedit. by eapply edit_loop_shape.
Qed.

(** The table after the removal phase, against the section: no new
    offsets, none twice if none was twice, and [removed] is the number of
    entries that are gone. *)
Lemma remove_phase_shape f orig symbol_list t :
  remove_phase address_offsets rela little push is_symtab f orig symbol_list = Py.Ok t →
  (∀ k, k ∈ r_offset <$> reloc_list t → k ∈ r_offset <$> orig)
  ∧ (NoDup (r_offset <$> orig) → NoDup (r_offset <$> reloc_list t))
  ∧ Z.of_nat (length (reloc_list t)) + removed t = Z.of_nat (length orig)
  ∧ 0 ≤ removed t.
Proof.
  intros H. unfold remove_phase in H.
  apply bind_Ok in H as (relocs & Hkeyed & H).
  apply keyed_relocs_spec in Hkeyed as [Hfst _].
  set (le := λ x y : Reloc * Z * Z, Py.pair_le (sort_key x) (sort_key y)) in *.
  pose proof (sorted_perm le relocs) as Hperm.
  destruct (Py.sorted le relocs) as [|x0 srt] eqn:Hs; [done|]. rewrite <- Hs in *.
  apply bind_Ok in H as ([[t1 nrs] addrs] & Hloop & H). injection H as <-.
  apply remove_loop_shape in Hloop as [Hsub Hcount]. simpl in Hsub, Hcount.
  assert (Hp : r_offset <$> ((λ x : Reloc * Z * Z, x.1.1) <$> Py.sorted le relocs)
               ≡ₚ r_offset <$> orig).
  { rewrite <- Hfst. by rewrite Hperm. }
  split; [|split; [|split]].
  - intros k Hk. rewrite <- Hp. by eapply sublist_subseteq.
  - intros Hnd. eapply sublist_NoDup; [|exact Hsub]. by rewrite Hp.
  - rewrite Hcount, length_fmap, Hperm, <- Hfst, length_fmap. lia.
  - apply sublist_length in Hsub. rewrite !length_fmap in Hsub.
    rewrite length_fmap in Hcount. lia.
Qed.

End remove_phase_shape.

Section restore_order.
Import Relocs.

Local Abbreviation lookup_dict_from :=
  (foldl (λ (d : gmap Z Reloc) r, <[r_offset r := r]> d)).

Lemma lookup_dict_key l : ∀ (d : gmap Z Reloc),
  (∀ k r, d !! k = Some r → r_offset r = k) →
  ∀ k r, lookup_dict_from d l !! k = Some r → r_offset r = k.
Proof.
  induction l as [|x l IH]; intros d Hd k r H; simpl in H; [by apply Hd|].
  apply (IH (<[r_offset x := x]> d)); [|done].
  intros k' r'. rewrite lookup_insert. case_decide; [by intros [= <-]|apply Hd].
Qed.

Lemma lookup_dict_is_Some l : ∀ (d : gmap Z Reloc) k,
  k ∈ r_offset <$> l ∨ is_Some (d !! k) → is_Some (lookup_dict_from d l !! k).
Proof.
  induction l as [|x l IH]; intros d k H; simpl.
  - destruct H as [H|H]; [by apply elem_of_nil in H|done].
  - apply IH. simpl in H. rewrite elem_of_cons in H.
    destruct (decide (r_offset x = k)) as [<-|Hne].
    + right. by rewrite lookup_insert_eq.
    + rewrite lookup_insert_ne by done. destruct H as [[H|H]|H]; [congruence|by left|by right].
Qed.

Lemma omap_offsets_sublist (d : gmap Z Reloc) orig :
  (∀ k r, d !! k = Some r → r_offset r = k) →
  (r_offset <$> omap (λ o, d !! r_offset o) orig) `sublist_of` (r_offset <$> orig).
Proof.
  intros Hd. induction orig as [|o orig IH]; simpl; [constructor|].
  destruct (d !! r_offset o) as [r|] eqn:Hr; simpl.
  - rewrite (Hd _ _ Hr). by constructor.
  - by constructor.
Qed.

(** When no offset occurs twice, restoring the order loses no entry. *)
Lemma restore_order_length orig final :
  NoDup (r_offset <$> orig) → NoDup (r_offset <$> final) →
  (∀ k, k ∈ r_offset <$> final → k ∈ r_offset <$> orig) →
  length (restore_order orig final) = length final.
Proof.
  intros Hnd_o Hnd_f Hsub.
  assert (Hkey : ∀ k r, lookup_dict_from ∅ final !! k = Some r → r_offset r = k).
  { apply lookup_dict_key. intros k r. by rewrite lookup_empty. }
  cut (r_offset <$> restore_order orig final ≡ₚ r_offset <$> final).
  { intros Hp. apply Permutation_length in Hp. by rewrite !length_fmap in Hp. }
  apply NoDup_Permutation; [|done|].
  - eapply sublist_NoDup; [exact Hnd_o|]. by apply omap_offsets_sublist.
  - intros k. split.
    + intros Hk. apply list_elem_of_fmap in Hk as (r & -> & Hr).
      apply list_elem_of_fmap. exists r. split; [done|]. by eapply restore_order_elem_of.
    + intros Hk. destruct (lookup_dict_is_Some final ∅ k (or_introl Hk)) as [r Hr].
      apply Hsub in Hk. apply list_elem_of_fmap in Hk as (o & -> & Ho).
      apply list_elem_of_fmap. exists r. split; [symmetry; by apply Hkey|].
      apply list_elem_of_omap. by exists o.
Qed.

End restore_order.

Section packing.
Import Relocs.

Lemma pack_reloc_length little (rela : bool) r b :
  pack_reloc little (if rela then 24 else 8) r = Py.Ok b →
  Z.of_nat (length b) = if rela then 24 else 8.
Proof.
  unfold pack_reloc. destruct rela; simpl; intros H.
  - bind_inv H. bind_inv H. bind_inv H. injection H as <-.
    rewrite !length_app, (pack_unsigned_length _ _ _ _ Ha), (pack_signed_length _ _ _ _ Ha0),
      (pack_unsigned_length _ _ _ _ Ha1). lia.
  - bind_inv H. bind_inv H. injection H as <-.
    rewrite !length_app, (pack_unsigned_length _ _ _ _ Ha), (pack_signed_length _ _ _ _ Ha0).
    lia.
Qed.

Lemma pack_relocs_spec little (rela : bool) l : ∀ bs,
  pack_relocs little (if rela then 24 else 8) l = Py.Ok bs →
  length bs = length l
  ∧ Forall (λ b, Z.of_nat (length b) = if rela then 24 else 8) bs.
Proof.
  induction l as [|r l IH]; intros bs H; simpl in H.
  - injection H as <-. by split.
  - bind_inv H. bind_inv H. injection H as <-.
    destruct (IH _ Ha0) as [E1 E2]. split; [simpl; by rewrite E1|].
    constructor; [by eapply pack_reloc_length|done].
Qed.

Lemma concat_length_uniform (bs : list (list byte)) (n : Z) :
  Forall (λ b, Z.of_nat (length b) = n) bs →
  Z.of_nat (length (concat bs)) = n * Z.of_nat (length bs).
Proof.
  induction 1 as [|b bs Hb _ IH]; simpl; [lia|]. rewrite length_app. lia.
Qed.

Lemma getitem_last {A} (l : list A) x :
  Py.getitem l (-1) = Py.Ok x → last l = Some x.
Proof.
  unfold Py.getitem. simpl.
  destruct (Z.ltb_spec (-1) (Z.of_nat (length l))); simpl.
  - destruct (Z.leb_spec (- Z.of_nat (length l)) (-1)); simpl; [|done].
    replace (Z.to_nat (Z.of_nat (length l) + -1)) with (pred (length l)) by lia.
    rewrite last_lookup. by destruct (l !! pred (length l)); intros [= <-].
  - lia.
Qed.

End packing.

Section fixup_offsets.
Import Relocs.

Lemma setitem_same_offset (l : list Reloc) i r x l' :
  Py.getitem l i = Py.Ok r → Py.setitem l i x = Py.Ok l' →
  r_offset x = r_offset r →
  r_offset <$> l' = r_offset <$> l.
Proof.
  unfold Py.getitem, Py.setitem. intros Hg Hs Hx.
  destruct (_ && _).
  - injection Hs as <-. destruct (l !! Z.to_nat i) as [r0|] eqn:Hr; [|done].
    simpl in Hg. injection Hg as ->.
    rewrite list_fmap_insert, Hx. apply list_insert_id. by rewrite list_lookup_fmap, Hr.
  - destruct (_ && _); [|done].
    injection Hs as <-. destruct (l !! Z.to_nat _) as [r0|] eqn:Hr; [|done].
    simpl in Hg. injection Hg as ->.
    rewrite list_fmap_insert, Hx. apply list_insert_id. by rewrite list_lookup_fmap, Hr.
Qed.

Lemma fixup_loop_offsets push ent_size symbol_list fuel : ∀ l idx sidx cur num final,
  fixup_loop fuel push ent_size symbol_list l idx sidx cur num = Py.Ok final →
  r_offset <$> final = r_offset <$> l.
Proof.
  induction fuel as [|fuel IH]; intros l idx sidx cur num final H; [done|].
  cbn [fixup_loop] in H. destruct (idx <? 0); [by injection H as <-|].
  apply bind_Ok in H as (reloc & Hreloc & H).
  destruct (_ && push); [by injection H as <-|].
  destruct (negb _ && _).
  - destruct (_ =? 0); [by injection H as <-|].
    apply bind_Ok in H as (cur' & _ & H). by apply IH in H.
  - apply bind_Ok in H as (l' & Hl' & H). apply IH in H. rewrite H.
    by eapply setitem_same_offset.
Qed.

Lemma fixup_indices_offsets push is_symtab ent_size symbol_list l final :
  fixup_indices push is_symtab ent_size symbol_list l = Py.Ok final →
  r_offset <$> final = r_offset <$> l.
Proof.
  unfold fixup_indices. destruct (negb is_symtab); [|by intros [= <-]].
  intros H. apply bind_Ok in H as (cur & _ & H). by eapply fixup_loop_offsets.
Qed.

End fixup_offsets.

Section continuous.
Import Relocs.
Variable address_offsets : Z → list Z.
Variable iter_relocations : list byte → Section → list Reloc.

(** C2.  With [need_continuous_relocations] set, a pass of
    [_batch_remove_relocs] that succeeds changes no section object (so
    [sh_size] and the cached size stay as they were) and leaves the
    [DT_RELASZ] and [DT_RELSZ] tags alone; what it writes at the offset of
    the section is the surviving entries followed by [removed] copies of
    the bytes of the last of them.  When no two relocations share an
    offset, survivors and copies together are as many entries as the
    section had. *)
Theorem continuous_relocations_keep_size self symbol_list sec push is_symtab self' :
  let obj := objs self (section sec) in
  let ent_size := if is_RELA obj then 24 else 8 in
  let orig := iter_relocations (_f self) obj in
  _need_continuous_relocations self = true →
  _batch_remove_relocs address_offsets iter_relocations self symbol_list (Some sec)
    push is_symtab = Py.Ok self' →
  objs self' = objs self
  ∧ Elf.dynamic_tag self' "DT_RELASZ" = Elf.dynamic_tag self "DT_RELASZ"
  ∧ Elf.dynamic_tag self' "DT_RELSZ" = Elf.dynamic_tag self "DT_RELSZ"
  ∧ ∃ t final relocs_bytes last_reloc,
      remove_phase address_offsets (is_RELA obj) (little_endian self) push is_symtab
        (_f self) orig symbol_list = Py.Ok t
      ∧ fixup_indices push is_symtab ent_size symbol_list (reloc_list t) = Py.Ok final
      ∧ pack_relocs (little_endian self) ent_size (restore_order orig final)
        = Py.Ok relocs_bytes
      ∧ 0 ≤ removed t
      ∧ last relocs_bytes = Some last_reloc
      ∧ Z.of_nat (length last_reloc) = ent_size
      ∧ File.read (_f self') (sh_offset (header obj))
          (ent_size * (Z.of_nat (length relocs_bytes) + removed t))
        = Py.Ok (concat relocs_bytes ++ concat (replicate (Z.to_nat (removed t)) last_reloc))
      ∧ (NoDup (r_offset <$> orig) →
         Z.of_nat (length relocs_bytes) + removed t = Z.of_nat (length orig)).
Proof.
  intros obj ent_size orig Hcont H. unfold _batch_remove_relocs in H.
  fold obj orig ent_size in H.
  apply bind_Ok in H as (t & Ht & H). apply bind_Ok in H as (final & Hfinal & H).
  apply bind_Ok in H as (relocs_bytes & Hpack & H).
  apply bind_Ok in H as (fill & Hfill & H).
  apply bind_Ok in H as (f & Hf & H).
  cbv zeta in H.
  change (_need_continuous_relocations (set_f f self))
    with (_need_continuous_relocations self) in H.
  rewrite Hcont in H, Hfill. cbn [negb Py.bind] in H.
  unfold fill_bytes in Hfill. apply bind_Ok in Hfill as (last_reloc & Hlast & Hfill).
  injection Hfill as <-. apply getitem_last in Hlast.
  assert (Hframe : _f self' = f ∧ objs self' = objs self
            ∧ ∀ other, (other ≠ "DT_RELACOUNT" ∧ other ≠ "DT_RELCOUNT")%string →
                Elf.dynamic_tag self' other = Elf.dynamic_tag self other).
  { destruct push.
    - change (_need_continuous_relocations (set_f f self))
        with (_need_continuous_relocations self) in H.
      rewrite Hcont in H. cbn [negb Py.bind] in H.
      apply write_dynamic_tag_frame in H as (E1 & E2 & E3). split; [done|]. split; [done|].
      intros other [H1 H2]. rewrite E3; [done|]. by destruct (is_RELA obj).
    - injection H as <-. done. }
  destruct Hframe as (Ef & Eo & Etag).
  split; [done|]. split; [by apply Etag|]. split; [by apply Etag|].
  destruct (remove_phase_shape _ _ _ _ _ _ _ _ _ Ht) as (Hsub & Hnd & Hcount & Hpos).
  destruct (pack_relocs_spec _ (is_RELA obj) _ _ Hpack) as [Hlen Hall].
  fold ent_size in Hall.
  assert (Hlast_len : Z.of_nat (length last_reloc) = ent_size).
  { rewrite Forall_forall in Hall. apply Hall. rewrite last_lookup in Hlast.
    by eapply list_elem_of_lookup_2. }
  assert (Hent : 0 < ent_size) by (unfold ent_size; by destruct (is_RELA obj)).
  exists t, final, relocs_bytes, last_reloc.
  split; [done|]. split; [done|]. split; [done|]. split; [done|]. split; [done|].
  split; [done|]. split.
  - rewrite Ef.
    assert (Hdata : Z.of_nat (length (concat relocs_bytes
                      ++ concat (replicate (Z.to_nat (removed t)) last_reloc)))
                    = ent_size * (Z.of_nat (length relocs_bytes) + removed t)).
    { rewrite length_app, Nat2Z.inj_add, (concat_length_uniform _ ent_size Hall).
      rewrite (concat_length_uniform _ ent_size) by (by apply Forall_replicate).
      rewrite length_replicate. lia. }
    rewrite <- Hdata. apply write_lookup in Hf as [Hoff Hl].
    apply read_from_lookup; [done|]. intros i Hi.
    rewrite Hl, decide_True by lia. f_equal. lia.
  - intros Hnodup. rewrite Hlen, restore_order_length; [| done | |].
    + rewrite <- Hcount. f_equal. f_equal.
      apply fixup_indices_offsets in Hfinal.
      apply (f_equal length) in Hfinal. by rewrite !length_fmap in Hfinal.
    + rewrite (fixup_indices_offsets _ _ _ _ _ _ Hfinal). by apply Hnd.
    + intros k. rewrite (fixup_indices_offsets _ _ _ _ _ _ Hfinal). apply Hsub.
Qed.

End continuous.

(** The example section in a library that needs continuous tables: [foo]
    goes, two of five entries are removed, the section object and
    [DT_RELASZ] stay at 120 bytes, and the 120 bytes of the section are
    the three survivors followed by two copies of the last one. *)
Lemma continuous_relocations_keep_size_witness :
  ∃ self' t relocs_bytes last_reloc,
    Relocs._batch_remove_relocs Examples.no_offsets Examples.rela_iter_relocations
      (Examples.rela_lib true) [Examples.foo_ref] (Some (mkSectionWrapper 0 8 0))
      true false = Py.Ok self'
    ∧ Relocs.removed t = 2
    ∧ sh_size (header (objs self' 0%nat)) = 120
    ∧ Elf.dynamic_tag self' "DT_RELASZ" = Some 120
    ∧ last relocs_bytes = Some last_reloc
    ∧ File.read (_f self') 40 120 = Py.Ok (concat relocs_bytes ++ last_reloc ++ last_reloc).
Proof.
  destruct (Relocs._batch_remove_relocs Examples.no_offsets Examples.rela_iter_relocations
              (Examples.rela_lib true) [Examples.foo_ref] (Some (mkSectionWrapper 0 8 0))
              true false) as [self'|] eqn:H; [|vm_compute in H; discriminate H].
  destruct (continuous_relocations_keep_size Examples.no_offsets
              Examples.rela_iter_relocations (Examples.rela_lib true) [Examples.foo_ref]
              (mkSectionWrapper 0 8 0) true false self' eq_refl H)
    as (Hobjs & Htag & _ & t & final & relocs_bytes & last_reloc
        & Ht & _ & _ & _ & Hlast & _ & Hread & Hlen).
  assert (Hrem : Relocs.removed t = 2).
  { vm_compute in Ht. injection Ht as <-. reflexivity. }
  assert (Hn : Z.of_nat (length relocs_bytes) = 3).
  { assert (NoDup (r_offset <$> Examples.rela_entries)) as Hnd
      by (apply (bool_decide_eq_true_1 (NoDup _)); vm_compute; reflexivity).
    specialize (Hlen Hnd). rewrite Hrem in Hlen. simpl in Hlen. lia. }
  exists self', t, relocs_bytes, last_reloc.
  split; [done|]. split; [done|]. split; [by rewrite Hobjs|]. split; [by rewrite Htag|].
  split; [done|].
  rewrite Hrem, Hn in Hread. simpl in Hread. by rewrite app_nil_r in Hread.
Defined.

(** ** The entries a compaction pass writes *)

Section renumbering_written.
Import Relocs.
Variable address_offsets : Z → list Z.
Variable iter_relocations : list byte → Section → list Reloc.

(** The fix-up loop and the [r_info] word: an entry is left as it is or
    gets the word made of its new symbol index and its type. *)
Lemma fixup_loop_info push ent_size symbol_list fuel : ∀ l idx sidx cur num final,
  fixup_loop fuel push ent_size symbol_list l idx sidx cur num = Py.Ok final →
  ∀ i r, l !! i = Some r →
    ∃ r', final !! i = Some r' ∧ rewritten ent_size r r'
          ∧ r_info_type r' = r_info_type r.
Proof.
  induction fuel as [|fuel IH]; intros l idx sidx cur num final H i r Hi; [done|].
  cbn [fixup_loop] in H.
  destruct (Z.ltb_spec idx 0) as [|Hidx].
  { injection H as <-. exists r. split; [done|]. split; [by left|done]. }
  apply bind_Ok in H as (reloc & Hreloc & H).
  destruct (_ && push).
  { injection H as <-. exists r. split; [done|]. split; [by left|done]. }
  destruct (negb _ && _).
  - destruct (_ =? 0).
    { injection H as <-. exists r. split; [done|]. split; [by left|done]. }
    apply bind_Ok in H as (cur' & _ & H). by eapply IH.
  - apply bind_Ok in H as (l' & Hl' & H).
    rewrite <- (Z2Nat.id idx) in Hreloc, Hl' by lia.
    apply getitem_nat_inv in Hreloc.
    rewrite setitem_nat in Hl' by (by eapply lookup_lt_Some). injection Hl' as <-.
    set (new_sym := if r_info_sym reloc =? 0 then 0 else r_info_sym reloc - num) in *.
    set (reloc' := with_r_info_sym new_sym
                     (with_r_info (new_r_info ent_size new_sym (r_info_type reloc)) reloc))
      in *.
    destruct (decide (i = Z.to_nat idx)) as [->|Hne].
    + rewrite Hreloc in Hi. injection Hi as <-.
      destruct (IH _ _ _ _ _ _ H (Z.to_nat idx) reloc') as (r' & Hr' & Hrw & Hty).
      { apply list_lookup_insert_eq. by eapply lookup_lt_Some. }
      exists r'. split; [done|]. split; [|by rewrite Hty].
      right. destruct Hrw as [->|Hrw]; [done|]. by rewrite Hrw.
    + apply (IH _ _ _ _ _ _ H). by rewrite list_lookup_insert_ne.
Qed.

Lemma fixup_indices_info push is_symtab ent_size symbol_list l final :
  fixup_indices push is_symtab ent_size symbol_list l = Py.Ok final →
  ∀ i r, l !! i = Some r → ∃ r', final !! i = Some r' ∧ rewritten ent_size r r'.
Proof.
  unfold fixup_indices. destruct (negb is_symtab).
  - intros H i r Hi. apply bind_Ok in H as (cur & _ & H).
    destruct (fixup_loop_info _ _ _ _ _ _ _ _ _ _ H i r Hi) as (r' & Hr' & Hrw & _).
    by exists r'.
  - intros [= <-] i r Hi. exists r. split; [done|]. by left.
Qed.

(** The dictionary that restores the order holds every entry of a table
    without repeated offsets under its offset. *)
Lemma lookup_dict_absent (l : list Reloc) : ∀ (d : gmap Z Reloc) k,
  k ∉ r_offset <$> l →
  foldl (λ d r, <[r_offset r := r]> d) d l !! k = d !! k.
Proof.
  induction l as [|x l IH]; intros d k Hk; [done|]. cbn [foldl].
  rewrite fmap_cons, not_elem_of_cons in Hk. destruct Hk as [Hne Hk].
  rewrite IH by done. by rewrite lookup_insert_ne.
Qed.

Lemma lookup_dict_present (l : list Reloc) : ∀ (d : gmap Z Reloc) r,
  NoDup (r_offset <$> l) → r ∈ l →
  foldl (λ d r, <[r_offset r := r]> d) d l !! r_offset r = Some r.
Proof.
  induction l as [|x l IH]; intros d r Hnd Hr; [by apply elem_of_nil in Hr|].
  rewrite fmap_cons in Hnd. apply NoDup_cons in Hnd as [Hx Hnd]. cbn [foldl].
  apply elem_of_cons in Hr as [->|Hr]; [|by apply IH].
  rewrite lookup_dict_absent by done. by rewrite lookup_insert_eq.
Qed.

Lemma restore_order_complete orig final r :
  NoDup (r_offset <$> final) → r ∈ final → r_offset r ∈ r_offset <$> orig →
  r ∈ restore_order orig final.
Proof.
  intros Hnd Hr Ho. unfold restore_order. apply list_elem_of_omap.
  apply list_elem_of_fmap in Ho as (o & Heq & Ho). exists o. split; [done|].
  rewrite <- Heq. by apply lookup_dict_present.
Qed.

Lemma pack_relocs_lookup little ent_size l : ∀ bs i r,
  pack_relocs little ent_size l = Py.Ok bs → l !! i = Some r →
  ∃ b, bs !! i = Some b ∧ pack_reloc little ent_size r = Py.Ok b.
Proof.
  induction l as [|x l IH]; intros bs i r H Hi; [done|]. cbn [pack_relocs] in H.
  apply bind_Ok in H as (b & Hb & H). apply bind_Ok in H as (bs' & Hbs' & H).
  injection H as <-. destruct i as [|i].
  - injection Hi as <-. by exists b.
  - by apply (IH bs' i r).
Qed.

(** The bytes of the [i]-th of a row of chunks of [n] bytes each. *)
Lemma concat_uniform_lookup (n : nat) (bs : list (list byte)) : ∀ i b rest j,
  Forall (λ b, length b = n) bs → bs !! i = Some b → (j < n)%nat →
  (concat bs ++ rest) !! (n * i + j)%nat = b !! j.
Proof.
  induction bs as [|x bs IH]; intros i b rest j Hall Hi Hj; [done|].
  apply Forall_cons in Hall as [Hx Hall]. cbn [concat]. rewrite <- app_assoc.
  destruct i as [|i].
  - injection Hi as <-. rewrite Nat.mul_0_r, Nat.add_0_l. by rewrite lookup_app_l by lia.
  - rewrite lookup_app_r by nia.
    replace (n * S i + j - length x)%nat with (n * i + j)%nat by nia.
    by apply IH.
Qed.

(** C1.  In a pass of [_batch_remove_relocs] over a section whose
    relocations carry no negative symbol index, with the removed symbols
    given by descending index: once the matching entries are removed, the
    fix-up leaves the table as long as it is and, for a [.dynsym] removal
    ([is_symtab] false), gives every surviving entry with a nonzero
    [r_info_sym] its old value minus the number of removed symbols with a
    lower index, in [r_info_sym] and in the [r_info] word above the type
    (offset, addend and type are kept; a zero index stays zero); in
    [is_symtab] mode every surviving entry is left as it is.  The entries
    the pass writes are entries of the fixed-up table, and the section in
    the file holds, at the place of its [i]-th entry, the packed fields
    of the [i]-th of them.  In push mode the survivors are entries of the
    section; when no two relocations of the section share an offset,
    every entry of the fixed-up table is written, once. *)
Theorem batch_remove_relocs_renumbering self symbol_list sec push is_symtab self' :
  let obj := objs self (section sec) in
  let ent_size := if is_RELA obj then 24 else 8 in
  let orig := iter_relocations (_f self) obj in
  Forall (λ r, 0 ≤ r_info_sym r) orig →
  descending_indices symbol_list →
  _batch_remove_relocs address_offsets iter_relocations self symbol_list (Some sec)
    push is_symtab = Py.Ok self' →
  ∃ t final,
    remove_phase address_offsets (is_RELA obj) (little_endian self) push is_symtab
      (_f self) orig symbol_list = Py.Ok t
    ∧ fixup_indices push is_symtab ent_size symbol_list (reloc_list t) = Py.Ok final
    ∧ length final = length (reloc_list t)
    ∧ (∀ i r, reloc_list t !! i = Some r →
         ∃ r', final !! i = Some r'
               ∧ if is_symtab then r' = r
                 else renumbered symbol_list r r' ∧ rewritten ent_size r r')
    ∧ (push = true → ∀ r, r ∈ reloc_list t → r ∈ orig)
    ∧ (∀ i r', restore_order orig final !! i = Some r' →
         r' ∈ final
         ∧ ∃ b, pack_reloc (little_endian self) ent_size r' = Py.Ok b
                ∧ File.read (_f self') (sh_offset (header obj) + ent_size * Z.of_nat i)
                    ent_size = Py.Ok b)
    ∧ (NoDup (r_offset <$> orig) →
       length (restore_order orig final) = length final
       ∧ ∀ r', r' ∈ final → r' ∈ restore_order orig final).
Proof.
  intros obj ent_size orig Hnn Hdesc H. unfold _batch_remove_relocs in H.
  fold obj orig ent_size in H.
  apply bind_Ok in H as (t & Ht & H). apply bind_Ok in H as (final & Hfinal & H).
  apply bind_Ok in H as (relocs_bytes & Hpack & H).
  apply bind_Ok in H as (fill & Hfill & H).
  apply bind_Ok in H as (f & Hf & H).
  exists t, final. split; [done|]. split; [done|].
  destruct (remove_phase_kept _ _ _ _ _ _ _ _ _ Hnn Ht) as [Hinv Hsub].
  assert (Hmain : length final = length (reloc_list t)
            ∧ ∀ i r, reloc_list t !! i = Some r →
                ∃ r', final !! i = Some r'
                      ∧ if is_symtab then r' = r
                        else renumbered symbol_list r r' ∧ rewritten ent_size r r').
  { pose proof (fixup_indices_info _ _ _ _ _ _ Hfinal) as Hinfo.
    unfold fixup_indices in Hfinal. destruct is_symtab; simpl in Hfinal.
    - injection Hfinal as <-. split; [done|]. intros i r Hi. by exists r.
    - apply bind_Ok in Hfinal as (cur & Hcur & Hloop).
      apply (getitem_nat_inv _ 0) in Hcur.
      replace (Z.of_nat (length symbol_list))
        with (Z.of_nat (length symbol_list - 0)) in Hloop by (f_equal; lia).
      destruct (fixup_loop_spec push ent_size symbol_list Hdesc
                  (length (reloc_list t) + length symbol_list + 1) (reloc_list t)
                  (length (reloc_list t)) 0 cur final) as [Hlen Hall];
        [lia|done|by rewrite firstn_all|intros j s z Hj; lia|exact Hloop|].
      split; [done|]. intros i r Hi. destruct (Hall i r Hi) as (r' & Hr' & _ & Hren).
      exists r'. split; [done|]. split; [apply Hren; by eapply lookup_lt_Some|].
      destruct (Hinfo i r Hi) as (r'' & Hr'' & Hrw). congruence. }
  destruct Hmain as [Hlen Hall]. split; [done|]. split; [done|]. split; [done|].
  (* the file at the end *)
  assert (Hfile : _f self' = f).
  { cbv zeta in H.
    change (_need_continuous_relocations (set_f f self))
      with (_need_continuous_relocations self) in H.
    apply bind_Ok in H as (self1 & H1 & H).
    assert (E1 : _f self1 = f).
    { destruct (negb (_need_continuous_relocations self)).
      - apply bind_Ok in H1 as (self2 & H2 & H1). injection H1 as <-.
        cbn [_f set_objs]. by rewrite (set_section_attribute_f _ _ _ _ _ _ H2).
      - by injection H1 as <-. }
    destruct push; [|by injection H as <-].
    apply bind_Ok in H as (self3 & H3 & H).
    apply write_dynamic_tag_frame in H as (E & _). rewrite E.
    destruct (negb (_need_continuous_relocations self1)).
    - apply write_dynamic_tag_frame in H3 as (E3 & _). by rewrite E3.
    - by injection H3 as <-. }
  destruct (pack_relocs_spec _ (is_RELA obj) _ _ Hpack) as [Hblen Hball].
  fold ent_size in Hball.
  assert (Hent : 0 < ent_size) by (unfold ent_size; by destruct (is_RELA obj)).
  split.
  - intros i r' Hi. split; [eapply restore_order_elem_of; by eapply list_elem_of_lookup_2|].
    destruct (pack_relocs_lookup _ _ _ _ _ _ Hpack Hi) as (b & Hb & Hpb).
    exists b. split; [done|].
    assert (Hbl : Z.of_nat (length b) = ent_size).
    { rewrite Forall_forall in Hball. apply Hball. by eapply list_elem_of_lookup_2. }
    rewrite Hfile. rewrite <- Hbl at 2.
    apply write_lookup in Hf as [Hoff Hl].
    apply read_from_lookup; [lia|]. intros j Hj.
    assert (Hin : (Z.to_nat ent_size * i + j < length (concat relocs_bytes))%nat).
    { pose proof (concat_length_uniform _ ent_size Hball) as Hc.
      apply lookup_lt_Some in Hb. nia. }
    rewrite Hl, decide_True by (rewrite length_app; lia).
    replace (Z.to_nat (sh_offset (header obj) + ent_size * Z.of_nat i) + j
             - Z.to_nat (sh_offset (header obj)))%nat
      with (Z.to_nat ent_size * i + j)%nat by nia.
    apply concat_uniform_lookup; [|done|lia].
    eapply Forall_impl; [exact Hball|]. intros x Hx. cbn beta in Hx. lia.
  - intros Hnodup.
    destruct (remove_phase_shape _ _ _ _ _ _ _ _ _ Ht) as (Hsubo & Hnd & _ & _).
    pose proof (fixup_indices_offsets _ _ _ _ _ _ Hfinal) as Hoffs.
    split.
    + apply restore_order_length; [done| |].
      * rewrite Hoffs. by apply Hnd.
      * intros k. rewrite Hoffs. apply Hsubo.
    + intros r' Hr'. apply restore_order_complete; [|done|].
      * rewrite Hoffs. by apply Hnd.
      * apply Hsubo. rewrite <- Hoffs. by apply list_elem_of_fmap_2.
Qed.

End renumbering_written.

(** Removing [foo] (symbol 2, address 32) from the example section: the
    entry that refers to symbol 3 survives, is the first entry written,
    and refers to symbol 2 in [r_info_sym] and in the [r_info] word that
    the file holds. *)
Lemma batch_remove_relocs_renumbering_witness :
  ∃ self' r' b,
    Relocs._batch_remove_relocs Examples.no_offsets Examples.rela_iter_relocations
      (Examples.rela_lib false) [Examples.foo_ref] (Some (mkSectionWrapper 0 8 0))
      true false = Py.Ok self'
    ∧ r_offset r' = 216
    ∧ r_info_sym r' = 2
    ∧ r_info r' = Z.lor (Z.shiftl 2 32) 6
    ∧ Relocs.pack_reloc true 24 r' = Py.Ok b
    ∧ File.read (_f self') 40 24 = Py.Ok b.
Proof.
  destruct (Relocs._batch_remove_relocs Examples.no_offsets Examples.rela_iter_relocations
              (Examples.rela_lib false) [Examples.foo_ref] (Some (mkSectionWrapper 0 8 0))
              true false) as [self'|] eqn:H; [|vm_compute in H; discriminate H].
  destruct (batch_remove_relocs_renumbering Examples.no_offsets
              Examples.rela_iter_relocations (Examples.rela_lib false) [Examples.foo_ref]
              (mkSectionWrapper 0 8 0) true false self')
    as (t & final & Ht & Hfinal & _ & Hall & _ & Hwritten & _).
  - simpl. unfold Examples.rela_iter_relocations, Examples.rela_entries, Examples.rela.
    repeat (constructor; [simpl; lia|]). constructor.
  - repeat constructor.
  - exact H.
  - assert (Hr : Relocs.reloc_list t !! 2%nat = Some (Examples.rela 216 3 6 0)).
    { vm_compute in Ht. injection Ht as <-. reflexivity. }
    destruct (Hall 2%nat _ Hr) as (r' & Hr' & Hren & Hrw).
    destruct Hren as (Hoff & _ & _ & Hsym & _).
    specialize (Hsym ltac:(simpl; lia)).
    assert (Hsym' : r_info_sym r' = 2) by (rewrite Hsym; reflexivity).
    assert (Hinfo : r_info r' = Z.lor (Z.shiftl 2 32) 6).
    { destruct Hrw as [->|Hrw]; [discriminate Hsym'|]. rewrite Hrw, Hsym'. reflexivity. }
    assert (Hw : Relocs.restore_order
                   (Examples.rela_iter_relocations (_f (Examples.rela_lib false))
                      (objs (Examples.rela_lib false) 0%nat)) final !! 0%nat = Some r').
    { vm_compute in Ht. injection Ht as <-. vm_compute in Hfinal. injection Hfinal as <-.
      vm_compute in Hr'. injection Hr' as <-. vm_compute. reflexivity. }
    destruct (Hwritten 0%nat r' Hw) as (_ & b & Hb & Hread).
    exists self', r', b. split; [reflexivity|]. split; [exact Hoff|].
    split; [exact Hsym'|]. split; [exact Hinfo|]. split; [exact Hb|exact Hread].
Defined.

(** ** The stale-collection error is raised by the version check only *)

Section not_stale_facts.
Import Editor.

Lemma not_stale_Ok {A} (a : A) : not_stale (Py.Ok a).
Proof. discriminate. Qed.

Lemma not_stale_Raise {A} (e : Py.exn) : e ≠ Py.StaleCollection → not_stale (@Py.Raise A e).
Proof. intros He H. congruence. Qed.

Lemma not_stale_bind {A B} (m : Py.result A) (k : A → Py.result B) :
  not_stale m → (∀ a, not_stale (k a)) → not_stale (Py.bind m k).
Proof.
  unfold not_stale. intros Hm Hk. destruct m as [a|e]; simpl; [apply Hk | congruence].
Qed.

Lemma not_stale_for_each {S X} (body : S → X → Py.result S) (l : list X) (st : S) :
  (∀ st x, not_stale (body st x)) → not_stale (Py.for_each body l st).
Proof.
  intros Hb. revert st. induction l as [|x l IH]; intros st; simpl.
  - apply not_stale_Ok.
  - apply not_stale_bind; [apply Hb | exact IH].
Qed.

Lemma not_stale_of_option {A} (e : Py.exn) (o : option A) :
  e ≠ Py.StaleCollection → not_stale (Py.of_option e o).
Proof. intros He. destruct o; [apply not_stale_Ok | apply not_stale_Raise, He]. Qed.

End not_stale_facts.

Ltac not_stale_step :=
  match goal with
  | |- Editor.not_stale (Py.Ok _) => apply not_stale_Ok
  | |- Editor.not_stale (Py.Raise _) => apply not_stale_Raise; discriminate
  | |- Editor.not_stale (Py.bind _ _) => apply not_stale_bind; [|intros]
  | |- Editor.not_stale (Py.for_each _ _ _) => apply not_stale_for_each; intros
  | |- Editor.not_stale (Py.of_option _ _) => apply not_stale_of_option; discriminate
  | |- Editor.not_stale (let _ := _ in _) => cbv zeta
  | |- Editor.not_stale (if ?b then _ else _) => destruct b
  | |- Editor.not_stale (match ?x with _ => _ end) => destruct x
  | |- Editor.not_stale _ => solve [eauto with not_stale]
  end.

Ltac not_stale_tac := repeat not_stale_step.

Create HintDb not_stale.

Section not_stale_library.
Import Editor.

Lemma not_stale_getitem {A} (l : list A) i : not_stale (Py.getitem l i).
Proof. unfold Py.getitem. not_stale_tac. Qed.

Lemma not_stale_setitem {A} (l : list A) i x : not_stale (Py.setitem l i x).
Proof. unfold Py.setitem. not_stale_tac. Qed.

Lemma not_stale_pop {A} (l : list A) i : not_stale (Py.pop l i).
Proof. unfold Py.pop. not_stale_tac. Qed.

Lemma not_stale_read f pos n : not_stale (File.read f pos n).
Proof. unfold File.read. not_stale_tac. Qed.

Lemma not_stale_write f pos data : not_stale (File.write f pos data).
Proof. unfold File.write. not_stale_tac. Qed.

Lemma not_stale_pack_unsigned little n v : not_stale (File.pack_unsigned little n v).
Proof. unfold File.pack_unsigned. not_stale_tac. Qed.

Lemma not_stale_pack_signed little n v : not_stale (File.pack_signed little n v).
Proof. unfold File.pack_signed. not_stale_tac. Qed.

End not_stale_library.

#[global] Hint Resolve not_stale_getitem not_stale_setitem not_stale_pop not_stale_read
  not_stale_write not_stale_pack_unsigned not_stale_pack_signed : not_stale.


Lemma not_stale_to_bytes little n v : Editor.not_stale (File.to_bytes little n v).
Proof. unfold File.to_bytes. not_stale_tac. Qed.

Lemma not_stale_pack_words little vs : Editor.not_stale (File.pack_words little vs).
Proof. induction vs; simpl; not_stale_tac. Qed.

Lemma not_stale_pack_halves little vs : Editor.not_stale (Editor.pack_halves little vs).
Proof. induction vs; simpl; not_stale_tac. Qed.

#[global] Hint Resolve not_stale_to_bytes not_stale_pack_words not_stale_pack_halves : not_stale.

Lemma not_stale_set_section_attribute self sec a value sub :
  Editor.not_stale (Elf._set_section_attribute self sec a value sub).
Proof. unfold Elf._set_section_attribute. not_stale_tac. Qed.

#[global] Hint Resolve not_stale_set_section_attribute : not_stale.

Lemma not_stale_set_section_size self sec value sub :
  Editor.not_stale (Elf._set_section_size self sec value sub).
Proof. unfold Elf._set_section_size. not_stale_tac. Qed.

Lemma not_stale_change_section_size self sec amount :
  Editor.not_stale (Elf._change_section_size self sec amount).
Proof. unfold Elf._change_section_size, Elf._set_section_size. not_stale_tac. Qed.

Lemma not_stale_set_section_info self sec value :
  Editor.not_stale (Elf._set_section_info self sec value).
Proof. unfold Elf._set_section_info. not_stale_tac. Qed.

Lemma not_stale_modify_dynamic_tag_at_index self idx g :
  Editor.not_stale (Elf._modify_dynamic_tag_at_index self idx g).
Proof. unfold Elf._modify_dynamic_tag_at_index. not_stale_tac. Qed.

#[global] Hint Resolve not_stale_set_section_size not_stale_change_section_size
  not_stale_set_section_info not_stale_modify_dynamic_tag_at_index : not_stale.

Lemma not_stale_write_dynamic_tag self tag value sub :
  Editor.not_stale (Elf._write_dynamic_tag self tag value sub).
Proof. unfold Elf._write_dynamic_tag. not_stale_tac. Qed.

#[global] Hint Resolve not_stale_write_dynamic_tag : not_stale.

Lemma not_stale_shrink_dynamic_tag self tag amount :
  Editor.not_stale (Elf._shrink_dynamic_tag self tag amount).
Proof. unfold Elf._shrink_dynamic_tag. not_stale_tac. Qed.

#[global] Hint Resolve not_stale_shrink_dynamic_tag : not_stale.

(** The SysV hash table. *)
Lemma not_stale_table_bytes little d i n : Editor.not_stale (SysvHash.table_bytes little d i n).
Proof. revert i. induction n; intros i; simpl; not_stale_tac. Qed.

#[global] Hint Resolve not_stale_table_bytes : not_stale.

Lemma not_stale_recreate_elf_hash iter_symbols nchains self dynsym n :
  Editor.not_stale (SysvHash._recreate_elf_hash iter_symbols nchains self dynsym n).
Proof. unfold SysvHash._recreate_elf_hash, SysvHash._calc_nbuckets. not_stale_tac. Qed.

(** The string table. *)
Lemma not_stale_release_name self symbol : Editor.not_stale (Dynstr.release_name self symbol).
Proof. unfold Dynstr.release_name, Dynstr._get_string_range. not_stale_tac. Qed.

Lemma not_stale_layout_step f off ranges st item :
  Editor.not_stale (Dynstr.layout_step f off ranges st item).
Proof. unfold Dynstr.layout_step. not_stale_tac. Qed.

#[global] Hint Resolve not_stale_release_name not_stale_layout_step : not_stale.

Lemma not_stale_build_new_dynstr self removed_symbols :
  Editor.not_stale (Dynstr._build_new_dynstr self removed_symbols).
Proof. unfold Dynstr._build_new_dynstr, Dynstr.layout_after. not_stale_tac. Qed.

#[global] Hint Resolve not_stale_build_new_dynstr : not_stale.

Lemma not_stale_fix_string_tags fuel index_map self idx :
  Editor.not_stale (Editor.fix_string_tags fuel index_map self idx).
Proof. revert self idx. induction fuel; intros self idx; simpl; not_stale_tac. Qed.

#[global] Hint Resolve not_stale_fix_string_tags : not_stale.

Lemma not_stale_compact_dynstr iter_symbols version_name_fields self removed_symbols :
  Editor.not_stale (Editor._compact_dynstr iter_symbols version_name_fields self removed_symbols).
Proof.
  unfold Editor._compact_dynstr, Editor.fix_st_name, Editor.fix_version_name. not_stale_tac.
Qed.

(** The version table. *)
Lemma not_stale_batch_remove_gnu_versions self symbol_list n :
  Editor.not_stale (Editor._batch_remove_gnu_versions self symbol_list n).
Proof. unfold Editor._batch_remove_gnu_versions. not_stale_tac. Qed.

(** The GNU hash table. *)
Lemma not_stale_edit_gnu_hashtable nr h p : Editor.not_stale (GnuHash._edit_gnu_hashtable nr h p).
Proof. unfold GnuHash._edit_gnu_hashtable, GnuHash.py_mod. not_stale_tac. Qed.

Lemma not_stale_skip_removed fuel fb max_idx cur num :
  Editor.not_stale (GnuHash.skip_removed fuel fb max_idx cur num).
Proof. revert cur num. induction fuel; intros cur num; simpl; not_stale_tac. Qed.

#[global] Hint Resolve not_stale_edit_gnu_hashtable not_stale_skip_removed : not_stale.

Lemma not_stale_fix_bucket_indices fuel fb max_idx cur num bk :
  Editor.not_stale (GnuHash.fix_bucket_indices fuel fb max_idx cur num bk).
Proof.
  revert max_idx cur num bk. induction fuel; intros max_idx cur num bk; simpl; not_stale_tac.
Qed.

Lemma not_stale_clear_trailing fuel target max_idx bk :
  Editor.not_stale (GnuHash.clear_trailing fuel target max_idx bk).
Proof. revert max_idx bk. induction fuel; intros max_idx bk; simpl; not_stale_tac. Qed.

#[global] Hint Resolve not_stale_fix_bucket_indices not_stale_clear_trailing : not_stale.

Lemma not_stale_remove_defined p defined n : Editor.not_stale (GnuHash.remove_defined p defined n).
Proof. unfold GnuHash.remove_defined, GnuHash.py_mod. not_stale_tac. Qed.

#[global] Hint Resolve not_stale_remove_defined : not_stale.

Lemma not_stale_batch_remove_gnu_hashtable params self symbol_list n :
  Editor.not_stale (GnuHash._batch_remove_gnu_hashtable params self symbol_list n).
Proof.
  unfold GnuHash._batch_remove_gnu_hashtable, GnuHash.read_params. not_stale_tac.
Qed.


(** The relocation tables. *)
Lemma not_stale_getter_addend ao rela little f reloc :
  Editor.not_stale (Relocs.getter_addend ao rela little f reloc).
Proof. unfold Relocs.getter_addend. not_stale_tac. Qed.

Lemma not_stale_setter_addend ao rela little f reloc value :
  Editor.not_stale (Relocs.setter_addend ao rela little f reloc value).
Proof. unfold Relocs.setter_addend. not_stale_tac. Qed.

#[global] Hint Resolve not_stale_getter_addend not_stale_setter_addend : not_stale.

Lemma not_stale_edit_loop ao fuel rela little push is_symtab sym_nr sym_addr t cur_idx :
  Editor.not_stale
    (Relocs.edit_loop ao fuel rela little push is_symtab sym_nr sym_addr t cur_idx).
Proof.
  revert t cur_idx. induction fuel; intros t cur_idx; simpl; not_stale_tac.
Qed.

#[global] Hint Resolve not_stale_edit_loop : not_stale.

Lemma not_stale_edit_rel_sect ao rela little push is_symtab t sym_nr sym_addr :
  Editor.not_stale (Relocs._edit_rel_sect ao rela little push is_symtab t sym_nr sym_addr).
Proof. unfold Relocs._edit_rel_sect. not_stale_tac. Qed.

#[global] Hint Resolve not_stale_edit_rel_sect : not_stale.

Lemma not_stale_keyed_relocs ao rela little f l :
  Editor.not_stale (Relocs.keyed_relocs ao rela little f l).
Proof. induction l; simpl; not_stale_tac. Qed.

#[global] Hint Resolve not_stale_keyed_relocs : not_stale.

Lemma not_stale_remove_phase ao rela little push is_symtab f orig symbol_list :
  Editor.not_stale (Relocs.remove_phase ao rela little push is_symtab f orig symbol_list).
Proof. unfold Relocs.remove_phase, Relocs.remove_step. not_stale_tac. Qed.

Lemma not_stale_fixup_loop fuel push ent_size symbol_list reloc_list ri si cs num :
  Editor.not_stale (Relocs.fixup_loop fuel push ent_size symbol_list reloc_list ri si cs num).
Proof.
  revert reloc_list ri si cs num.
  induction fuel; intros reloc_list ri si cs num; simpl; not_stale_tac.
Qed.

#[global] Hint Resolve not_stale_remove_phase not_stale_fixup_loop : not_stale.

Lemma not_stale_pack_relocs little ent_size l :
  Editor.not_stale (Relocs.pack_relocs little ent_size l).
Proof. induction l; simpl; unfold Relocs.pack_reloc; not_stale_tac. Qed.

#[global] Hint Resolve not_stale_pack_relocs : not_stale.

Lemma not_stale_batch_remove_relocs ao iter_relocations self symbol_list sec push is_symtab :
  Editor.not_stale
    (Relocs._batch_remove_relocs ao iter_relocations self symbol_list sec push is_symtab).
Proof.
  unfold Relocs._batch_remove_relocs, Relocs.fixup_indices, Relocs.fill_bytes.
  not_stale_tac.
Qed.

#[global] Hint Resolve not_stale_recreate_elf_hash not_stale_compact_dynstr
  not_stale_batch_remove_gnu_versions not_stale_batch_remove_gnu_hashtable
  not_stale_batch_remove_relocs : not_stale.

(** Nothing [remove_from_section] calls after its loop raises the
    stale-collection error. *)
Lemma not_stale_cascade ao iter_symbols iter_relocations nchains params vnf
    self sec sorted_list removed n :
  Editor.not_stale
    (Editor.cascade ao iter_symbols iter_relocations nchains params vnf
       self sec sorted_list removed n).
Proof. unfold Editor.cascade. not_stale_tac. Qed.

Lemma not_stale_fix_sh_info self sec entries :
  Editor.not_stale (Editor._fix_sh_info self sec entries).
Proof.
  unfold Editor._fix_sh_info. apply not_stale_bind; [|intros; not_stale_tac].
  generalize 0 at 1. induction entries; intros idx; simpl; not_stale_tac.
Qed.

(** ** [remove_from_section]: stale collections *)

Section stale_collections.
Import Editor.
Variable address_offsets : Z → list Z.
Variable iter_symbols : list byte → Section → list Symbol.
Variable iter_relocations : list byte → Section → list Reloc.
Variable ELFHashTable_nchains : list byte → Z → Z.
Variable GNUHashTable_params : list byte → Z → Z * Z * Z * list Z.
Variable version_name_fields : list byte → list (Z * Z).

Local Abbreviation remove :=
  (remove_from_section address_offsets iter_symbols iter_relocations ELFHashTable_nchains
     GNUHashTable_params version_name_fields).

Lemma remove_loop_current sec overwrite l st :
  (∀ s, s ∈ l → sym_sec_version s = version sec) →
  not_stale (Py.for_each (remove_entry sec overwrite) l st).
Proof.
  revert st. induction l as [|x l IH]; intros st Hl; simpl; [apply not_stale_Ok|].
  apply not_stale_bind.
  - unfold remove_entry. destruct st as [entries f].
    rewrite (Hl x) by left. rewrite Z.eqb_refl. simpl. not_stale_tac.
  - intros st'. apply IH. intros s Hs. apply Hl. by right.
Qed.

Lemma remove_loop_stale_raises sec overwrite l st :
  (∃ s, s ∈ l ∧ sym_sec_version s ≠ version sec) →
  ∃ e, Py.for_each (remove_entry sec overwrite) l st = Py.Raise e.
Proof.
  revert st. induction l as [|x l IH]; intros st (s & Hs & Hv).
  { by apply elem_of_nil in Hs. }
  simpl. destruct (remove_entry sec overwrite st x) as [st'|e] eqn:Hx; simpl; [|eauto].
  apply IH. exists s. split; [|done].
  apply elem_of_cons in Hs as [->|Hs]; [|done].
  exfalso. unfold remove_entry in Hx. destruct st as [entries f].
  destruct (Z.eqb_spec (sym_sec_version x) (version sec)); [done|]. discriminate.
Qed.

Lemma remove_loop_stale sec overwrite l entries f :
  (∃ s, s ∈ l ∧ sym_sec_version s ≠ version sec) →
  (index sec ≠ -1 →
   StronglySorted (λ a b, sym_index b ≤ sym_index a) l
   ∧ NoDup (sym_index <$> filter (λ s, sym_sec_version s = version sec) l)
   ∧ ∀ s, s ∈ l → sym_sec_version s = version sec →
       0 ≤ sym_index s < Z.of_nat (length entries) ∧ 0 ≤ sym_value s) →
  Py.for_each (remove_entry sec overwrite) l (entries, f) = Py.Raise Py.StaleCollection.
Proof.
  revert entries f. induction l as [|x l IH]; intros entries f (s & Hs & Hv) Hwf.
  { by apply elem_of_nil in Hs. }
  simpl. set (rest := Py.for_each (remove_entry sec overwrite) l).
  unfold remove_entry.
  destruct (Z.eqb_spec (sym_sec_version x) (version sec)) as [Hx|Hx]; [|done].
  cbn [negb].
  assert (Hs' : s ∈ l).
  { apply elem_of_cons in Hs as [->|Hs]; [done|done]. }
  destruct (Z.eqb_spec (index sec) (-1)) as [Hi|Hi]; cbn [negb andb].
  { rewrite andb_false_r. simpl. apply IH; [eauto|]. intros Hne. done. }
  destruct (Hwf Hi) as (Hsorted & Hnd & Hrange).
  apply StronglySorted_inv in Hsorted as [Hsorted Hx_max].
  rewrite filter_cons_True in Hnd by done. rewrite fmap_cons in Hnd.
  apply NoDup_cons in Hnd as [Hnotin Hnd].
  destruct (Hrange x) as [Hxi Hxv]; [left|done|].
  unfold Py.pop.
  destruct (Z.leb_spec 0 (sym_index x)); [|lia].
  destruct (Z.ltb_spec (sym_index x) (Z.of_nat (length entries))); [|lia].
  cbn [andb Py.bind].
  set (entries' := delete (Z.to_nat (sym_index x)) entries).
  assert (Hlen : Z.of_nat (length entries') = Z.of_nat (length entries) - 1).
  { unfold entries'. rewrite length_delete; [lia|]. apply lookup_lt_is_Some. lia. }
  assert (Hnext : index sec ≠ -1 →
    StronglySorted (λ a b, sym_index b ≤ sym_index a) l
    ∧ NoDup (sym_index <$> filter (λ s, sym_sec_version s = version sec) l)
    ∧ ∀ s, s ∈ l → sym_sec_version s = version sec →
        0 ≤ sym_index s < Z.of_nat (length entries') ∧ 0 ≤ sym_value s).
  { intros _. split; [done|]. split; [done|]. intros y Hy Hcur.
    rewrite Forall_forall in Hx_max. specialize (Hx_max y Hy).
    destruct (Hrange y) as [? ?]; [by right|done|].
    assert (sym_index y ≠ sym_index x); [|lia].
    intros Heq. apply Hnotin. rewrite <- Heq. apply list_elem_of_fmap_2.
    by apply list_elem_of_filter. }
  assert (Hw : ∃ f',
    (if overwrite && true then
       if negb (sym_value x =? 0) && negb (sym_size x =? 0) then
         File.write f (sym_value x) (replicate (Z.to_nat (sym_size x)) xcc)
       else Py.Ok f
     else Py.Ok f) = Py.Ok f').
  { destruct overwrite; simpl; [|eauto].
    destruct (negb (sym_value x =? 0) && negb (sym_size x =? 0)); [|eauto].
    by apply write_total. }
  destruct Hw as [f' ->]. cbn [Py.bind]. subst rest. apply IH; [eauto|done].
Qed.

Lemma sorted_descending (l : list SymbolWrapper) :
  StronglySorted (λ a b, sym_index b ≤ sym_index a)
    (Py.sorted (λ a b, sym_index b <=? sym_index a) l).
Proof.
  assert (H : StronglySorted (λ a b, (sym_index b <=? sym_index a) = true)
                (Py.sorted (λ a b, sym_index b <=? sym_index a) l)).
  { apply sorted_StronglySorted.
    - intros x y H. apply Z.leb_gt in H. apply Z.leb_le. lia.
    - intros x y z H1 H2. apply Z.leb_le in H1, H2. apply Z.leb_le. lia. }
  induction H as [|x l' Hl IH Hx]; constructor; [done|].
  eapply Forall_impl; [exact Hx|]. intros y Hy. by apply Z.leb_le in Hy.
Qed.

(** C8.  A batch removal with a non-empty list of symbol references:
    when every reference carries the current version of the table, the
    removal does not end in the stale-collection error; when some
    reference carries another version, the removal never succeeds, and
    the error it raises is the stale-collection error for a batch whose
    references of the current version designate entries of the table. *)
Theorem remove_from_section_stale_collection self sec collection overwrite :
  collection ≠ [] →
  ((∀ s, s ∈ collection → sym_sec_version s = version sec) →
   remove self (Some sec) collection overwrite ≠ Py.Raise Py.StaleCollection)
  ∧ ((∃ s, s ∈ collection ∧ sym_sec_version s ≠ version sec) →
     (∀ r, remove self (Some sec) collection overwrite ≠ Py.Ok r)
     ∧ (well_formed_batch self sec collection →
        remove self (Some sec) collection overwrite = Py.Raise Py.StaleCollection)).
Proof.
  intros Hne.
  set (sorted_list := Py.sorted (λ a b, sym_index b <=? sym_index a) collection).
  assert (Hperm : sorted_list ≡ₚ collection) by apply sorted_perm.
  assert (Hunfold : remove self (Some sec) collection overwrite =
    let hdr := header (objs self (section sec)) in
    if sh_entsize hdr =? 0 then Py.Raise Py.ZeroDivisionError
    else
      let* section_entries :=
        (if negb (index sec =? -1) then
           let* section_bytes := File.read (_f self) (sh_offset hdr) (sh_size hdr) in
           Py.Ok (split_entries section_bytes (sh_entsize hdr))
         else Py.Ok []) in
      let* '(section_entries, f) :=
        Py.for_each (remove_entry sec overwrite) sorted_list (section_entries, _f self) in
      let removed := Z.of_nat (length sorted_list) in
      let* f :=
        (if negb (index sec =? -1) then
           File.write f (sh_offset hdr)
             (concat section_entries
              ++ replicate (Z.to_nat (sh_entsize hdr * removed)) x00)
         else Py.Ok f) in
      let self := set_f f self in
      let* self := Elf._change_section_size self sec (removed * sh_entsize hdr) in
      let* self := _fix_sh_info self sec section_entries in
      let sec := mkSectionWrapper (section sec) (index sec) (version sec + 1) in
      let* self :=
        cascade address_offsets iter_symbols iter_relocations ELFHashTable_nchains
          GNUHashTable_params version_name_fields self sec sorted_list removed
          (sh_size hdr `div` sh_entsize hdr) in
      Py.Ok (self, removed)).
  { unfold remove_from_section. by destruct collection. }
  rewrite Hunfold. clear Hunfold. cbv zeta.
  split.
  - intros Hcur.
    match goal with |- ?m ≠ _ => change (not_stale m) end.
    destruct (_ =? 0); [apply not_stale_Raise; discriminate|].
    apply not_stale_bind; [not_stale_tac|]. intros entries.
    apply not_stale_bind.
    { apply remove_loop_current. intros s Hs. apply Hcur. by rewrite <- Hperm. }
    intros [entries' f']. apply not_stale_bind; [not_stale_tac|]. intros f''.
    apply not_stale_bind; [not_stale_tac|]. intros self1.
    apply not_stale_bind; [apply not_stale_fix_sh_info|]. intros self2.
    apply not_stale_bind; [apply not_stale_cascade|]. intros self3.
    apply not_stale_Ok.
  - intros (s & Hs & Hv).
    assert (Hstale : ∃ s, s ∈ sorted_list ∧ sym_sec_version s ≠ version sec).
    { exists s. by rewrite Hperm. }
    split.
    + intros r. destruct (_ =? 0); [done|].
      match goal with
      | |- Py.bind ?m _ ≠ _ => destruct m as [entries|e]; [|done]
      end.
      cbn [Py.bind].
      destruct (remove_loop_stale_raises sec overwrite sorted_list (entries, _f self) Hstale)
        as [e ->].
      done.
    + intros [Hent Hphys].
      destruct (Z.eqb_spec (sh_entsize (header (objs self (section sec)))) 0); [done|].
      destruct (Z.eqb_spec (index sec) (-1)) as [Hi|Hi]; cbn [negb Py.bind].
      { rewrite remove_loop_stale; [done|done|]. intros Hne'. done. }
      destruct (Hphys Hi) as (Hoff & Hnd & Hrange).
      unfold table_entries in Hrange.
      destruct (File.read _ _ _) as [section_bytes|e] eqn:Hread.
      2:{ unfold File.read in Hread.
          destruct (Z.ltb_spec (sh_offset (header (objs self (section sec)))) 0); [lia|].
          by destruct (_ <? 0). }
      cbn [Py.bind].
      rewrite remove_loop_stale; [done|done|].
      intros _. split; [apply sorted_descending|]. split.
      * by rewrite Hperm.
      * intros y Hy. apply Hrange. by rewrite <- Hperm.
Qed.
End stale_collections.

Lemma remove_from_section_stale_collection_witness :
  Editor.remove_from_section Examples.no_offsets Examples.small_iter_symbols
    Examples.no_relocations Examples.six_chains Examples.gnu_params
    Examples.no_version_fields Examples.small_lib (Some (mkSectionWrapper 0 3 0))
    [Examples.foo_ref] true ≠ Py.Raise Py.StaleCollection
  ∧ Editor.remove_from_section Examples.no_offsets Examples.small_iter_symbols
      Examples.no_relocations Examples.six_chains Examples.gnu_params
      Examples.no_version_fields Examples.edited_lib (Some (mkSectionWrapper 0 3 1))
      [Examples.foo_ref; Examples.bar_ref] true = Py.Raise Py.StaleCollection.
Proof.
  split.
  - apply (remove_from_section_stale_collection Examples.no_offsets
             Examples.small_iter_symbols Examples.no_relocations Examples.six_chains
             Examples.gnu_params Examples.no_version_fields Examples.small_lib
             (mkSectionWrapper 0 3 0) [Examples.foo_ref] true); [discriminate|].
    intros s Hs. apply list_elem_of_singleton in Hs. subst s. reflexivity.
  - apply (remove_from_section_stale_collection Examples.no_offsets
             Examples.small_iter_symbols Examples.no_relocations Examples.six_chains
             Examples.gnu_params Examples.no_version_fields Examples.edited_lib
             (mkSectionWrapper 0 3 1) [Examples.foo_ref; Examples.bar_ref] true);
      [discriminate| |].
    + exists Examples.foo_ref. split; [left|]. simpl. lia.
    + split; [simpl; lia|]. intros _. split; [simpl; lia|]. split.
      * apply (bool_decide_eq_true_1 (NoDup _)). vm_compute. reflexivity.
      * assert (Hlen : length (Editor.table_entries Examples.edited_lib
                                 (mkSectionWrapper 0 3 1)) = 5%nat)
          by (vm_compute; reflexivity).
        rewrite Hlen. intros s Hs _.
        apply elem_of_cons in Hs as [->|Hs];
          [|apply list_elem_of_singleton in Hs; subst s]; simpl; lia.
Defined.

(** C8 as the specification has it does not hold: the references are
    handled by descending index and each is checked just before its entry
    is deleted, so an error of an earlier reference comes first.  On the
    five entries of the small [.dynsym] (version 0) the list below holds
    a reference of version 7, yet the removal ends in the [IndexError] of
    [pop(100)] for the reference of the current version that is handled
    before it. *)
Lemma remove_from_section_error_before_stale_check :
  (∃ s, s ∈ [mkSymbolWrapper "foo" 1 7 32 8 7; mkSymbolWrapper "far" 100 0 48 8 0]
        ∧ sym_sec_version s ≠ version (mkSectionWrapper 0 3 0))
  ∧ Editor.remove_from_section Examples.no_offsets Examples.small_iter_symbols
      Examples.no_relocations Examples.six_chains Examples.gnu_params
      Examples.no_version_fields Examples.small_lib (Some (mkSectionWrapper 0 3 0))
      [mkSymbolWrapper "foo" 1 7 32 8 7; mkSymbolWrapper "far" 100 0 48 8 0] true
    = Py.Raise Py.IndexError
  ∧ length (Editor.table_entries Examples.small_lib (mkSectionWrapper 0 3 0)) = 5%nat.
Proof.
  split; [|split].
  - exists (mkSymbolWrapper "foo" 1 7 32 8 7). split; [left|]. discriminate.
  - vm_compute. reflexivity.
  - vm_compute. reflexivity.
Qed.

(** ** [remove_from_section]: the version counters *)

Section version_counters.
Import Editor.
Variable address_offsets : Z → list Z.
Variable iter_symbols : list byte → Section → list Symbol.
Variable iter_relocations : list byte → Section → list Reloc.
Variable ELFHashTable_nchains : list byte → Z → Z.
Variable GNUHashTable_params : list byte → Z → Z * Z * Z * list Z.
Variable version_name_fields : list byte → list (Z * Z).

Lemma same_wrappers_refl self : same_wrappers self self.
Proof. by repeat split. Qed.

Lemma same_wrappers_trans s1 s2 s3 :
  same_wrappers s1 s2 → same_wrappers s2 s3 → same_wrappers s1 s3.
Proof.
  intros (A1 & A2 & A3) (B1 & B2 & B3). repeat split; [congruence..|].
  intros n. by rewrite B3.
Qed.

Lemma same_wrappers_set_f f self : same_wrappers self (set_f f self).
Proof. by repeat split. Qed.

Lemma set_section_attribute_wrappers self sec a v sub self' :
  Elf._set_section_attribute self sec a v sub = Py.Ok self' → same_wrappers self self'.
Proof.
  unfold Elf._set_section_attribute. destruct (index sec =? -1).
  { intros [= <-]. apply same_wrappers_refl. }
  intros H. bind_inv H. destruct (_ <? _); [done|]. bind_inv H. injection H as <-.
  repeat split. intros n. cbn [objs set_objs].
  destruct (decide (n = section sec)) as [->|Hn].
  - by rewrite fn_lookup_insert.
  - by rewrite fn_lookup_insert_ne.
Qed.

Lemma write_dynamic_tag_wrappers self target value sub self' :
  Elf._write_dynamic_tag self target value sub = Py.Ok self' → same_wrappers self self'.
Proof.
  unfold Elf._write_dynamic_tag. intros H. bind_inv H.
  destruct (Elf.find_tag _ _); [|injection H as <-; apply same_wrappers_refl].
  unfold Elf._modify_dynamic_tag_at_index in H. bind_inv H.
  apply bind_Ok in H as ([tagno old_val] & _ & H). bind_inv H.
  injection H as <-. by repeat split.
Qed.

Lemma batch_remove_relocs_wrappers self symbol_list sec push is_symtab self' :
  Relocs._batch_remove_relocs address_offsets iter_relocations self symbol_list sec
    push is_symtab = Py.Ok self' →
  same_wrappers self self'.
Proof.
  unfold Relocs._batch_remove_relocs. destruct sec as [sec|].
  2:{ intros [= <-]. apply same_wrappers_refl. }
  intros H. bind_inv H. bind_inv H. bind_inv H. bind_inv H. bind_inv H. cbv zeta in H.
  bind_inv H.
  assert (Hmid : same_wrappers self a4).
  { apply (same_wrappers_trans _ (set_f a3 self)); [apply same_wrappers_set_f|].
    destruct (negb (_need_continuous_relocations (set_f a3 self))).
    - bind_inv Ha4. injection Ha4 as <-.
      apply set_section_attribute_wrappers in Ha5.
      eapply same_wrappers_trans; [exact Ha5|]. repeat split. intros n.
      cbn [objs set_objs].
      destruct (decide (n = section sec)) as [->|Hn].
      + by rewrite fn_lookup_insert.
      + by rewrite fn_lookup_insert_ne.
    - injection Ha4 as <-. apply same_wrappers_refl. }
  destruct push; [|injection H as <-; done].
  bind_inv H. apply write_dynamic_tag_wrappers in H.
  eapply same_wrappers_trans; [exact Hmid|]. eapply same_wrappers_trans; [|exact H].
  destruct (negb (_need_continuous_relocations a4)).
  - by apply write_dynamic_tag_wrappers in Ha5.
  - injection Ha5 as <-. apply same_wrappers_refl.
Qed.

(** What the code does where C9 expects an increment: a successful batch
    on a table other than [.dynsym] leaves the wrappers [self.symtab] and
    [self.dynsym], and with them the version counters, as they were. *)
Theorem remove_from_symtab_keeps_version self sec collection overwrite self' removed :
  sec_name (objs self (section sec)) ≠ ".dynsym"%string →
  remove_from_section address_offsets iter_symbols iter_relocations ELFHashTable_nchains
    GNUHashTable_params version_name_fields self (Some sec) collection overwrite
  = Py.Ok (self', removed) →
  symtab self' = symtab self ∧ dynsym self' = dynsym self.
Proof.
  intros Hname H. unfold remove_from_section in H.
  destruct collection as [|s0 collection]; [by injection H as <- _|].
  cbv zeta in H. destruct (_ =? 0); [done|].
  apply bind_Ok in H as (entries0 & _ & H).
  apply bind_Ok in H as ([entries f] & _ & H).
  apply bind_Ok in H as (f' & _ & H).
  apply bind_Ok in H as (self1 & H1 & H).
  apply bind_Ok in H as (self2 & H2 & H).
  apply bind_Ok in H as (self3 & H3 & H).
  injection H as <- _.
  apply set_section_attribute_wrappers in H1.
  unfold _fix_sh_info in H2. apply bind_Ok in H2 as (first & _ & H2).
  apply set_section_attribute_wrappers in H2.
  assert (Hmid : same_wrappers self self2).
  { eapply same_wrappers_trans; [apply (same_wrappers_set_f f')|].
    eapply same_wrappers_trans; [exact H1|exact H2]. }
  unfold cascade in H3. cbv zeta in H3.
  apply bind_Ok in H3 as (self4 & H4 & H3).
  apply batch_remove_relocs_wrappers in H4.
  cbn [section] in H3.
  assert (Hn : sec_name (objs self2 (section sec)) = sec_name (objs self (section sec))).
  { destruct Hmid as (_ & _ & E2). by rewrite E2. }
  rewrite Hn in H3.
  destruct (String.eqb_spec (sec_name (objs self (section sec))) ".dynsym"); [done|].
  injection H3 as <-.
  destruct (same_wrappers_trans _ _ _ Hmid H4) as (E1 & E2 & _). done.
Qed.

End version_counters.

Lemma remove_from_symtab_keeps_version_witness :
  ∃ self',
    Editor.remove_from_section Examples.no_offsets Examples.small_iter_symbols
      Examples.no_relocations Examples.six_chains Examples.gnu_params
      Examples.no_version_fields Examples.small_lib (Some (mkSectionWrapper 1 7 0))
      [Examples.foo_ref] false = Py.Ok (self', 1)
    ∧ symtab self' = Some (mkSectionWrapper 1 7 0)
    ∧ dynsym self' = Some (mkSectionWrapper 0 3 0).
Proof.
  destruct (Editor.remove_from_section Examples.no_offsets Examples.small_iter_symbols
              Examples.no_relocations Examples.six_chains Examples.gnu_params
              Examples.no_version_fields Examples.small_lib (Some (mkSectionWrapper 1 7 0))
              [Examples.foo_ref] false) as [[self' n]|] eqn:H;
    [|vm_compute in H; discriminate H].
  assert (Hn : n = 1) by (vm_compute in H; injection H as _ <-; reflexivity).
  exists self'. rewrite <- Hn. split; [reflexivity|].
  apply (remove_from_symtab_keeps_version Examples.no_offsets Examples.small_iter_symbols
           Examples.no_relocations Examples.six_chains Examples.gnu_params
           Examples.no_version_fields Examples.small_lib (mkSectionWrapper 1 7 0)
           [Examples.foo_ref] false self' n); [discriminate|exact H].
Defined.

(** ** The code overwriter *)

Section overwriter.
Import Editor.

Lemma write_xcc f p n f1 :
  File.write f p (replicate n xcc) = Py.Ok f1 →
  0 ≤ p
  ∧ (length f ≤ length f1)%nat
  ∧ (∀ i : nat, f !! i = Some xcc → f1 !! i = Some xcc)
  ∧ (∀ k : nat, (k < n)%nat → f1 !! (Z.to_nat p + k)%nat = Some xcc)
  ∧ (∀ i : nat, (i < length f)%nat → ¬ (Z.to_nat p ≤ i < Z.to_nat p + n)%nat →
       f1 !! i = f !! i).
Proof.
  intros H. pose proof (write_length_le _ _ _ _ H) as Hlen.
  apply write_lookup in H as [Hp Hl]. rewrite length_replicate in Hl.
  split; [done|]. split; [lia|]. split; [|split].
  - intros i Hi. rewrite Hl. destruct (decide _) as [Hin|Hout].
    + apply lookup_replicate_2. lia.
    + apply lookup_lt_Some in Hi as Hlt. destruct (decide _); [lia|done].
  - intros k Hk. rewrite Hl, decide_True by lia. apply lookup_replicate_2. lia.
  - intros i Hi Hout. rewrite Hl, decide_False by done. by rewrite decide_False by lia.
Qed.

Lemma overwritten_of_write f1 start size :
  0 ≤ start →
  (∀ k : nat, (k < Z.to_nat size)%nat → f1 !! (Z.to_nat start + k)%nat = Some xcc) →
  overwritten f1 start size.
Proof.
  intros Hstart H i Hi. replace (Z.to_nat (start + i)) with (Z.to_nat start + Z.to_nat i)%nat
    by lia. apply H. lia.
Qed.

Lemma overwritten_mono f f' start size :
  (∀ i : nat, f !! i = Some xcc → f' !! i = Some xcc) →
  overwritten f start size → overwritten f' start size.
Proof. intros Hpres H i Hi. apply Hpres, H, Hi. Qed.

(** The loop of [overwrite_local_functions]. *)
Lemma overwrite_local_loop l : ∀ f f',
  Py.for_each overwrite_local l f = Py.Ok f' →
  (length f ≤ length f')%nat
  ∧ (∀ i : nat, f !! i = Some xcc → f' !! i = Some xcc)
  ∧ (∀ start size, (start, size) ∈ l → overwritten f' start size)
  ∧ (∀ i : nat, (i < length f)%nat →
       (∀ start size, (start, size) ∈ l → ¬ (start ≤ Z.of_nat i < start + size)) →
       f' !! i = f !! i).
Proof.
  induction l as [|[start size] l IH]; intros f f' H; simpl in H.
  { injection H as <-. split; [lia|]. split; [done|]. split; [|done].
    intros ?? Hin. by apply elem_of_nil in Hin. }
  apply bind_Ok in H as (f1 & H1 & H).
  destruct (IH _ _ H) as (Hlen & Hpres & Hall & Hframe).
  assert (Hstep : (length f ≤ length f1)%nat
    ∧ (∀ i : nat, f !! i = Some xcc → f1 !! i = Some xcc)
    ∧ overwritten f1 start size
    ∧ (∀ i : nat, (i < length f)%nat → ¬ (start ≤ Z.of_nat i < start + size) →
         f1 !! i = f !! i)).
  { unfold overwrite_local in H1. destruct (Z.eqb_spec size 0) as [->|Hsize].
    - injection H1 as <-. split; [lia|]. split; [done|]. split; [|done]. intros i Hi. lia.
    - apply write_xcc in H1 as (Hp & Hl1 & Hp1 & Hw & Hf1).
      split; [done|]. split; [done|]. split; [by apply overwritten_of_write|].
      intros i Hi Hout. apply Hf1; [done|]. lia. }
  destruct Hstep as (Hlen1 & Hpres1 & Hx & Hframe1).
  split; [lia|]. split; [by auto|]. split.
  - intros a b Hin. apply elem_of_cons in Hin as [[= -> ->]|Hin]; [|by apply Hall].
    by apply (overwritten_mono f1).
  - intros i Hi Hout. rewrite Hframe.
    + apply Hframe1; [done|]. apply Hout. left.
    + lia.
    + intros a b Hin. apply Hout. by right.
Qed.

Lemma overwrite_local_loop_total l : ∀ f,
  (∀ start size, (start, size) ∈ l → size ≠ 0 → 0 ≤ start) →
  ∃ f', Py.for_each overwrite_local l f = Py.Ok f'.
Proof.
  induction l as [|[start size] l IH]; intros f Hl; cbn [Py.for_each]; [eauto|].
  assert (H1 : ∃ f1, overwrite_local f (start, size) = Py.Ok f1).
  { unfold overwrite_local. destruct (Z.eqb_spec size 0); [eauto|].
    apply write_total. apply (Hl start size); [left|done]. }
  destruct H1 as [f1 ->]. simpl. apply IH. intros a b Hin. apply Hl. by right.
Qed.

(** The loop of [remove_from_section]. *)
Lemma remove_entry_file sec overwrite entries f s entries1 f1 :
  remove_entry sec overwrite (entries, f) s = Py.Ok (entries1, f1) →
  (length f ≤ length f1)%nat
  ∧ (∀ i : nat, f !! i = Some xcc → f1 !! i = Some xcc)
  ∧ (overwrite = true → index sec ≠ -1 → sym_value s ≠ 0 →
     overwritten f1 (sym_value s) (sym_size s))
  ∧ (overwrite = false ∨ index sec = -1 → f1 = f)
  ∧ (∀ i : nat, (i < length f)%nat →
       sym_value s = 0 ∨ ¬ (sym_value s ≤ Z.of_nat i < sym_value s + sym_size s) →
       f1 !! i = f !! i).
Proof.
  unfold remove_entry. destruct (negb (_ =? version sec)); [done|].
  intros H. apply bind_Ok in H as (entries2 & _ & H).
  apply bind_Ok in H as (f2 & Hw & H). injection H as _ <-.
  destruct (Z.eqb_spec (index sec) (-1)) as [Hi|Hi]; cbn [negb] in Hw.
  { rewrite andb_false_r in Hw. injection Hw as <-.
    split; [lia|]. split; [done|]. split; [|done]. intros _ Hne. done. }
  rewrite andb_true_r in Hw. destruct overwrite.
  2:{ injection Hw as <-. split; [lia|]. split; [done|]. split; [|done]. intros Ht. done. }
  destruct (Z.eqb_spec (sym_value s) 0) as [Hv|Hv]; cbn [negb andb] in Hw.
  { injection Hw as <-. split; [lia|]. split; [done|]. split; [|done]. intros _ _ Hne. done. }
  destruct (Z.eqb_spec (sym_size s) 0) as [Hs|Hs]; cbn [negb] in Hw.
  { injection Hw as <-. split; [lia|]. split; [done|]. split; [|done].
    intros _ _ _ i Hi'. lia. }
  apply write_xcc in Hw as (Hp & Hl1 & Hp1 & Hw & Hf1).
  split; [done|]. split; [done|]. split; [|split].
  - intros _ _ _. by apply overwritten_of_write.
  - intros [|]; done.
  - intros i Hi' [Hz|Hout]; [done|]. apply Hf1; [done|]. lia.
Qed.

Lemma remove_loop_file sec overwrite l : ∀ entries f entries' f',
  Py.for_each (remove_entry sec overwrite) l (entries, f) = Py.Ok (entries', f') →
  (length f ≤ length f')%nat
  ∧ (∀ i : nat, f !! i = Some xcc → f' !! i = Some xcc)
  ∧ (overwrite = true → index sec ≠ -1 →
     ∀ s, s ∈ l → sym_value s ≠ 0 → overwritten f' (sym_value s) (sym_size s))
  ∧ (overwrite = false ∨ index sec = -1 → f' = f)
  ∧ (∀ i : nat, (i < length f)%nat →
       (∀ s, s ∈ l →
          sym_value s = 0 ∨ ¬ (sym_value s ≤ Z.of_nat i < sym_value s + sym_size s)) →
       f' !! i = f !! i).
Proof.
  induction l as [|x l IH]; intros entries f entries' f' H; simpl in H.
  { injection H as _ <-. split; [lia|]. split; [done|]. split; [|done].
    intros _ _ s Hin. by apply elem_of_nil in Hin. }
  apply bind_Ok in H as ([entries1 f1] & H1 & H).
  destruct (IH _ _ _ _ H) as (Hlen & Hpres & Hall & Hsame & Hframe).
  destruct (remove_entry_file _ _ _ _ _ _ _ H1) as (Hlen1 & Hpres1 & Hx & Hsame1 & Hframe1).
  split; [lia|]. split; [by auto|]. split; [|split].
  - intros Hov Hi s Hin Hv. apply elem_of_cons in Hin as [->|Hin]; [|by apply Hall].
    apply (overwritten_mono f1); [done|]. by apply Hx.
  - intros Hcase. rewrite Hsame by done. by apply Hsame1.
  - intros i Hi Hout. rewrite Hframe.
    + apply Hframe1; [done|]. apply Hout. left.
    + lia.
    + intros s Hin. apply Hout. by right.
Qed.

End overwriter.

(** The two symbol tables side by side: a reference collected before a
    batch on [.symtab] is accepted by the next batch, which removes the
    entry that has moved to its index; on [.dynsym] the second batch ends
    in the stale-collection error. *)
Lemma second_batch_symtab_and_dynsym :
  (let* '(self1, _) :=
     Editor.remove_from_section Examples.no_offsets Examples.small_iter_symbols
       Examples.no_relocations Examples.six_chains Examples.gnu_params
       Examples.no_version_fields Examples.small_lib (symtab Examples.small_lib)
       [Examples.foo_ref] false in
   let* '(self2, removed) :=
     Editor.remove_from_section Examples.no_offsets Examples.small_iter_symbols
       Examples.no_relocations Examples.six_chains Examples.gnu_params
       Examples.no_version_fields self1 (symtab self1) [Examples.foo_ref] false in
   Py.Ok (version <$> symtab self2, removed, sh_size (header (objs self2 1%nat))))
  = Py.Ok (Some 0, 1, 72)
  ∧ (let* '(self1, _) :=
       Editor.remove_from_section Examples.no_offsets Examples.small_iter_symbols
         Examples.no_relocations Examples.six_chains Examples.gnu_params
         Examples.no_version_fields Examples.small_lib (dynsym Examples.small_lib)
         [Examples.foo_ref] false in
     let* '(self2, removed) :=
       Editor.remove_from_section Examples.no_offsets Examples.small_iter_symbols
         Examples.no_relocations Examples.six_chains Examples.gnu_params
         Examples.no_version_fields self1 (dynsym self1) [Examples.foo_ref] false in
     Py.Ok (version <$> dynsym self2, removed, sh_size (header (objs self2 0%nat))))
    = Py.Raise Py.StaleCollection.
Proof. split; vm_compute; reflexivity. Qed.

(** * Part III: further properties of the code *)

(** ** The hash functions *)

Section hash_functions.
Import SysvHash.

Lemma elfhash_step_range h c : 0 ≤ elfhash_step h c < 2 ^ 28.
Proof.
  unfold elfhash_step. cbv zeta.
  set (h1 := Z.land (Z.shiftl h 4 + ord c) 0xFFFFFFFF).
  set (g := Z.land h1 0xF0000000).
  set (h2 := if negb (g =? 0) then Z.lxor h1 (Z.shiftr g 24) else h1).
  assert (H1 : 0 ≤ h1) by (apply Z.land_nonneg; right; lia).
  assert (Hg : 0 ≤ g) by (apply Z.land_nonneg; right; lia).
  assert (H2 : 0 ≤ h2).
  { unfold h2. destruct (negb (g =? 0)); [|done].
    apply Z.lxor_nonneg. split; intros _; [by apply Z.shiftr_nonneg|done]. }
  assert (Hres : Z.land h2 (Z.lnot g) = Z.land (Z.land h2 (Z.lnot g)) (Z.ones 28)).
  { apply Z.bits_inj'. intros n Hn. rewrite !Z.land_spec, Z.lnot_spec by done.
    destruct (Z.ltb_spec n 28) as [Hlt|Hge].
    { rewrite Z.ones_spec_low by lia. by rewrite andb_true_r. }
    rewrite Z.ones_spec_high by lia. rewrite andb_false_r.
    assert (Hh2 : Z.testbit h2 n = Z.testbit h1 n).
    { unfold h2. destruct (negb (g =? 0)); [|done].
      rewrite Z.lxor_spec, Z.shiftr_spec by done. unfold g.
      rewrite Z.land_spec.
      change 0xF0000000 with (Z.shiftl (Z.ones 4) 28).
      rewrite Z.shiftl_spec by lia. rewrite Z.ones_spec_high by lia.
      by rewrite andb_false_r, xorb_false_r. }
    rewrite Hh2. unfold g. rewrite Z.land_spec.
    change 0xF0000000 with (Z.shiftl (Z.ones 4) 28).
    rewrite Z.shiftl_spec by lia.
    destruct (Z.ltb_spec n 32) as [Hlt|Hge'].
    - rewrite Z.ones_spec_low by lia. rewrite andb_true_r. by destruct (Z.testbit h1 n).
    - unfold h1. rewrite Z.land_spec. change 0xFFFFFFFF with (Z.ones 32).
      rewrite Z.ones_spec_high by lia. by rewrite andb_false_r. }
  rewrite Hres, Z.land_ones by lia. apply Z.mod_pos_bound. lia.
Qed.

(** X1.  [_elfhash]: the hash of any name lies in [0, 2^28): the four
    high bits of the 32-bit word are always cleared. *)
Theorem elfhash_range func_name : 0 ≤ _elfhash func_name < 2 ^ 28.
Proof.
  unfold _elfhash.
  destruct (list_ascii_of_string func_name) as [|c l] using rev_ind; [simpl; lia|].
  rewrite foldl_app. simpl. apply elfhash_step_range.
Qed.

Import GnuHash.

Lemma gnuhash_step_mod h c : gnuhash_step h c = (33 * h + ord c) `mod` 2 ^ 32.
Proof.
  unfold gnuhash_step. cbv zeta. change 0xFFFFFFFF with (Z.ones 32).
  rewrite Z.land_ones by lia. rewrite Z.shiftl_mul_pow2 by lia. f_equal. lia.
Qed.

Lemma gnuhash_fold_mod l : ∀ x,
  foldl gnuhash_step (x `mod` 2 ^ 32) l
  = foldl (λ h c, 33 * h + ord c) x l `mod` 2 ^ 32.
Proof.
  induction l as [|c l IH]; intros x; simpl; [done|].
  rewrite <- IH. f_equal. rewrite gnuhash_step_mod.
  rewrite <- Z.add_mod_idemp_l, Z.mul_mod_idemp_r by lia.
  by rewrite Z.add_mod_idemp_l by lia.
Qed.

(** X2.  [_gnuhash]: masking with [0xFFFFFFFF] in every round gives the
    hash [h := 33 * h + ord(c)], started at 5381 and computed without a
    bound, reduced modulo [2^32]; in particular it lies in [0, 2^32). *)
Theorem gnuhash_closed_form func_name :
  _gnuhash func_name
  = foldl (λ h c, 33 * h + ord c) 5381 (list_ascii_of_string func_name) `mod` 2 ^ 32
  ∧ 0 ≤ _gnuhash func_name < 2 ^ 32.
Proof.
  assert (H : _gnuhash func_name
    = foldl (λ h c, 33 * h + ord c) 5381 (list_ascii_of_string func_name) `mod` 2 ^ 32).
  { unfold _gnuhash. change 5381 with (5381 `mod` 2 ^ 32) at 1. apply gnuhash_fold_mod. }
  split; [exact H|]. rewrite H. apply Z.mod_pos_bound. lia.
Qed.

(** X3.  [_calc_nbuckets] never fails and always returns an entry of the
    schedule; for a count below 1, where no entry fits, the index [-1]
    wraps around and the result is the last and largest entry, 262147. *)
Theorem calc_nbuckets_total (n_hashes : Z) :
  (∃ nbuckets, _calc_nbuckets n_hashes = Py.Ok nbuckets ∧ nbuckets ∈ options)
  ∧ (n_hashes < 1 → _calc_nbuckets n_hashes = Py.Ok 262147).
Proof.
  assert (Hlow : n_hashes < 1 → _calc_nbuckets n_hashes = Py.Ok 262147).
  { intros Hn. unfold _calc_nbuckets.
    destruct (bisect_spec options n_hashes options_sorted) as (_ & H1 & _).
    destruct (bisect options n_hashes) as [|r] eqn:Hr; [reflexivity|].
    assert (1 ≤ n_hashes); [|lia]. apply (H1 0%nat 1); [lia|reflexivity]. }
  split; [|exact Hlow].
  destruct (Z.lt_ge_cases n_hashes 1) as [Hn|Hn].
  - exists 262147. split; [by apply Hlow|]. unfold options.
    apply list_elem_of_lookup. by exists 18%nat.
  - destruct (calc_nbuckets_largest n_hashes Hn) as (b & Hb & Hin & _). eauto.
Qed.

End hash_functions.

Lemma calc_nbuckets_total_witness :
  SysvHash._calc_nbuckets 0 = Py.Ok 262147.
Proof. apply (proj2 (calc_nbuckets_total 0)). lia. Defined.

(** ** The rebuilt SysV hash table passes [test_hash_section] *)

Section hash_check.
Import SysvHash HashCheck.
Variable get_symbol : list byte → Section → Z → Py.result Symbol.
Variable num_symbols : list byte → Section → Z.
Variable ELFHashTable_params : list byte → Z → params.

Lemma exists_last_in_bucket nb (l : list Symbol) b :
  (∃ j s, l !! j = Some s ∧ bucket_of nb s = b) →
  ∃ i, is_last_in_bucket nb l b i.
Proof.
  induction l as [|s l IH] using rev_ind; intros (j & s0 & Hj & Hb); [done|].
  destruct (decide (bucket_of nb s = b)) as [<-|Hne].
  { exists (length l). apply is_last_in_bucket_snoc_new. }
  destruct IH as [i Hi].
  - exists j, s0. split; [|done].
    destruct (decide (j < length l)%nat) as [Hlt|Hge].
    + by rewrite lookup_app_l in Hj.
    + rewrite lookup_app_r in Hj by lia.
      destruct (j - length l)%nat; simpl in Hj; [|done]. by simplify_eq.
  - exists i. apply is_last_in_bucket_snoc_old; [congruence|done].
Qed.

Lemma last_in_bucket_above nb (l : list Symbol) b i t st :
  is_last_in_bucket nb l b i → l !! t = Some st → bucket_of nb st = b → (t ≤ i)%nat.
Proof.
  intros (si & Hi & Hb & Hlast) Ht Hbt.
  destruct (decide (t ≤ i)%nat) as [|Hgt]; [done|].
  exfalso. apply (Hlast t st); [lia|done|done].
Qed.

Lemma table_list_lookup d n (i : nat) :
  (i < n)%nat → table_list d n !! i = Some (default 0 (d !! Z.of_nat i)).
Proof.
  intros Hi. unfold table_list. rewrite list_lookup_fmap, lookup_seq_lt by done. done.
Qed.

Lemma table_list_length d n : length (table_list d n) = n.
Proof. unfold table_list. by rewrite length_fmap, length_seq. Qed.

Lemma getitem_table_list d n (i : nat) :
  (i < n)%nat →
  Py.getitem (table_list d n) (Z.of_nat i) = Py.Ok (default 0 (d !! Z.of_nat i)).
Proof.
  intros Hi. unfold Py.getitem. rewrite table_list_length.
  destruct (Z.leb_spec 0 (Z.of_nat i)); [|lia].
  destruct (Z.ltb_spec (Z.of_nat i) (Z.of_nat n)); [|lia].
  cbn [andb]. rewrite Nat2Z.id, table_list_lookup by done. done.
Qed.

Section walk.
Variables (f : list byte) (dynsym : Section) (nb : Z) (l : list Symbol).
Hypothesis get_symbol_ok :
  ∀ i s, l !! i = Some s → get_symbol f dynsym (Z.of_nat i) = Py.Ok s.

Variables bk ch : gmap Z Z.
Hypothesis tables : build_tables nb l = (bk, ch).

Local Abbreviation p :=
  (mkParams nb (table_list bk (Z.to_nat nb)) (table_list ch (length l))).

Lemma find_in_chain_found t st : l !! t = Some st → (1 ≤ t)%nat →
  ∀ fuel c sc,
    l !! c = Some sc → bucket_of nb sc = bucket_of nb st → (t ≤ c)%nat → (c < fuel)%nat →
    find_in_chain get_symbol fuel f dynsym p (name st) (Z.of_nat c) = Py.Ok true.
Proof.
  intros Ht Ht1. induction fuel as [|fuel IH]; intros c sc Hc Hb Htc Hfuel; [lia|].
  cbn [find_in_chain].
  destruct (Z.eqb_spec (Z.of_nat c) 0); [lia|].
  rewrite (get_symbol_ok c sc Hc). cbn [Py.bind].
  destruct (String.eqb_spec (name sc) (name st)) as [Hname|Hname]; [done|].
  assert (Hlt : (t < c)%nat).
  { destruct (decide (t = c)) as [->|]; [|lia]. by simplify_eq. }
  pose proof (build_tables_spec nb l) as Hspec.
  rewrite tables in Hspec. destruct Hspec as [_ Hch].
  cbn [chains].
  assert (Hclen : (c < length l)%nat) by (by eapply lookup_lt_Some).
  rewrite getitem_table_list by done. cbn [Py.bind].
  destruct (Hch c Hclen) as (v & Hv & s' & Hs' & Hlink). rewrite Hv. cbn [default id].
  assert (s' = sc) as -> by congruence.
  assert (Hex : ∃ j s, take c l !! j = Some s ∧ bucket_of nb s = bucket_of nb sc).
  { exists t, st. split; [by rewrite lookup_take_lt|done]. }
  destruct Hlink as [[_ Hnone]|(j & -> & Hlast)].
  { destruct (exists_last_in_bucket nb _ _ Hex) as [i Hi]. by destruct (Hnone i). }
  assert (Htj : (t ≤ j)%nat).
  { apply (last_in_bucket_above nb (take c l) _ j t st Hlast); [by rewrite lookup_take_lt|done]. }
  destruct Hlast as (sj & Hj & Hbj & _).
  assert (Hjc : (j < c)%nat).
  { apply lookup_lt_Some in Hj. rewrite length_take in Hj. lia. }
  rewrite lookup_take_lt in Hj by done.
  apply (IH j sj Hj); [congruence|done|lia].
Qed.

Lemma check_symbol_passes t st : l !! t = Some st → (1 ≤ t)%nat → 0 < nb →
  check_symbol get_symbol f dynsym p (Z.of_nat t) = Py.Ok None.
Proof.
  intros Ht Ht1 Hnb. unfold check_symbol.
  rewrite (get_symbol_ok t st Ht). cbn [Py.bind]. cbv zeta.
  unfold GnuHash.py_mod. cbn [nbuckets].
  destruct (Z.eqb_spec nb 0); [lia|]. cbn [Py.bind].
  fold (bucket_of nb st).
  pose proof (Z.mod_pos_bound (_elfhash (name st)) nb Hnb) as Hrange.
  fold (bucket_of nb st) in Hrange.
  pose proof (build_tables_spec nb l) as Hspec.
  rewrite tables in Hspec. destruct Hspec as [Hbk _].
  cbn [buckets chains].
  replace (bucket_of nb st) with (Z.of_nat (Z.to_nat (bucket_of nb st))) at 1 by lia.
  rewrite getitem_table_list by lia. rewrite Z2Nat.id by lia. cbn [Py.bind].
  destruct (exists_last_in_bucket nb l (bucket_of nb st)) as [i Hi]; [by eauto|].
  assert (Hbki : bk !! bucket_of nb st = Some (Z.of_nat i)) by (apply Hbk; eauto).
  rewrite Hbki. cbn [default id].
  pose proof (last_in_bucket_above nb l _ i t st Hi Ht eq_refl) as Hti.
  destruct Hi as (si & Hsi & Hbi & _).
  pose proof (find_in_chain_found t st Ht Ht1 (S (2 * length l)) i si Hsi Hbi Hti) as Hfind.
  rewrite table_list_length.
  rewrite Hfind; [done|]. apply lookup_lt_Some in Hsi. lia.
Qed.

Lemma check_symbols_pass k : ∀ start, 0 < nb → (1 ≤ start)%nat →
  (start + k ≤ length l)%nat →
  check_symbols get_symbol f dynsym p (Z.of_nat <$> seq start k) = Py.Ok None.
Proof.
  induction k as [|k IH]; intros start Hnb Hs Hlen; [done|].
  cbn [seq fmap list_fmap check_symbols].
  destruct (lookup_lt_is_Some_2 l start) as [st Hst]; [lia|].
  rewrite (check_symbol_passes start st Hst Hs Hnb). cbn [Py.bind].
  apply IH; [done|lia|lia].
Qed.

End walk.

(** X4.  The tables [_recreate_elf_hash] builds pass
    [test_hash_section]: with a positive bucket count, every symbol from
    index 1 on is found by the walk from the head of its bucket along the
    chain, so that the test returns without an exception. *)
Theorem test_hash_section_passes self dynsym_w hash_w (l : list Symbol) nb :
  _elf_hash self = Some hash_w →
  dynsym self = Some dynsym_w →
  0 < nb →
  num_symbols (_f self) (objs self (section dynsym_w)) = Z.of_nat (length l) →
  (∀ i s, l !! i = Some s →
     get_symbol (_f self) (objs self (section dynsym_w)) (Z.of_nat i) = Py.Ok s) →
  ELFHashTable_params (_f self) (sh_offset (header (objs self (section hash_w))))
  = mkParams nb (table_list (build_tables nb l).1 (Z.to_nat nb))
      (table_list (build_tables nb l).2 (length l)) →
  test_hash_section get_symbol num_symbols ELFHashTable_params self = Py.Ok None.
Proof.
  intros Hhash Hdyn Hnb Hnum Hget Hparams. unfold test_hash_section.
  rewrite Hhash, Hdyn. cbn [Py.of_option Py.bind]. cbv zeta.
  rewrite Hparams, Hnum, Nat2Z.id.
  destruct (build_tables nb l) as [bk ch] eqn:Hbt. cbn [fst snd].
  destruct (length l) as [|n] eqn:Hlen; [done|].
  replace (S n - 1)%nat with n by lia. rewrite <- Hlen.
  apply check_symbols_pass; [done|done|done|lia|lia].
Qed.

End hash_check.

Lemma test_hash_section_passes_witness :
  HashCheck.test_hash_section Samples.small_get_symbol Samples.small_num_symbols
    Samples.small_hash_params Examples.hash_lib = Py.Ok None.
Proof.
  apply (test_hash_section_passes Samples.small_get_symbol Samples.small_num_symbols
           Samples.small_hash_params Examples.hash_lib (mkSectionWrapper 0 3 0)
           (mkSectionWrapper 2 5 0) Examples.small_symbols 3).
  - reflexivity.
  - reflexivity.
  - lia.
  - reflexivity.
  - intros i s Hi. unfold Samples.small_get_symbol.
    destruct (Z.ltb_spec (Z.of_nat i) 0); [lia|]. rewrite Nat2Z.id, Hi. reflexivity.
  - reflexivity.
Defined.

(** ** The loop of [overwrite_local_functions] and the order of the set *)

Section overwrite_order.
Import Editor LocalFunctions.

Lemma overwrite_local_lookup l : ∀ f f',
  Py.for_each overwrite_local l f = Py.Ok f' →
  ∀ i : nat,
    f' !! i =
    if covered l (Z.of_nat i) then Some xcc
    else if bool_decide ((length f ≤ i)%nat ∧ Z.of_nat i < reach l) then Some x00
    else f !! i.
Proof.
  induction l as [|[start size] l IH]; intros f f' H i.
  { injection H as <-. cbn [covered existsb reach foldr].
    rewrite bool_decide_eq_false_2 by lia. done. }
  cbn [Py.for_each] in H. apply bind_Ok in H as (f1 & H1 & H).
  rewrite (IH _ _ H i). cbn [covered existsb reach foldr fst snd].
  fold (covered l (Z.of_nat i)). fold (reach l).
  unfold overwrite_local in H1.
  destruct (Z.eqb_spec size 0) as [->|Hsize].
  { injection H1 as <-.
    replace (Z.of_nat i <? start + 0) with (negb (start <=? Z.of_nat i))
      by (destruct (Z.leb_spec start (Z.of_nat i)), (Z.ltb_spec (Z.of_nat i) (start + 0));
          simpl; lia).
    rewrite andb_negb_r. cbn [orb]. done. }
  destruct (Z.ltb_spec 0 size) as [Hpos|Hneg].
  2:{ replace (Z.to_nat size) with 0%nat in H1 by lia. unfold File.write in H1.
      destruct (start <? 0); [done|]. injection H1 as <-.
      replace ((start <=? Z.of_nat i) && (Z.of_nat i <? start + size)) with false; [done|].
      destruct (Z.leb_spec start (Z.of_nat i)), (Z.ltb_spec (Z.of_nat i) (start + size));
        simpl; lia. }
  pose proof (write_length_le _ _ _ _ H1) as Hle.
  pose proof (write_length _ _ _ _ H1) as Hlen. rewrite length_replicate in Hlen.
  assert (Hnz : (0 < Z.to_nat size)%nat) by lia. specialize (Hlen Hnz).
  pose proof (Nat.max_spec (length f) (Z.to_nat start + Z.to_nat size)) as Hmax.
  unfold Nat.max in Hlen, Hmax. fold Nat.max in Hlen, Hmax.
  apply write_lookup in H1 as [Hstart Hl]. rewrite length_replicate in Hl.
  destruct (covered l (Z.of_nat i)); [by rewrite orb_true_r|]. rewrite orb_false_r.
  destruct (Z.leb_spec start (Z.of_nat i)) as [Hs1|Hs1];
    destruct (Z.ltb_spec (Z.of_nat i) (start + size)) as [Hs2|Hs2]; cbn [andb].
  - (* inside the range written now *)
    rewrite Hl, decide_True by lia.
    rewrite lookup_replicate_2 by lia.
    case_bool_decide as Hhole; [|done]. exfalso. lia.
  - (* at or beyond its end *)
    rewrite Hl, decide_False by lia. rewrite decide_False by lia.
    repeat case_bool_decide; try done; exfalso; lia.
  - (* before its start *)
    rewrite Hl, decide_False by lia.
    destruct (decide (length f ≤ i < Z.to_nat start ∧ 0 < Z.to_nat size)%nat) as [Hh|Hh].
    + repeat case_bool_decide; try done; exfalso; lia.
    + repeat case_bool_decide; try done; exfalso; lia.
  - exfalso. lia.
Qed.

(** X5.  When the loop of [overwrite_local_functions] runs to its end,
    the file it leaves is determined position by position: [0xCC] at the
    positions inside the range of a function, a zero byte at the
    positions from the old end of the file up to the largest end of a
    nonempty range, and the old byte elsewhere. *)
Theorem overwrite_local_final_file l f f' :
  Py.for_each overwrite_local l f = Py.Ok f' →
  ∀ i : nat,
    f' !! i =
    if covered l (Z.of_nat i) then Some xcc
    else if bool_decide ((length f ≤ i)%nat ∧ Z.of_nat i < reach l) then Some x00
    else f !! i.
Proof. apply overwrite_local_lookup. Qed.

Lemma overwrite_local_raises l : ∀ f e,
  Py.for_each overwrite_local l f = Py.Raise e →
  e = Py.OSError ∧ ∃ start size, (start, size) ∈ l ∧ size ≠ 0 ∧ start < 0.
Proof.
  induction l as [|[start size] l IH]; intros f e H; [done|].
  cbn [Py.for_each] in H.
  destruct (overwrite_local f (start, size)) as [f1|e1] eqn:H1; cbn [Py.bind] in H.
  - destruct (IH _ _ H) as (-> & a & b & Hin & Hb & Ha). split; [done|].
    exists a, b. split; [by right|done].
  - injection H as <-. unfold overwrite_local in H1.
    destruct (Z.eqb_spec size 0); [done|]. unfold File.write in H1.
    destruct (Z.ltb_spec start 0); [|by destruct (replicate _ _)].
    injection H1 as <-. split; [done|]. exists start, size. split; [left|done].
Qed.

Lemma overwrite_local_bad l a b :
  (a, b) ∈ l → b ≠ 0 → a < 0 → ∀ f f', Py.for_each overwrite_local l f ≠ Py.Ok f'.
Proof.
  intros Hin Hb Ha. induction l as [|[s z] l IH]; intros f f' H.
  { by apply elem_of_nil in Hin. }
  cbn [Py.for_each] in H. apply bind_Ok in H as (f0 & H0 & H).
  apply elem_of_cons in Hin as [[= <- <-]|Hin]; [|by apply (IH Hin f0 f')].
  unfold overwrite_local in H0. destruct (Z.eqb_spec b 0); [done|].
  unfold File.write in H0. by destruct (Z.ltb_spec a 0); [|lia].
Qed.

Lemma covered_perm l l' i : l ≡ₚ l' → covered l i = covered l' i.
Proof.
  intros Hp. unfold covered. induction Hp as [|x l l' Hp IH|x y l|l1 l2 l3 H1 IH1 H2 IH2];
    cbn [existsb]; [done| |by rewrite !orb_assoc, (orb_comm (_ && _) (_ && _))|congruence].
  by rewrite IH.
Qed.

Lemma reach_perm l l' : l ≡ₚ l' → reach l = reach l'.
Proof.
  intros Hp. unfold reach. induction Hp as [|x l l' Hp IH|x y l|l1 l2 l3 H1 IH1 H2 IH2];
    cbn [foldr]; [done| | |congruence].
  - by rewrite IH.
  - destruct (0 <? x.2), (0 <? y.2); lia.
Qed.

(** X6.  The loop of [overwrite_local_functions] does not depend on the
    order in which the set [local_functions] is iterated: two orders of
    the same functions give the same file, or both end in the [OSError]
    of a negative address. *)
Theorem overwrite_local_order l l' f :
  l ≡ₚ l' →
  Py.for_each overwrite_local l f = Py.for_each overwrite_local l' f.
Proof.
  intros Hp.
  destruct (Py.for_each overwrite_local l f) as [f1|e1] eqn:H1;
    destruct (Py.for_each overwrite_local l' f) as [f2|e2] eqn:H2.
  - f_equal. apply list_eq. intros i.
    rewrite (overwrite_local_lookup _ _ _ H1 i), (overwrite_local_lookup _ _ _ H2 i).
    by rewrite (covered_perm l l' _ Hp), (reach_perm l l' Hp).
  - exfalso. apply overwrite_local_raises in H2 as (_ & a & b & Hin & Hb & Ha).
    rewrite <- Hp in Hin. by apply (overwrite_local_bad l a b Hin Hb Ha f f1).
  - exfalso. apply overwrite_local_raises in H1 as (_ & a & b & Hin & Hb & Ha).
    rewrite Hp in Hin. by apply (overwrite_local_bad l' a b Hin Hb Ha f f2).
  - apply overwrite_local_raises in H1 as (-> & _).
    apply overwrite_local_raises in H2 as (-> & _). done.
Qed.

End overwrite_order.

Lemma overwrite_local_final_file_witness :
  ∃ f',
    Py.for_each Editor.overwrite_local [(330, 4)] (replicate 320 x00) = Py.Ok f'
    ∧ f' !! 331%nat = Some xcc
    ∧ f' !! 325%nat = Some x00
    ∧ f' !! 5%nat = Some x00.
Proof.
  destruct (Py.for_each Editor.overwrite_local [(330, 4)] (replicate 320 x00))
    as [f'|] eqn:H; [|vm_compute in H; discriminate H].
  exists f'. split; [reflexivity|].
  pose proof (overwrite_local_final_file [(330, 4)] (replicate 320 x00) f' H) as Hf.
  split; [|split]; rewrite Hf; vm_compute; reflexivity.
Defined.

Lemma overwrite_local_order_witness :
  Py.for_each Editor.overwrite_local [(32, 4); (330, 2)] (replicate 320 x00)
  = Py.for_each Editor.overwrite_local [(330, 2); (32, 4)] (replicate 320 x00).
Proof.
  apply (overwrite_local_order [(32, 4); (330, 2)] [(330, 2); (32, 4)] (replicate 320 x00)).
  apply Permutation_swap.
Defined.

(** ** Round trips of [struct.pack] and [struct.unpack] *)

Section pack_round_trip.
Import File.

Lemma Z_of_byte_of_Z z : Z_of_byte (byte_of_Z z) = z `mod` 256.
Proof.
  unfold Z_of_byte, byte_of_Z.
  pose proof (Z.mod_pos_bound z 256) as Hb.
  destruct (Byte.of_N (Z.to_N (z `mod` 256))) as [b|] eqn:Hof.
  - apply Byte.to_of_N in Hof. cbn [default id]. rewrite Hof. lia.
  - apply Byte.of_N_None_iff in Hof. lia.
Qed.

Lemma le_value_le_bytes n v : le_value (le_bytes n v) = v `mod` 256 ^ Z.of_nat n.
Proof.
  revert v. induction n as [|n IH]; intros v.
  - simpl. by rewrite Z.mod_1_r.
  - cbn [le_bytes le_value]. rewrite IH, Z_of_byte_of_Z.
    rewrite Nat2Z.inj_succ, Z.pow_succ_r by lia.
    rewrite Z.rem_mul_r by lia. done.
Qed.

Lemma ordered_involutive little l : ordered little (ordered little l) = l.
Proof. unfold ordered. destruct little; [done|]. apply reverse_involutive. Qed.

Lemma unpack_pack_unsigned little n v b :
  pack_unsigned little n v = Py.Ok b → unpack_unsigned little b = v.
Proof.
  unfold pack_unsigned, unpack_unsigned.
  destruct (Z.leb_spec 0 v); [|done]. destruct (Z.ltb_spec v (256 ^ Z.of_nat n)); [|done].
  intros [= <-]. rewrite ordered_involutive, le_value_le_bytes. apply Z.mod_small. lia.
Qed.

Lemma le_value_range l : 0 ≤ le_value l < 256 ^ Z.of_nat (length l).
Proof.
  induction l as [|b l IH]; [simpl; lia|].
  cbn [le_value length]. rewrite Nat2Z.inj_succ, Z.pow_succ_r by lia.
  assert (0 ≤ Z_of_byte b < 256).
  { unfold Z_of_byte. pose proof (Byte.to_N_bounded b). lia. }
  lia.
Qed.

Lemma unpack_unsigned_range little l :
  0 ≤ unpack_unsigned little l < 256 ^ Z.of_nat (length l).
Proof.
  unfold unpack_unsigned. pose proof (le_value_range (ordered little l)) as H.
  by rewrite length_ordered in H.
Qed.

End pack_round_trip.

(** ** Popping entries by descending index *)

Section descending_pops.
Import Tables.
Context {A : Type}.

Lemma without_indices_below (l : list A) : ∀ k indices,
  (∀ j, j ∈ indices → j < k) → without_indices k indices l = l.
Proof.
  induction l as [|x l IH]; intros k indices Hlow; [done|].
  cbn [without_indices]. rewrite bool_decide_eq_false_2.
  - cbn [app]. f_equal. apply IH. intros j Hj. specialize (Hlow j Hj). lia.
  - intros Hin. specialize (Hlow k Hin). lia.
Qed.

Lemma without_indices_delete (l : list A) : ∀ k i0 rest,
  k ≤ i0 < k + Z.of_nat (length l) →
  (∀ j, j ∈ rest → j < i0) →
  without_indices k rest (delete (Z.to_nat (i0 - k)) l) = without_indices k (i0 :: rest) l.
Proof.
  induction l as [|x l IH]; intros k i0 rest Hrange Hlow; [simpl in Hrange; lia|].
  destruct (decide (i0 = k)) as [->|Hne].
  - rewrite Z.sub_diag. change (Z.to_nat 0) with 0%nat.
    change (delete 0%nat (x :: l)) with l. cbn [without_indices].
    rewrite bool_decide_eq_true_2 by left. cbn [app].
    rewrite (without_indices_below l k rest) by done.
    rewrite (without_indices_below l (k + 1)); [done|].
    intros j Hj. apply elem_of_cons in Hj as [->|Hj]; [lia|]. specialize (Hlow j Hj). lia.
  - replace (Z.to_nat (i0 - k)) with (S (Z.to_nat (i0 - (k + 1)))) by lia.
    change (delete (S (Z.to_nat (i0 - (k + 1)))) (x :: l))
      with (x :: delete (Z.to_nat (i0 - (k + 1))) l).
    cbn [without_indices].
    assert (Hk : bool_decide (k ∈ i0 :: rest) = bool_decide (k ∈ rest)).
    { apply bool_decide_ext. rewrite elem_of_cons. intuition congruence. }
    rewrite Hk. f_equal. apply IH; [|done]. cbn [length] in Hrange. lia.
Qed.

Lemma pops_descending (key : SymbolWrapper → Z) (symbol_list : list SymbolWrapper) :
  ∀ l : list A,
    StronglySorted (λ a b, key b < key a) symbol_list →
    (∀ s, s ∈ symbol_list → 0 ≤ key s < Z.of_nat (length l)) →
    Py.for_each (λ acc s, Py.pop acc (key s)) symbol_list l
    = Py.Ok (without_indices 0 (key <$> symbol_list) l).
Proof.
  induction symbol_list as [|s rest IH]; intros l Hsorted Hrange.
  { cbn [Py.for_each fmap list_fmap]. f_equal. symmetry. apply without_indices_below.
    intros j Hj. by apply elem_of_nil in Hj. }
  apply StronglySorted_inv in Hsorted as [Hsorted Hmax].
  rewrite Forall_forall in Hmax.
  destruct (Hrange s) as [Hs0 Hs1]; [left|].
  cbn [Py.for_each]. unfold Py.pop at 1.
  destruct (Z.leb_spec 0 (key s)); [|lia].
  destruct (Z.ltb_spec (key s) (Z.of_nat (length l))); [|lia].
  cbn [andb Py.bind]. rewrite IH; [|done|].
  - f_equal. rewrite fmap_cons.
    replace (Z.to_nat (key s)) with (Z.to_nat (key s - 0)) by (f_equal; lia).
    apply without_indices_delete; [lia|].
    intros j Hj. apply list_elem_of_fmap in Hj as (t & -> & Ht). by apply Hmax.
  - intros t Ht. specialize (Hmax t Ht). destruct (Hrange t) as [? ?]; [by right|].
    rewrite length_delete; [lia|]. apply lookup_lt_is_Some. lia.
Qed.

Lemma pops_length (key : SymbolWrapper → Z) (symbol_list : list SymbolWrapper) :
  ∀ l l' : list A,
    Py.for_each (λ acc s, Py.pop acc (key s)) symbol_list l = Py.Ok l' →
    (length l' + length symbol_list = length l)%nat.
Proof.
  induction symbol_list as [|s rest IH]; intros l l' H.
  { injection H as <-. simpl. lia. }
  cbn [Py.for_each] in H. apply bind_Ok in H as (l1 & H1 & H).
  apply IH in H. cbn [length].
  assert (length l1 + 1 = length l)%nat; [|lia].
  unfold Py.pop in H1.
  destruct (Z.leb_spec 0 (key s)), (Z.ltb_spec (key s) (Z.of_nat (length l)));
    cbn [andb] in H1.
  - injection H1 as <-. rewrite length_delete; [lia|]. apply lookup_lt_is_Some. lia.
  - destruct (Z.ltb_spec (key s) 0); [lia|done].
  - destruct (Z.ltb_spec (key s) 0); [|lia]. cbn [andb] in H1.
    destruct (Z.leb_spec (- Z.of_nat (length l)) (key s)); [|done].
    injection H1 as <-. rewrite length_delete; [lia|]. apply lookup_lt_is_Some. lia.
  - destruct (Z.ltb_spec (key s) 0); [|lia]. cbn [andb] in H1.
    destruct (Z.leb_spec (- Z.of_nat (length l)) (key s)); [|done].
    injection H1 as <-. rewrite length_delete; [lia|]. apply lookup_lt_is_Some. lia.
Qed.

End descending_pops.

(** ** The version table: [_batch_remove_gnu_versions] *)

Section gnu_versions.
Import Editor Tables.

Lemma pack_halves_length little vs bs :
  pack_halves little vs = Py.Ok bs → length bs = (2 * length vs)%nat.
Proof.
  revert bs. induction vs as [|v vs IH]; intros bs H; simpl in H.
  - by injection H as <-.
  - apply bind_Ok in H as (b & Hb & H). apply bind_Ok in H as (bs' & Hbs & H).
    injection H as <-. apply pack_unsigned_length in Hb. apply IH in Hbs.
    rewrite length_app. simpl. lia.
Qed.

Lemma unpack_pack_halves little vs : ∀ bs rest,
  pack_halves little vs = Py.Ok bs →
  unpack_halves little (length vs) (bs ++ rest) = vs.
Proof.
  induction vs as [|v vs IH]; intros bs rest H; simpl in H; [done|].
  apply bind_Ok in H as (b & Hb & H). apply bind_Ok in H as (bs' & Hbs & H).
  injection H as <-. pose proof (pack_unsigned_length _ _ _ _ Hb) as Lb.
  cbn [length unpack_halves]. rewrite <- !app_assoc.
  rewrite take_app_length' by done. rewrite drop_app_length' by done.
  f_equal; [by eapply unpack_pack_unsigned|by apply IH].
Qed.

Lemma set_section_attribute_spec self sec a v sub self' :
  Elf._set_section_attribute self sec a v sub = Py.Ok self' →
  index sec ≠ -1 →
  let old := Elf.header_get a (header (objs self (section sec))) in
  v ≤ old
  ∧ Elf.header_get a (header (objs self' (section sec))) = (if sub then old - v else v)
  ∧ (∀ n, n ≠ section sec → objs self' n = objs self n).
Proof.
  unfold Elf._set_section_attribute. destruct (Z.eqb_spec (index sec) (-1)); [done|].
  intros H _. bind_inv H.
  destruct (Z.ltb_spec (Elf.header_get a (header (objs self (section sec)))) v); [done|].
  bind_inv H. injection H as <-. cbv zeta. split; [lia|]. split.
  - cbn [objs set_objs]. rewrite fn_lookup_insert. cbn [header Elf.with_header].
    by destruct a, sub.
  - intros m Hm. cbn [objs set_objs]. by rewrite fn_lookup_insert_ne.
Qed.

(** X7.  [_batch_remove_gnu_versions]: for removed symbols in strictly
    descending index order with indices below the old number of symbols,
    a successful call leaves, at the offset of [.gnu.version], the
    16-bit entries of the old table without the ones at the removed
    indices, in their order, followed by as many zero entries as were
    removed; the size in the section header drops by two bytes per
    removed symbol. *)
Theorem batch_remove_gnu_versions_entries self symbol_list orig_dynsym_size gnu_version self' :
  _gnu_version self = Some gnu_version →
  _batch_remove_gnu_versions self symbol_list orig_dynsym_size = Py.Ok self' →
  StronglySorted (λ a b, sym_index b < sym_index a) symbol_list →
  (∀ s, s ∈ symbol_list → 0 ≤ sym_index s < orig_dynsym_size) →
  let hdr := header (objs self (section gnu_version)) in
  let little := little_endian self in
  let removed := Z.of_nat (length symbol_list) in
  ∃ section_bytes new_section_bytes,
    File.read (_f self) (sh_offset hdr) (orig_dynsym_size * 2) = Py.Ok section_bytes
    ∧ File.read (_f self') (sh_offset hdr) (orig_dynsym_size * 2)
      = Py.Ok (new_section_bytes ++ replicate (Z.to_nat (removed * 2)) x00)
    ∧ unpack_halves little (Z.to_nat (orig_dynsym_size - removed)) new_section_bytes
      = without_indices 0 (sym_index <$> symbol_list)
          (unpack_halves little (Z.to_nat orig_dynsym_size) section_bytes)
    ∧ (index gnu_version ≠ -1 →
       sh_size (header (objs self' (section gnu_version))) = sh_size hdr - 2 * removed).
Proof.
  intros Hgv H Hsorted Hrange hdr little removed.
  unfold _batch_remove_gnu_versions in H. rewrite Hgv in H. cbv zeta in H.
  fold hdr little in H.
  apply bind_Ok in H as (section_bytes & Hread & H).
  destruct (Z.ltb_spec orig_dynsym_size 0) as [|Hpos]; [done|]. cbn [orb] in H.
  destruct (Z.eqb_spec (Z.of_nat (length section_bytes)) (orig_dynsym_size * 2))
    as [Hlen|]; [|done].
  cbn [negb] in H.
  apply bind_Ok in H as (versions & Hpops & H).
  apply bind_Ok in H as (new_section_bytes & Hpack & H).
  apply bind_Ok in H as (f & Hwrite & H).
  set (old := unpack_halves little (Z.to_nat orig_dynsym_size) section_bytes) in *.
  assert (Hold_len : length old = Z.to_nat orig_dynsym_size).
  { unfold old. generalize section_bytes. generalize (Z.to_nat orig_dynsym_size).
    intros n. induction n as [|n IH]; intros bs; simpl; [done|]. by rewrite IH. }
  pose proof (pops_length sym_index symbol_list old versions Hpops) as Hvlen.
  rewrite pops_descending in Hpops; [|done|].
  2:{ intros s Hs. specialize (Hrange s Hs). rewrite Hold_len. lia. }
  injection Hpops as <-.
  set (versions := without_indices 0 (sym_index <$> symbol_list) old) in *.
  pose proof (pack_halves_length _ _ _ Hpack) as Hnew_len.
  assert (Hk : Z.of_nat (length versions) = orig_dynsym_size - removed).
  { unfold removed. lia. }
  exists section_bytes, new_section_bytes.
  split; [done|]. split; [|split].
  - pose proof (set_section_attribute_f _ _ _ _ _ _ H) as Hf. rewrite Hf. cbn [_f set_f].
    replace ((orig_dynsym_size - Z.of_nat (length versions)) * 2) with (removed * 2)
      in Hwrite by lia.
    set (data := new_section_bytes ++ replicate (Z.to_nat (removed * 2)) x00) in *.
    assert (Hdata : Z.of_nat (length data) = orig_dynsym_size * 2).
    { unfold data. rewrite length_app, length_replicate. lia. }
    rewrite <- Hdata. apply write_lookup in Hwrite as [Hoff Hl].
    apply read_from_lookup; [done|]. intros i Hi.
    rewrite Hl, decide_True by lia. f_equal. lia.
  - rewrite <- Hk, Nat2Z.id.
    rewrite <- (app_nil_r new_section_bytes). by apply unpack_pack_halves.
  - intros Hidx. unfold Elf._change_section_size, Elf._set_section_size in H.
    destruct (set_section_attribute_spec _ _ _ _ _ _ H Hidx) as (_ & Hval & _).
    cbn [Elf.header_get] in Hval. rewrite Hval. cbn [objs set_f]. fold hdr. unfold removed. lia.
Qed.

End gnu_versions.

Lemma batch_remove_gnu_versions_entries_witness :
  ∃ self' new_section_bytes,
    Editor._batch_remove_gnu_versions Samples.version_lib
      [Examples.bar_ref; Examples.foo_ref] 5 = Py.Ok self'
    ∧ File.read (_f self') 100 10 = Py.Ok (new_section_bytes ++ replicate 4 x00)
    ∧ Editor.unpack_halves true 3 new_section_bytes = [0; 1; 4]
    ∧ sh_size (header (objs self' 0%nat)) = 6.
Proof.
  destruct (Editor._batch_remove_gnu_versions Samples.version_lib
              [Examples.bar_ref; Examples.foo_ref] 5) as [self'|] eqn:H;
    [|vm_compute in H; discriminate H].
  destruct (batch_remove_gnu_versions_entries Samples.version_lib
              [Examples.bar_ref; Examples.foo_ref] 5 (mkSectionWrapper 0 6 0) self'
              eq_refl H)
    as (section_bytes & new_section_bytes & Hread & Hread' & Hentries & Hsize).
  - repeat constructor; simpl; lia.
  - intros s Hs. apply elem_of_cons in Hs as [->|Hs];
      [|apply list_elem_of_singleton in Hs; subst s]; simpl; lia.
  - exists self', new_section_bytes. split; [reflexivity|]. split; [exact Hread'|].
    split.
    + vm_compute in Hread. injection Hread as <-. exact Hentries.
    + apply Hsize. discriminate.
Defined.

(** ** What the operations leave alone *)

Section frames.
Import Frames.

Lemma touches_only_refl touched self : touches_only touched self self.
Proof. by split. Qed.

Lemma touches_only_set_f touched f self : touches_only touched self (set_f f self).
Proof. by split. Qed.

Lemma touches_only_trans t self1 self2 self3 :
  touches_only t self1 self2 → touches_only t self2 self3 → touches_only t self1 self3.
Proof.
  intros [W1 O1] [W2 O2]. split; [congruence|]. intros n Hn. rewrite O2, O1; done.
Qed.

Lemma touches_only_none_some w self self' :
  touches_only None self self' → touches_only (Some w) self self'.
Proof. intros [W O]. split; [done|]. intros n _. by apply O. Qed.

Lemma set_section_attribute_touches self sec a v sub self' :
  Elf._set_section_attribute self sec a v sub = Py.Ok self' →
  touches_only (Some sec) self self'.
Proof.
  unfold Elf._set_section_attribute. destruct (index sec =? -1).
  { intros [= <-]. apply touches_only_refl. }
  intros H. bind_inv H. destruct (_ <? _); [done|]. bind_inv H. injection H as <-.
  split; [done|]. intros n Hn. cbn [objs set_objs].
  rewrite fn_lookup_insert_ne; [done|]. intros Heq. by apply (Hn sec).
Qed.

Lemma write_dynamic_tag_touches self target value sub self' :
  Elf._write_dynamic_tag self target value sub = Py.Ok self' →
  touches_only None self self'.
Proof.
  unfold Elf._write_dynamic_tag. intros H. bind_inv H.
  destruct (Elf.find_tag _ _); [|injection H as <-; apply touches_only_refl].
  unfold Elf._modify_dynamic_tag_at_index in H. bind_inv H.
  apply bind_Ok in H as ([tagno old_val] & _ & H). bind_inv H.
  injection H as <-. by split.
Qed.

End frames.

Section cascade_frames.
Import Frames.
Variable address_offsets : Z → list Z.
Variable iter_symbols : list byte → Section → list Symbol.
Variable iter_relocations : list byte → Section → list Reloc.
Variable ELFHashTable_nchains : list byte → Z → Z.
Variable GNUHashTable_params : list byte → Z → Z * Z * Z * list Z.
Variable version_name_fields : list byte → list (Z * Z).

Lemma batch_remove_relocs_touches self symbol_list sec push is_symtab self' :
  Relocs._batch_remove_relocs address_offsets iter_relocations self symbol_list sec
    push is_symtab = Py.Ok self' →
  touches_only sec self self'.
Proof.
  unfold Relocs._batch_remove_relocs. destruct sec as [sec|].
  2:{ intros [= <-]. apply touches_only_refl. }
  intros H.
  apply bind_Ok in H as (t & _ & H). apply bind_Ok in H as (final & _ & H).
  apply bind_Ok in H as (relocs_bytes & _ & H). apply bind_Ok in H as (fill & _ & H).
  apply bind_Ok in H as (f & _ & H). cbv zeta in H.
  apply bind_Ok in H as (self1 & H1 & H).
  assert (Hmid : touches_only (Some sec) self self1).
  { apply (touches_only_trans _ _ (set_f f self)); [apply touches_only_set_f|].
    destruct (negb (_need_continuous_relocations (set_f f self))).
    - apply bind_Ok in H1 as (self0 & H0 & H1). injection H1 as <-.
      apply set_section_attribute_touches in H0.
      eapply touches_only_trans; [exact H0|]. split; [done|]. intros n Hn.
      cbn [objs set_objs]. rewrite fn_lookup_insert_ne; [done|].
      intros Heq. by apply (Hn sec).
    - injection H1 as <-. apply touches_only_refl. }
  destruct push; [|injection H as <-; done].
  apply bind_Ok in H as (self2 & H2 & H).
  apply write_dynamic_tag_touches, (touches_only_none_some sec) in H.
  eapply touches_only_trans; [exact Hmid|]. eapply touches_only_trans; [|exact H].
  destruct (negb (_need_continuous_relocations self1)).
  - by apply write_dynamic_tag_touches, (touches_only_none_some sec) in H2.
  - injection H2 as <-. apply touches_only_refl.
Qed.

Lemma recreate_elf_hash_touches self dynsym n self' :
  SysvHash._recreate_elf_hash iter_symbols ELFHashTable_nchains self dynsym n = Py.Ok self' →
  touches_only (_elf_hash self) self self'.
Proof.
  unfold SysvHash._recreate_elf_hash. destruct (_elf_hash self) as [elf_hash|].
  2:{ intros [= <-]. apply touches_only_refl. }
  cbv zeta. intros H. apply bind_Ok in H as (nbuckets & _ & H).
  destruct (SysvHash.build_tables _ _) as [new_buckets new_chains].
  apply bind_Ok in H as (f0 & _ & H). apply bind_Ok in H as (b1 & _ & H).
  apply bind_Ok in H as (f1 & _ & H). apply bind_Ok in H as (b2 & _ & H).
  apply bind_Ok in H as (f2 & _ & H). apply bind_Ok in H as (ob & _ & H).
  apply bind_Ok in H as (f3 & _ & H). apply bind_Ok in H as (oc & _ & H).
  apply bind_Ok in H as (f4 & _ & H).
  by apply set_section_attribute_touches in H.
Qed.

Lemma batch_remove_gnu_versions_touches self symbol_list n self' :
  Editor._batch_remove_gnu_versions self symbol_list n = Py.Ok self' →
  touches_only (_gnu_version self) self self'.
Proof.
  unfold Editor._batch_remove_gnu_versions. destruct (_gnu_version self) as [gv|].
  2:{ intros [= <-]. apply touches_only_refl. }
  cbv zeta. intros H. apply bind_Ok in H as (bytes & _ & H).
  destruct (_ || _); [done|].
  apply bind_Ok in H as (versions & _ & H). apply bind_Ok in H as (nb & _ & H).
  apply bind_Ok in H as (f & _ & H).
  by apply set_section_attribute_touches in H.
Qed.

Lemma batch_remove_gnu_hashtable_touches self symbol_list n self' :
  GnuHash._batch_remove_gnu_hashtable GNUHashTable_params self symbol_list n = Py.Ok self' →
  touches_only (_gnu_hash self) self self'.
Proof.
  unfold GnuHash._batch_remove_gnu_hashtable. destruct (_gnu_hash self) as [gh|].
  2:{ intros [= <-]. apply touches_only_refl. }
  cbv zeta. intros H. apply bind_Ok in H as (p0 & _ & H).
  apply bind_Ok in H as (p & _ & H). apply bind_Ok in H as (b & _ & H).
  apply bind_Ok in H as (f1 & _ & H). apply bind_Ok in H as (bb & _ & H).
  apply bind_Ok in H as (f2 & _ & H). apply bind_Ok in H as (cb & _ & H).
  apply bind_Ok in H as (f3 & _ & H).
  by apply set_section_attribute_touches in H.
Qed.

Lemma release_names_touches removed : ∀ self self',
  Py.for_each Dynstr.release_name removed self = Py.Ok self' →
  touches_only None self self' ∧ _dynamic self' = _dynamic self.
Proof.
  induction removed as [|symbol removed IH]; intros self self' H; simpl in H.
  { injection H as <-. split; [apply touches_only_refl|done]. }
  apply bind_Ok in H as (self1 & H1 & H). apply IH in H as [H Hd].
  assert (H1' : touches_only None self self1 ∧ _dynamic self1 = _dynamic self).
  { unfold Dynstr.release_name in H1.
    apply bind_Ok in H1 as ([name_idx end_] & _ & H1).
    destruct (_ =? 0); injection H1 as <-; by split. }
  destruct H1' as [H1' Hd1]. split; [by eapply touches_only_trans|congruence].
Qed.

Lemma fix_string_tags_touches fuel index_map : ∀ self idx self',
  Editor.fix_string_tags fuel index_map self idx = Py.Ok self' →
  touches_only None self self'.
Proof.
  induction fuel as [|fuel IH]; intros self idx self' H; simpl in H.
  { injection H as <-. apply touches_only_refl. }
  apply bind_Ok in H as (tags & _ & H).
  destruct (tags !! idx) as [[t v]|]; [|injection H as <-; apply touches_only_refl].
  destruct (Editor.is_string_tag t); [|by eapply IH].
  apply bind_Ok in H as (new_val & _ & H). apply bind_Ok in H as (self1 & H1 & H).
  apply IH in H. eapply touches_only_trans; [|exact H].
  unfold Elf._modify_dynamic_tag_at_index in H1. apply bind_Ok in H1 as (tags1 & _ & H1).
  apply bind_Ok in H1 as ([tagno old_val] & _ & H1). apply bind_Ok in H1 as (b & _ & H1).
  injection H1 as <-. by split.
Qed.

Lemma compact_dynstr_touches self removed_symbols self' :
  Editor._compact_dynstr iter_symbols version_name_fields self removed_symbols = Py.Ok self' →
  touches_only (_dynstr self) self self'.
Proof.
  unfold Editor._compact_dynstr. destruct (_dynstr self) as [dynstr|] eqn:Hdynstr.
  2:{ intros [= <-]. apply touches_only_refl. }
  intros H. apply bind_Ok in H as ([self1 built] & Hbuild & H).
  unfold Dynstr._build_new_dynstr in Hbuild. rewrite Hdynstr in Hbuild. cbv zeta in Hbuild.
  apply bind_Ok in Hbuild as (self0 & Hrel & Hbuild).
  apply bind_Ok in Hbuild as (st & _ & Hbuild). injection Hbuild as <- <-.
  apply release_names_touches in Hrel as [Hrel _].
  apply (touches_only_none_some dynstr) in Hrel.
  eapply touches_only_trans; [exact Hrel|]. clear Hrel. cbv zeta in H.
  apply bind_Ok in H as (dynsym & _ & H). apply bind_Ok in H as (f1 & _ & H).
  apply bind_Ok in H as (tags & _ & H). apply bind_Ok in H as (self2 & H2 & H).
  apply fix_string_tags_touches, (touches_only_none_some dynstr) in H2.
  apply bind_Ok in H as (f2 & _ & H). apply bind_Ok in H as (f3 & _ & H).
  apply bind_Ok in H as (f4 & _ & H). apply bind_Ok in H as (self3 & H3 & H).
  apply set_section_attribute_touches in H3.
  apply write_dynamic_tag_touches, (touches_only_none_some dynstr) in H.
  eapply touches_only_trans; [apply (touches_only_set_f _ f1)|].
  eapply touches_only_trans; [exact H2|].
  eapply touches_only_trans; [apply (touches_only_set_f _ f4)|].
  eapply touches_only_trans; [exact H3|exact H].
Qed.

End cascade_frames.

(** ** The bookkeeping of [remove_from_section] *)

Section bookkeeping.
Import Frames Editor.
Variable address_offsets : Z → list Z.
Variable iter_symbols : list byte → Section → list Symbol.
Variable iter_relocations : list byte → Section → list Reloc.
Variable ELFHashTable_nchains : list byte → Z → Z.
Variable GNUHashTable_params : list byte → Z → Z * Z * Z * list Z.
Variable version_name_fields : list byte → list (Z * Z).

Lemma wrappers_cascade_sections self self' :
  wrappers self' = wrappers self →
  cascade_sections self' = cascade_sections self
  ∧ symtab self' = symtab self ∧ dynsym self' = dynsym self.
Proof.
  unfold wrappers, cascade_sections. intros [= ]. split; [|split]; congruence.
Qed.

(** One step of the cascade: it touches one of the cascade's sections. *)
Lemma cascade_step touched self self' m :
  touches_only touched self self' →
  touched ∈ cascade_sections self →
  apart_from m self →
  objs self' m = objs self m
  ∧ cascade_sections self' = cascade_sections self
  ∧ symtab self' = symtab self ∧ dynsym self' = dynsym self
  ∧ apart_from m self'.
Proof.
  intros [W O] Hin Hapart.
  destruct (wrappers_cascade_sections _ _ W) as (Hc & Hs & Hd).
  split; [|split; [done|split; [done|split; [done|]]]].
  - apply O. intros w ->. intros ->. by apply (Hapart w).
  - unfold apart_from. by rewrite Hc.
Qed.

Lemma cascade_frame self sec sorted_list removed n self' m :
  cascade address_offsets iter_symbols iter_relocations ELFHashTable_nchains
    GNUHashTable_params version_name_fields self sec sorted_list removed n = Py.Ok self' →
  apart_from m self →
  objs self' m = objs self m
  ∧ symtab self' = symtab self
  ∧ dynsym self'
    = (if String.eqb (sec_name (objs self (section sec))) ".dynsym" then Some sec
       else dynsym self).
Proof.
  intros H Hapart. unfold cascade in H. cbv zeta in H.
  apply bind_Ok in H as (self1 & H1 & H).
  apply batch_remove_relocs_touches in H1.
  destruct (cascade_step _ _ _ m H1) as (O1 & C1 & S1 & D1 & A1);
    [unfold cascade_sections; set_solver|done|].
  destruct (String.eqb _ ".dynsym").
  2:{ injection H as <-. done. }
  apply bind_Ok in H as (self2 & H2 & H).
  apply compact_dynstr_touches in H2.
  destruct (cascade_step _ _ _ m H2) as (O2 & C2 & S2 & D2 & A2);
    [unfold cascade_sections; set_solver|done|].
  apply bind_Ok in H as (self3 & H3 & H).
  apply batch_remove_relocs_touches in H3.
  destruct (cascade_step _ _ _ m H3) as (O3 & C3 & S3 & D3 & A3);
    [unfold cascade_sections; set_solver|done|].
  apply bind_Ok in H as (dynsym3 & _ & H). apply bind_Ok in H as (self4 & H4 & H).
  apply recreate_elf_hash_touches in H4.
  destruct (cascade_step _ _ _ m H4) as (O4 & C4 & S4 & D4 & A4);
    [unfold cascade_sections; set_solver|done|].
  apply bind_Ok in H as (self5 & H5 & H).
  apply batch_remove_gnu_versions_touches in H5.
  destruct (cascade_step _ _ _ m H5) as (O5 & C5 & S5 & D5 & A5);
    [unfold cascade_sections; set_solver|done|].
  apply batch_remove_gnu_hashtable_touches in H.
  destruct (cascade_step _ _ _ m H) as (O6 & C6 & S6 & D6 & A6);
    [unfold cascade_sections; set_solver|done|].
  split; [|split].
  - rewrite O6, O5, O4, O3, O2. cbn [objs set_dynsym]. exact O1.
  - rewrite S6, S5, S4, S3, S2. cbn [symtab set_dynsym]. exact S1.
  - rewrite D6, D5, D4, D3, D2. done.
Qed.

Lemma set_section_attribute_header self sec a v sub self' :
  Elf._set_section_attribute self sec a v sub = Py.Ok self' →
  objs self' (section sec)
  = (if index sec =? -1 then objs self (section sec)
     else
       let obj := objs self (section sec) in
       let old := Elf.header_get a (header obj) in
       Elf.with_header (Elf.header_set a (if sub then old - v else v) (header obj)) obj).
Proof.
  unfold Elf._set_section_attribute. destruct (index sec =? -1); [by intros [= <-]|].
  intros H. bind_inv H. destruct (_ <? _); [done|]. bind_inv H. injection H as <-.
  cbn [objs set_objs]. by rewrite fn_lookup_insert.
Qed.

(** X8.  A successful [remove_from_section] with a non-empty collection
    returns the number of references; when no other section of the
    cascade shares the section object of the table, the header of a table
    with a section header keeps [sh_offset] and [sh_entsize] and has its
    [sh_size] reduced by [sh_entsize] for each reference, and the section
    object of a synthetic table (index -1) is left as it was. *)
Theorem remove_from_section_bookkeeping self sec collection overwrite self' removed :
  collection ≠ [] →
  remove_from_section address_offsets iter_symbols iter_relocations ELFHashTable_nchains
    GNUHashTable_params version_name_fields self (Some sec) collection overwrite
  = Py.Ok (self', removed) →
  apart_from (section sec) self →
  removed = Z.of_nat (length collection)
  ∧ (index sec ≠ -1 →
     sh_size (header (objs self' (section sec)))
     = sh_size (header (objs self (section sec)))
       - removed * sh_entsize (header (objs self (section sec)))
     ∧ sh_offset (header (objs self' (section sec)))
       = sh_offset (header (objs self (section sec)))
     ∧ sh_entsize (header (objs self' (section sec)))
       = sh_entsize (header (objs self (section sec))))
  ∧ (index sec = -1 → objs self' (section sec) = objs self (section sec)).
Proof.
  intros Hne H Hapart. unfold remove_from_section in H.
  destruct collection as [|s0 collection]; [done|].
  set (coll := s0 :: collection) in *.
  set (sorted_list := Py.sorted (λ a b, sym_index b <=? sym_index a) coll) in *.
  assert (Hlen : length sorted_list = length coll).
  { apply Permutation_length, sorted_perm. }
  cbv zeta in H. destruct (_ =? 0); [done|].
  apply bind_Ok in H as (entries0 & _ & H).
  apply bind_Ok in H as ([entries f] & _ & H).
  apply bind_Ok in H as (f' & _ & H).
  apply bind_Ok in H as (self1 & H1 & H).
  apply bind_Ok in H as (self2 & H2 & H).
  apply bind_Ok in H as (self3 & H3 & H).
  injection H as <- <-.
  unfold Elf._change_section_size, Elf._set_section_size in H1.
  unfold _fix_sh_info in H2. apply bind_Ok in H2 as (first & _ & H2).
  unfold Elf._set_section_info in H2.
  pose proof (set_section_attribute_header _ _ _ _ _ _ H1) as E1.
  pose proof (set_section_attribute_header _ _ _ _ _ _ H2) as E2.
  apply set_section_attribute_touches in H1 as [W1 _].
  apply set_section_attribute_touches in H2 as [W2 _].
  assert (Hapart2 : apart_from (section sec) self2).
  { unfold apart_from.
    destruct (wrappers_cascade_sections _ _ W2) as (-> & _).
    destruct (wrappers_cascade_sections _ _ W1) as (-> & _). done. }
  destruct (cascade_frame _ _ _ _ _ _ _ H3 Hapart2) as (O3 & _ & _).
  cbn [section] in O3. rewrite O3, E2, E1. cbn [objs set_f].
  rewrite Hlen. split; [done|]. split.
  - intros Hidx. destruct (Z.eqb_spec (index sec) (-1)); [done|].
    cbv zeta. cbn [header Elf.with_header Elf.header_set Elf.header_get sh_size sh_offset
                   sh_entsize]. done.
  - intros ->. done.
Qed.

Lemma remove_loop_versions sec overwrite l : ∀ st st',
  Py.for_each (remove_entry sec overwrite) l st = Py.Ok st' →
  ∀ s, s ∈ l → sym_sec_version s = version sec.
Proof.
  induction l as [|x l IH]; intros st st' H s Hs; [by apply elem_of_nil in Hs|].
  cbn [Py.for_each] in H. apply bind_Ok in H as (st1 & H1 & H).
  apply elem_of_cons in Hs as [->|Hs]; [|by eapply IH].
  unfold remove_entry in H1. destruct st as [entries f].
  by destruct (Z.eqb_spec (sym_sec_version x) (version sec)).
Qed.

(** X9.  After a successful batch with a non-empty collection on the
    section named [.dynsym], [self.dynsym] is the wrapper of the same
    section with the version incremented by one, [self.symtab] is
    unchanged, and a further batch on [self.dynsym] with the same
    collection never succeeds. *)
Theorem remove_from_dynsym_bumps_version self sec collection overwrite self' removed :
  collection ≠ [] →
  sec_name (objs self (section sec)) = ".dynsym"%string →
  remove_from_section address_offsets iter_symbols iter_relocations ELFHashTable_nchains
    GNUHashTable_params version_name_fields self (Some sec) collection overwrite
  = Py.Ok (self', removed) →
  dynsym self' = Some (mkSectionWrapper (section sec) (index sec) (version sec + 1))
  ∧ symtab self' = symtab self
  ∧ ∀ overwrite' r,
      remove_from_section address_offsets iter_symbols iter_relocations
        ELFHashTable_nchains GNUHashTable_params version_name_fields self' (dynsym self')
        collection overwrite' ≠ Py.Ok r.
Proof.
  intros Hne Hname H. unfold remove_from_section in H.
  destruct collection as [|s0 collection]; [done|].
  set (coll := s0 :: collection) in *.
  set (sorted_list := Py.sorted (λ a b, sym_index b <=? sym_index a) coll) in *.
  cbv zeta in H. destruct (_ =? 0); [done|].
  apply bind_Ok in H as (entries0 & _ & H).
  apply bind_Ok in H as ([entries f] & Hloop & H).
  apply bind_Ok in H as (f' & _ & H).
  apply bind_Ok in H as (self1 & H1 & H).
  apply bind_Ok in H as (self2 & H2 & H).
  apply bind_Ok in H as (self3 & H3 & H).
  injection H as <- _.
  unfold _fix_sh_info in H2. apply bind_Ok in H2 as (first & _ & H2).
  apply set_section_attribute_wrappers in H1 as (S1 & _ & N1).
  apply set_section_attribute_wrappers in H2 as (S2 & _ & N2).
  assert (Hname2 : sec_name (objs self2 (section sec)) = ".dynsym"%string).
  { by rewrite N2, N1. }
  assert (Hd : dynsym self3
               = Some (mkSectionWrapper (section sec) (index sec) (version sec + 1))
               ∧ symtab self3 = symtab self2).
  { clear Hloop. unfold cascade in H3. cbv zeta in H3. cbn [section] in H3.
    apply bind_Ok in H3 as (a1 & A1 & H3).
    apply batch_remove_relocs_touches in A1 as [W1 _].
    destruct (wrappers_cascade_sections _ _ W1) as (_ & T1 & _).
    rewrite Hname2 in H3. cbn [String.eqb Ascii.eqb Bool.eqb] in H3.
    apply bind_Ok in H3 as (a2 & A2 & H3).
    apply compact_dynstr_touches in A2 as [W2 _].
    destruct (wrappers_cascade_sections _ _ W2) as (_ & T2 & D2).
    apply bind_Ok in H3 as (a3 & A3 & H3).
    apply batch_remove_relocs_touches in A3 as [W3 _].
    destruct (wrappers_cascade_sections _ _ W3) as (_ & T3 & D3).
    apply bind_Ok in H3 as (d3 & _ & H3). apply bind_Ok in H3 as (a4 & A4 & H3).
    apply recreate_elf_hash_touches in A4 as [W4 _].
    destruct (wrappers_cascade_sections _ _ W4) as (_ & T4 & D4).
    apply bind_Ok in H3 as (a5 & A5 & H3).
    apply batch_remove_gnu_versions_touches in A5 as [W5 _].
    destruct (wrappers_cascade_sections _ _ W5) as (_ & T5 & D5).
    apply batch_remove_gnu_hashtable_touches in H3 as [W6 _].
    destruct (wrappers_cascade_sections _ _ W6) as (_ & T6 & D6).
    split.
    - rewrite D6, D5, D4, D3, D2. done.
    - rewrite T6, T5, T4, T3, T2. cbn [symtab set_dynsym]. done. }
  destruct Hd as [Hd Hs]. split; [done|]. split; [by rewrite Hs, S2, S1|].
  intros overwrite' r. rewrite Hd. unfold remove_from_section. subst coll.
  cbv zeta. destruct (_ =? 0); [done|].
  match goal with
  | |- Py.bind ?m _ ≠ _ => destruct m as [entries1|e]; [|done]
  end.
  cbn [Py.bind].
  destruct (remove_loop_stale_raises
              (mkSectionWrapper (section sec) (index sec) (version sec + 1)) overwrite'
              sorted_list (entries1, _f self3)) as [e He].
  - exists s0. split.
    + unfold sorted_list. rewrite sorted_perm. left.
    + cbn [version].
      rewrite (remove_loop_versions _ _ _ _ _ Hloop s0);
        [lia|unfold sorted_list; rewrite sorted_perm; left].
  - fold sorted_list. rewrite He. done.
Qed.

End bookkeeping.

Lemma remove_from_section_bookkeeping_witness :
  ∃ self',
    Editor.remove_from_section Examples.no_offsets Examples.small_iter_symbols
      Examples.no_relocations Examples.six_chains Examples.gnu_params
      Examples.no_version_fields Examples.small_lib (Some (mkSectionWrapper 0 3 0))
      [Examples.foo_ref] true = Py.Ok (self', 1)
    ∧ sh_size (header (objs self' 0%nat)) = 96.
Proof.
  destruct (Editor.remove_from_section Examples.no_offsets Examples.small_iter_symbols
              Examples.no_relocations Examples.six_chains Examples.gnu_params
              Examples.no_version_fields Examples.small_lib (Some (mkSectionWrapper 0 3 0))
              [Examples.foo_ref] true) as [[self' n]|] eqn:H;
    [|vm_compute in H; discriminate H].
  destruct (remove_from_section_bookkeeping Examples.no_offsets Examples.small_iter_symbols
              Examples.no_relocations Examples.six_chains Examples.gnu_params
              Examples.no_version_fields Examples.small_lib (mkSectionWrapper 0 3 0)
              [Examples.foo_ref] true self' n) as (Hn & Hsize & _).
  - discriminate.
  - exact H.
  - intros w Hw. vm_compute in Hw. repeat (apply elem_of_cons in Hw as [Hw|Hw]; [discriminate Hw|]).
    by apply elem_of_nil in Hw.
  - exists self'. simpl in Hn. rewrite Hn. split; [reflexivity|].
    destruct Hsize as (Hsize & _); [discriminate|]. simpl in Hsize.
    rewrite Hsize, Hn. reflexivity.
Defined.

Lemma remove_from_dynsym_bumps_version_witness :
  ∃ self' removed,
    Editor.remove_from_section Examples.no_offsets Examples.small_iter_symbols
      Examples.no_relocations Examples.six_chains Examples.gnu_params
      Examples.no_version_fields Examples.small_lib (Some (mkSectionWrapper 0 3 0))
      [Examples.foo_ref] true = Py.Ok (self', removed)
    ∧ dynsym self' = Some (mkSectionWrapper 0 3 1).
Proof.
  destruct (Editor.remove_from_section Examples.no_offsets Examples.small_iter_symbols
              Examples.no_relocations Examples.six_chains Examples.gnu_params
              Examples.no_version_fields Examples.small_lib (Some (mkSectionWrapper 0 3 0))
              [Examples.foo_ref] true) as [[self' n]|] eqn:H;
    [|vm_compute in H; discriminate H].
  destruct (remove_from_dynsym_bumps_version Examples.no_offsets Examples.small_iter_symbols
              Examples.no_relocations Examples.six_chains Examples.gnu_params
              Examples.no_version_fields Examples.small_lib (mkSectionWrapper 0 3 0)
              [Examples.foo_ref] true self' n) as (Hd & _).
  - discriminate.
  - reflexivity.
  - exact H.
  - exists self', n. split; [reflexivity|exact Hd].
Defined.

(** ** Collecting and removing *)

Section collect_and_remove.
Import Collector Editor.
Variable address_offsets : Z → list Z.
Variable iter_symbols : list byte → Section → list Symbol.
Variable iter_relocations : list byte → Section → list Reloc.
Variable ELFHashTable_nchains : list byte → Z → Z.
Variable GNUHashTable_params : list byte → Z → Z * Z * Z * list Z.
Variable version_name_fields : list byte → list (Z * Z).

Local Abbreviation remove :=
  (remove_from_section address_offsets iter_symbols iter_relocations ELFHashTable_nchains
     GNUHashTable_params version_name_fields).

Lemma remove_current_not_stale self sec collection overwrite :
  (∀ w s, sec = Some w → s ∈ collection → sym_sec_version s = version w) →
  not_stale (remove self sec collection overwrite).
Proof.
  intros Hcur. unfold remove_from_section.
  destruct sec as [sec|]; [|apply not_stale_Raise; discriminate].
  destruct collection as [|s0 collection]; [apply not_stale_Ok|].
  set (coll := s0 :: collection) in *. cbv zeta.
  destruct (_ =? 0); [apply not_stale_Raise; discriminate|].
  apply not_stale_bind; [not_stale_tac|]. intros entries.
  apply not_stale_bind.
  { apply remove_loop_current. intros s Hs. apply (Hcur sec s eq_refl).
    by rewrite sorted_perm in Hs. }
  intros [entries' f']. apply not_stale_bind; [not_stale_tac|]. intros f''.
  apply not_stale_bind; [not_stale_tac|]. intros self1.
  apply not_stale_bind; [apply not_stale_fix_sh_info|]. intros self2.
  apply not_stale_bind; [apply not_stale_cascade|]. intros self3.
  apply not_stale_Ok.
Qed.

Lemma collect_in_section_versions self sec names addrs complement found :
  collect_symbols_in_section iter_symbols self sec names addrs complement = Py.Ok found →
  ∃ w, sec = Some w ∧ ∀ s, s ∈ found → sym_sec_version s = version w.
Proof.
  unfold collect_symbols_in_section. intros H.
  assert (Hloop : ∀ w in_input s,
    s ∈ collect_loop _blacklist (version w) in_input complement
          (iter_symbols (_f self) (objs self (section w))) →
    sym_sec_version s = version w).
  { intros w in_input s Hs.
    apply (collect_loop_exact _blacklist (version w) in_input complement) in Hs
      as (i & sym & _ & _ & ->). done. }
  destruct names as [names|], addrs as [addrs|]; [| | |done];
    (destruct sec as [w|]; [|done]); cbn [Py.of_option Py.bind] in H;
    injection H as <-; exists w; (split; [done|]); intros s; apply Hloop.
Qed.

(** X10.  References that were just collected are never stale: after
    [collect_symbols_in_dynsym] the call [remove_symbols_from_dynsym]
    does not end in the stale-collection error, and likewise for
    [collect_symbols_in_symtab] and [remove_symbols_from_symtab]. *)
Theorem collect_then_remove_not_stale self names addrs complement overwrite :
  (∀ self1,
     collect_symbols_in_dynsym iter_symbols self names addrs complement = Py.Ok self1 →
     remove_symbols_from_dynsym address_offsets iter_symbols iter_relocations
       ELFHashTable_nchains GNUHashTable_params version_name_fields self1 overwrite
     ≠ Py.Raise Py.StaleCollection)
  ∧ (∀ self1,
       collect_symbols_in_symtab iter_symbols self names addrs complement = Py.Ok self1 →
       remove_symbols_from_symtab address_offsets iter_symbols iter_relocations
         ELFHashTable_nchains GNUHashTable_params version_name_fields self1 overwrite
       ≠ Py.Raise Py.StaleCollection).
Proof.
  split; intros self1 H.
  - unfold collect_symbols_in_dynsym in H. apply bind_Ok in H as (found & Hfound & H).
    injection H as <-. unfold remove_symbols_from_dynsym.
    cbn [dynsym collection_dynsym set_collection_dynsym].
    apply collect_in_section_versions in Hfound as (w & Hw & Hv).
    apply remove_current_not_stale. intros w' s Hw' Hs.
    assert (w' = w) as -> by congruence. by apply Hv.
  - unfold collect_symbols_in_symtab in H. apply bind_Ok in H as (found & Hfound & H).
    injection H as <-. unfold remove_symbols_from_symtab.
    cbn [symtab collection_symtab set_collection_symtab].
    apply collect_in_section_versions in Hfound as (w & Hw & Hv).
    apply remove_current_not_stale. intros w' s Hw' Hs.
    assert (w' = w) as -> by congruence. by apply Hv.
Qed.

Lemma collect_complement_gen blacklist v (in_input in_none : Symbol → bool)
    (g : SymbolWrapper → bool) symbols w :
  (∀ i s, g (ref_of v i s) = in_input s) →
  (∀ s, in_none s = false) →
  w ∈ collect_loop blacklist v in_input true symbols ↔
  w ∈ collect_loop blacklist v in_none true symbols
  ∧ w ∉ collect_loop blacklist v in_input false symbols.
Proof.
  intros Hg Hnone.
  pose proof (collect_loop_exact blacklist v in_input true symbols) as [H1 _].
  pose proof (collect_loop_exact blacklist v in_none true symbols) as [H2 _].
  pose proof (collect_loop_exact blacklist v in_input false symbols) as [H3 _].
  rewrite H1, H2, H3. unfold selected. cbn [negb]. split.
  - intros (i & s & Hi & (Hf & Hb & Hin) & ->). split.
    + exists i, s. split; [done|]. split; [|done]. split; [done|]. split; [done|].
      apply Hnone.
    + intros (j & s' & Hj & (_ & _ & Hin') & Heq).
      apply (f_equal g) in Heq. rewrite !Hg in Heq. congruence.
  - intros [(i & s & Hi & (Hf & Hb & _) & ->) Hnot].
    exists i, s. split; [done|]. split; [|done]. split; [done|]. split; [done|].
    destruct (in_input s) eqn:Hin; [|done].
    exfalso. apply Hnot. exists i, s. done.
Qed.

(** X11.  The complement mode of the collectors: the references found
    for a list of names under [complement] are those of all functions
    outside the blacklist (the complement of the empty list) that the
    direct search for the same list does not find, and likewise for a
    list of addresses. *)
Theorem collect_complement_partition self sec :
  (∀ symbol_list w,
     w ∈ collect_symbols_by_name iter_symbols self sec symbol_list true ↔
     w ∈ collect_symbols_by_name iter_symbols self sec [] true
     ∧ w ∉ collect_symbols_by_name iter_symbols self sec symbol_list false)
  ∧ (∀ address_list w,
       w ∈ collect_symbols_by_address iter_symbols self sec address_list true ↔
       w ∈ collect_symbols_by_address iter_symbols self sec [] true
       ∧ w ∉ collect_symbols_by_address iter_symbols self sec address_list false).
Proof.
  split.
  - intros symbol_list w. unfold collect_symbols_by_name.
    apply (collect_complement_gen _ _ _ _ (λ w, bool_decide (sym_name w ∈ symbol_list)));
      [done|]. intros s. apply bool_decide_eq_false_2. by intros ?%elem_of_nil.
  - intros address_list w. unfold collect_symbols_by_address.
    apply (collect_complement_gen _ _ _ _ (λ w, bool_decide (sym_value w ∈ address_list)));
      [done|]. intros s. apply bool_decide_eq_false_2. by intros ?%elem_of_nil.
Qed.

End collect_and_remove.

Lemma collect_then_remove_not_stale_witness :
  ∃ self1,
    Collector.collect_symbols_in_dynsym Examples.small_iter_symbols Examples.small_lib
      (Some ["foo"%string]) None false = Py.Ok self1
    ∧ collection_dynsym self1 = [Examples.foo_ref]
    ∧ Editor.remove_symbols_from_dynsym Examples.no_offsets Examples.small_iter_symbols
        Examples.no_relocations Examples.six_chains Examples.gnu_params
        Examples.no_version_fields self1 true ≠ Py.Raise Py.StaleCollection.
Proof.
  destruct (Collector.collect_symbols_in_dynsym Examples.small_iter_symbols
              Examples.small_lib (Some ["foo"%string]) None false) as [self1|] eqn:H;
    [|vm_compute in H; discriminate H].
  exists self1. split; [reflexivity|]. split.
  - vm_compute in H. injection H as <-. reflexivity.
  - apply (proj1 (collect_then_remove_not_stale Examples.no_offsets
                    Examples.small_iter_symbols Examples.no_relocations Examples.six_chains
                    Examples.gnu_params Examples.no_version_fields Examples.small_lib
                    (Some ["foo"%string]) None false true) self1 H).
Defined.

Lemma collect_complement_partition_witness :
  mkSymbolWrapper "bar" 3 11 48 8 0
  ∈ Collector.collect_symbols_by_name Examples.small_iter_symbols Examples.small_lib
      (mkSectionWrapper 0 3 0) ["foo"%string] true.
Proof.
  apply (proj1 (collect_complement_partition Examples.small_iter_symbols Examples.small_lib
                  (mkSectionWrapper 0 3 0)) ["foo"%string]).
  split.
  - assert (E : Collector.collect_symbols_by_name Examples.small_iter_symbols
                  Examples.small_lib (mkSectionWrapper 0 3 0) [] true
                = [Examples.foo_ref; mkSymbolWrapper "bar" 3 11 48 8 0])
      by (vm_compute; reflexivity).
    rewrite E. right. left.
  - assert (E : Collector.collect_symbols_by_name Examples.small_iter_symbols
                  Examples.small_lib (mkSectionWrapper 0 3 0) ["foo"%string] false
                = [Examples.foo_ref])
      by (vm_compute; reflexivity).
    rewrite E. intros Hin. apply list_elem_of_singleton in Hin. discriminate Hin.
Defined.

(** ** The address dictionaries and the order of iteration *)

Section address_dictionaries.
Import KeepList Stats.

Lemma foldl_add_local_function_map locals : ∀ base : gmap Z Z,
  NoDup locals.*1 →
  foldl add_local_function base locals = list_to_map locals ∪ base.
Proof.
  induction locals as [|[k v] locals IH]; intros base Hnd.
  { simpl. by rewrite (left_id_L ∅ (∪)). }
  cbn [fmap list_fmap fst] in Hnd. apply NoDup_cons in Hnd as [Hk Hnd].
  cbn [foldl]. rewrite list_to_map_cons, IH by done. unfold add_local_function.
  cbn [fst snd].
  apply map_eq. intros a. rewrite !lookup_union.
  destruct (decide (k = a)) as [<-|Ha].
  - rewrite !lookup_insert_eq.
    assert (Hnone : (list_to_map locals : gmap Z Z) !! k = None).
    { by apply not_elem_of_list_to_map_1. }
    rewrite Hnone. by destruct (base !! k).
  - by rewrite !lookup_insert_ne.
Qed.

(** X12.  [get_function_addresses] does not depend on the order in which
    the set [local_functions] is iterated, as long as no two local
    functions start at the same address. *)
Theorem get_function_addresses_order collection_dynsym local_functions local_functions' :
  local_functions ≡ₚ local_functions' →
  NoDup local_functions.*1 →
  get_function_addresses collection_dynsym local_functions
  = get_function_addresses collection_dynsym local_functions'.
Proof.
  intros Hp Hnd. unfold get_function_addresses, addr_dict_of.
  assert (Hnd' : NoDup local_functions'.*1) by (by rewrite <- Hp).
  rewrite !foldl_add_local_function_map by done.
  by rewrite (list_to_map_proper _ _ Hnd Hp).
Qed.

Lemma foldr_max_init i v l : foldr Z.max (Z.max i v) l = Z.max v (foldr Z.max i l).
Proof. induction l as [|x l IH]; simpl; [lia|]. rewrite IH. lia. Qed.

Lemma fold_sizes_cons o v sizes :
  fold_sizes (Some (Z.max (default 0 o) v)) sizes = fold_sizes o (v :: sizes).
Proof.
  unfold fold_sizes. destruct sizes as [|x sizes]; cbn [default foldr id].
  - f_equal. lia.
  - f_equal. rewrite foldr_max_init. lia.
Qed.

Lemma foldl_add_local_lookup locals : ∀ (d : gmap Z Z) a,
  foldl add_local d locals !! a = fold_sizes (d !! a) (local_sizes_at a locals).
Proof.
  induction locals as [|[k v] locals IH]; intros d a; [done|].
  cbn [foldl]. rewrite IH. unfold add_local, local_sizes_at. cbn [fst snd].
  rewrite lookup_insert. case_decide as Hk.
  - subst k. rewrite filter_cons_True by done. rewrite fmap_cons. cbn [snd].
    apply fold_sizes_cons.
  - by rewrite filter_cons_False by done.
Qed.

Lemma foldl_add_global_lookup collection : ∀ (d : gmap Z Z) a,
  foldl add_global d collection !! a = fold_sizes (d !! a) (global_sizes_at a collection).
Proof.
  induction collection as [|x collection IH]; intros d a; [done|].
  cbn [foldl]. rewrite IH. unfold add_global, global_sizes_at, counted.
  destruct (Z.eqb_spec (sym_value x) 0) as [Hv|Hv];
    [destruct (Z.eqb_spec (sym_size x) 0) as [Hs|Hs]|]; cbn [andb].
  - rewrite filter_cons_False; [done|]. intros [Hc _]. by apply Hc.
  - rewrite lookup_insert. case_decide as Hk.
    + rewrite filter_cons_True by (split; [lia|done]). rewrite fmap_cons.
      rewrite Hk. apply fold_sizes_cons.
    + rewrite filter_cons_False; [done|]. intros [_ ?]. done.
  - rewrite lookup_insert. case_decide as Hk.
    + rewrite filter_cons_True by (split; [lia|done]). rewrite fmap_cons.
      rewrite Hk. apply fold_sizes_cons.
    + rewrite filter_cons_False; [done|]. intros [_ ?]. done.
Qed.

Lemma get_size_dicts_lookup self a :
  (get_size_dicts self).1 !! a = largest (global_sizes_at a (collection_dynsym self))
  ∧ (get_size_dicts self).2 !! a = largest (local_sizes_at a (local_functions self)).
Proof.
  unfold get_size_dicts. cbn [fst snd].
  rewrite foldl_add_global_lookup, foldl_add_local_lookup, lookup_empty. done.
Qed.

(** X13.  [get_size_dicts]: each dictionary holds, for an address, the
    largest of 0 and the sizes given for that address (by the collected
    references other than those with address 0 and size 0, respectively
    by the local functions), and has no entry for an address without a
    size. *)
Theorem get_size_dicts_largest self a :
  (get_size_dicts self).1 !! a = largest (global_sizes_at a (collection_dynsym self))
  ∧ (get_size_dicts self).2 !! a = largest (local_sizes_at a (local_functions self)).
Proof. apply get_size_dicts_lookup. Qed.

Lemma largest_perm sizes sizes' : sizes ≡ₚ sizes' → largest sizes = largest sizes'.
Proof.
  intros Hp. unfold largest.
  assert (Hmax : foldr Z.max 0 sizes = foldr Z.max 0 sizes').
  { clear -Hp. induction Hp as [|x l l' Hp IH|x y l|l1 l2 l3 H1 IH1 H2 IH2]; simpl;
      [done|by rewrite IH|lia|congruence]. }
  destruct sizes as [|x sizes], sizes' as [|y sizes']; [done| | |by rewrite Hmax].
  - by apply Permutation_nil_cons in Hp.
  - symmetry in Hp. by apply Permutation_nil_cons in Hp.
Qed.

(** X14.  [get_removed_bytes] does not depend on the order of the
    collection nor on the order in which the set [local_functions] is
    iterated. *)
Theorem get_removed_bytes_order self self' :
  collection_dynsym self ≡ₚ collection_dynsym self' →
  local_functions self ≡ₚ local_functions self' →
  get_removed_bytes self = get_removed_bytes self'.
Proof.
  intros Hc Hl. unfold get_removed_bytes.
  assert (Hg : (get_size_dicts self).1 = (get_size_dicts self').1).
  { apply map_eq. intros a.
    rewrite (proj1 (get_size_dicts_lookup self a)), (proj1 (get_size_dicts_lookup self' a)).
    apply largest_perm. unfold global_sizes_at. by rewrite Hc. }
  assert (Hlo : (get_size_dicts self).2 = (get_size_dicts self').2).
  { apply map_eq. intros a.
    rewrite (proj2 (get_size_dicts_lookup self a)), (proj2 (get_size_dicts_lookup self' a)).
    apply largest_perm. unfold local_sizes_at. by rewrite Hl. }
  destruct (get_size_dicts self) as [g l], (get_size_dicts self') as [g' l'].
  cbn [fst snd] in Hg, Hlo. by subst.
Qed.

End address_dictionaries.

Lemma get_function_addresses_order_witness :
  KeepList.get_function_addresses [Examples.foo_ref] [(100, 5); (200, 7)]
  = KeepList.get_function_addresses [Examples.foo_ref] [(200, 7); (100, 5)].
Proof.
  apply (get_function_addresses_order [Examples.foo_ref] [(100, 5); (200, 7)]
           [(200, 7); (100, 5)]).
  - apply Permutation_swap.
  - apply (bool_decide_eq_true_1 (NoDup _)). vm_compute. reflexivity.
Defined.

Lemma get_removed_bytes_order_witness :
  Stats.get_removed_bytes
    (set_collection_dynsym [Examples.foo_ref; Examples.bar_ref] Examples.local_lib)
  = Stats.get_removed_bytes
      (set_collection_dynsym [Examples.bar_ref; Examples.foo_ref] Examples.local_lib).
Proof.
  apply (get_removed_bytes_order
           (set_collection_dynsym [Examples.foo_ref; Examples.bar_ref] Examples.local_lib)
           (set_collection_dynsym [Examples.bar_ref; Examples.foo_ref] Examples.local_lib)).
  - apply Permutation_swap.
  - reflexivity.
Defined.

(** ** [fixup_function_ranges] *)

Section fixup.
Import KeepList Stats.

Lemma fix_size_spec ranges symbol :
  sym_name (fix_size ranges symbol) = sym_name symbol
  ∧ sym_index (fix_size ranges symbol) = sym_index symbol
  ∧ sym_name_offset (fix_size ranges symbol) = sym_name_offset symbol
  ∧ sym_value (fix_size ranges symbol) = sym_value symbol
  ∧ sym_sec_version (fix_size ranges symbol) = sym_sec_version symbol
  ∧ sym_size (fix_size ranges symbol)
    = default (sym_size symbol) (ranges !! sym_value symbol).
Proof.
  unfold fix_size. destruct (ranges !! sym_value symbol) as [new_size|]; [|done].
  destruct (Z.eqb_spec new_size (sym_size symbol)) as [->|]; done.
Qed.

(** X15.  [fixup_function_ranges] changes nothing but sizes: the
    collection keeps its length and order and every reference its name,
    index, name offset, address and version, so that it is exactly as
    current as before; the size of a reference whose address is a key of
    [ranges] is the size found there, and afterwards every gap that
    [get_function_addresses] reports for such an address has that size,
    unless a local function starts at the same address. *)
Theorem fixup_function_ranges_sizes self ranges :
  let self' := fixup_function_ranges self ranges in
  length (collection_dynsym self') = length (collection_dynsym self)
  ∧ (∀ i x, collection_dynsym self !! i = Some x →
       ∃ x', collection_dynsym self' !! i = Some x'
         ∧ sym_name x' = sym_name x ∧ sym_index x' = sym_index x
         ∧ sym_name_offset x' = sym_name_offset x ∧ sym_value x' = sym_value x
         ∧ sym_sec_version x' = sym_sec_version x
         ∧ sym_size x' = default (sym_size x) (ranges !! sym_value x))
  ∧ (∀ a new_size sz,
       ranges !! a = Some new_size →
       (a, sz) ∈ get_function_addresses (collection_dynsym self') (local_functions self') →
       a ∉ (local_functions self).*1 →
       sz = new_size).
Proof.
  intros self'. subst self'. unfold fixup_function_ranges.
  cbn [collection_dynsym local_functions set_collection_dynsym].
  split; [by rewrite length_fmap|]. split.
  - intros i x Hi. exists (fix_size ranges x). rewrite list_lookup_fmap, Hi.
    split; [done|]. pose proof (fix_size_spec ranges x). tauto.
  - intros a new_size sz Hr Hin Hloc.
    apply get_function_addresses_origin in Hin as [(ent & Hent & Ha & Hs)|Hl].
    + apply list_elem_of_fmap in Hent as (x & -> & Hx).
      destruct (fix_size_spec ranges x) as (_ & _ & _ & Hv & _ & Hsz).
      rewrite Hv in Ha. rewrite Hsz, Ha, Hr in Hs. done.
    + exfalso. apply Hloc. apply list_elem_of_fmap. by exists (a, sz).
Qed.

End fixup.

Lemma fixup_function_ranges_sizes_witness :
  (32, 20) ∈ KeepList.get_function_addresses
               (collection_dynsym
                  (Stats.fixup_function_ranges
                     (set_collection_dynsym [Examples.foo_ref] Examples.small_lib)
                     {[32 := 20]}))
               []
  ∧ sym_size Examples.foo_ref = 8
  ∧ 20 = 20.
Proof.
  split; [|split].
  - vm_compute. apply list_elem_of_here.
  - reflexivity.
  - apply (proj2 (proj2 (fixup_function_ranges_sizes
                           (set_collection_dynsym [Examples.foo_ref] Examples.small_lib)
                           {[32 := 20]})) 32 20 20).
    + reflexivity.
    + vm_compute. apply list_elem_of_here.
    + intros H. apply elem_of_nil in H. exact H.
Defined.
(** ** The table that [remove_from_section] writes *)

Section table_rewrite.
Import Tables Frames Editor.
Variable address_offsets : Z → list Z.
Variable iter_symbols : list byte → Section → list Symbol.
Variable iter_relocations : list byte → Section → list Reloc.
Variable ELFHashTable_nchains : list byte → Z → Z.
Variable GNUHashTable_params : list byte → Z → Z * Z * Z * list Z.
Variable version_name_fields : list byte → list (Z * Z).

Lemma slices_exact (k : nat) : ∀ fuel n bytes,
  (0 < n)%nat → length bytes = (k * n)%nat → (k ≤ fuel)%nat →
  Forall (λ e, length e = n) (slices fuel n bytes)
  ∧ concat (slices fuel n bytes) = bytes
  ∧ length (slices fuel n bytes) = k.
Proof.
  induction k as [|k IH]; intros fuel n bytes Hn Hlen Hfuel.
  - destruct bytes; [|done]. by destruct fuel.
  - destruct fuel as [|fuel]; [lia|].
    destruct bytes as [|b bytes]; [simpl in Hlen; lia|].
    change (slices (S fuel) n (b :: bytes))
      with (take n (b :: bytes) :: slices fuel n (drop n (b :: bytes))).
    set (l := b :: bytes) in *. clearbody l.
    destruct (IH fuel n (drop n l)) as (H1 & H2 & H3); [done| |lia|].
    { rewrite length_drop. lia. }
    split; [|split].
    + constructor; [|done]. rewrite length_take. lia.
    + cbn [concat]. rewrite H2. apply take_drop.
    + cbn [length]. by rewrite H3.
Qed.

Lemma slices_concat (l : list (list byte)) : ∀ fuel n,
  (0 < n)%nat → Forall (λ e, length e = n) l → (length l ≤ fuel)%nat →
  slices fuel n (concat l) = l.
Proof.
  induction l as [|e l IH]; intros fuel n Hn Hall Hfuel.
  - by destruct fuel.
  - apply Forall_cons in Hall as [He Hall].
    destruct fuel as [|fuel]; [simpl in Hfuel; lia|].
    cbn [concat slices]. destruct (e ++ concat l) as [|b t] eqn:E.
    { apply (f_equal length) in E. rewrite length_app in E. simpl in E. lia. }
    rewrite <- E. rewrite take_app_length' by done. rewrite drop_app_length' by done.
    f_equal. apply IH; [done..|]. simpl in Hfuel. lia.
Qed.

Lemma without_indices_Forall {A} (P : A → Prop) (l : list A) : ∀ k indices,
  Forall P l → Forall P (without_indices k indices l).
Proof.
  induction l as [|x l IH]; intros k indices Hall; [done|].
  apply Forall_cons in Hall as [Hx Hall]. cbn [without_indices].
  apply Forall_app. split; [|by apply IH]. by case_bool_decide; repeat constructor.
Qed.

Lemma without_indices_ext {A} (l : list A) : ∀ k indices indices',
  (∀ j, j ∈ indices ↔ j ∈ indices') →
  without_indices k indices l = without_indices k indices' l.
Proof.
  induction l as [|x l IH]; intros k indices indices' Hsame; [done|].
  cbn [without_indices]. rewrite (IH (k + 1) indices indices') by done.
  f_equal. specialize (Hsame k). do 2 case_bool_decide; try done; exfalso; tauto.
Qed.

Lemma remove_loop_pops sec overwrite l : ∀ entries f entries' f',
  index sec ≠ -1 →
  Py.for_each (remove_entry sec overwrite) l (entries, f) = Py.Ok (entries', f') →
  Py.for_each (λ acc s, Py.pop acc (sym_index s)) l entries = Py.Ok entries'.
Proof.
  induction l as [|x l IH]; intros entries f entries' f' Hidx H.
  { by injection H as <- <-. }
  cbn [Py.for_each] in H |- *. apply bind_Ok in H as ([entries1 f1] & H1 & H).
  unfold remove_entry in H1. destruct (negb (_ =? version sec)); [done|].
  destruct (Z.eqb_spec (index sec) (-1)); [done|]. cbn [negb] in H1.
  apply bind_Ok in H1 as (entries2 & Hpop & H1).
  apply bind_Ok in H1 as (f2 & _ & H1). injection H1 as <- <-.
  rewrite Hpop. cbn [Py.bind]. by eapply IH.
Qed.

Lemma sorted_strictly_descending (l : list SymbolWrapper) :
  NoDup (sym_index <$> l) →
  StronglySorted (λ a b, sym_index b < sym_index a)
    (Py.sorted (λ a b, sym_index b <=? sym_index a) l).
Proof.
  intros Hnd.
  assert (Hnd' : NoDup (sym_index <$> Py.sorted (λ a b, sym_index b <=? sym_index a) l)).
  { assert (Hp : sym_index <$> Py.sorted (λ a b, sym_index b <=? sym_index a) l
                 ≡ₚ sym_index <$> l) by apply fmap_Permutation, sorted_perm.
    by rewrite Hp. }
  pose proof (sorted_descending l) as H.
  induction H as [|x l' Hl IH Hx]; [constructor|].
  cbn [fmap list_fmap] in Hnd'. apply NoDup_cons in Hnd' as [Hnotin Hnd'].
  constructor; [by apply IH|].
  rewrite Forall_forall in Hx |- *. intros y Hy. specialize (Hx y Hy).
  assert (sym_index y ≠ sym_index x); [|lia].
  intros Heq. apply Hnotin. rewrite <- Heq. by apply list_elem_of_fmap_2.
Qed.

(** X16.  The table after a batch.  For a table with a section header
    that is not named [.dynsym], in a file without [.rel.dyn], whose
    [sh_size] is [n] whole entries that lie inside the file: when
    [remove_from_section] succeeds for references with distinct indices
    below [n], the entries of the table are afterwards the old entries
    without those at the indices of the collection, in their old order,
    and the room they leave at the end of the old table is filled with
    zero bytes. *)
Theorem remove_from_section_table self sec collection overwrite self' removed (n : nat) :
  let hdr := header (objs self (section sec)) in
  index sec ≠ -1 →
  sec_name (objs self (section sec)) ≠ ".dynsym"%string →
  _rel_dyn self = None →
  0 ≤ sh_offset hdr →
  0 < sh_entsize hdr →
  sh_size hdr = Z.of_nat n * sh_entsize hdr →
  sh_offset hdr + sh_size hdr ≤ Z.of_nat (length (_f self)) →
  NoDup (sym_index <$> collection) →
  (∀ s, s ∈ collection → 0 ≤ sym_index s < Z.of_nat n) →
  remove_from_section address_offsets iter_symbols iter_relocations ELFHashTable_nchains
    GNUHashTable_params version_name_fields self (Some sec) collection overwrite
  = Py.Ok (self', removed) →
  table_entries self' sec
  = without_indices 0 (sym_index <$> collection) (table_entries self sec)
  ∧ File.read (_f self') (sh_offset hdr + sh_size hdr - removed * sh_entsize hdr)
      (removed * sh_entsize hdr)
    = Py.Ok (replicate (Z.to_nat (removed * sh_entsize hdr)) x00).
Proof.
  intros hdr Hidx Hname Hrel Hoff Hent Hsize Hfile Hnd Hrange H.
  unfold remove_from_section in H.
  destruct collection as [|s0 collection].
  { injection H as <- <-. split.
    - symmetry. apply without_indices_below. intros j Hj. by apply elem_of_nil in Hj.
    - unfold File.read. destruct (Z.ltb_spec (sh_offset hdr + sh_size hdr - 0 * sh_entsize hdr) 0);
        [lia|]. done. }
  set (coll := s0 :: collection) in *.
  set (sorted_list := Py.sorted (λ a b, sym_index b <=? sym_index a) coll) in *.
  assert (Hperm : sorted_list ≡ₚ coll) by apply sorted_perm.
  assert (Hlen : length sorted_list = length coll) by by apply Permutation_length.
  cbv zeta in H. fold hdr in H.
  destruct (Z.eqb_spec (sh_entsize hdr) 0); [lia|].
  destruct (Z.eqb_spec (index sec) (-1)); [done|]. cbn [negb] in H.
  apply bind_Ok in H as (entries0 & H0 & H).
  apply bind_Ok in H0 as (section_bytes & Hread & H0). injection H0 as <-.
  apply bind_Ok in H as ([entries f] & Hloop & H).
  apply bind_Ok in H as (f' & Hwrite & H).
  apply bind_Ok in H as (self1 & H1 & H).
  apply bind_Ok in H as (self2 & H2 & H).
  apply bind_Ok in H as (self3 & H3 & H).
  injection H as <- <-.
  (* the table as it was read *)
  assert (Hbytes : length section_bytes = (n * Z.to_nat (sh_entsize hdr))%nat).
  { unfold File.read in Hread. destruct (Z.ltb_spec (sh_offset hdr) 0); [lia|].
    destruct (Z.ltb_spec (sh_size hdr) 0); [nia|]. injection Hread as <-.
    rewrite length_take, length_drop. nia. }
  assert (Hold : table_entries self sec = split_entries section_bytes (sh_entsize hdr)).
  { unfold table_entries. fold hdr. by rewrite Hread. }
  unfold split_entries in Hold, Hloop.
  destruct (Z.leb_spec (sh_entsize hdr) 0); [lia|].
  destruct (slices_exact n (length section_bytes) (Z.to_nat (sh_entsize hdr)) section_bytes)
    as (Hall & _ & Hn); [lia|done|nia|].
  rewrite <- Hold in Hall, Hn, Hloop.
  (* the loop *)
  pose proof (remove_loop_file _ _ _ _ _ _ _ Hloop) as (Hflen & _ & _ & Hsame & _).
  apply remove_loop_pops in Hloop; [|done].
  pose proof (pops_length _ _ _ _ Hloop) as Hplen.
  rewrite pops_descending in Hloop.
  2:{ apply sorted_strictly_descending. exact Hnd. }
  2:{ intros s Hs. rewrite Hn. apply Hrange. by rewrite <- Hperm. }
  injection Hloop as <-.
  assert (Hext : without_indices 0 (sym_index <$> sorted_list) (table_entries self sec)
                 = without_indices 0 (sym_index <$> coll) (table_entries self sec)).
  { apply without_indices_ext. intros j. by rewrite Hperm. }
  rewrite Hext in *. clear Hext.
  set (entries := without_indices 0 (sym_index <$> coll) (table_entries self sec)) in *.
  assert (Hall' : Forall (λ e, length e = Z.to_nat (sh_entsize hdr)) entries).
  { by apply without_indices_Forall. }
  assert (Hclen : Z.of_nat (length (concat entries))
                  = sh_entsize hdr * Z.of_nat (length entries)).
  { apply concat_length_uniform. eapply Forall_impl; [exact Hall'|].
    intros e He. cbn beta in He. lia. }
  set (removed := Z.of_nat (length sorted_list)) in *.
  assert (Hrem : Z.of_nat (length entries) = Z.of_nat n - removed).
  { unfold removed. lia. }
  (* the section objects and the file at the end *)
  unfold cascade in H3.
  assert (Hf1 : _f self1 = f').
  { by rewrite (set_section_attribute_f _ _ _ _ _ _ H1). }
  unfold _fix_sh_info in H2. apply bind_Ok in H2 as (first & _ & H2).
  assert (Hf2 : _f self2 = f').
  { by rewrite (set_section_attribute_f _ _ _ _ _ _ H2). }
  pose proof (set_section_attribute_header _ _ _ _ _ _ H1) as E1.
  pose proof (set_section_attribute_header _ _ _ _ _ _ H2) as E2.
  apply set_section_attribute_touches in H1 as [W1 _].
  apply set_section_attribute_touches in H2 as [W2 _].
  assert (Hrel2 : _rel_dyn self2 = None).
  { rewrite <- Hrel. unfold wrappers in W1, W2. cbn [set_f] in W1.
    injection W1 as ?. injection W2 as ?. congruence. }
  destruct (Z.eqb_spec (index sec) (-1)); [done|]. cbv zeta in E1, E2.
  assert (Hobj : objs self2 (section sec)
                 = mkSection (sec_name (objs self (section sec)))
                     (mkHeader (sh_offset hdr) (sh_size hdr - removed * sh_entsize hdr)
                        (sh_entsize hdr) first)
                     (_size (objs self (section sec))) (is_RELA (objs self (section sec)))).
  { rewrite E2, E1. cbn [objs set_f]. done. }
  rewrite Hrel2 in H3. cbn [section] in H3.
  unfold Relocs._batch_remove_relocs in H3. cbn [Py.bind] in H3.
  rewrite Hobj in H3. cbn [sec_name] in H3.
  destruct (String.eqb_spec (sec_name (objs self (section sec))) ".dynsym"); [done|].
  injection H3 as <-.
  (* what the last write leaves *)
  set (data := concat entries ++ replicate (Z.to_nat (sh_entsize hdr * removed)) x00) in *.
  assert (Hdata : Z.of_nat (length data) = sh_size hdr).
  { unfold data. rewrite length_app, length_replicate. nia. }
  apply write_lookup in Hwrite as Hl. destruct Hl as [_ Hl].
  split.
  - unfold table_entries. rewrite Hobj, Hf2. cbn [header sh_offset sh_size sh_entsize].
    replace (File.read f' (sh_offset hdr) (sh_size hdr - removed * sh_entsize hdr))
      with (Py.Ok (A:=list byte) (concat entries)).
    + unfold split_entries. destruct (Z.leb_spec (sh_entsize hdr) 0); [lia|].
      apply slices_concat; [lia|done|].
      assert (length entries ≤ length (concat entries))%nat; [|done]. nia.
    + symmetry. replace (sh_size hdr - removed * sh_entsize hdr)
        with (Z.of_nat (length (concat entries))) by nia.
      apply read_from_lookup; [done|]. intros i Hi.
      rewrite Hl, decide_True.
      * replace (Z.to_nat (sh_offset hdr) + i - Z.to_nat (sh_offset hdr))%nat with i by lia.
        unfold data. by rewrite lookup_app_l.
      * lia.
  - rewrite Hf2.
    replace (removed * sh_entsize hdr)
      with (Z.of_nat (length (replicate (Z.to_nat (removed * sh_entsize hdr)) x00))) at 2
      by (rewrite length_replicate; nia).
    apply read_from_lookup; [nia|]. intros i Hi. rewrite length_replicate in Hi.
    rewrite Hl, decide_True by nia.
    unfold data. rewrite lookup_app_r by nia.
    rewrite !lookup_replicate_2; [done|nia|nia].
Qed.

End table_rewrite.

Lemma remove_from_section_table_witness :
  ∃ self' removed,
    Editor.remove_from_section Examples.no_offsets Examples.small_iter_symbols
      Examples.no_relocations Examples.six_chains Examples.gnu_params
      Examples.no_version_fields Examples.small_lib (Some (mkSectionWrapper 1 7 0))
      [Examples.foo_ref] false = Py.Ok (self', removed)
    ∧ Editor.table_entries self' (mkSectionWrapper 1 7 0)
      = Tables.without_indices 0 [2]
          (Editor.table_entries Examples.small_lib (mkSectionWrapper 1 7 0)).
Proof.
  destruct (Editor.remove_from_section Examples.no_offsets Examples.small_iter_symbols
              Examples.no_relocations Examples.six_chains Examples.gnu_params
              Examples.no_version_fields Examples.small_lib (Some (mkSectionWrapper 1 7 0))
              [Examples.foo_ref] false) as [[self' r]|] eqn:H;
    [|vm_compute in H; discriminate H].
  destruct (remove_from_section_table Examples.no_offsets Examples.small_iter_symbols
              Examples.no_relocations Examples.six_chains Examples.gnu_params
              Examples.no_version_fields Examples.small_lib (mkSectionWrapper 1 7 0)
              [Examples.foo_ref] false self' r 5) as (Htable & _).
  - discriminate.
  - discriminate.
  - reflexivity.
  - discriminate.
  - reflexivity.
  - reflexivity.
  - discriminate.
  - apply (bool_decide_eq_true_1 (NoDup _)). vm_compute. reflexivity.
  - intros s Hs. apply list_elem_of_singleton in Hs as ->. split; [discriminate|reflexivity].
  - exact H.
  - exists self', r. split; [reflexivity|]. exact Htable.
Defined.

(** ** The strings that [_build_new_dynstr] copies *)

Section cstrings.
Import Dynstr.

Lemma cstring_len_range (l : list byte) : ∀ n,
  cstring_len l = Some n → 0 ≤ n < Z.of_nat (length l).
Proof.
  induction l as [|b l IH]; intros n H; [done|]. simpl in H.
  destruct (Byte.eqb b x00).
  - injection H as <-. simpl. lia.
  - destruct (cstring_len l) as [m|]; [|done]. injection H as <-.
    specialize (IH m eq_refl). simpl. lia.
Qed.

Lemma cstring_len_drop (l : list byte) : ∀ n (d : nat),
  cstring_len l = Some n → Z.of_nat d ≤ n →
  cstring_len (drop d l) = Some (n - Z.of_nat d).
Proof.
  induction l as [|b l IH]; intros n d H Hd; [done|].
  destruct d as [|d].
  { rewrite drop_0, H. f_equal. lia. }
  simpl in H. destruct (Byte.eqb b x00).
  - injection H as <-. lia.
  - destruct (cstring_len l) as [m|] eqn:E; [|done]. injection H as <-.
    cbn [drop]. rewrite (IH m d); [f_equal; lia|done|lia].
Qed.

Lemma cstring_len_prefix (l : list byte) : ∀ n l',
  cstring_len l = Some n →
  take (Z.to_nat (n + 1)) l' = take (Z.to_nat (n + 1)) l →
  cstring_len l' = Some n.
Proof.
  induction l as [|b l IH]; intros n l' H Ht; [done|].
  pose proof (cstring_len_range _ _ H) as Hn.
  replace (Z.to_nat (n + 1)) with (S (Z.to_nat n)) in Ht by lia.
  destruct l' as [|b' l']; [done|]. cbn [take] in Ht. injection Ht as -> Ht.
  simpl in H |- *. destruct (Byte.eqb b x00); [done|].
  destruct (cstring_len l) as [m|] eqn:E; [|done]. injection H as <-.
  pose proof (cstring_len_range _ _ E) as Hm.
  rewrite (IH m l'); [done|done|].
  replace (Z.to_nat (m + 1)) with (Z.to_nat (Z.succ m)) by lia. exact Ht.
Qed.

Lemma cstring_len_0_head (l : list byte) :
  cstring_len l = Some 0 → take 1 l = [x00].
Proof.
  destruct l as [|b l]; [done|]. simpl.
  destruct (Byte.eqb b x00) eqn:E.
  - intros _. apply Byte.byte_dec_bl in E. by rewrite E, take_0.
  - destruct (cstring_len l) as [m|] eqn:El; [|done]. intros [= H].
    pose proof (cstring_len_range _ _ El). lia.
Qed.

End cstrings.

Section layout_content.
Import Dynstr StringTable.
Variables (f : list byte) (base : Z) (sorted : list (Z * Z)).
Hypothesis sorted_le : StronglySorted (λ p q, Py.pair_le p q = true) sorted.
Hypothesis sorted_nodup : NoDup sorted.
Hypothesis first_empty : sorted !! 0%nat = Some (0, 0).
Hypothesis strings : ∀ r, r ∈ sorted →
  0 ≤ base + r.1 ∧ cstring_len (drop (Z.to_nat (base + r.1)) f) = Some (r.2 - r.1).

Lemma starts_ascending j k p q :
  (j < k)%nat → sorted !! j = Some p → sorted !! k = Some q → p.1 < q.1.
Proof.
  intros Hjk Hp Hq.
  pose proof (StronglySorted_lookup_lt _ sorted j k p q sorted_le Hjk Hp Hq) as Hle.
  apply pair_le_spec in Hle as [Hlt|[Heq Hle]]; [done|]. exfalso.
  destruct (strings p) as [_ Sp]; [by eapply list_elem_of_lookup_2|].
  destruct (strings q) as [_ Sq]; [by eapply list_elem_of_lookup_2|].
  rewrite Heq in Sp. rewrite Sp in Sq. injection Sq as Hlen.
  assert (p = q) as ->.
  { destruct p, q; simpl in *. f_equal; lia. }
  assert (j = k); [|lia]. eapply NoDup_lookup; [exact sorted_nodup|exact Hp|exact Hq].
Qed.

Lemma content_inv_init :
  content_inv f base sorted 0 (layout_init (0, 0)).
Proof.
  exists 0, 0. cbn [layout_init index_map out_bytes last_start last_end fst snd].
  split; [done|]. split; [by rewrite lookup_singleton_eq|]. split; [lia|].
  split; [done|]. split.
  - intros s' Hs'. exists 0%nat, (0, 0). split; [lia|]. split; [done|].
    destruct (decide (0 = s')) as [|Hne]; [done|].
    rewrite lookup_singleton_ne in Hs' by done. by destruct Hs'.
  - intros j sj ej Hj Hlook. assert (j = 0%nat) as -> by lia.
    rewrite first_empty in Hlook. injection Hlook as <- <-.
    exists 0. split; [by rewrite lookup_singleton_eq|]. split; [lia|].
    split; [simpl; lia|].
    destruct (strings (0, 0)) as [_ S0]; [by eapply list_elem_of_lookup_2|].
    cbn [fst snd] in S0. rewrite Z.add_0_r in *. rewrite Z.sub_diag in S0.
    apply cstring_len_0_head in S0. rewrite Z.sub_diag, Z.add_0_l.
    change (Z.to_nat 1) with 1%nat. rewrite S0. done.
Qed.

Lemma content_inv_step k st s e :
  content_inv f base sorted k st →
  sorted !! S k = Some (s, e) →
  ∃ st', layout_step f base sorted st (k, (s, e)) = Py.Ok st'
         ∧ content_inv f base sorted (S k) st'.
Proof.
  intros (ps & pe & Hk & Hlast & Hend & Hlen & Hdom & Hcont) HSk.
  pose proof (starts_ascending k (S k) (ps, pe) (s, e) ltac:(lia) Hk HSk) as Hasc.
  cbn [fst] in Hasc.
  destruct (strings (ps, pe)) as [Pp Sp]; [by eapply list_elem_of_lookup_2|].
  destruct (strings (s, e)) as [Ps Ss]; [by eapply list_elem_of_lookup_2|].
  cbn [fst snd] in Pp, Sp, Ps, Ss.
  pose proof (cstring_len_range _ _ Sp) as Rp.
  pose proof (cstring_len_range _ _ Ss) as Rs.
  rewrite length_drop in Rp, Rs.
  destruct (Hcont k ps pe ltac:(lia) Hk) as (tp & Htp & Htp0 & Htplen & Htpc).
  rewrite Hlast in Htp. injection Htp as <-.
  assert (Hnew : index_map st !! s = None).
  { destruct (index_map st !! s) as [t|] eqn:E; [|done]. exfalso.
    destruct (Hdom s ltac:(by eexists)) as (j & p & Hj & Hp & Hps).
    destruct (decide (j = k)) as [->|Hne].
    - rewrite Hk in Hp. injection Hp as <-. simpl in Hps. lia.
    - pose proof (starts_ascending j k p (ps, pe) ltac:(lia) Hp Hk) as H1.
      simpl in H1. lia. }
  assert (Hold : ∀ j sj ej, (j ≤ k)%nat → sorted !! j = Some (sj, ej) → sj ≠ s).
  { intros j sj ej Hj Hp.
    pose proof (starts_ascending j (S k) (sj, ej) (s, e) ltac:(lia) Hp HSk) as H1.
    simpl in H1. lia. }
  unfold layout_step. rewrite bool_decide_eq_false_2.
  2:{ rewrite Hnew. by intros [? ?]. }
  rewrite Hk. cbn [Py.of_option Py.bind].
  destruct (Z.ltb_spec s pe) as [Hlt|Hge].
  - (* the string is the end of the one before *)
    assert (He : e = pe).
    { pose proof (cstring_len_drop _ _ (Z.to_nat (s - ps)) Sp ltac:(lia)) as Hd.
      rewrite drop_drop in Hd.
      replace (Z.to_nat (base + ps) + Z.to_nat (s - ps))%nat with (Z.to_nat (base + s))
        in Hd by lia.
      rewrite Ss in Hd. injection Hd as Hd. lia. }
    subst e. rewrite Z.eqb_refl. cbn [negb].
    eexists. split; [reflexivity|].
    exists s, pe. cbn [index_map out_bytes last_start last_end].
    split; [done|]. split; [by rewrite lookup_insert_eq|]. split; [lia|].
    split; [done|]. split.
    + intros s' Hs'. destruct (decide (s' = s)) as [->|Hne].
      * exists (S k), (s, pe). done.
      * rewrite lookup_insert_ne in Hs' by done.
        destruct (Hdom s' Hs') as (j & p & Hj & Hp & Hps). exists j, p.
        split; [lia|done].
    + intros j sj ej Hj Hp. destruct (decide (j = S k)) as [->|Hne].
      * rewrite HSk in Hp. injection Hp as <- <-.
        exists (last_start st + (s - ps)). split; [by rewrite lookup_insert_eq|].
        split; [lia|]. split; [lia|].
        apply (f_equal (drop (Z.to_nat (s - ps)))) in Htpc.
        rewrite !skipn_firstn_comm, !drop_drop in Htpc.
        replace (Z.to_nat (pe - ps + 1) - Z.to_nat (s - ps))%nat
          with (Z.to_nat (pe - s + 1)) in Htpc by lia.
        replace (Z.to_nat (last_start st) + Z.to_nat (s - ps))%nat
          with (Z.to_nat (last_start st + (s - ps))) in Htpc by lia.
        replace (Z.to_nat (base + ps) + Z.to_nat (s - ps))%nat
          with (Z.to_nat (base + s)) in Htpc by lia.
        exact Htpc.
      * destruct (Hcont j sj ej ltac:(lia) Hp) as (t & Ht & Ht0 & Htlen & Htc).
        exists t. rewrite lookup_insert_ne by (symmetry; by eapply Hold; [|exact Hp]; lia).
        done.
  - (* the string is copied to the end *)
    unfold File.read. destruct (Z.ltb_spec (base + s) 0); [lia|].
    destruct (Z.ltb_spec (e - s + 1) 0); [lia|]. cbn [Py.bind].
    eexists. split; [reflexivity|].
    set (data := take (Z.to_nat (e - s + 1)) (drop (Z.to_nat (base + s)) f)).
    assert (Hdata : Z.of_nat (length data) = e - s + 1).
    { unfold data. rewrite length_take, length_drop. lia. }
    exists s, e. cbn [index_map out_bytes last_start last_end].
    split; [done|]. split; [by rewrite lookup_insert_eq|]. split; [lia|].
    split; [rewrite length_app; lia|]. split.
    + intros s' Hs'. destruct (decide (s' = s)) as [->|Hne].
      * exists (S k), (s, e). done.
      * rewrite lookup_insert_ne in Hs' by done.
        destruct (Hdom s' Hs') as (j & p & Hj & Hp & Hps). exists j, p.
        split; [lia|done].
    + intros j sj ej Hj Hp. destruct (decide (j = S k)) as [->|Hne].
      * rewrite HSk in Hp. injection Hp as <- <-.
        exists (last_end st + 1). split; [by rewrite lookup_insert_eq|].
        split; [lia|]. split; [rewrite length_app; lia|].
        replace (Z.to_nat (last_end st + 1)) with (length (out_bytes st)) by lia.
        rewrite drop_app_length. fold data. apply take_ge. lia.
      * destruct (Hcont j sj ej ltac:(lia) Hp) as (t & Ht & Ht0 & Htlen & Htc).
        exists t. rewrite lookup_insert_ne by (symmetry; by eapply Hold; [|exact Hp]; lia).
        split; [done|]. split; [done|]. split; [rewrite length_app; lia|].
        destruct (strings (sj, ej)) as [_ Sj]; [by eapply list_elem_of_lookup_2|].
        apply cstring_len_range in Sj. cbn [fst snd] in Sj.
        rewrite <- Htc. rewrite drop_app_le by lia.
        rewrite take_app_le; [done|]. rewrite length_drop. lia.
Qed.

Lemma layout_after_content n :
  (n < length sorted)%nat →
  ∃ st, layout_after f base sorted n = Py.Ok st ∧ content_inv f base sorted n st.
Proof.
  induction n as [|n IH]; intros Hn.
  - exists (layout_init (0, 0)). split; [|apply content_inv_init].
    unfold layout_after. by rewrite first_empty.
  - destruct (lookup_lt_is_Some_2 sorted (S n) Hn) as [[s e] Hq].
    destruct IH as (st & Hst & Hinv); [lia|].
    destruct (content_inv_step n st s e Hinv Hq) as (st' & Hstep & Hinv').
    exists st'. split; [|done].
    by rewrite (layout_after_S f base sorted n (s, e) Hq), Hst.
Qed.

Lemma content_string st n s e :
  content_inv f base sorted n st → (s, e) ∈ sorted → (length sorted ≤ S n)%nat →
  ∃ t, index_map st !! s = Some t
       ∧ string_at (out_bytes st) t = string_at f (base + s)
       ∧ string_at f (base + s)
         = Some (take (Z.to_nat (e - s)) (drop (Z.to_nat (base + s)) f)).
Proof.
  intros (_ & _ & _ & _ & _ & _ & _ & Hcont) Hin Hn.
  apply list_elem_of_lookup in Hin as [j Hj].
  pose proof (lookup_lt_Some _ _ _ Hj) as Hjn.
  destruct (Hcont j s e ltac:(lia) Hj) as (t & Ht & Ht0 & Htlen & Htc).
  destruct (strings (s, e)) as [Ps Ss]; [by eapply list_elem_of_lookup_2|].
  cbn [fst snd] in Ps, Ss.
  pose proof (cstring_len_range _ _ Ss) as Rs.
  exists t. split; [done|].
  assert (Hf : string_at f (base + s)
               = Some (take (Z.to_nat (e - s)) (drop (Z.to_nat (base + s)) f))).
  { unfold string_at. destruct (Z.ltb_spec (base + s) 0); [lia|]. by rewrite Ss. }
  split; [|done]. rewrite Hf.
  unfold string_at. destruct (Z.ltb_spec t 0); [lia|].
  rewrite (cstring_len_prefix _ _ _ Ss Htc). cbn [mbind option_bind]. f_equal.
  apply (f_equal (take (Z.to_nat (e - s)))) in Htc.
  rewrite !take_take in Htc.
  replace (Z.to_nat (e - s) `min` Z.to_nat (e - s + 1))%nat with (Z.to_nat (e - s))
    in Htc by lia.
  exact Htc.
Qed.

End layout_content.

Section build_new_dynstr_content.
Import Dynstr StringTable.

Lemma elem_of_sorted_ranges ranges r :
  r ∈ sorted_ranges ranges ↔ is_Some (ranges !! r).
Proof.
  unfold sorted_ranges. rewrite (sorted_perm Py.pair_le). rewrite list_elem_of_fmap. split.
  - intros ([k v] & -> & Hin). apply elem_of_map_to_list in Hin. by exists v.
  - intros [v Hv]. exists (r, v). split; [done|]. by apply elem_of_map_to_list.
Qed.

(** X17.  [_build_new_dynstr] keeps the strings that are still in use.
    If, after the names of the removed symbols are released, the empty
    string at index 0 is still in [_dynstr_ranges] and every range there
    is the range [_get_string_range] finds for its start, then a
    successful call maps the start of every remaining range to an index
    of the new table at which the same string stands as at the old index
    in the old table. *)
Theorem build_new_dynstr_keeps_strings self removed_symbols dynstr self' out imap :
  _dynstr self = Some dynstr →
  _build_new_dynstr self removed_symbols = Py.Ok (self', Some (out, imap)) →
  let base := sh_offset (header (objs self (section dynstr))) in
  is_Some (_dynstr_ranges self' !! (0, 0)) →
  (∀ r, is_Some (_dynstr_ranges self' !! r) →
        0 ≤ r.1 ∧ _get_string_range self' r.1 = Py.Ok r) →
  ∀ s e, is_Some (_dynstr_ranges self' !! (s, e)) →
    ∃ t name,
      imap !! s = Some t
      ∧ string_at (_f self) (base + s) = Some name
      ∧ string_at out t = Some name.
Proof.
  intros Hsec H base Hzero Hranges s e Hse.
  unfold _build_new_dynstr in H. rewrite Hsec in H. fold base in H.
  apply bind_Ok in H as (self1 & Hrel & H).
  apply bind_Ok in H as (st & Hst & H). injection H as <- <- <-.
  apply release_names_frame in Hrel as (Ef & Eo & Ed).
  set (sorted := sorted_ranges (_dynstr_ranges self1)) in *.
  pose proof (sorted_ranges_le (_dynstr_ranges self1)) as Hle.
  pose proof (sorted_ranges_nodup (_dynstr_ranges self1)) as Hnd.
  fold sorted in Hle, Hnd.
  assert (Hstr : ∀ r, r ∈ sorted →
            0 ≤ r.1 ∧ 0 ≤ base + r.1
            ∧ cstring_len (drop (Z.to_nat (base + r.1)) (_f self1)) = Some (r.2 - r.1)).
  { intros r Hr. apply elem_of_sorted_ranges in Hr.
    destruct (Hranges r Hr) as [Hr0 Hget]. split; [done|].
    unfold _get_string_range in Hget. rewrite Ed, Hsec in Hget.
    cbn [Py.of_option Py.bind] in Hget. rewrite Eo in Hget. fold base in Hget.
    destruct (Z.ltb_spec (base + r.1) 0); [done|]. split; [done|].
    apply bind_Ok in Hget as (size & Hsize & Hget).
    destruct (cstring_len (drop (Z.to_nat (base + r.1)) (_f self1))) as [n|]; [|done].
    injection Hsize as ->. destruct r as [r1 r2]. injection Hget as <-.
    cbn [fst snd]. f_equal. lia. }
  assert (Hfirst : sorted !! 0%nat = Some (0, 0)).
  { apply elem_of_sorted_ranges in Hzero. fold sorted in Hzero.
    apply list_elem_of_lookup in Hzero as [j Hj].
    destruct j as [|j]; [done|].
    destruct (lookup_lt_is_Some_2 sorted 0) as [p Hp].
    { apply lookup_lt_Some in Hj. lia. }
    pose proof (StronglySorted_lookup_lt _ sorted 0 (S j) p (0, 0) Hle ltac:(lia) Hp Hj)
      as Hpz.
    apply pair_le_spec in Hpz. cbn [fst snd] in Hpz.
    destruct (Hstr p) as (Hp0 & _ & Sp); [by eapply list_elem_of_lookup_2|].
    destruct (Hstr (0, 0)) as (_ & _ & S0); [by eapply list_elem_of_lookup_2|].
    cbn [fst snd] in S0.
    assert (Hp1 : p.1 = 0) by lia. rewrite Hp1 in Sp. rewrite Sp in S0.
    injection S0 as Hlen. rewrite Hp. f_equal. destruct p; simpl in *. f_equal; lia. }
  assert (Hstr' : ∀ r, r ∈ sorted →
            0 ≤ base + r.1
            ∧ cstring_len (drop (Z.to_nat (base + r.1)) (_f self1)) = Some (r.2 - r.1)).
  { intros r Hr. destruct (Hstr r Hr) as (_ & ? & ?). done. }
  assert (Hpos : (0 < length sorted)%nat).
  { apply lookup_lt_Some in Hfirst. lia. }
  destruct (layout_after_content (_f self1) base sorted Hle Hnd Hfirst Hstr'
              (length sorted - 1) ltac:(lia)) as (st0 & Hst0 & Hinv).
  rewrite Hst in Hst0. injection Hst0 as <-.
  destruct (content_string (_f self1) base sorted Hstr' st (length sorted - 1) s e Hinv)
    as (t & Ht & Hout & Hf).
  { by apply elem_of_sorted_ranges. }
  { lia. }
  exists t, (take (Z.to_nat (e - s)) (drop (Z.to_nat (base + s)) (_f self1))).
  rewrite <- Ef. split; [done|]. split; [done|]. by rewrite Hout.
Qed.

End build_new_dynstr_content.

(** In the example table the name [line] is moved from index 4 to the
    index of the same string in the new table. *)
Lemma build_new_dynstr_keeps_strings_witness :
  ∃ self' out imap t name,
    Dynstr._build_new_dynstr Examples.dynstr_lib [mkSymbolWrapper "foo" 3 9 64 8 0]
      = Py.Ok (self', Some (out, imap))
    ∧ imap !! 4 = Some t
    ∧ StringTable.string_at (_f Examples.dynstr_lib) (0 + 4) = Some name
    ∧ StringTable.string_at out t = Some name.
Proof.
  destruct (Dynstr._build_new_dynstr Examples.dynstr_lib [mkSymbolWrapper "foo" 3 9 64 8 0])
    as [[self' [[out imap]|]]|] eqn:H;
    [|vm_compute in H; discriminate H..].
  assert (Hself : _f self' = _f Examples.dynstr_lib
                  ∧ objs self' = objs Examples.dynstr_lib
                  ∧ _dynstr self' = _dynstr Examples.dynstr_lib
                  ∧ _dynstr_ranges self'
                    = list_to_map [((0, 0), 1); ((1, 8), 1); ((4, 8), 1)]).
  { vm_compute in H. injection H as <- _ _. repeat split. }
  destruct Hself as (Ef & Eo & Ed & Er).
  destruct (build_new_dynstr_keeps_strings Examples.dynstr_lib
              [mkSymbolWrapper "foo" 3 9 64 8 0] (mkSectionWrapper 0 4 0) self' out imap
              eq_refl H) with (s := 4) (e := 8) as (t & name & Ht & Hold & Hnew).
  - rewrite Er. by eexists.
  - intros r Hr. rewrite Er in Hr.
    assert (Hcases : r = (0, 0) ∨ r = (1, 8) ∨ r = (4, 8)).
    { destruct Hr as [v Hv]. apply elem_of_list_to_map_2 in Hv.
      repeat (apply elem_of_cons in Hv as [Hv|Hv]; [injection Hv as -> _; tauto|]).
      by apply elem_of_nil in Hv. }
    unfold Dynstr._get_string_range. rewrite Ed, Eo, Ef.
    destruct Hcases as [-> | [-> | ->]]; split; first [discriminate | reflexivity].
  - rewrite Er. by eexists.
  - by exists self', out, imap, t, name.
Defined.

(** ** The addend of a relocation *)

Section addend_round_trip.
Import Relocs.
Variable address_offsets : Z → list Z.

(** X18.  Writing and reading the addend of a relocation: after a
    successful [_reloc_set_addend_RELA] or [_reloc_set_addend_REL] the
    matching getter returns the value that was written; the relocation
    keeps its offset and its symbol, and the setter for RELA entries
    leaves the file as it is. *)
Theorem reloc_addend_round_trip rela little f reloc value f' reloc' :
  setter_addend address_offsets rela little f reloc value = Py.Ok (f', reloc') →
  getter_addend address_offsets rela little f' reloc' = Py.Ok value
  ∧ r_offset reloc' = r_offset reloc
  ∧ r_info_sym reloc' = r_info_sym reloc
  ∧ (rela = true → f' = f).
Proof.
  intros H.
  pose proof (setter_addend_offset _ _ _ _ _ _ _ _ H) as Hoff.
  pose proof (setter_addend_sym _ _ _ _ _ _ _ _ H) as Hsym.
  assert (Hfile : rela = true → f' = f).
  { intros ->. unfold setter_addend in H. by injection H as <- _. }
  split; [|done]. clear Hoff Hsym Hfile.
  unfold setter_addend in H. unfold getter_addend. destruct rela.
  { by injection H as <- <-. }
  apply bind_Ok in H as (off & Hhead & H).
  apply bind_Ok in H as (addend & Hpack & H).
  apply bind_Ok in H as (f1 & Hwrite & H). injection H as <- <-.
  rewrite Hhead. cbn [Py.bind].
  pose proof (pack_unsigned_length _ _ _ _ Hpack) as Hlen.
  apply write_lookup in Hwrite as [Hoff Hl].
  assert (Hread : File.read f1 off 4 = Py.Ok addend).
  { change 4 with (Z.of_nat 4). rewrite <- Hlen. apply read_from_lookup; [done|].
    intros i Hi. rewrite Hl, decide_True by lia. f_equal. lia. }
  rewrite Hread. cbn [Py.bind]. rewrite Hlen. cbn [Nat.eqb negb].
  f_equal. by eapply unpack_pack_unsigned.
Qed.

End addend_round_trip.

Lemma reloc_addend_round_trip_witness :
  ∃ f',
    Relocs.setter_addend (λ a, [a]) false true (replicate 320 x00)
      (Examples.rela 200 2 6 0) 5
    = Py.Ok (f', Examples.rela 200 2 6 0)
    ∧ Relocs.getter_addend (λ a, [a]) false true f' (Examples.rela 200 2 6 0) = Py.Ok 5.
Proof.
  destruct (Relocs.setter_addend (λ a, [a]) false true (replicate 320 x00)
              (Examples.rela 200 2 6 0) 5) as [[f' reloc']|] eqn:H;
    [|vm_compute in H; discriminate H].
  assert (Hreloc : reloc' = Examples.rela 200 2 6 0).
  { vm_compute in H. by injection H as _ <-. }
  subst reloc'. exists f'. split; [reflexivity|].
  exact (proj1 (reloc_addend_round_trip (λ a, [a]) false true (replicate 320 x00)
                  (Examples.rela 200 2 6 0) 5 f' (Examples.rela 200 2 6 0) H)).
Defined.

(** ** Dynamic tags *)

Section dynamic_tags.
Import Elf.

(** X19.  [_write_dynamic_tag] and [_shrink_dynamic_tag]: after a
    successful call the first tag of the given name holds the new value
    (the given one, or the old value less the given one); every tag of
    another name reads as before; and when there is no tag of that name
    the call changes nothing at all. *)
Theorem write_dynamic_tag_value self target value sub self' :
  _write_dynamic_tag self target value sub = Py.Ok self' →
  dynamic_tag self' target
  = (λ old, if sub then old - value else value) <$> dynamic_tag self target
  ∧ (∀ other, other ≠ target → dynamic_tag self' other = dynamic_tag self other)
  ∧ (dynamic_tag self target = None → self' = self).
Proof.
  intros H. split; [|split].
  2:{ by destruct (write_dynamic_tag_frame _ _ _ _ _ H) as (_ & _ & ?). }
  - unfold _write_dynamic_tag in H. apply bind_Ok in H as (tags & Htags & H).
    destruct (_dynamic self) as [tags0|] eqn:Hdyn; [|done]. injection Htags as ->.
    unfold dynamic_tag at 2. rewrite Hdyn. cbn [mbind option_bind].
    destruct (find_tag target tags) as [idx|] eqn:Hfind.
    2:{ injection H as <-. unfold dynamic_tag. rewrite Hdyn. cbn [mbind option_bind].
        by rewrite Hfind. }
    unfold _modify_dynamic_tag_at_index in H. rewrite Hdyn in H.
    cbn [Py.of_option Py.bind] in H.
    destruct (find_tag_Some _ _ _ Hfind) as (v & Hv). rewrite Hv in H.
    cbn [Py.of_option Py.bind] in H. apply bind_Ok in H as (packed & _ & H).
    injection H as <-.
    unfold dynamic_tag. cbn [_dynamic set_dynamic mbind option_bind].
    rewrite (find_tag_insert target tags idx target v _ Hv), Hfind.
    cbn [mbind option_bind]. rewrite Hv.
    rewrite list_lookup_insert_eq by (by eapply lookup_lt_Some). done.
  - intros Hnone. unfold _write_dynamic_tag in H. apply bind_Ok in H as (tags & Htags & H).
    destruct (_dynamic self) as [tags0|] eqn:Hdyn; [|done]. injection Htags as ->.
    unfold dynamic_tag in Hnone. rewrite Hdyn in Hnone. cbn [mbind option_bind] in Hnone.
    destruct (find_tag target tags) as [idx|] eqn:Hfind; [|by injection H as <-].
    destruct (find_tag_Some _ _ _ Hfind) as (v & Hv).
    cbn [mbind option_bind] in Hnone. by rewrite Hv in Hnone.
Qed.

End dynamic_tags.

Lemma write_dynamic_tag_value_witness :
  ∃ self',
    Elf._write_dynamic_tag (Examples.rela_lib false) "DT_RELASZ" 24 true = Py.Ok self'
    ∧ Elf.dynamic_tag self' "DT_RELASZ" = Some 96
    ∧ Elf.dynamic_tag self' "DT_RELACOUNT" = Some 2.
Proof.
  destruct (Elf._write_dynamic_tag (Examples.rela_lib false) "DT_RELASZ" 24 true)
    as [self'|] eqn:H; [|vm_compute in H; discriminate H].
  destruct (write_dynamic_tag_value (Examples.rela_lib false) "DT_RELASZ" 24 true self' H)
    as (Hnew & Hother & _).
  exists self'. split; [reflexivity|]. split.
  - rewrite Hnew. reflexivity.
  - rewrite (Hother "DT_RELACOUNT"%string); [reflexivity|discriminate].
Defined.

(** ** What stays of the file after the functions are overwritten *)

Section footprint_basics.
Import Footprint.

Lemma keeps_refl P f : keeps P f f.
Proof. by intros i b _ H. Qed.

Lemma keeps_trans P f1 f2 f3 : keeps P f1 f2 → keeps P f2 f3 → keeps P f1 f3.
Proof. intros H12 H23 i b Hi H. apply H23; [done|]. by apply H12. Qed.

Lemma keeps_weaken (P P' : Z → Prop) f f' :
  keeps P f f' → (∀ i, P' i → P i) → keeps P' f f'.
Proof. intros H Hsub i b Hi. apply H. by apply Hsub. Qed.

Lemma write_keeps P f p d f' :
  File.write f p d = Py.Ok f' →
  (∀ i, P i → ¬ within p (Z.of_nat (length d)) i) →
  keeps P f f'.
Proof.
  intros H Hout i b Hi Hb. apply write_lookup in H as [Hp Hl]. rewrite Hl.
  pose proof (lookup_lt_Some _ _ _ Hb) as Hlt.
  specialize (Hout _ Hi). unfold within in Hout.
  rewrite decide_False by lia. by rewrite decide_False by lia.
Qed.

Lemma shrunk_refl self : shrunk self self.
Proof. split; [done|]. intros n. repeat split; lia. Qed.

Lemma shrunk_trans self1 self2 self3 :
  shrunk self1 self2 → shrunk self2 self3 → shrunk self1 self3.
Proof.
  intros (F1 & O1) (F2 & O2). split; [congruence|].
  intros n. destruct (O1 n) as (? & ? & ? & ?), (O2 n) as (? & ? & ? & ?).
  repeat split; [congruence|congruence|congruence|lia].
Qed.

Lemma shrunk_set_f f self : shrunk self (set_f f self).
Proof. split; [done|]. intros n. cbn. repeat split; lia. Qed.

Lemma shrunk_set_dynsym w self : shrunk self (set_dynsym w self).
Proof. split; [done|]. intros n. cbn. repeat split; lia. Qed.

Lemma fixed_wrappers self self' :
  Frames.wrappers self' = Frames.wrappers self → fixed self' = fixed self.
Proof. unfold Frames.wrappers, fixed. intros [= ]. congruence. Qed.

Lemma shrunk_objs self self' :
  fixed self' = fixed self → (∀ n, objs self' n = objs self n) → shrunk self self'.
Proof. intros F O. split; [done|]. intros n. rewrite O. repeat split; lia. Qed.

Lemma shrunk_fixed self0 self :
  shrunk self0 self →
  e_machine self = e_machine self0 ∧ _rel_dyn self = _rel_dyn self0
  ∧ _rel_plt self = _rel_plt self0 ∧ _gnu_version self = _gnu_version self0
  ∧ _gnu_hash self = _gnu_hash self0 ∧ _elf_hash self = _elf_hash self0
  ∧ _dynstr self = _dynstr self0.
Proof. intros [E _]. unfold fixed in E. by injection E. Qed.

Lemma region_shrunk self self' w i :
  shrunk self self' → region self' w i → region self w i.
Proof.
  intros (_ & O) Hn. destruct (O (section w)) as (_ & Eo & _ & Es).
  unfold region, within in *. lia.
Qed.

Lemma set_section_attribute_shrunk self sec a v sub self' :
  Elf._set_section_attribute self sec a v sub = Py.Ok self' →
  (sub = true → 0 ≤ v) →
  shrunk self self' ∧ _f self' = _f self.
Proof.
  intros H Hv. split; [|by eapply set_section_attribute_f].
  unfold Elf._set_section_attribute in H. destruct (index sec =? -1).
  { injection H as <-. apply shrunk_refl. }
  apply bind_Ok in H as (member_size & _ & H).
  destruct (Z.ltb_spec (Elf.header_get a (header (objs self (section sec)))) v) as [|Hle];
    [done|].
  apply bind_Ok in H as (b & _ & H). injection H as <-.
  split; [done|]. intros n. cbn [objs set_objs].
  destruct (decide (n = section sec)) as [->|Hne].
  - rewrite fn_lookup_insert. cbn [header sec_name Elf.with_header].
    destruct a; cbn [Elf.header_set Elf.header_get sh_offset sh_size sh_entsize] in *.
    + repeat split; [done..|]. destruct sub; [specialize (Hv eq_refl)|]; lia.
    + repeat split; [done..|lia].
    + repeat split; [done..|lia].
  - rewrite fn_lookup_insert_ne by done. repeat split; [done..|lia].
Qed.

Lemma write_dynamic_tag_shrunk self target value sub self' :
  Elf._write_dynamic_tag self target value sub = Py.Ok self' →
  shrunk self self' ∧ _f self' = _f self.
Proof.
  intros H. pose proof (write_dynamic_tag_frame _ _ _ _ _ H) as (Ef & Eo & _).
  split; [|done]. apply write_dynamic_tag_touches in H as [W _].
  apply shrunk_objs; [by apply fixed_wrappers|]. intros n. by rewrite Eo.
Qed.

End footprint_basics.

Section relocs_keep.
Import Footprint Relocs.
Variable address_offsets : Z → list Z.
Variable iter_relocations : list byte → Section → list Reloc.
Variable P : Z → Prop.

(** No word that an entry at one of [offsets] points to holds a position
    of [P]. *)
Local Abbreviation targets_clear rela offsets :=
  (rela = false →
   ∀ k off, k ∈ offsets → head (address_offsets k) = Some off →
            ∀ i, P i → ¬ within off 4 i).

Lemma setter_addend_keeps rela little f reloc v f' reloc' :
  setter_addend address_offsets rela little f reloc v = Py.Ok (f', reloc') →
  targets_clear rela [r_offset reloc] →
  keeps P f f'.
Proof.
  unfold setter_addend. destruct rela.
  { intros [= <- <-] _. apply keeps_refl. }
  intros H Hclear. apply bind_Ok in H as (off & Hoff & H).
  apply bind_Ok in H as (addend & Hpack & H). apply bind_Ok in H as (f1 & Hwrite & H).
  injection H as <- <-. eapply write_keeps; [exact Hwrite|].
  rewrite (pack_unsigned_length _ _ _ _ Hpack).
  destruct (head (address_offsets (r_offset reloc))) as [o|] eqn:Ho; [|done].
  injection Hoff as ->.
  apply (Hclear eq_refl (r_offset reloc)); [by apply list_elem_of_singleton|done].
Qed.

Lemma edit_loop_keeps rela little push is_symtab fuel sym_nr sym_addr : ∀ t cur_idx t',
  edit_loop address_offsets fuel rela little push is_symtab sym_nr sym_addr t cur_idx
    = Py.Ok t' →
  targets_clear rela (r_offset <$> reloc_list t) →
  keeps P (file t) (file t').
Proof.
  induction fuel as [|fuel IH]; intros t cur_idx t' H Hclear; [done|].
  cbn [edit_loop] in H.
  destruct (Nat.ltb_spec cur_idx (length (reloc_list t))) as [Hlt|Hge]; cbn [negb] in H;
    [|injection H as <-; apply keeps_refl].
  apply bind_Ok in H as (reloc & Hreloc & H).
  destruct (reloc_list t !! cur_idx) as [r|] eqn:Hr; [|done].
  simpl in Hreloc. injection Hreloc as ->.
  apply bind_Ok in H as (found & _ & H). destruct found.
  - destruct push.
    + apply IH in H; [exact H|]. cbn [reloc_list].
      intros Hrela k off Hk. apply (Hclear Hrela).
      rewrite list_fmap_delete in Hk. eapply sublist_subseteq; [apply sublist_delete|exact Hk].
    + apply bind_Ok in H as ([f' reloc'] & Hset & H).
      pose proof (setter_addend_offset _ _ _ _ _ _ _ _ Hset) as Hoff. simpl in Hoff.
      eapply keeps_trans.
      * eapply setter_addend_keeps; [exact Hset|].
        intros Hrela k off Hk. apply list_elem_of_singleton in Hk as ->. simpl.
        apply (Hclear Hrela). apply list_elem_of_fmap. exists reloc. split; [done|].
        by eapply list_elem_of_lookup_2.
      * apply IH in H; [exact H|]. cbn [reloc_list].
        rewrite list_fmap_insert, Hoff.
        rewrite list_insert_id; [done|]. by rewrite list_lookup_fmap, Hr.
  - apply bind_Ok in H as (left_relative & _ & H).
    destruct left_relative; [injection H as <-; apply keeps_refl|].
    destruct (sym_nr <? r_info_sym reloc); [injection H as <-; apply keeps_refl|].
    destruct (negb is_symtab && push).
    + destruct (_ <=? _)%nat; [done|]. by apply IH in H.
    + by apply IH in H.
Qed.

Lemma remove_loop_keeps rela little push is_symtab symbol_list :
  ∀ t nrs addrs t' nrs' addrs',
    Py.for_each (remove_step address_offsets rela little push is_symtab) symbol_list
      (t, nrs, addrs) = Py.Ok (t', nrs', addrs') →
    targets_clear rela (r_offset <$> reloc_list t) →
    keeps P (file t) (file t').
Proof.
  induction symbol_list as [|symbol symbol_list IH];
    intros t nrs addrs t' nrs' addrs' H Hclear.
  - simpl in H. injection H as <- <- <-. apply keeps_refl.
  - cbn [Py.for_each] in H. apply bind_Ok in H as ([[t1 nrs1] addrs1] & Hstep & H).
    assert (Hstep' : keeps P (file t) (file t1) ∧ shape_kept t t1).
    { unfold remove_step in Hstep. destruct (_ && _).
      - injection Hstep as <- <- <-. split; [apply keeps_refl|apply shape_kept_refl].
      - apply bind_Ok in Hstep as (t2 & Hedit & Hstep). injection Hstep as <- <- <-.
        unfold _edit_rel_sect in Hedit. apply bind_Ok in Hedit as (cur & _ & Hedit).
        split; [by eapply edit_loop_keeps|by eapply edit_loop_shape]. }
    destruct Hstep' as [Hk [Hsub _]]. eapply keeps_trans; [exact Hk|].
    eapply IH; [exact H|]. intros Hrela k off Hin. apply (Hclear Hrela).
    eapply sublist_subseteq; [exact Hsub|exact Hin].
Qed.

Lemma remove_phase_keeps rela little push is_symtab f orig symbol_list t :
  remove_phase address_offsets rela little push is_symtab f orig symbol_list = Py.Ok t →
  targets_clear rela (r_offset <$> orig) →
  keeps P f (file t).
Proof.
  intros H Hclear. unfold remove_phase in H.
  apply bind_Ok in H as (relocs & Hkeyed & H).
  apply keyed_relocs_spec in Hkeyed as [Hfst _].
  set (le := λ x y : Reloc * Z * Z, Py.pair_le (sort_key x) (sort_key y)) in *.
  pose proof (sorted_perm le relocs) as Hperm.
  destruct (Py.sorted le relocs) as [|x0 srt] eqn:Hs; [done|]. rewrite <- Hs in *.
  apply bind_Ok in H as ([[t1 nrs] addrs] & Hloop & H). injection H as <-.
  apply remove_loop_keeps in Hloop; [exact Hloop|]. cbn [reloc_list].
  intros Hrela k off Hin. apply (Hclear Hrela).
  rewrite <- Hfst. rewrite <- Hperm. exact Hin.
Qed.

Lemma batch_remove_relocs_keeps self symbol_list sec push is_symtab self' :
  Relocs._batch_remove_relocs address_offsets iter_relocations self symbol_list sec
    push is_symtab = Py.Ok self' →
  (∀ w, sec = Some w →
     let obj := objs self (section w) in
     let orig := iter_relocations (_f self) obj in
     (if is_RELA obj then 24 else 8) * Z.of_nat (length orig) ≤ sh_size (header obj)
     ∧ NoDup (r_offset <$> orig)
     ∧ (∀ i, P i → ¬ region self w i)
     ∧ (is_RELA obj = false →
        ∀ r off, r ∈ orig → head (address_offsets (r_offset r)) = Some off →
                 ∀ i, P i → ¬ within off 4 i)) →
  shrunk self self' ∧ keeps P (_f self) (_f self').
Proof.
  unfold Relocs._batch_remove_relocs. destruct sec as [sec|].
  2:{ intros [= <-] _. split; [apply shrunk_refl|apply keeps_refl]. }
  intros H Hhyp. destruct (Hhyp sec eq_refl) as (Hfit & Hnodup & Hsec & Htargets).
  clear Hhyp. cbv zeta in Hfit, Hnodup, Htargets.
  set (obj := objs self (section sec)) in *.
  set (ent_size := if is_RELA obj then 24 else 8) in *.
  set (orig := iter_relocations (_f self) obj) in *.
  apply bind_Ok in H as (t & Ht & H). apply bind_Ok in H as (final & Hfinal & H).
  apply bind_Ok in H as (relocs_bytes & Hpack & H).
  apply bind_Ok in H as (fill & Hfill & H).
  apply bind_Ok in H as (f & Hf & H). cbv zeta in H.
  change (_need_continuous_relocations (set_f f self))
    with (_need_continuous_relocations self) in H.
  destruct (remove_phase_shape _ _ _ _ _ _ _ _ _ Ht) as (Hsub & Hnd & Hcount & Hpos).
  destruct (pack_relocs_spec _ (is_RELA obj) _ _ Hpack) as [Hlen Hall].
  fold ent_size in Hall.
  assert (Hent : 0 < ent_size) by (unfold ent_size; by destruct (is_RELA obj)).
  pose proof (fixup_indices_offsets _ _ _ _ _ _ Hfinal) as Hoffs.
  assert (Hwritten : Z.of_nat (length relocs_bytes) + removed t = Z.of_nat (length orig)).
  { rewrite Hlen, restore_order_length; [|apply Hnodup| |].
    - rewrite <- Hcount. f_equal. f_equal.
      apply (f_equal length) in Hoffs. by rewrite !length_fmap in Hoffs.
    - rewrite Hoffs. apply Hnd, Hnodup.
    - intros k. rewrite Hoffs. apply Hsub. }
  assert (Hfill_len : Z.of_nat (length fill) = ent_size * removed t).
  { unfold fill_bytes in Hfill. destruct (_need_continuous_relocations self).
    - apply bind_Ok in Hfill as (last_reloc & Hlast & Hfill). injection Hfill as <-.
      apply getitem_last in Hlast.
      rewrite (concat_length_uniform _ ent_size), length_replicate; [lia|].
      apply Forall_replicate. rewrite Forall_forall in Hall. apply Hall.
      rewrite last_lookup in Hlast. by eapply list_elem_of_lookup_2.
    - injection Hfill as <-. rewrite length_replicate. lia. }
  assert (Hdata : Z.of_nat (length (concat relocs_bytes ++ fill))
                  = ent_size * Z.of_nat (length orig)).
  { rewrite length_app, Nat2Z.inj_add, (concat_length_uniform _ ent_size Hall). lia. }
  assert (Hkeep : keeps P (_f self) f).
  { eapply keeps_trans.
    - eapply remove_phase_keeps; [exact Ht|].
      intros Hrela k off Hk Hoff. apply list_elem_of_fmap in Hk as (r & -> & Hr).
      by eapply (Htargets Hrela r off).
    - eapply write_keeps; [exact Hf|]. rewrite Hdata. intros i Hi Hin.
      apply (Hsec i Hi). unfold region. fold obj. unfold within in *. lia. }
  apply bind_Ok in H as (self1 & H1 & H).
  assert (Hmid : shrunk self self1 ∧ _f self1 = f).
  { destruct (negb (_need_continuous_relocations self)).
    - apply bind_Ok in H1 as (self0 & H0 & H1). injection H1 as <-.
      apply set_section_attribute_shrunk in H0 as [S0 F0]; [|intros _; lia].
      split; [|done]. eapply shrunk_trans; [apply (shrunk_set_f f)|].
      eapply shrunk_trans; [exact S0|].
      split; [done|]. intros n. cbn [objs set_objs].
      destruct (decide (n = section sec)) as [->|Hne].
      + rewrite fn_lookup_insert. cbn [header sec_name Elf.with_size].
        repeat split; [done..|lia].
      + rewrite fn_lookup_insert_ne by done. repeat split; [done..|lia].
    - injection H1 as <-. split; [apply shrunk_set_f|done]. }
  destruct Hmid as [Smid Fmid].
  assert (Hend : shrunk self1 self' ∧ _f self' = _f self1).
  { destruct push; [|injection H as <-; split; [apply shrunk_refl|done]].
    apply bind_Ok in H as (self2 & H2 & H).
    apply write_dynamic_tag_shrunk in H as [S3 F3].
    assert (H2' : shrunk self1 self2 ∧ _f self2 = _f self1).
    { destruct (negb (_need_continuous_relocations self1)).
      - by apply write_dynamic_tag_shrunk in H2.
      - injection H2 as <-. split; [apply shrunk_refl|done]. }
    destruct H2' as [S2 F2]. split; [by eapply shrunk_trans|congruence]. }
  destruct Hend as [Send Fend]. split; [by eapply shrunk_trans|].
  by rewrite Fend, Fmid.
Qed.

End relocs_keep.

Section tables_keep.
Import Footprint.
Variable iter_symbols : list byte → Section → list Symbol.
Variable ELFHashTable_nchains : list byte → Z → Z.
Variable GNUHashTable_params : list byte → Z → Z * Z * Z * list Z.
Variable version_name_fields : list byte → list (Z * Z).

Lemma for_each_keeps (P : Z → Prop) {X} (body : list byte → X → Py.result (list byte)) (l : list X) :
  (∀ f x f', x ∈ l → body f x = Py.Ok f' → keeps P f f') →
  ∀ f f', Py.for_each body l f = Py.Ok f' → keeps P f f'.
Proof.
  induction l as [|x l IH]; intros Hbody f f' H.
  { injection H as <-. apply keeps_refl. }
  cbn [Py.for_each] in H. apply bind_Ok in H as (f1 & H1 & H).
  eapply keeps_trans.
  - eapply Hbody; [left|exact H1].
  - eapply IH; [|exact H]. intros f0 y f0' Hy. apply Hbody. by right.
Qed.

Lemma to_bytes_nonneg little n v b : File.to_bytes little n v = Py.Ok b → 0 ≤ v.
Proof. unfold File.to_bytes. by destruct (Z.leb_spec 0 v). Qed.

Variable P : Z → Prop.

Lemma recreate_elf_hash_keeps self dynsym n self' :
  SysvHash._recreate_elf_hash iter_symbols ELFHashTable_nchains self dynsym n = Py.Ok self' →
  (∀ w, _elf_hash self = Some w → index w ≠ -1 ∧ ∀ i, P i → ¬ region self w i) →
  shrunk self self' ∧ keeps P (_f self) (_f self').
Proof.
  unfold SysvHash._recreate_elf_hash. intros H Hhyp.
  destruct (_elf_hash self) as [elf_hash|].
  2:{ injection H as <-. split; [apply shrunk_refl|apply keeps_refl]. }
  destruct (Hhyp elf_hash eq_refl) as [Hidx Hsec]. clear Hhyp. cbv zeta in H.
  set (hdr := header (objs self (section elf_hash))) in *.
  set (nchains := ELFHashTable_nchains (_f self) (sh_offset hdr) - n) in *.
  apply bind_Ok in H as (nbuckets & _ & H).
  destruct (SysvHash.build_tables _ _) as [new_buckets new_chains].
  apply bind_Ok in H as (f0 & H0 & H). apply bind_Ok in H as (b1 & Hb1 & H).
  apply bind_Ok in H as (f1 & H1 & H). apply bind_Ok in H as (b2 & Hb2 & H).
  apply bind_Ok in H as (f2 & H2 & H). apply bind_Ok in H as (ob & Hob & H).
  apply bind_Ok in H as (f3 & H3 & H). apply bind_Ok in H as (oc & Hoc & H).
  apply bind_Ok in H as (f4 & H4 & H).
  unfold Elf._set_section_size in H.
  pose proof (set_section_attribute_spec _ _ _ _ _ _ H Hidx) as (Hle & _).
  cbn [objs set_f Elf.header_get] in Hle. fold hdr in Hle.
  apply set_section_attribute_shrunk in H as [S F]; [|done].
  split; [eapply shrunk_trans; [apply (shrunk_set_f f4)|exact S]|].
  rewrite F. cbn [_f set_f].
  pose proof (to_bytes_nonneg _ _ _ _ Hb1) as Hnb.
  pose proof (to_bytes_nonneg _ _ _ _ Hb2) as Hnc.
  apply to_bytes_length in Hb1, Hb2. apply table_bytes_length in Hob, Hoc.
  assert (Hin : ∀ pos len, sh_offset hdr ≤ pos → pos + len ≤ sh_offset hdr + sh_size hdr →
                  ∀ i, P i → ¬ within pos len i).
  { intros pos len Hlo Hhi i Hi Hw. apply (Hsec i Hi). unfold region.
    fold hdr. unfold within in *. lia. }
  eapply keeps_trans; [eapply write_keeps; [exact H0|]|].
  { rewrite length_replicate. apply Hin; lia. }
  eapply keeps_trans; [eapply write_keeps; [exact H1|]|].
  { rewrite Hb1. apply Hin; lia. }
  eapply keeps_trans; [eapply write_keeps; [exact H2|]|].
  { rewrite Hb2. apply Hin; lia. }
  eapply keeps_trans; [eapply write_keeps; [exact H3|]|].
  { rewrite Hob. apply Hin; lia. }
  eapply write_keeps; [exact H4|]. rewrite Hoc, Hob. apply Hin; lia.
Qed.

Lemma batch_remove_gnu_versions_keeps self symbol_list n self' :
  Editor._batch_remove_gnu_versions self symbol_list n = Py.Ok self' →
  (∀ w, _gnu_version self = Some w →
        ∀ i, P i → ¬ within (sh_offset (header (objs self (section w)))) (2 * n) i) →
  shrunk self self' ∧ keeps P (_f self) (_f self').
Proof.
  unfold Editor._batch_remove_gnu_versions. intros H Hclear.
  destruct (_gnu_version self) as [gv|].
  2:{ injection H as <-. split; [apply shrunk_refl|apply keeps_refl]. }
  specialize (Hclear gv eq_refl). cbv zeta in H.
  apply bind_Ok in H as (section_bytes & _ & H).
  destruct (Z.ltb_spec n 0) as [|Hn]; [done|]. cbn [orb] in H.
  destruct (Z.eqb_spec (Z.of_nat (length section_bytes)) (n * 2)) as [Hlen|]; [|done].
  cbn [negb] in H.
  apply bind_Ok in H as (versions & Hpops & H).
  apply bind_Ok in H as (new_section_bytes & Hpack & H).
  apply bind_Ok in H as (f & Hwrite & H).
  unfold Elf._change_section_size, Elf._set_section_size in H.
  apply set_section_attribute_shrunk in H as [S F]; [|intros _; lia].
  split; [eapply shrunk_trans; [apply (shrunk_set_f f)|exact S]|].
  rewrite F. cbn [_f set_f].
  apply pops_length in Hpops. apply pack_halves_length in Hpack.
  assert (Hold : length (Editor.unpack_halves (little_endian self) (Z.to_nat n) section_bytes)
                 = Z.to_nat n).
  { generalize section_bytes. generalize (Z.to_nat n).
    intros m. induction m as [|m IH]; intros bs; simpl; [done|]. by rewrite IH. }
  eapply write_keeps; [exact Hwrite|].
  rewrite length_app, length_replicate. intros i Hi Hw. apply (Hclear i Hi).
  unfold within in *. lia.
Qed.

Lemma fix_string_tags_f fuel index_map : ∀ self idx self',
  Editor.fix_string_tags fuel index_map self idx = Py.Ok self' → _f self' = _f self.
Proof.
  induction fuel as [|fuel IH]; intros self idx self' H; simpl in H.
  { by injection H as <-. }
  apply bind_Ok in H as (tags & _ & H).
  destruct (tags !! idx) as [[t v]|]; [|by injection H as <-].
  destruct (Editor.is_string_tag t); [|by eapply IH].
  apply bind_Ok in H as (new_val & _ & H). apply bind_Ok in H as (self1 & H1 & H).
  apply IH in H. rewrite H.
  unfold Elf._modify_dynamic_tag_at_index in H1. apply bind_Ok in H1 as (tags1 & _ & H1).
  apply bind_Ok in H1 as ([tagno old_val] & _ & H1). apply bind_Ok in H1 as (b & _ & H1).
  by injection H1 as <-.
Qed.

Lemma compact_dynstr_keeps (Q : Z → Prop) self removed_symbols self' :
  Editor._compact_dynstr iter_symbols version_name_fields self removed_symbols = Py.Ok self' →
  (∀ w sec, _dynstr self = Some w → dynsym self = Some sec →
     index w ≠ -1
     ∧ (∀ (idx : nat) s,
          iter_symbols (_f self) (objs self (section sec)) !! idx = Some s →
          ∀ i, P i ∨ Q i →
            ¬ within (sh_offset (header (objs self (section sec)))
                      + Z.of_nat idx
                        * match e_machine self with EM_X86_64 => 24 | EM_386 => 16 end) 4 i)
     ∧ (∀ f, keeps Q (_f self) f →
          ∀ field, field ∈ version_name_fields f → ∀ i, P i → ¬ within field.1 4 i)
     ∧ (∀ i, P i → ¬ region self w i)) →
  shrunk self self' ∧ keeps P (_f self) (_f self').
Proof.
  unfold Editor._compact_dynstr. intros H Hhyp.
  destruct (_dynstr self) as [dynstr|] eqn:Hdynstr.
  2:{ injection H as <-. split; [apply shrunk_refl|apply keeps_refl]. }
  apply bind_Ok in H as ([self1 built] & Hbuild & H).
  unfold Dynstr._build_new_dynstr in Hbuild. rewrite Hdynstr in Hbuild. cbv zeta in Hbuild.
  apply bind_Ok in Hbuild as (self0 & Hrel & Hbuild).
  apply bind_Ok in Hbuild as (st & _ & Hbuild). injection Hbuild as <- <-.
  pose proof (release_names_frame _ _ _ Hrel) as (Ef & Eo & _).
  apply release_names_touches in Hrel as [[W0 _] _].
  assert (S0 : shrunk self self0).
  { apply shrunk_objs; [by apply fixed_wrappers|]. intros n. by rewrite Eo. }
  assert (Hm : e_machine self0 = e_machine self) by (by destruct (shrunk_fixed _ _ S0)).
  assert (Hd : dynsym self0 = dynsym self).
  { unfold Frames.wrappers in W0. by injection W0. }
  cbv zeta in H.
  apply bind_Ok in H as (dsym & Hdynsym & H). apply bind_Ok in H as (f1 & H1 & H).
  rewrite Hd in Hdynsym. destruct (dynsym self) as [sec|] eqn:Hsec'; [|done].
  injection Hdynsym as <-.
  destruct (Hhyp dynstr sec eq_refl eq_refl) as (Hidx & Hsym & Hver & Hsec). clear Hhyp.
  apply bind_Ok in H as (tags & _ & H). apply bind_Ok in H as (self2 & H2 & H).
  apply bind_Ok in H as (f2 & Hf2 & H). apply bind_Ok in H as (f3 & Hf3 & H).
  apply bind_Ok in H as (f4 & Hf4 & H). apply bind_Ok in H as (self3 & H3 & H).
  pose proof (fix_string_tags_f _ _ _ _ _ H2) as F2. cbn [_f set_f] in F2.
  apply fix_string_tags_touches in H2 as [W2 O2].
  assert (Hobjs2 : ∀ n, objs self2 n = objs self n).
  { intros n. rewrite O2; [by rewrite <- Eo|]. intros w Hw. discriminate Hw. }
  cbn [objs set_f] in Hf3, Hf4, H3. rewrite (Hobjs2 (section dynstr)) in Hf3, Hf4.
  unfold Elf._set_section_size in H3.
  pose proof (set_section_attribute_spec _ _ _ _ _ _ H3 Hidx) as (Hle & _).
  cbn [objs set_f Elf.header_get] in Hle. rewrite (Hobjs2 (section dynstr)) in Hle.
  apply set_section_attribute_shrunk in H3 as [S3 F3]; [|done].
  apply write_dynamic_tag_shrunk in H as [S4 F4].
  split.
  - eapply shrunk_trans; [|exact S4]. eapply shrunk_trans; [|exact S3].
    eapply shrunk_trans; [|apply (shrunk_set_f f4)].
    apply shrunk_objs; [|done]. apply fixed_wrappers.
    etrans; [exact W2|exact W0].
  - rewrite F4, F3. cbn [_f set_f]. rewrite <- Ef.
    assert (Hin : ∀ pos len,
              sh_offset (header (objs self (section dynstr))) ≤ pos →
              pos + len ≤ sh_offset (header (objs self (section dynstr)))
                          + sh_size (header (objs self (section dynstr))) →
              ∀ i, P i → ¬ within pos len i).
    { intros pos len Hlo Hhi i Hi Hw. apply (Hsec i Hi).
      unfold region, within in *. lia. }
    assert (Hnames : ∀ R : Z → Prop, (∀ i, R i → P i ∨ Q i) → keeps R (_f self0) f1).
    { intros R HR. eapply for_each_keeps; [|exact H1]. intros f x f' Hx Hbody.
      destruct x as [idx symbol]. apply list_elem_of_lookup in Hx as [j Hj].
      rewrite list_lookup_imap in Hj.
      destruct (iter_symbols (_f self0) (objs self0 (section sec)) !! j) as [s|] eqn:Hs;
        [|done].
      simpl in Hj. injection Hj as <- <-.
      unfold Editor.fix_st_name in Hbody.
      apply bind_Ok in Hbody as (new_idx & _ & Hbody).
      apply bind_Ok in Hbody as (b & Hb & Hbody).
      eapply write_keeps; [exact Hbody|]. rewrite (pack_unsigned_length _ _ _ _ Hb).
      rewrite Ef, Eo in Hs. rewrite Hm, Eo. intros i Hi.
      apply (Hsym _ _ Hs i). by apply HR. }
    eapply keeps_trans; [apply Hnames; by left|].
    rewrite F2 in Hf2.
    eapply keeps_trans.
    { eapply for_each_keeps; [|exact Hf2]. intros f x f' Hx Hbody.
      destruct x as [offset old_idx]. unfold Editor.fix_version_name in Hbody.
      apply bind_Ok in Hbody as (new_value & _ & Hbody).
      apply bind_Ok in Hbody as (b & Hb & Hbody).
      eapply write_keeps; [exact Hbody|]. rewrite (pack_unsigned_length _ _ _ _ Hb).
      assert (K1 : keeps Q (_f self) f1) by (rewrite <- Ef; apply Hnames; by right).
      intros i Hi. exact (Hver f1 K1 (offset, old_idx) Hx i Hi). }
    eapply keeps_trans.
    { eapply write_keeps; [exact Hf3|]. rewrite length_replicate. apply Hin; lia. }
    eapply write_keeps; [exact Hf4|]. apply Hin; lia.
Qed.

End tables_keep.

Section gnu_hash_keep.
Import Footprint GnuHash.
Variable GNUHashTable_params : list byte → Z → Z * Z * Z * list Z.
Variable P : Z → Prop.

Lemma unpack_words_length little n : ∀ l, length (File.unpack_words little n l) = n.
Proof. induction n as [|n IH]; intros l; simpl; [done|]. by rewrite IH. Qed.

Lemma pop_length_le {A} (l : list A) i l' : Py.pop l i = Py.Ok l' → (length l' ≤ length l)%nat.
Proof.
  unfold Py.pop. destruct (_ && _).
  - intros [= <-]. apply sublist_length, sublist_delete.
  - destruct (_ && _); [|done]. intros [= <-]. apply sublist_length, sublist_delete.
Qed.

Lemma setitem_length {A} (l : list A) i x l' :
  Py.setitem l i x = Py.Ok l' → length l' = length l.
Proof.
  unfold Py.setitem. destruct (_ && _).
  - intros [= <-]. apply length_insert.
  - destruct (_ && _); [|done]. intros [= <-]. apply length_insert.
Qed.

Lemma edit_gnu_hashtable_chains nr h p p' :
  _edit_gnu_hashtable nr h p = Py.Ok p' → (length (chains p') ≤ length (chains p))%nat.
Proof.
  unfold _edit_gnu_hashtable. destruct (_ <? 0); [done|]. intros H.
  apply bind_Ok in H as (bucket_hash & _ & H). destruct (negb _); [done|].
  apply bind_Ok in H as (chains' & Hpop & H). apply pop_length_le in Hpop.
  destruct (_ =? 1); [|by injection H as <-].
  apply bind_Ok in H as (bucket & _ & H). destruct (negb _).
  - apply bind_Ok in H as (prev & _ & H). destruct (_ =? 1).
    + apply bind_Ok in H as (buckets' & _ & H). by injection H as <-.
    + apply bind_Ok in H as (chains'' & Hset & H). injection H as <-. simpl.
      apply setitem_length in Hset. simpl in Hset. lia.
  - apply bind_Ok in H as (buckets' & _ & H). by injection H as <-.
Qed.

Lemma remove_defined_chains p defined dynsym_size p' :
  remove_defined p defined dynsym_size = Py.Ok p' →
  (length (chains p') ≤ length (chains p))%nat.
Proof.
  unfold remove_defined. intros H. apply bind_Ok in H as (func_buckets & _ & H).
  destruct (negb _); [done|].
  apply bind_Ok in H as (p1 & Hloop & H). apply bind_Ok in H as (bk & _ & H).
  apply bind_Ok in H as (bk' & _ & H). injection H as <-. simpl.
  revert p p1 Hloop. generalize (zip defined ((λ s, _gnuhash (sym_name s)) <$> defined)).
  intros l. induction l as [|sh l IH]; intros p p1 Hloop.
  - by injection Hloop as <-.
  - cbn [Py.for_each] in Hloop. apply bind_Ok in Hloop as (p2 & H2 & Hloop).
    apply edit_gnu_hashtable_chains in H2. apply IH in Hloop. lia.
Qed.

Lemma read_params_shape self gnu_hash n p0 :
  read_params GNUHashTable_params self gnu_hash n = Py.Ok p0 →
  let off := sh_offset (header (objs self (section gnu_hash))) in
  let '(nb, so, bs, _) := GNUHashTable_params (_f self) off in
  nbuckets p0 = nb ∧ symoffset p0 = so ∧ bloom_size p0 = bs
  ∧ bloom_entry_size p0 = (match e_machine self with EM_386 => 4 | EM_X86_64 => 8 end)
  ∧ length (chains p0) = Z.to_nat (n - so) ∧ 0 ≤ n - so.
Proof.
  unfold read_params. cbv zeta.
  destruct (GNUHashTable_params _ _) as [[[nb so] bs] bk]. intros H.
  apply bind_Ok in H as (data & _ & H).
  destruct (Z.ltb_spec (n - so) 0) as [|Hnc]; [done|]. cbn [orb] in H.
  destruct (negb _); [done|]. injection H as <-. cbn.
  by rewrite unpack_words_length.
Qed.

Lemma batch_remove_gnu_hashtable_keeps self symbol_list n self' :
  _batch_remove_gnu_hashtable GNUHashTable_params self symbol_list n = Py.Ok self' →
  (∀ w, _gnu_hash self = Some w →
     let off := sh_offset (header (objs self (section w))) in
     let '(nb, so, bs, _) := GNUHashTable_params (_f self) off in
     0 ≤ bs
     ∧ ∀ i, P i →
         ¬ within off
             (16 + bs * (match e_machine self with EM_386 => 4 | EM_X86_64 => 8 end)
              + 4 * nb + 4 * (n - so)) i) →
  shrunk self self' ∧ keeps P (_f self) (_f self').
Proof.
  unfold _batch_remove_gnu_hashtable. intros H Hclear.
  destruct (_gnu_hash self) as [gnu_hash|].
  2:{ injection H as <-. split; [apply shrunk_refl|apply keeps_refl]. }
  specialize (Hclear gnu_hash eq_refl). cbv zeta in H, Hclear.
  apply bind_Ok in H as (p0 & Hread & H).
  apply read_params_shape in Hread. cbv zeta in Hread.
  set (off := sh_offset (header (objs self (section gnu_hash)))) in *.
  destruct (GNUHashTable_params (_f self) off) as [[[nb so] bs] bk].
  destruct Hclear as [Hbs Hclear].
  destruct Hread as (Enb0 & Eso0 & Ebs0 & Ebes0 & Hch0 & Hnc).
  set (bes := match e_machine self with EM_386 => 4 | EM_X86_64 => 8 end) in *.
  apply bind_Ok in H as (p & Hdef & H).
  pose proof (remove_defined_frame _ _ _ _ Hdef) as (Enb & _ & _ & _).
  pose proof (remove_defined_chains _ _ _ _ Hdef) as Hch.
  rewrite Hch0 in Hch. rewrite Enb0 in Enb.
  rewrite Ebs0, Ebes0, Eso0 in H.
  set (k := Z.of_nat (length (undef_symbols p0 symbol_list))) in *.
  apply bind_Ok in H as (b & Hb & H). apply bind_Ok in H as (f1 & H1 & H).
  apply bind_Ok in H as (bb & Hbb & H). apply bind_Ok in H as (f2 & H2 & H).
  apply bind_Ok in H as (cb & Hcb & H). apply bind_Ok in H as (f3 & H3 & H).
  unfold Elf._change_section_size, Elf._set_section_size in H.
  apply set_section_attribute_shrunk in H as [S F]; [|intros _; lia].
  split; [eapply shrunk_trans; [apply (shrunk_set_f f3)|exact S]|].
  rewrite F. cbn [_f set_f].
  cbn [remove_undefined with_symoffset with_buckets buckets nbuckets chains] in Hbb, Hcb, H3.
  rewrite Enb in Hbb.
  destruct (Z.eqb_spec (Z.of_nat (length ((λ b0, Z.max 0 (b0 - k)) <$> buckets p))) nb)
    as [Hnb|]; [|done].
  apply pack_unsigned_length in Hb. apply pack_words_length in Hbb, Hcb.
  assert (Hin : ∀ pos len, off ≤ pos →
                  pos + len ≤ off + (16 + bs * bes + 4 * nb + 4 * (n - so)) →
                  ∀ i, P i → ¬ within pos len i).
  { intros pos len Hlo Hhi i Hi Hw. apply (Hclear i Hi). unfold within in *. lia. }
  assert (Hbes : 0 < bes) by (unfold bes; by destruct (e_machine self)).
  eapply keeps_trans; [eapply write_keeps; [exact H1|]|].
  { rewrite Hb. apply Hin; nia. }
  eapply keeps_trans; [eapply write_keeps; [exact H2|]|].
  { rewrite Hbb. apply Hin; nia. }
  eapply write_keeps; [exact H3|].
  rewrite length_app, length_replicate, Hcb, Hbb. apply Hin; nia.
Qed.

End gnu_hash_keep.

Section batch_keeps.
Import Footprint Editor Frames.
Variable address_offsets : Z → list Z.
Variable iter_symbols : list byte → Section → list Symbol.
Variable iter_relocations : list byte → Section → list Reloc.
Variable ELFHashTable_nchains : list byte → Z → Z.
Variable GNUHashTable_params : list byte → Z → Z * Z * Z * list Z.
Variable version_name_fields : list byte → list (Z * Z).
Variable lay : layout.

Local Abbreviation fit :=
  (sections_fit address_offsets iter_symbols iter_relocations GNUHashTable_params
     version_name_fields lay).
Local Abbreviation later :=
  (rewritten_later address_offsets iter_relocations version_name_fields lay).
Local Abbreviation rel_fit := (relocations_fit iter_relocations lay).
Local Abbreviation b_rel_dyn := (before_rel_dyn).
Local Abbreviation b_names := (before_name_fields address_offsets iter_relocations).
Local Abbreviation b_rel_plt :=
  (before_rel_plt address_offsets iter_relocations version_name_fields).
Local Abbreviation b_gnu :=
  (before_gnu_hash address_offsets iter_relocations version_name_fields).

Lemma distinct_sections (l : list (option SectionWrapper)) : ∀ i j x y,
  NoDup (section <$> omap id l) → i ≠ j →
  l !! i = Some (Some x) → l !! j = Some (Some y) → section x ≠ section y.
Proof.
  assert (Hin : ∀ (l : list (option SectionWrapper)) j y,
            l !! j = Some (Some y) → section y ∈ section <$> omap id l).
  { intros l' j y Hj. apply list_elem_of_fmap_2, list_elem_of_omap.
    exists (Some y). split; [by eapply list_elem_of_lookup_2|done]. }
  induction l as [|o l IH]; intros i j x y Hnd Hij Hi Hj; [done|].
  destruct i as [|i], j as [|j]; [done| | |].
  - cbn in Hi. injection Hi as ->. cbn in Hnd, Hj.
    apply NoDup_cons in Hnd as [Hnotin _]. intros Heq. apply Hnotin. rewrite Heq.
    by eapply Hin.
  - cbn in Hj. injection Hj as ->. cbn in Hnd, Hi.
    apply NoDup_cons in Hnd as [Hnotin _]. intros Heq. apply Hnotin. rewrite <- Heq.
    by eapply Hin.
  - cbn in Hi, Hj. apply (IH i j); [|lia|done|done].
    destruct o; cbn in Hnd; [by apply NoDup_cons in Hnd as [_ Hnd]|done].
Qed.

(** One pass over a relocation section, in a state whose file holds the
    bytes of the file of [self0] outside [written]. *)
Lemma relocs_pass_keeps self0 self symbol_list o push is_symtab self'
    (written P : Z → Prop) :
  Relocs._batch_remove_relocs address_offsets iter_relocations self symbol_list o
    push is_symtab = Py.Ok self' →
  rel_fit self0 written o →
  keeps (λ i, ¬ (in_tables lay i ∨ written i)) (_f self0) (_f self) →
  (∀ w, o = Some w → objs self (section w) = objs self0 (section w)) →
  (∀ i, P i → ¬ region_of self0 o i) →
  (∀ i, P i → ¬ targets address_offsets iter_relocations self0 o i) →
  shrunk self self' ∧ keeps P (_f self) (_f self').
Proof.
  intros H Hfit Hbase Hobj Hregion Htargets.
  apply (batch_remove_relocs_keeps _ _ P) in H; [exact H|].
  intros w ->. destruct (Hfit w eq_refl) as (Hcount & Hnd & Hst). cbv zeta in *.
  rewrite (Hobj w eq_refl). rewrite (Hst _ Hbase).
  split; [done|]. split; [done|]. split.
  - intros i Hi Hr. apply (Hregion i Hi). exists w. split; [done|].
    unfold region in *. by rewrite (Hobj w eq_refl) in Hr.
  - intros Hrela r off Hr Hoff i Hi Hw. apply (Htargets i Hi).
    by exists w, r, off.
Qed.

Lemma cascade_keeps self0 W f1 self sec sec' sorted_list removed n self' :
  cascade address_offsets iter_symbols iter_relocations ELFHashTable_nchains
    GNUHashTable_params version_name_fields self sec' sorted_list removed n = Py.Ok self' →
  section sec' = section sec →
  shrunk self0 self →
  (∀ k, k ≠ section sec → objs self k = objs self0 k) →
  fit self0 sec W n →
  keeps (λ i, ¬ (in_tables lay i ∨ W i)) (_f self0) f1 →
  keeps (λ i, ¬ (in_tables lay i ∨ b_rel_dyn self0 sec i)) f1 (_f self) →
  shrunk self0 self' ∧ keeps (λ i, ¬ later self0 sec i) f1 (_f self').
Proof.
  intros H Hsec S0 Hobjs Hfit B0 K0.
  destruct Hfit as (Hdistinct & Hrd & Hfull). cbv zeta in Hfull.
  set (T := in_tables lay) in *.
  assert (base : ∀ (L : Z → Prop) f,
            keeps (λ i, ¬ (T i ∨ L i)) f1 f →
            keeps (λ i, ¬ (T i ∨ (W i ∨ L i))) (_f self0) f).
  { intros L f K. eapply keeps_trans.
    - eapply keeps_weaken; [exact B0|]. cbv beta. tauto.
    - eapply keeps_weaken; [exact K|]. cbv beta. tauto. }
  unfold cascade in H. cbv zeta in H.
  assert (Hname : String.eqb (sec_name (objs self (section sec'))) ".dynsym"
                  = dynsym_batch self0 sec).
  { unfold dynsym_batch. rewrite Hsec. destruct S0 as [_ O].
    by rewrite (proj1 (O (section sec))). }
  rewrite Hname in H.
  apply bind_Ok in H as (self1 & H1 & H).
  destruct (shrunk_fixed _ _ S0) as (_ & Erd & _).
  pose proof (batch_remove_relocs_touches _ _ _ _ _ _ _ _ H1) as [_ O1].
  rewrite Erd in H1, O1.
  apply (relocs_pass_keeps self0 _ _ _ _ _ _ (λ i, W i ∨ b_rel_dyn self0 sec i)
           (λ i, ¬ (T i ∨ b_names self0 sec i))) in H1 as [S1 K1]; [|exact Hrd|..].
  2:{ by apply base. }
  2:{ intros w Hw. apply Hobjs.
      apply (distinct_sections _ 1%nat 0%nat w sec Hdistinct); [done| |done].
      cbn. by rewrite Hw. }
  2:{ cbv beta. unfold before_name_fields. tauto. }
  2:{ cbv beta. unfold before_name_fields. tauto. }
  assert (S01 : shrunk self0 self1) by (by eapply shrunk_trans).
  assert (K01 : keeps (λ i, ¬ (T i ∨ b_names self0 sec i)) f1 (_f self1)).
  { eapply keeps_trans; [|exact K1]. eapply keeps_weaken; [exact K0|].
    cbv beta. unfold before_name_fields. tauto. }
  unfold rewritten_later. fold T.
  destruct (dynsym_batch self0 sec) eqn:Hbatch.
  2:{ injection H as <-. split; [done|]. exact K01. }
  destruct (Hfull eq_refl) as (Hrp & Hds & Heh & Hgv & Hgh). clear Hfull.
  apply bind_Ok in H as (self2 & H2 & H).
  set (sd := set_dynsym (Some sec') self1) in *.
  assert (S0d : shrunk self0 sd).
  { eapply shrunk_trans; [exact S01|apply shrunk_set_dynsym]. }
  destruct (shrunk_fixed _ _ S0d) as (Em & _ & Erp & Egv & Egh & Eeh & Eds).
  pose proof (compact_dynstr_touches _ _ _ _ _ H2) as [_ O2].
  rewrite Eds in O2.
  apply (compact_dynstr_keeps _ _ (λ i, ¬ (T i ∨ b_rel_plt self0 sec i))
           (λ i, ¬ (T i ∨ (W i ∨ b_names self0 sec i)))) in H2 as [S2 K2].
  2:{ intros w s Hw Hs. rewrite Eds in Hw. cbn in Hs. injection Hs as <-.
      destruct (Hds w Hw) as (Hidx & Hentsize & Hstruct & Hst).
      split; [done|].
      assert (Hreg : ∀ i, region sd sec' i → region self0 sec i).
      { intros i Hi. eapply region_shrunk; [exact S0d|].
        unfold region in *. by rewrite <- Hsec. }
      split; [|split].
      - intros idx s Hs i Hi Hw'.
        assert (Hin : region self0 sec i).
        { apply Hreg. unfold region.
          pose proof (Hstruct (_f sd) (objs sd (section sec')) idx s) as Hle.
          rewrite Em in Hw'. destruct S0d as [_ Od].
          destruct (Od (section sec')) as (_ & _ & Ees & _).
          rewrite Hsec in Ees at 2. rewrite Ees, Hentsize in Hle.
          specialize (Hle eq_refl Hs). unfold within in *.
          destruct (e_machine self0); lia. }
        cbv beta in Hi.
        unfold before_rel_plt, before_name_fields, before_rel_dyn in Hi. tauto.
      - intros f Kf field Hfield i Hi Hw'. apply Hi. right.
        unfold before_rel_plt. right. left. split; [by rewrite Hw|].
        exists field. split; [|done]. rewrite <- Hst; [done|].
        eapply keeps_trans; [|exact Kf]. by apply base.
      - intros i Hi Hr. apply Hi. right. unfold before_rel_plt. right. right.
        exists w. split; [done|]. by eapply region_shrunk. }
  assert (S02 : shrunk self0 self2) by (by eapply shrunk_trans).
  assert (K02 : keeps (λ i, ¬ (T i ∨ b_rel_plt self0 sec i)) f1 (_f self2)).
  { eapply keeps_trans; [|exact K2]. eapply keeps_weaken; [exact K01|].
    cbv beta. unfold before_rel_plt. tauto. }
  apply bind_Ok in H as (self3 & H3 & H).
  destruct (shrunk_fixed _ _ S02) as (_ & _ & Erp2 & _).
  rewrite Erp2 in H3.
  apply (relocs_pass_keeps self0 _ _ _ _ _ _ (λ i, W i ∨ b_rel_plt self0 sec i)
           (λ i, ¬ (T i ∨ b_gnu self0 sec i))) in H3 as [S3 K3]; [|exact Hrp|..].
  2:{ by apply base. }
  2:{ intros w Hw.
      assert (Hne_sec : section w ≠ section sec).
      { apply (distinct_sections _ 3%nat 0%nat w sec Hdistinct); [done| |done].
        cbn. by rewrite Hw. }
      assert (Hne_rd : ∀ w', _rel_dyn self0 = Some w' → section w ≠ section w').
      { intros w' Hw'.
        apply (distinct_sections _ 3%nat 1%nat w w' Hdistinct); [done| |].
        - cbn. by rewrite Hw.
        - cbn. by rewrite Hw'. }
      assert (Hne_ds : ∀ w', _dynstr self0 = Some w' → section w ≠ section w').
      { intros w' Hw'.
        apply (distinct_sections _ 3%nat 2%nat w w' Hdistinct); [done| |].
        - cbn. by rewrite Hw.
        - cbn. by rewrite Hw'. }
      rewrite O2 by done. cbn [objs sd set_dynsym]. rewrite O1 by done.
      by apply Hobjs. }
  2:{ cbv beta. unfold before_gnu_hash. tauto. }
  2:{ cbv beta. unfold before_gnu_hash. tauto. }
  assert (S03 : shrunk self0 self3) by (by eapply shrunk_trans).
  assert (K03 : keeps (λ i, ¬ (T i ∨ b_gnu self0 sec i)) f1 (_f self3)).
  { eapply keeps_trans; [|exact K3]. eapply keeps_weaken; [exact K02|].
    cbv beta. unfold before_gnu_hash. tauto. }
  apply bind_Ok in H as (dsym & _ & H).
  apply bind_Ok in H as (self4 & H4 & H).
  destruct (shrunk_fixed _ _ S03) as (_ & _ & _ & _ & _ & Eeh3 & _).
  apply (recreate_elf_hash_keeps _ _ (λ i, ¬ (T i ∨ b_gnu self0 sec i))) in H4 as [S4 K4].
  2:{ intros w Hw. rewrite Eeh3 in Hw. split; [by apply Heh|].
      intros i Hi Hr. apply Hi. right. unfold before_gnu_hash. right. right. right. left.
      exists w. split; [done|]. by eapply region_shrunk. }
  assert (S04 : shrunk self0 self4) by (by eapply shrunk_trans).
  apply bind_Ok in H as (self5 & H5 & H).
  destruct (shrunk_fixed _ _ S04) as (_ & _ & _ & Egv4 & _).
  apply (batch_remove_gnu_versions_keeps (λ i, ¬ (T i ∨ b_gnu self0 sec i)))
    in H5 as [S5 K5].
  2:{ intros w Hw i Hi Hr. rewrite Egv4 in Hw. apply Hi. right.
      unfold before_gnu_hash. right. right. right. right.
      exists w. split; [done|]. destruct S04 as [_ O4].
      destruct (O4 (section w)) as (_ & Eo & _ & _). rewrite Eo in Hr.
      pose proof (Hgv w Hw). unfold region, within in *. lia. }
  assert (S05 : shrunk self0 self5) by (by eapply shrunk_trans).
  assert (K05 : keeps (λ i, ¬ (T i ∨ b_gnu self0 sec i)) f1 (_f self5)).
  { eapply keeps_trans; [exact K03|]. eapply keeps_trans; [exact K4|exact K5]. }
  destruct (shrunk_fixed _ _ S05) as (Em5 & _ & _ & _ & Egh5 & _).
  apply (batch_remove_gnu_hashtable_keeps _
           (λ i, ¬ (T i ∨ (b_gnu self0 sec i ∨ region_of self0 (_gnu_hash self0) i))))
    in H as [S6 K6].
  2:{ intros w Hw. rewrite Egh5 in Hw. destruct S05 as [_ O5].
      destruct (O5 (section w)) as (_ & Eo & _ & _).
      cbv zeta. rewrite Eo, Em5.
      destruct (Hgh w Hw) as [Hsz Hst]. cbv zeta in Hsz, Hst.
      rewrite (Hst (_f self5)) by (by apply base).
      destruct (GNUHashTable_params _ _) as [[[nb so] bs] bk].
      destruct Hsz as [Hbs Hsz]. split; [done|].
      intros i Hi Hr. apply Hi. right. right. exists w. split; [done|].
      unfold region, within in *. lia. }
  split; [by eapply shrunk_trans|].
  eapply keeps_trans; [|exact K6]. eapply keeps_weaken; [exact K05|].
  cbv beta. tauto.
Qed.

End batch_keeps.

Section remove_keeps.
Import Footprint Editor Frames.
Variable address_offsets : Z → list Z.
Variable iter_symbols : list byte → Section → list Symbol.
Variable iter_relocations : list byte → Section → list Reloc.
Variable ELFHashTable_nchains : list byte → Z → Z.
Variable GNUHashTable_params : list byte → Z → Z * Z * Z * list Z.
Variable version_name_fields : list byte → list (Z * Z).
Variable lay : layout.

Local Abbreviation fit :=
  (sections_fit address_offsets iter_symbols iter_relocations GNUHashTable_params
     version_name_fields lay).
Local Abbreviation later :=
  (rewritten_later address_offsets iter_relocations version_name_fields lay).
Local Abbreviation remove :=
  (remove_from_section address_offsets iter_symbols iter_relocations ELFHashTable_nchains
     GNUHashTable_params version_name_fields).

Lemma pops_Forall (Q : list byte → Prop) (key : SymbolWrapper → Z) l :
  ∀ entries entries',
    Py.for_each (λ acc s, Py.pop acc (key s)) l entries = Py.Ok entries' →
    Forall Q entries → Forall Q entries'.
Proof.
  induction l as [|s l IH]; intros entries entries' H Hall.
  { by injection H as <-. }
  cbn [Py.for_each] in H. apply bind_Ok in H as (entries1 & H1 & H).
  apply (IH _ _ H). unfold Py.pop in H1. destruct (_ && _).
  - injection H1 as <-. by apply Forall_delete.
  - destruct (_ && _); [|done]. injection H1 as <-. by apply Forall_delete.
Qed.

(** The table that [remove_from_section] writes back is as long as the
    section. *)
Lemma table_written_length self sec overwrite l entries' bytes f0 f1 :
  index sec ≠ -1 →
  whole_table self sec →
  let hdr := header (objs self (section sec)) in
  File.read (_f self) (sh_offset hdr) (sh_size hdr) = Py.Ok bytes →
  Py.for_each (remove_entry sec overwrite) l (split_entries bytes (sh_entsize hdr), f0)
    = Py.Ok (entries', f1) →
  Z.of_nat (length (concat entries'
                    ++ replicate (Z.to_nat (sh_entsize hdr * Z.of_nat (length l))) x00))
  = sh_size hdr.
Proof.
  intros Hidx (Hent & Hsize & Hmod & Hfile). cbv zeta. intros Hread Hloop.
  set (hdr := header (objs self (section sec))) in *.
  unfold File.read in Hread. destruct (sh_offset hdr <? 0) eqn:Hoff; [done|].
  apply Z.ltb_ge in Hoff.
  destruct (Z.ltb_spec (sh_size hdr) 0); [lia|]. injection Hread as <-.
  set (bytes := take _ _) in *.
  assert (Hlen : Z.of_nat (length bytes) = sh_size hdr).
  { unfold bytes. rewrite length_take, length_drop. lia. }
  apply Z.div_exact in Hmod; [|lia].
  set (k := Z.to_nat (sh_size hdr `div` sh_entsize hdr)).
  assert (Hk : sh_size hdr = Z.of_nat k * sh_entsize hdr).
  { unfold k. rewrite Z2Nat.id; [lia|]. apply Z.div_pos; lia. }
  unfold split_entries in Hloop. destruct (Z.leb_spec (sh_entsize hdr) 0); [lia|].
  destruct (slices_exact k (length bytes) (Z.to_nat (sh_entsize hdr)) bytes)
    as (Hall & _ & Hn); [lia|nia|nia|].
  apply remove_loop_pops in Hloop; [|done].
  pose proof (pops_length _ _ _ _ Hloop) as Hpl.
  apply pops_Forall with (Q := λ e, length e = Z.to_nat (sh_entsize hdr)) in Hloop;
    [|done].
  rewrite length_app, length_replicate, Nat2Z.inj_add.
  rewrite (concat_length_uniform entries' (sh_entsize hdr)).
  2:{ eapply Forall_impl; [exact Hloop|]. intros e He. cbv beta in He. lia. }
  nia.
Qed.

(** A batch on [sec] that starts in a state with the sections of
    [self0] and a file that holds the bytes of the file of [self0]
    outside [written]. *)
Lemma remove_from_section_keeps self0 (written : Z → Prop) self sec collection overwrite
    self' removed :
  remove self (Some sec) collection overwrite = Py.Ok (self', removed) →
  same_sections self0 self →
  (length (_f self0) ≤ length (_f self))%nat →
  keeps (λ i, ¬ (in_tables lay i ∨ written i)) (_f self0) (_f self) →
  (∀ i, function_bytes sec collection overwrite i → written i) →
  (index sec ≠ -1 → whole_table self0 sec) →
  fit self0 sec written (num_entries self0 sec) →
  ∃ f1,
    (∀ i : nat, function_bytes sec collection overwrite (Z.of_nat i) → f1 !! i = Some xcc)
    ∧ keeps (λ i, ¬ function_bytes sec collection overwrite i) (_f self) f1
    ∧ keeps (λ i, ¬ later self0 sec i) f1 (_f self').
Proof.
  intros H [Hfixed Hsame] Hlen0 Hbase Hsub Hwhole Hfit. unfold remove_from_section in H.
  destruct collection as [|s0 collection].
  { injection H as <- <-. exists (_f self). split.
    { intros i (_ & _ & s & Hs & _). by apply elem_of_nil in Hs. }
    split; apply keeps_refl. }
  set (coll := s0 :: collection) in *. cbv zeta in H.
  set (hdr := header (objs self (section sec))) in *.
  destruct (Z.eqb_spec (sh_entsize hdr) 0) as [|Hent0]; [done|].
  apply bind_Ok in H as (entries & Hent & H).
  apply bind_Ok in H as ([entries' f1] & Hloop & H).
  apply bind_Ok in H as (f2 & Hw & H).
  apply bind_Ok in H as (self_b & Hsz & H).
  apply bind_Ok in H as (self_c & Hinfo & H).
  apply bind_Ok in H as (self_d & Hcas & H). injection H as <- <-.
  destruct (remove_loop_file _ _ _ _ _ _ _ Hloop) as (_ & _ & Hall & Hsame1 & Hframe).
  assert (Hperm : Py.sorted (λ a b, sym_index b <=? sym_index a) coll ≡ₚ coll)
    by apply sorted_perm.
  set (fb := function_bytes sec coll overwrite) in *.
  assert (Kloop : keeps (λ i, ¬ fb i) (_f self) f1).
  { destruct overwrite; [|rewrite Hsame1 by (by left); apply keeps_refl].
    destruct (decide (index sec = -1)) as [Hi|Hi];
      [rewrite Hsame1 by (by right); apply keeps_refl|].
    intros i b Hnot Hb. rewrite Hframe; [done|by eapply lookup_lt_Some|].
    intros s Hs. rewrite Hperm in Hs.
    destruct (decide (sym_value s = 0)) as [|Hv]; [by left|]. right.
    intros Hin. apply Hnot. split; [done|]. split; [done|]. by exists s. }
  exists f1. split; [|split; [exact Kloop|]].
  { intros i (Hov & Hi & s & Hs & Hv & Hlo & Hhi).
    specialize (Hall Hov Hi s). rewrite Hperm in Hall.
    specialize (Hall Hs Hv (Z.of_nat i - sym_value s)).
    replace (Z.to_nat (sym_value s + (Z.of_nat i - sym_value s))) with i in Hall by lia.
    apply Hall. lia. }
  assert (Hwhole' : index sec ≠ -1 → whole_table self sec).
  { intros Hi. destruct (Hwhole Hi) as (? & ? & ? & ?).
    unfold whole_table. rewrite Hsame. repeat split; [done..|lia]. }
  assert (K0 : keeps (λ i, ¬ (in_tables lay i ∨ before_rel_dyn self0 sec i)) f1 f2).
  { destruct (Z.eqb_spec (index sec) (-1)) as [Hi|Hi]; cbn [negb] in Hw, Hent.
    { injection Hw as <-. apply keeps_refl. }
    apply bind_Ok in Hent as (bytes & Hread & Hent). injection Hent as <-.
    eapply write_keeps; [exact Hw|]. intros i HPi Hin. apply HPi. right.
    unfold before_rel_dyn, region. rewrite <- Hsame. fold hdr.
    pose proof (table_written_length self sec overwrite _ entries' bytes _ f1 Hi
                  (Hwhole' Hi) Hread Hloop) as Hlen.
    fold hdr in Hlen. unfold within in Hin |- *. lia. }
  assert (Sb : shrunk (set_f f2 self) self_b ∧ _f self_b = f2
               ∧ ∀ k, k ≠ section sec → objs self_b k = objs self k).
  { unfold Elf._change_section_size, Elf._set_section_size in Hsz.
    pose proof (set_section_attribute_touches _ _ _ _ _ _ Hsz) as [_ Ot].
    split; [|split].
    - destruct (Z.eqb_spec (index sec) (-1)) as [Hi|Hi].
      + unfold Elf._set_section_attribute in Hsz. rewrite Hi in Hsz. cbn in Hsz.
        injection Hsz as <-. apply shrunk_refl.
      + apply set_section_attribute_shrunk in Hsz; [apply Hsz|].
        intros _. destruct (Hwhole' Hi) as (Hpos & _). fold hdr in Hpos. nia.
    - by apply set_section_attribute_f in Hsz.
    - intros k Hk. rewrite Ot; [done|]. by intros w [= <-]. }
  destruct Sb as (Sb & Fb & Ob).
  assert (Sc : shrunk self_b self_c ∧ _f self_c = _f self_b
               ∧ ∀ k, k ≠ section sec → objs self_c k = objs self_b k).
  { unfold _fix_sh_info in Hinfo. apply bind_Ok in Hinfo as (first & _ & Hinfo).
    unfold Elf._set_section_info in Hinfo.
    pose proof (set_section_attribute_touches _ _ _ _ _ _ Hinfo) as [_ Ot].
    split; [|split].
    - apply set_section_attribute_shrunk in Hinfo; [apply Hinfo|done].
    - by apply set_section_attribute_f in Hinfo.
    - intros k Hk. rewrite Ot; [done|]. by intros w [= <-]. }
  destruct Sc as (Sc & Fc & Oc).
  assert (S0c : shrunk self0 self_c).
  { eapply shrunk_trans; [by apply shrunk_objs|].
    eapply shrunk_trans; [apply (shrunk_set_f f2)|]. by eapply shrunk_trans. }
  apply (cascade_keeps _ _ _ _ _ _ lay self0 written f1 _ sec) in Hcas as [_ Kd].
  - exact Kd.
  - done.
  - exact S0c.
  - intros k Hk. rewrite Oc, Ob by done. apply Hsame.
  - unfold num_entries in Hfit. rewrite <- Hsame in Hfit. exact Hfit.
  - eapply keeps_trans; [exact Hbase|]. eapply keeps_weaken; [exact Kloop|].
    cbv beta. intros i Hi Hfb. apply Hi. right. by apply Hsub.
  - by rewrite Fc, Fb.
Qed.

End remove_keeps.

Section overwrite_at_address.
Import Footprint Editor.
Variable address_offsets : Z → list Z.
Variable iter_symbols : list byte → Section → list Symbol.
Variable iter_relocations : list byte → Section → list Reloc.
Variable ELFHashTable_nchains : list byte → Z → Z.
Variable GNUHashTable_params : list byte → Z → Z * Z * Z * list Z.
Variable version_name_fields : list byte → list (Z * Z).

Local Abbreviation fit :=
  (sections_fit address_offsets iter_symbols iter_relocations GNUHashTable_params
     version_name_fields).
Local Abbreviation later :=
  (rewritten_later address_offsets iter_relocations version_name_fields).
Local Abbreviation remove :=
  (remove_from_section address_offsets iter_symbols iter_relocations ELFHashTable_nchains
     GNUHashTable_params version_name_fields).
Local Abbreviation overwrite_locals :=
  (overwrite_local_functions address_offsets iter_symbols iter_relocations
     ELFHashTable_nchains GNUHashTable_params version_name_fields).


End overwrite_at_address.

Lemma sized_iter_symbols_fit f obj (idx : nat) s :
  Overwriter.sized_iter_symbols f obj !! idx = Some s →
  24 * (Z.of_nat idx + 1) ≤ sh_size (header obj).
Proof.
  unfold Overwriter.sized_iter_symbols. intros H.
  apply lookup_take_Some in H as [_ Hlt].
  pose proof (Z.mul_div_le (sh_size (header obj)) 24). lia.
Qed.


